(* ===== verification/_CoqProject ===== *)
-Q . S2P
Prelude.v
Memory.v
Purpose.v
Metadata.v
HeaderSpec.v
Allocator.v
FreeList.v
HeapInv.v
AllocSteps.v
AllocSpec.v
DeallocSpec.v
AllocOps.v
AllocRefine.v
AllocClient.v
Examples.v
AllocThms.v
Requests.v
Validation.v
RingBuffer.v
TrapTypes.v
BTree.v
Arrays.v
Handover.v
HandoverThms.v
HandoverUtils.v
GlobalAlloc.v
AllocApi.v
GlobalThms.v
HandoverSnapshot.v
TypeSafety.v
ByteHeap.v
LentBlock.v
Collections.v
ErrorManager.v
HandlerManager.v
HandlerSafety.v
TrapSystem.v
TrapEntry.v
Container.v
TrapRuns.v
Sbi.v
Console.v
Display.v
Boot.v
Reports.v
Messages.v
System.v
Startup.v
TrapHeap.v
SelfTest.v
AllocTests.v
TestLogic.v
AllocTestRuns.v
Harts.v
HartRuns.v
HartProgs.v
