(* ===== verification/Prelude.v ===== *)
(** * A verification library for the nt_rustos kernel

    nt_rustos is a small RISC-V kernel.  This library models its two core
    subsystems, early memory management ([src/init/alloc]) and trap handling
    ([src/trap]), with the firmware calls and the boot code around them, as
    executable functions and proves what they guarantee.

    ** The program and the files that model it

    Memory management.  One [EarlyAllocator] carves a fixed heap into blocks,
    each behind a 48-byte [BlockHeader]; the free blocks are chained through
    their own bytes into a doubly linked list sorted by address.  A spin mutex
    around it is the global allocator; [init/alloc/mod.rs] adds two flags and a
    module interface; the handover snapshot describes the allocated blocks to a
    later memory manager.
    - [Memory.v]: byte memory ([gmap Z Z]), little-endian loads and stores, the
      time-stamp counter of [metadata.rs].
    - [Purpose.v]: [AllocPurpose], [MemoryPermissions] ([handover.rs]).
    - [Metadata.v]: [metadata.rs]: the header as a record and as 48 bytes in
      memory, its checksum, [AllocStats] (its [f32] percentages in IEEE
      binary32), health flags, the block iterator and the heap validator.
    - [Allocator.v]: every method of [EarlyAllocator] ([allocator.rs]).
    - [Arrays.v]: fixed-size arrays, counted loops, the bubble sort of
      [handover.rs].  [Handover.v]: the rest of [handover.rs].
    - [GlobalAlloc.v]: [ThreadSafeEarlyAllocator], [global.rs], and the snapshot
      of [EarlyAllocator::prepare_handover].  [AllocApi.v]: [mod.rs].
    - [Collections.v]: the trait [GlobalAlloc] as a class with its laws, and the
      [Vec] and [String] of the [alloc] crate over it.

    Traps.  [scause] is decoded to a [TrapType]; the handler manager keeps the
    handlers by type and priority; what no handler takes becomes an error for
    the error manager, which logs it in a ring buffer.
    - [RingBuffer.v]: [collections/ring_buffer.rs], and the class [BoundedLog]
      through which the error manager uses it.
    - [TrapTypes.v]: [ds/types.rs], [ds/context.rs], [ds/error.rs].
    - [BTree.v]: [BTreeMap] as a key-sorted association list.
    - [ErrorManager.v], [HandlerManager.v]: the two managers.  A handler entry
      is a cell of a store that several slots can share, as an [Arc] is.
    - [TrapSystem.v]: container, global instance and lock, initialisation, CSR
      accesses, public API ([di/mod.rs], [di/container.rs], [low_level.rs],
      [api.rs]).  [TrapEntry.v]: the assembly of [asm/trap_entry.asm] that saves
      and restores the registers around a trap, as a program of a small machine.
    - [Container.v]: the traits of [di/traits.rs] as classes, the container over
      whatever is injected, [context_manager.rs], and the kernel's instances.
    - [Display.v]: what errors, causes and API errors print.
    - [TrapHeap.v]: [handle_trap] and [dispatch_trap] again, with the [String]s that
      [format!] takes from the heap for the messages.

    Firmware and boot.
    - [Sbi.v]: [util/sbi/api.rs] over the class [Firmware] (the [ecall]
      instruction and the legacy calls of [sbi_rt]), and the unformatted output
      of [console.rs].
    - [Console.v]: the formatted output of [console.rs], with the part of
      [core::fmt] the kernel uses.  [Reports.v]: the reports of [metadata.rs],
      [handover.rs], [mod.rs] and [lib.rs] with their text.
    - [Messages.v]: the functions of [init/alloc/mod.rs] again, with the messages
      they write to the console.
    - [Boot.v]: the state of the allocator, the trap system and the firmware
      together; BSS, banner and memory information ([lib.rs], [main.rs]).
      [System.v]: the check after initialisation, [shutdown], [reboot] and the
      panic handler.
    - [Startup.v]: [_start], [rust_main] and [init] with their output, the
      allocation error handler and [test_dynamic_structures].
    - [SelfTest.v]: [main_loop] and the tests it runs ([test/mod.rs],
      [console_test.rs], [sbi_test.rs] and the frame of [alloc_test.rs]).
      [AllocTests.v]: the thirteen tests of [alloc_test.rs].

    Several harts.
    - [Harts.v]: the functions of [init/alloc/mod.rs] as processes that interleave
      at every access of a flag and inside the sections run under the lock.
      [HartRuns.v], [HartProgs.v]: calls, and programs of calls, on any number of
      harts.

    ** How code becomes definitions

    A computation is [M S A], a function from a state to an [outcome]: a value
    and a state, a panic, a hang, or a read of an enum from a byte that is not
    one of its discriminants.  Each stateful method is one definition over the
    record of its fields; a component runs inside a larger state with [zoom].
    [usize] and the like are [Z] with every operation at its width: [arith]
    panics or wraps around by the build profile ([Profile]), and the theorems
    hold for both profiles unless they say otherwise.  A second lock of a spin
    mutex by its holder is a hang.

    Fuel.  Loops over the free list and over the headers take
    [walk_fuel = 2 + heap size / 48] rounds, more than a heap has headers
    ([HeapInv.walk_fuel_enough]), and every theorem about them shows that they
    return.  Counted loops ([for i in a..b]) need no fuel.  The two loops of
    [putnum] take 66 rounds: a 64-bit number has at most 22 digits and the
    source's array 64 entries.

    Counters.  The event counters of the statistics are 64-bit and each
    operation adds at most four to one; theorems about operations assume they
    are at most some [N] with room above it ([counters_below]), and the
    refinement theorem derives this from the number of operations.  Where a
    client works on the heap for long ([ByteHeap], [Collections], [Startup]) the
    bound is a number of credits: a free block of that many bytes and room for as
    many events; an operation states what it takes.

    ** What is proved

    - [HeaderSpec], [FreeList], [HeapInv]: header bytes, list segments, and the
      invariant [heap_inv]: the headers tile the heap and validate, the free
      list holds exactly the free blocks in address order, no two neighbours are
      free, the statistics are exact.
    - [AllocSteps], [AllocSpec], [DeallocSpec], [AllocOps]: every method keeps
      the invariant.  [AllocRefine]: an abstract allocator over a list of sized
      blocks and the simulation of each operation.  [AllocClient]: the same as a
      contract about who owns which byte.  [AllocThms]: the theorems, on the
      heaps of [Examples.v] as instances; among them two runs in which a pointer
      behind alignment padding cannot be freed.
    - [Requests]: requests for whole words keep every header aligned, others do
      not; requests near [2^64] panic or corrupt the heap.
    - [Validation]: which corruptions of a header are found, that the integrity
      walk ends, and that the two validators of the code agree.
    - [TypeSafety]: a typing judgement for computations; every call of the
      allocator keeps every machine integer within its width.  This checks the
      wrap-around of the model, and the reports use it: Rust's types give the same.
    - [ByteHeap]: to a client the global allocator is a map from pointers to byte
      arrays, as long as all requests are for whole words.  Blocks of other sizes
      are outside this view (after them pointers are padded, and padded pointers
      cannot be freed), and so outside the theorems built on it: those on the tests,
      on the boot and on programs of several harts start from a heap of whole-word
      blocks.  [Collections]: vectors and strings hold what was put into them on
      any allocator that satisfies the laws, as the kernel's does ([Startup]).
    - [GlobalThms], [HandoverSnapshot]: [realloc] keeps contents,
      [alloc_zeroed] zeroes, initialisation, freezing, exactness of the
      snapshot, and that boxing the snapshot deadlocks on the allocator's lock.
    - [HandoverThms], [HandoverUtils]: validation, size queries, priority order,
      memory map, searches and fragmentation analysis are exact.
    - [RingBuffer], [ErrorManager], [HandlerManager], [TrapSystem]: the ring
      buffer is a bounded queue; errors and traps are tried in priority order;
      registration, removal, ownership and context cleanup; one report per
      unhandled trap; initialisation; the defects of [enable_interrupts],
      [register_error_handler] and of [unregister] on a shared entry.
    - [HandlerSafety], [Container], [TrapRuns]: an invariant of the handler
      manager that survives every call; dropped contexts leave no handles; no
      sequence of API calls and traps makes the trap system panic or deadlock.
    - [TrapEntry]: a trap runs the handlers on a context that holds the registers
      of the interrupted program (the stack pointer lowered) and resumes it with
      what they left there; one that no handler changes is not seen by the program;
      a trap that comes while the trap system is locked hangs.
    - [TrapHeap]: as long as the allocator answers, a trap does the same when the
      storage of its messages is counted; it hangs when it interrupted the
      allocator, and does not return when the heap is full.
    - [Console], [Display], [Reports], [Messages]: printed numbers can be read
      back, printed errors identify the error, the health report is exact, and
      the interface does with its messages what it does without.
    - [Sbi], [Boot], [System]: number output, clearing of the BSS segment, the
      check after initialisation; that [reboot] reaches the firmware and
      [shutdown] does not; when the panic handler gets to its report.
      [Startup]: the kernel's test of its dynamic structures passes, and from
      power-on the kernel gets to its main loop.  [SelfTest]: the runner counts
      every result once, and the main loop never gets past its tests.
      [AllocTestRuns], with the rules of [TestLogic] and with [LentBlock] for
      requests of odd sizes: nine of the allocator's tests pass on every heap of
      whole-word blocks with room, two deadlock, two pass and leak.
    - [Harts], [HartRuns], [HartProgs]: run alone a process is the function of
      [AllocApi]; on several harts each call acts as one step, programs that free
      only what they own keep their memory to themselves and come to their end,
      one of several initialisations succeeds, and a hart that prepares the
      handover blocks all the others.

    ** Parameters and limits

    The hasher of [HandlerHandle::generate_id] is not readable in the source and
    is a parameter, as are the address of the trap entry and the layout and
    bytes of a boxed [HandoverInfo], which the compiler chooses.  Handlers are
    functions of the trap context and of a kernel state [W]; a handler that
    calls back into the trap API is not modelled.  The firmware is a parameter.
    The collections of the trap system are values, not heap blocks: their storage
    is not charged to the allocator, and the theorems on the trap system hold as
    long as it suffices.  The one place where this can go wrong inside a trap, the
    message of an unhandled trap, is modelled in [TrapHeap.v].  The compiled
    [handle_trap] is assumed to write above the stack pointer only bytes that the
    trap system owns, besides the context; which bytes these are is a parameter.

    Alignment.  Memory accesses work at every address, aligned or not.  In Rust a
    field access through a misaligned [*mut BlockHeader] or [FreeBlock] is undefined,
    and a panic with debug assertions.  What is proved about the allocator after a
    request for a size that is not a multiple of eight therefore describes hardware
    that allows such accesses and a compiler that does not exploit them;
    [Requests.v] shows that without such requests there are none.

    The walk of [integrity_check] may, in a build without overflow checks and on a
    corrupted heap only, go back; one that takes longer than its fuel counts as
    endless.  On several harts the accesses of the atomic
    flags are sequentially consistent, and what a hart writes into its own blocks
    between its calls is left out.  The messages that the allocator itself prints
    while it is locked ([integrity_check], the warning at [MAX_TRACKED_BLOCKS], a
    failed deallocation of the global allocator) are left out: they have no effect
    on control.

    Not modelled: the value [_start] puts into the stack pointer and the bytes of a
    boxed [Vec], which are arguments; the trait [HandoverProtocol], which nothing
    implements or calls. *)

From Stdlib Require Import ZArith Lia.
From stdpp Require Import base option numbers gmap list.

#[global] Open Scope Z_scope.

(** ** Outcomes of a Rust computation *)

(** [Ret] is a normal return.  [Panic] is an unwinding or aborting panic: a
    failed [assert!] or [expect], an index out of bounds, an arithmetic
    overflow in a build with overflow checks.  [Hang] is a computation that
    does not come back: it spins on a lock that its own caller holds, or a
    loop ran past the number of iterations its fuel allows.  [Undef] is a read
    of an enum from a byte that is not one of its discriminants. *)
Inductive outcome (A : Type) : Type :=
| Ret (a : A)
| Panic
| Hang
| Undef.
Arguments Ret {A} a.
Arguments Panic {A}.
Arguments Hang {A}.
Arguments Undef {A}.

(** Rust's [Result]. *)
Inductive result (E A : Type) : Type :=
| Ok (a : A)
| Err (e : E).
Arguments Ok {E A} a.
Arguments Err {E A} e.

Definition is_ok {E A} (r : result E A) : bool :=
  match r with Ok _ => true | Err _ => false end.

(** A computation over a state [S]: the state in, an outcome with the state
    out.  A panic or a hang has no state: nothing runs after it. *)
Definition M (S A : Type) : Type := S → outcome (A * S).

#[global] Instance M_ret {S} : MRet (M S) := λ A a s, Ret (a, s).
#[global] Instance M_bind {S} : MBind (M S) := λ A B k m s,
  match m s with
  | Ret (a, s') => k a s'
  | Panic => Panic
  | Hang => Hang
  | Undef => Undef
  end.

Definition panic {S A} : M S A := λ _, Panic.
Definition hang {S A} : M S A := λ _, Hang.
Definition undef {S A} : M S A := λ _, Undef.
Definition gets {S A} (f : S → A) : M S A := λ s, Ret (f s, s).
Definition modify {S} (f : S → S) : M S unit := λ s, Ret (tt, f s).

(** Run a computation over a part of the state. *)
Definition zoom {S T A} (get : S → T) (put : T → S → S) (m : M T A) : M S A :=
  λ s, match m (get s) with
       | Ret (a, t) => Ret (a, put t s)
       | Panic => Panic
       | Hang => Hang
       | Undef => Undef
       end.

(** ** Machine integers *)

(** The two build profiles of [Cargo.toml]: [Dev] checks overflow and panics,
    [Release] wraps around. *)
Inductive profile : Type := Dev | Release.
Class Profile : Type := build_profile : profile.

Definition usize_modulus : Z := 2 ^ 64.
Definition usize_MAX : Z := usize_modulus - 1.
Definition isize_MAX : Z := 2 ^ 63 - 1.

Definition wrap8 (z : Z) : Z := z mod 2 ^ 8.
Definition wrap16 (z : Z) : Z := z mod 2 ^ 16.
Definition wrap32 (z : Z) : Z := z mod 2 ^ 32.
Definition wrap64 (z : Z) : Z := z mod 2 ^ 64.

Definition in_u8 (z : Z) : Prop := 0 ≤ z < 2 ^ 8.
Definition in_u16 (z : Z) : Prop := 0 ≤ z < 2 ^ 16.
Definition in_u32 (z : Z) : Prop := 0 ≤ z < 2 ^ 32.
Definition in_u64 (z : Z) : Prop := 0 ≤ z < 2 ^ 64.

(** The result [z] of an arithmetic operation of a [w]-bit unsigned type,
    where [z] is the exact integer: itself when it is representable, else a
    panic or the wrapped value, by the profile. *)
Definition arith {P : Profile} {S} (w : Z) (z : Z) : M S Z :=
  if (0 <=? z) && (z <? 2 ^ w) then mret z
  else match build_profile with
       | Dev => panic
       | Release => mret (z mod 2 ^ w)
       end.

Definition usize_add {P : Profile} {S} (a b : Z) : M S Z := arith 64 (a + b).
Definition usize_sub {P : Profile} {S} (a b : Z) : M S Z := arith 64 (a - b).
Definition u64_add {P : Profile} {S} (a b : Z) : M S Z := arith 64 (a + b).

Definition usize_not (a : Z) : Z := usize_MAX - a.
Definition saturating_sub (a b : Z) : Z := Z.max 0 (a - b).

(** [usize::is_power_of_two]. *)
Definition is_power_of_two (a : Z) : bool := (0 <? a) && (a =? 2 ^ Z.log2 a).

(** ** Automation *)

Create HintDb rustos.

Lemma bind_Ret {S A B} (m : M S A) (k : A → M S B) s a s' r :
  m s = Ret (a, s') → k a s' = r → (m ≫= k) s = r.
Proof. unfold mbind, M_bind. by intros -> ->. Qed.

Lemma bind_inv {S A B} (m : M S A) (k : A → M S B) s b s'' :
  (m ≫= k) s = Ret (b, s'') → ∃ a s', m s = Ret (a, s') ∧ k a s' = Ret (b, s'').
Proof.
  unfold mbind, M_bind. destruct (m s) as [[a s']| | |]; try done. eauto.
Qed.

Lemma arith_ok {P : Profile} {S} w z (s : S) :
  0 ≤ z < 2 ^ w → arith w z s = Ret (z, s).
Proof.
  intros [H1 H2]. unfold arith.
  apply Z.leb_le in H1 as ->. by apply Z.ltb_lt in H2 as ->.
Qed.

(** With overflow checks on, arithmetic that returns is exact. *)
Lemma arith_Dev {S} w z (s s' : S) r : @arith Dev S w z s = Ret (r, s') → r = z ∧ s' = s.
Proof. unfold arith. destruct (_ && _); [by intros [= <- <-]|done]. Qed.

Lemma usize_add_ok {P : Profile} {S} a b (s : S) :
  0 ≤ a + b < 2 ^ 64 → usize_add a b s = Ret (a + b, s).
Proof. apply arith_ok. Qed.

Lemma usize_sub_ok {P : Profile} {S} a b (s : S) :
  0 ≤ a - b < 2 ^ 64 → usize_sub a b s = Ret (a - b, s).
Proof. apply arith_ok. Qed.

Lemma u64_add_ok {P : Profile} {S} a b (s : S) :
  0 ≤ a + b < 2 ^ 64 → u64_add a b s = Ret (a + b, s).
Proof. apply arith_ok. Qed.

Lemma zoom_Ret {S T A} (get : S → T) put (m : M T A) s a t :
  m (get s) = Ret (a, t) → zoom get put m s = Ret (a, put t s).
Proof. unfold zoom. by intros ->. Qed.

Lemma bind_ext {S A B} (m : M S A) (f f' : A → M S B) s :
  (∀ a s', f a s' = f' a s') → (m ≫= f) s = (m ≫= f') s.
Proof. intros H. unfold mbind, M_bind. destruct (m s) as [[a s']| | |]; [apply H|done..]. Qed.

Lemma bind_cong {S A B} (m m' : M S A) (f f' : A → M S B) s :
  m s = m' s → (∀ a s', f a s' = f' a s') → (m ≫= f) s = (m' ≫= f') s.
Proof. intros Hm H. unfold mbind, M_bind. rewrite Hm. destruct (m' s) as [[a s']| | |]; [apply H|done..]. Qed.

Lemma bind_assoc {S A B C} (m : M S A) (f : A → M S B) (h : B → M S C) s :
  ((m ≫= f) ≫= h) s = (m ≫= (λ a, f a ≫= h)) s.
Proof. unfold mbind, M_bind. by destruct (m s) as [[a s']| | |]. Qed.

Lemma bind_ret_r {S A} (m : M S A) s : (m ≫= mret) s = m s.
Proof. unfold mbind, M_bind. by destruct (m s) as [[a s']| | |]. Qed.

(** [mstep]: run the head of a bind whose result is known. *)
Ltac mstep_with tac :=
  eapply bind_Ret; [ tac | cbv beta ].
Ltac mstep := mstep_with ltac:(first [ reflexivity | eassumption ]).
Ltac mstep_by H := mstep_with ltac:(eapply H).
Ltac arith_ok_tac :=
  lazymatch goal with
  | |- usize_add _ _ _ = _ => apply usize_add_ok
  | |- usize_sub _ _ _ = _ => apply usize_sub_ok
  | |- u64_add _ _ _ = _ => apply u64_add_ok
  end.
Ltac mstep_arith := mstep_with ltac:(arith_ok_tac; lia).

(** Turn boolean comparisons of the source's guards into propositions. *)
Ltac b2p :=
  repeat match goal with
  | H : (_ =? _) = true |- _ => apply Z.eqb_eq in H
  | H : (_ =? _) = false |- _ => apply Z.eqb_neq in H
  | H : (_ <? _) = true |- _ => apply Z.ltb_lt in H
  | H : (_ <? _) = false |- _ => apply Z.ltb_ge in H
  | H : (_ <=? _) = true |- _ => apply Z.leb_le in H
  | H : (_ <=? _) = false |- _ => apply Z.leb_gt in H
  | H : _ && _ = true |- _ => apply andb_true_iff in H as [? ?]
  | H : _ || _ = false |- _ => apply orb_false_iff in H as [? ?]
  | H : negb _ = true |- _ => apply negb_true_iff in H
  | H : negb _ = false |- _ => apply negb_false_iff in H
  end.

(** 64-bit arithmetic either returns the value modulo [2^64], or the profile
    checks overflow and it panics. *)
Lemma arith_cases {P : Profile} z :
  (∀ S (s : S), arith 64 z s = Ret (z mod 2 ^ 64, s)) ∧ (build_profile = Dev → 0 ≤ z < 2 ^ 64)
  ∨ build_profile = Dev ∧ ¬ 0 ≤ z < 2 ^ 64 ∧ ∀ S (s : S), arith 64 z s = Panic.
Proof.
  unfold arith. destruct ((0 <=? z) && (z <? 2 ^ 64)) eqn:E.
  - left. b2p. split; [|lia]. intros S s. by rewrite Z.mod_small by lia.
  - apply andb_false_iff in E. destruct build_profile; [right|left; by split].
    split_and!; [done| |done]. destruct E; b2p; lia.
Qed.

(** Membership in a concrete list: splits [++] and [::] in the goal. *)
Ltac elem :=
  first [ assumption | rewrite ?elem_of_app, ?elem_of_cons, ?elem_of_nil; tauto ].

(** ** Shared facts on integers *)

Lemma is_power_of_two_spec a :
  is_power_of_two a = true ↔ ∃ k, 0 ≤ k ∧ a = 2 ^ k.
Proof.
  unfold is_power_of_two. split.
  - intros H. b2p. exists (Z.log2 a). split; [apply Z.log2_nonneg | done].
  - intros (k & Hk & ->). rewrite Z.log2_pow2 by done.
    rewrite Z.eqb_refl, andb_true_r. apply Z.ltb_lt. by apply Z.pow_pos_nonneg.
Qed.

(** Masking with [!(2^k - 1)] rounds down to a multiple of [2^k]. *)
Lemma land_usize_not_pow2 x k :
  0 ≤ x < 2 ^ 64 → 0 ≤ k < 64 →
  Z.land x (usize_not (2 ^ k - 1)) = x - x mod 2 ^ k.
Proof.
  intros Hx Hk. unfold usize_not, usize_MAX, usize_modulus.
  replace (2 ^ 64 - 1 - (2 ^ k - 1)) with (Z.shiftl (Z.ones (64 - k)) k).
  2: { rewrite Z.shiftl_mul_pow2, Z.ones_equiv by lia.
       replace 64 with ((64 - k) + k) at 2 by lia. rewrite Z.pow_add_r by lia. lia. }
  replace (x - x mod 2 ^ k) with (Z.shiftl (Z.shiftr x k) k).
  2: { rewrite Z.shiftl_mul_pow2, Z.shiftr_div_pow2 by lia.
       pose proof (Z.div_mod x (2 ^ k)). lia. }
  apply Z.bits_inj'. intros n Hn. rewrite Z.land_spec, !Z.shiftl_spec by lia.
  destruct (Z.lt_ge_cases n k).
  { rewrite !(Z.testbit_neg_r _ (n - k)) by lia. apply andb_false_r. }
  rewrite Z.shiftr_spec by lia. replace (n - k + k) with n by lia.
  destruct (Z.lt_ge_cases n 64).
  - rewrite Z.ones_spec_low by lia. apply andb_true_r.
  - rewrite Z.ones_spec_high by lia. rewrite (Z.bits_above_log2 x) by
      (first [ lia | destruct (Z.eq_dec x 0) as [->|];
        [simpl; lia | assert (Z.log2 x < 64) by (apply Z.log2_lt_pow2; lia); lia]]).
    done.
Qed.
