(* ===== verification/Memory.v ===== *)
(** * Physical memory and the timestamp counter

    The kernel reads and writes its heap through raw pointers.  [Machine] is
    what such code acts on: a byte-addressed memory, and the atomic counter
    behind the [get_timestamp] of [src/init/alloc/metadata.rs].  Multi-byte
    values are little endian, as on the RISC-V target. *)

From Stdlib Require Import ZArith Lia.
From stdpp Require Import base option numbers gmap list.
From S2P Require Import Prelude.

(** A memory maps addresses to byte values.  A cell that was never written
    reads as zero; a cell is read modulo 256. *)
Abbreviation memory := (gmap Z Z).

Definition byte_at (m : memory) (a : Z) : Z := default 0 (m !! a) mod 256.

(** [load n m a]: the [n]-byte little-endian value at [a]. *)
Fixpoint load (n : nat) (m : memory) (a : Z) : Z :=
  match n with
  | O => 0
  | S n' => byte_at m a + 256 * load n' m (a + 1)
  end.

(** [store n m a v]: write the low [n] bytes of [v] at [a]. *)
Fixpoint store (n : nat) (m : memory) (a v : Z) : memory :=
  match n with
  | O => m
  | S n' => store n' (<[a := v mod 256]> m) (a + 1) (v / 256)
  end.

Record Machine : Type := mkMachine {
  mem : memory;
  clock : Z;                 (* the static COUNTER of get_timestamp *)
}.

Definition with_mem (f : memory → memory) (s : Machine) : Machine :=
  mkMachine (f (mem s)) (clock s).

Definition rd (n : nat) (a : Z) : M Machine Z := gets (λ s, load n (mem s) a).
Definition wr (n : nat) (a v : Z) : M Machine unit :=
  modify (with_mem (λ m, store n m a v)).

(** [COUNTER.fetch_add(1, Relaxed)]: returns the old value, wraps. *)
Definition get_timestamp : M Machine Z := λ s,
  Ret (clock s, mkMachine (mem s) (wrap64 (clock s + 1))).

(** ** Loads and stores *)

Lemma byte_at_range m a : 0 ≤ byte_at m a < 256.
Proof. apply Z.mod_pos_bound. lia. Qed.

Lemma load_range n m a : 0 ≤ load n m a < 256 ^ Z.of_nat n.
Proof.
  revert a; induction n as [|n IH]; intros a; [simpl; lia|].
  rewrite Nat2Z.inj_succ, Z.pow_succ_r by lia. cbn [load].
  specialize (IH (a + 1)). pose proof (byte_at_range m a). lia.
Qed.

(** Two memories agree on the half-open interval [lo, hi). *)
Definition agree (m m' : memory) (lo hi : Z) : Prop :=
  ∀ x, lo ≤ x < hi → m !! x = m' !! x.

Lemma load_agree n m m' a :
  agree m m' a (a + Z.of_nat n) → load n m a = load n m' a.
Proof.
  revert a; induction n as [|n IH]; intros a H; [done|]. cbn [load].
  rewrite (IH (a + 1)) by (intros x Hx; apply H; lia).
  unfold byte_at. rewrite (H a) by lia. done.
Qed.

Lemma store_lookup_out n m a v x :
  x < a ∨ a + Z.of_nat n ≤ x → store n m a v !! x = m !! x.
Proof.
  revert m a v; induction n as [|n IH]; intros m a v H; [done|]. cbn [store].
  rewrite IH by lia. apply lookup_insert_ne. lia.
Qed.

Lemma load_store_eq n m a v :
  load n (store n m a v) a = v mod 256 ^ Z.of_nat n.
Proof.
  revert m a v; induction n as [|n IH]; intros m a v.
  { simpl. by rewrite Z.mod_1_r. }
  cbn [load store]. rewrite IH. unfold byte_at.
  rewrite store_lookup_out by lia. rewrite lookup_insert_eq. simpl default.
  rewrite Z.mod_mod by lia.
  rewrite Nat2Z.inj_succ, Z.pow_succ_r by lia.
  rewrite Z.rem_mul_r; [done|lia|]. apply Z.pow_pos_nonneg; lia.
Qed.

Lemma load_store_small n m a v :
  0 ≤ v < 256 ^ Z.of_nat n → load n (store n m a v) a = v.
Proof. intros H. rewrite load_store_eq. by apply Z.mod_small. Qed.

Lemma load_store_ne n k m a b v :
  b + Z.of_nat k ≤ a ∨ a + Z.of_nat n ≤ b →
  load k (store n m a v) b = load k m b.
Proof.
  intros H. apply load_agree. intros x Hx. apply store_lookup_out. lia.
Qed.

Lemma agree_sub m m' lo hi lo' hi' :
  agree m m' lo hi → lo ≤ lo' → hi' ≤ hi → agree m m' lo' hi'.
Proof. intros H ? ? x ?. apply H. lia. Qed.

Lemma agree_refl m lo hi : agree m m lo hi.
Proof. by intros x _. Qed.

Lemma agree_trans m1 m2 m3 lo hi :
  agree m1 m2 lo hi → agree m2 m3 lo hi → agree m1 m3 lo hi.
Proof. intros H1 H2 x Hx. by rewrite H1, H2. Qed.

Lemma agree_store n m a v lo hi :
  hi ≤ a ∨ a + Z.of_nat n ≤ lo → agree m (store n m a v) lo hi.
Proof. intros H x Hx. symmetry. apply store_lookup_out. lia. Qed.

Lemma load_app n k m a : load (n + k) m a = load n m a + 256 ^ Z.of_nat n * load k m (a + Z.of_nat n).
Proof.
  revert a. induction n as [|n IH]; intros a.
  { cbn [Nat.add load Z.of_nat]. rewrite Z.add_0_r, Z.pow_0_r. lia. }
  cbn [Nat.add load]. rewrite IH, Nat2Z.inj_succ, Z.pow_succ_r by lia.
  replace (a + 1 + Z.of_nat n) with (a + Z.succ (Z.of_nat n)) by lia. lia.
Qed.

#[global] Arguments load : simpl never.
#[global] Arguments store : simpl never.

#[export] Hint Resolve agree_refl : rustos.
