(* ===== verification/Purpose.v ===== *)
(** * Allocation purposes and memory permissions

    The two small value types of [src/init/alloc/handover.rs] that block
    headers and handover records carry: [AllocPurpose] with its classification
    methods, and the [MemoryPermissions] bit set. *)

From Stdlib Require Import ZArith Lia.
From stdpp Require Import base option numbers sets strings list.
From S2P Require Import Prelude.

Module AllocPurpose.

Inductive t : Type :=
| Unknown | InterruptTable | ProcessControlBlock | PageTable | KernelStack
| KernelHeap | DriverBuffer | FileSystemMeta | NetworkBuffer | TempBuffer
| BootstrapData | DeviceTree | SymbolTable | ModuleCode | CacheBuffer
| SharedMemory | UserData | SystemCall | Debugging | Testing.

#[global] Instance t_eq_dec : EqDecision t.
Proof. solve_decision. Defined.

(** [purpose as u8]: the explicit discriminants of the [repr(u8)] enum. *)
Definition discriminant (p : t) : Z :=
  match p with
  | Unknown => 0 | InterruptTable => 1 | ProcessControlBlock => 2
  | PageTable => 3 | KernelStack => 4 | KernelHeap => 5 | DriverBuffer => 6
  | FileSystemMeta => 7 | NetworkBuffer => 8 | TempBuffer => 9
  | BootstrapData => 10 | DeviceTree => 11 | SymbolTable => 12
  | ModuleCode => 13 | CacheBuffer => 14 | SharedMemory => 15
  | UserData => 16 | SystemCall => 17 | Debugging => 18 | Testing => 19
  end.

(** Every purpose, in the order of the declaration (and of the table in
    [group_by_purpose]). *)
Definition all : list t :=
  [Unknown; InterruptTable; ProcessControlBlock; PageTable; KernelStack;
   KernelHeap; DriverBuffer; FileSystemMeta; NetworkBuffer; TempBuffer;
   BootstrapData; DeviceTree; SymbolTable; ModuleCode; CacheBuffer;
   SharedMemory; UserData; SystemCall; Debugging; Testing].

(** Reading the enum from a byte of memory: only the twenty discriminants are
    values of the type. *)
Definition of_byte (b : Z) : option t :=
  list_find (λ p, discriminant p = b) all ≫= λ ip, Some (snd ip).

Definition is_reclaimable (p : t) : bool :=
  match p with
  | TempBuffer | CacheBuffer | Testing | Unknown => true
  | _ => false
  end.

Definition is_critical (p : t) : bool :=
  match p with
  | InterruptTable | ProcessControlBlock | PageTable | KernelStack
  | BootstrapData | DeviceTree => true
  | _ => false
  end.

Definition is_movable (p : t) : bool :=
  match p with
  | TempBuffer | CacheBuffer | UserData | Testing => true
  | _ => false
  end.

Definition requires_special_alignment (p : t) : bool :=
  match p with
  | PageTable | InterruptTable | DeviceTree => true
  | _ => false
  end.

Definition recommended_alignment (p : t) : Z :=
  match p with
  | PageTable => 4096
  | InterruptTable => 256
  | DeviceTree => 8
  | _ => 8
  end.

Definition priority (p : t) : Z :=
  match p with
  | InterruptTable => 0
  | PageTable => 1
  | ProcessControlBlock => 2
  | KernelStack => 3
  | BootstrapData => 4
  | DeviceTree => 5
  | KernelHeap => 10
  | DriverBuffer => 20
  | SystemCall => 30
  | ModuleCode => 40
  | SymbolTable => 50
  | FileSystemMeta => 60
  | NetworkBuffer => 70
  | SharedMemory => 80
  | UserData => 90
  | CacheBuffer => 100
  | Debugging => 200
  | TempBuffer => 240
  | Testing => 250
  | Unknown => 255
  end.

Definition description (p : t) : string :=
  match p with
  | Unknown => "Unknown"
  | InterruptTable => "Interrupt Table"
  | ProcessControlBlock => "Process Control Block"
  | PageTable => "Page Table"
  | KernelStack => "Kernel Stack"
  | KernelHeap => "Kernel Heap"
  | DriverBuffer => "Driver Buffer"
  | FileSystemMeta => "FileSystem Metadata"
  | NetworkBuffer => "Network Buffer"
  | TempBuffer => "Temporary Buffer"
  | BootstrapData => "Bootstrap Data"
  | DeviceTree => "Device Tree"
  | SymbolTable => "Symbol Table"
  | ModuleCode => "Module Code"
  | CacheBuffer => "Cache Buffer"
  | SharedMemory => "Shared Memory"
  | UserData => "User Data"
  | SystemCall => "System Call"
  | Debugging => "Debugging Info"
  | Testing => "Testing Data"
  end%string.

Definition short_name (p : t) : string :=
  match p with
  | Unknown => "UNK"
  | InterruptTable => "INT"
  | ProcessControlBlock => "PCB"
  | PageTable => "PGT"
  | KernelStack => "KST"
  | KernelHeap => "KHP"
  | DriverBuffer => "DRV"
  | FileSystemMeta => "FSM"
  | NetworkBuffer => "NET"
  | TempBuffer => "TMP"
  | BootstrapData => "BST"
  | DeviceTree => "DTB"
  | SymbolTable => "SYM"
  | ModuleCode => "MOD"
  | CacheBuffer => "CHE"
  | SharedMemory => "SHM"
  | UserData => "USR"
  | SystemCall => "SYS"
  | Debugging => "DBG"
  | Testing => "TST"
  end%string.

Lemma discriminant_range p : 0 ≤ discriminant p < 20.
Proof. destruct p; simpl; lia. Qed.

Lemma of_byte_discriminant p : of_byte (discriminant p) = Some p.
Proof. by destruct p. Qed.

Lemma elem_of_all p : p ∈ all.
Proof. unfold all. destruct p; set_solver. Qed.

#[global] Instance discriminant_inj : Inj eq eq discriminant.
Proof. intros p q E. apply (f_equal of_byte) in E. rewrite !of_byte_discriminant in E. congruence. Qed.

End AllocPurpose.

Module MemoryPermissions.

(** The struct's one field, [bits : u8]. *)
Record t : Type := mk { bits : Z }.

Definition READ : t := mk (Z.shiftl 1 0).
Definition WRITE : t := mk (Z.shiftl 1 1).
Definition EXECUTE : t := mk (Z.shiftl 1 2).
Definition USER : t := mk (Z.shiftl 1 3).
Definition CACHED : t := mk (Z.shiftl 1 4).
Definition SHARED : t := mk (Z.shiftl 1 5).
Definition READ_WRITE : t := mk (Z.lor (bits READ) (bits WRITE)).
Definition READ_EXECUTE : t := mk (Z.lor (bits READ) (bits EXECUTE)).
Definition READ_WRITE_EXECUTE : t :=
  mk (Z.lor (Z.lor (bits READ) (bits WRITE)) (bits EXECUTE)).

Definition contains (self other : t) : bool :=
  Z.land (bits self) (bits other) =? bits other.

Definition can_read (self : t) : bool := contains self READ.
Definition can_write (self : t) : bool := contains self WRITE.
Definition can_execute (self : t) : bool := contains self EXECUTE.

End MemoryPermissions.
