(* ===== verification/Metadata.v ===== *)
(** * Block headers, allocator statistics and heap walking

    Models [src/init/alloc/metadata.rs]: the [BlockHeader] in front of every
    block with its checksum, the [AllocStats] counters with the derived
    percentages and the health check, and the [BlockIterator] and
    [BlockValidator] that walk the heap. *)

From Stdlib Require Import ZArith Lia SpecFloat.
From stdpp Require Import base option numbers gmap list.
From S2P Require Import Prelude Memory Purpose.

(** ** Block headers *)

Definition BLOCK_MAGIC : Z := 0xB10C4EA0.

Inductive BlockStatus : Type := Free | Allocated.

#[global] Instance BlockStatus_eq_dec : EqDecision BlockStatus.
Proof. solve_decision. Defined.

Definition status_discriminant (s : BlockStatus) : Z :=
  match s with Free => 0 | Allocated => 1 end.

Definition status_of_byte (b : Z) : option BlockStatus :=
  if b =? 0 then Some Free else if b =? 1 then Some Allocated else None.

(** [mem::size_of::<BlockHeader>()]: the [repr(C)] layout on a 64-bit target
    is [size] 0..8, [status] 8, [magic] 12..16, [alloc_id] 16..24, [purpose]
    24, [timestamp] 32..40, [checksum] 40..44, [padding] 44..48. *)
Definition HEADER_SIZE : Z := 48.

Module BlockHeader.

Record t : Type := mk {
  size : Z;                      (* usize *)
  status : BlockStatus;
  magic : Z;                     (* u32 *)
  alloc_id : Z;                  (* u64 *)
  purpose : AllocPurpose.t;
  timestamp : Z;                 (* u64 *)
  checksum : Z;                  (* u32 *)
}.

Definition set_size (v : Z) (h : t) : t :=
  mk v (status h) (magic h) (alloc_id h) (purpose h) (timestamp h) (checksum h).
Definition set_status (v : BlockStatus) (h : t) : t :=
  mk (size h) v (magic h) (alloc_id h) (purpose h) (timestamp h) (checksum h).
Definition set_id (v : Z) (h : t) : t :=
  mk (size h) (status h) (magic h) v (purpose h) (timestamp h) (checksum h).
Definition set_purpose_field (v : AllocPurpose.t) (h : t) : t :=
  mk (size h) (status h) (magic h) (alloc_id h) v (timestamp h) (checksum h).
Definition set_timestamp (v : Z) (h : t) : t :=
  mk (size h) (status h) (magic h) (alloc_id h) (purpose h) v (checksum h).
Definition set_checksum (v : Z) (h : t) : t :=
  mk (size h) (status h) (magic h) (alloc_id h) (purpose h) (timestamp h) v.

(** The wrapping-add checksum over every field but [checksum] itself; [as u32]
    truncates. *)
Definition calculate_checksum (h : t) : Z :=
  let c := wrap32 (size h) in
  let c := wrap32 (c + wrap32 (Z.shiftr (size h) 32)) in
  let c := wrap32 (c + status_discriminant (status h)) in
  let c := wrap32 (c + magic h) in
  let c := wrap32 (c + wrap32 (alloc_id h)) in
  let c := wrap32 (c + wrap32 (Z.shiftr (alloc_id h) 32)) in
  let c := wrap32 (c + AllocPurpose.discriminant (purpose h)) in
  let c := wrap32 (c + wrap32 (timestamp h)) in
  let c := wrap32 (c + wrap32 (Z.shiftr (timestamp h) 32)) in
  c.

Definition update_checksum (h : t) : t := set_checksum (calculate_checksum h) h.

Definition validate (h : t) : bool :=
  if negb (magic h =? BLOCK_MAGIC) then false
  else if negb (checksum h =? calculate_checksum h) then false
  else true.

(** [BlockHeader::new] takes the next timestamp. *)
Definition new (sz : Z) (st : BlockStatus) : M Machine t :=
  ts ← get_timestamp;
  mret (update_checksum (mk sz st BLOCK_MAGIC 0 AllocPurpose.Unknown ts 0)).

Definition total_size {P : Profile} {S} (h : t) : M S Z :=
  usize_add (size h) HEADER_SIZE.

Definition set_purpose (p : AllocPurpose.t) (h : t) : t :=
  update_checksum (set_purpose_field p h).

Definition set_alloc_id (id : Z) (h : t) : t := update_checksum (set_id id h).

Definition update_timestamp (h : t) : M Machine t :=
  ts ← get_timestamp; mret (update_checksum (set_timestamp ts h)).

Definition is_old (h : t) (threshold : Z) : M Machine bool :=
  now ← get_timestamp;
  mret (threshold <? saturating_sub now (timestamp h)).

End BlockHeader.

(** *** Headers in memory: field reads and writes through a [*mut BlockHeader]

    In Rust such an access needs an address that is a multiple of eight (otherwise
    it is undefined, and a panic in builds with debug assertions).  The model has
    no notion of that: an access at any address is a plain load or store.
    [Requests.v] shows which requests keep all headers aligned. *)

Definition OFF_status : Z := 8.
Definition OFF_magic : Z := 12.
Definition OFF_alloc_id : Z := 16.
Definition OFF_purpose : Z := 24.
Definition OFF_timestamp : Z := 32.
Definition OFF_checksum : Z := 40.

Definition rd_size (a : Z) : M Machine Z := rd 8 a.
Definition rd_status (a : Z) : M Machine BlockStatus :=
  b ← rd 1 (a + OFF_status);
  match status_of_byte b with Some s => mret s | None => undef end.
Definition rd_magic (a : Z) : M Machine Z := rd 4 (a + OFF_magic).
Definition rd_purpose (a : Z) : M Machine AllocPurpose.t :=
  b ← rd 1 (a + OFF_purpose);
  match AllocPurpose.of_byte b with Some p => mret p | None => undef end.

Definition wr_size (a v : Z) : M Machine unit := wr 8 a v.
Definition wr_status (a : Z) (v : BlockStatus) : M Machine unit :=
  wr 1 (a + OFF_status) (status_discriminant v).
Definition wr_alloc_id (a v : Z) : M Machine unit := wr 8 (a + OFF_alloc_id) v.
Definition wr_purpose (a : Z) (v : AllocPurpose.t) : M Machine unit :=
  wr 1 (a + OFF_purpose) (AllocPurpose.discriminant v).
Definition wr_timestamp (a v : Z) : M Machine unit := wr 8 (a + OFF_timestamp) v.
Definition wr_checksum (a v : Z) : M Machine unit := wr 4 (a + OFF_checksum) v.

(** The whole struct behind the pointer. *)
Definition read_header (a : Z) : M Machine BlockHeader.t :=
  sz ← rd_size a;
  st ← rd_status a;
  mg ← rd_magic a;
  id ← rd 8 (a + OFF_alloc_id);
  pu ← rd_purpose a;
  ts ← rd 8 (a + OFF_timestamp);
  ck ← rd 4 (a + OFF_checksum);
  mret (BlockHeader.mk sz st mg id pu ts ck).

(** [*ptr = header]: every field and the zero padding. *)
Definition write_header (a : Z) (h : BlockHeader.t) : M Machine unit :=
  wr_size a (BlockHeader.size h);;
  wr_status a (BlockHeader.status h);;
  wr 4 (a + OFF_magic) (BlockHeader.magic h);;
  wr_alloc_id a (BlockHeader.alloc_id h);;
  wr_purpose a (BlockHeader.purpose h);;
  wr_timestamp a (BlockHeader.timestamp h);;
  wr_checksum a (BlockHeader.checksum h);;
  wr 4 (a + 44) 0.

(** The [validate] method behind a pointer: the magic is compared first, so garbage without it is
    rejected before an enum is read. *)
Definition validate_at (a : Z) : M Machine bool :=
  mg ← rd_magic a;
  if negb (mg =? BLOCK_MAGIC) then mret false
  else h ← read_header a; mret (BlockHeader.validate h).

Definition update_checksum_at (a : Z) : M Machine unit :=
  h ← read_header a; wr_checksum a (BlockHeader.calculate_checksum h).

Definition update_timestamp_at (a : Z) : M Machine unit :=
  ts ← get_timestamp; wr_timestamp a ts;; update_checksum_at a.

Definition total_size_at {P : Profile} (a : Z) : M Machine Z :=
  sz ← rd_size a; usize_add sz HEADER_SIZE.

Definition user_data_addr {P : Profile} {S} (a : Z) : M S Z :=
  usize_add a HEADER_SIZE.

(** ** Single-precision floats

    The percentages of [AllocStats] are computed in [f32]: IEEE binary32
    (24-bit precision, exponents below 128) with round-to-nearest-even. *)
Module F32.

Definition prec : Z := 24.
Definition emax : Z := 128.

(** [z as f32] for an unsigned integer [z]. *)
Definition of_Z (z : Z) : spec_float := binary_normalize prec emax z 0 false.
Definition div : spec_float → spec_float → spec_float := SFdiv prec emax.
Definition mul : spec_float → spec_float → spec_float := SFmul prec emax.
Definition sub : spec_float → spec_float → spec_float := SFsub prec emax.

(** [f as u8]: truncation toward zero, saturating, NaN to 0. *)
Definition to_u8 (f : spec_float) : Z :=
  match f with
  | S754_zero _ | S754_nan => 0
  | S754_infinity s => if s then 0 else 255
  | S754_finite s m e =>
      if s then 0
      else Z.min 255 (if 0 <=? e then Zpos m * 2 ^ e else Zpos m / 2 ^ (- e))
  end.

End F32.

(** ** Statistics *)

Module AllocStats.

Record t : Type := mk {
  total_size : Z;
  used_size : Z;
  free_size : Z;
  alloc_count : Z;
  free_count : Z;
  total_allocs : Z;
  total_frees : Z;
  failed_allocs : Z;
  double_free_attempts : Z;
  corrupted_blocks : Z;
  max_alloc_size : Z;
  min_alloc_size : Z;
  avg_alloc_size : Z;
  merge_count : Z;
  split_count : Z;
  coalesce_count : Z;
  peak_used_size : Z;
  max_free_block_size : Z;
  fragmentation_percent : Z;
}.

Definition new (sz : Z) : t :=
  mk sz 0 sz 0 1 0 0 0 0 0 0 usize_MAX 0 0 0 0 0 sz 0.

(** Assignments to the fields the allocator updates directly. *)
Definition set_free_size (v : Z) (s : t) : t :=
  mk (total_size s) (used_size s) v (alloc_count s) (free_count s)
     (total_allocs s) (total_frees s) (failed_allocs s)
     (double_free_attempts s) (corrupted_blocks s) (max_alloc_size s)
     (min_alloc_size s) (avg_alloc_size s) (merge_count s) (split_count s)
     (coalesce_count s) (peak_used_size s) (max_free_block_size s)
     (fragmentation_percent s).
Definition set_free_count (v : Z) (s : t) : t :=
  mk (total_size s) (used_size s) (free_size s) (alloc_count s) v
     (total_allocs s) (total_frees s) (failed_allocs s)
     (double_free_attempts s) (corrupted_blocks s) (max_alloc_size s)
     (min_alloc_size s) (avg_alloc_size s) (merge_count s) (split_count s)
     (coalesce_count s) (peak_used_size s) (max_free_block_size s)
     (fragmentation_percent s).
Definition set_max_free_block_size (v : Z) (s : t) : t :=
  mk (total_size s) (used_size s) (free_size s) (alloc_count s) (free_count s)
     (total_allocs s) (total_frees s) (failed_allocs s)
     (double_free_attempts s) (corrupted_blocks s) (max_alloc_size s)
     (min_alloc_size s) (avg_alloc_size s) (merge_count s) (split_count s)
     (coalesce_count s) (peak_used_size s) v
     (fragmentation_percent s).

Section ops.
Context {P : Profile}.

Definition record_alloc (sz : Z) : M t unit :=
  s ← gets (λ x, x);
  used ← usize_add (used_size s) sz;
  allocs ← u64_add (total_allocs s) 1;
  count ← usize_add (alloc_count s) 1;
  let mx := Z.max (max_alloc_size s) sz in
  let mn := Z.min (min_alloc_size s) sz in
  let peak := Z.max (peak_used_size s) used in
  let avg := if 0 <? allocs then used / allocs else avg_alloc_size s in
  modify (λ _,
    mk (total_size s) used (free_size s) count (free_count s)
       allocs (total_frees s) (failed_allocs s)
       (double_free_attempts s) (corrupted_blocks s) mx
       mn avg (merge_count s) (split_count s)
       (coalesce_count s) peak (max_free_block_size s)
       (fragmentation_percent s)).

Definition record_dealloc (sz : Z) : M t unit :=
  s ← gets (λ x, x);
  used ← usize_sub (used_size s) sz;
  frees ← u64_add (total_frees s) 1;
  let count := saturating_sub (alloc_count s) 1 in
  modify (λ _,
    mk (total_size s) used (free_size s) count (free_count s)
       (total_allocs s) frees (failed_allocs s)
       (double_free_attempts s) (corrupted_blocks s) (max_alloc_size s)
       (min_alloc_size s) (avg_alloc_size s) (merge_count s) (split_count s)
       (coalesce_count s) (peak_used_size s) (max_free_block_size s)
       (fragmentation_percent s)).

Definition record_merge : M t unit :=
  s ← gets (λ x, x);
  mc ← u64_add (merge_count s) 1;
  cc ← u64_add (coalesce_count s) 1;
  modify (λ _,
    mk (total_size s) (used_size s) (free_size s) (alloc_count s) (free_count s)
       (total_allocs s) (total_frees s) (failed_allocs s)
       (double_free_attempts s) (corrupted_blocks s) (max_alloc_size s)
       (min_alloc_size s) (avg_alloc_size s) mc (split_count s)
       cc (peak_used_size s) (max_free_block_size s)
       (fragmentation_percent s)).

(** The argument is unused in the source as well. *)
Definition record_split (new_free_size : Z) : M t unit :=
  s ← gets (λ x, x);
  sc ← u64_add (split_count s) 1;
  modify (λ _,
    mk (total_size s) (used_size s) (free_size s) (alloc_count s) (free_count s)
       (total_allocs s) (total_frees s) (failed_allocs s)
       (double_free_attempts s) (corrupted_blocks s) (max_alloc_size s)
       (min_alloc_size s) (avg_alloc_size s) (merge_count s) sc
       (coalesce_count s) (peak_used_size s) (max_free_block_size s)
       (fragmentation_percent s)).

Definition record_alloc_failure : M t unit :=
  s ← gets (λ x, x);
  fa ← u64_add (failed_allocs s) 1;
  modify (λ _,
    mk (total_size s) (used_size s) (free_size s) (alloc_count s) (free_count s)
       (total_allocs s) (total_frees s) fa
       (double_free_attempts s) (corrupted_blocks s) (max_alloc_size s)
       (min_alloc_size s) (avg_alloc_size s) (merge_count s) (split_count s)
       (coalesce_count s) (peak_used_size s) (max_free_block_size s)
       (fragmentation_percent s)).

Definition record_double_free : M t unit :=
  s ← gets (λ x, x);
  df ← u64_add (double_free_attempts s) 1;
  modify (λ _,
    mk (total_size s) (used_size s) (free_size s) (alloc_count s) (free_count s)
       (total_allocs s) (total_frees s) (failed_allocs s)
       df (corrupted_blocks s) (max_alloc_size s)
       (min_alloc_size s) (avg_alloc_size s) (merge_count s) (split_count s)
       (coalesce_count s) (peak_used_size s) (max_free_block_size s)
       (fragmentation_percent s)).

Definition record_corruption : M t unit :=
  s ← gets (λ x, x);
  cb ← u64_add (corrupted_blocks s) 1;
  modify (λ _,
    mk (total_size s) (used_size s) (free_size s) (alloc_count s) (free_count s)
       (total_allocs s) (total_frees s) (failed_allocs s)
       (double_free_attempts s) cb (max_alloc_size s)
       (min_alloc_size s) (avg_alloc_size s) (merge_count s) (split_count s)
       (coalesce_count s) (peak_used_size s) (max_free_block_size s)
       (fragmentation_percent s)).

End ops.

Definition usage_percent (s : t) : Z :=
  if total_size s =? 0 then 0
  else F32.to_u8 (F32.mul (F32.div (F32.of_Z (used_size s)) (F32.of_Z (total_size s)))
                          (F32.of_Z 100)).

Definition fragmentation_estimate (s : t) : Z :=
  if (free_size s =? 0) || (max_free_block_size s =? 0) then 0
  else F32.to_u8
         (F32.sub (F32.of_Z 100)
            (F32.mul (F32.div (F32.of_Z (max_free_block_size s)) (F32.of_Z (free_size s)))
                     (F32.of_Z 100))).

Definition success_rate {P : Profile} {S} (s : t) : M S Z :=
  total_attempts ← u64_add (total_allocs s) (failed_allocs s);
  if total_attempts =? 0 then mret 100
  else mret (F32.to_u8
         (F32.mul (F32.div (F32.of_Z (total_allocs s)) (F32.of_Z total_attempts))
                  (F32.of_Z 100))).

End AllocStats.

(** ** Health flags: the [bitflags!] struct [HealthIssues : u32] *)

Module HealthIssues.

Record t : Type := mk { bits : Z }.

Definition HIGH_MEMORY_USAGE : t := mk (Z.shiftl 1 0).
Definition HIGH_FRAGMENTATION : t := mk (Z.shiftl 1 1).
Definition LOW_SUCCESS_RATE : t := mk (Z.shiftl 1 2).
Definition CORRUPTION_DETECTED : t := mk (Z.shiftl 1 3).
Definition POTENTIAL_LEAK : t := mk (Z.shiftl 1 4).

Definition empty : t := mk 0.
Definition is_empty (self : t) : bool := bits self =? 0.
Definition contains (self other : t) : bool :=
  Z.land (bits self) (bits other) =? bits other.
Definition bitor (self other : t) : t := mk (Z.lor (bits self) (bits other)).

(** [if c { issues |= flag }] *)
Definition raise (c : bool) (flag : t) (issues : t) : t :=
  if c then bitor issues flag else issues.

End HealthIssues.

(** [AllocStats::check_health], returning the [issues] of its [HealthStatus].
    The [&&] of the third test is short-circuiting, and so is the subtraction
    guarded by the comparison in the fifth. *)
Definition check_health {P : Profile} {S} (s : AllocStats.t) : M S HealthIssues.t :=
  let i0 := HealthIssues.empty in
  let i1 := HealthIssues.raise (90 <? AllocStats.usage_percent s)
              HealthIssues.HIGH_MEMORY_USAGE i0 in
  let i2 := HealthIssues.raise (50 <? AllocStats.fragmentation_estimate s)
              HealthIssues.HIGH_FRAGMENTATION i1 in
  rate ← AllocStats.success_rate s;
  let i3 := HealthIssues.raise ((rate <? 95) && (100 <? AllocStats.total_allocs s))
              HealthIssues.LOW_SUCCESS_RATE i2 in
  let i4 := HealthIssues.raise ((0 <? AllocStats.double_free_attempts s)
                                || (0 <? AllocStats.corrupted_blocks s))
              HealthIssues.CORRUPTION_DETECTED i3 in
  let i5 := HealthIssues.raise
              ((AllocStats.total_frees s <? AllocStats.total_allocs s)
               && (1000 <? AllocStats.total_allocs s - AllocStats.total_frees s))
              HealthIssues.POTENTIAL_LEAK i4 in
  mret i5.

Definition is_healthy (issues : HealthIssues.t) : bool := HealthIssues.is_empty issues.

(** ** Walking the heap *)

Module BlockIterator.

Record t : Type := mk { current : Z; end_ : Z }.

Definition new (start end_ : Z) : t := mk start end_.

Definition next {P : Profile} (it : t) : M Machine (option Z * t) :=
  if end_ it <=? current it then mret (None, it)
  else
    let header := current it in
    mg ← rd_magic header;
    if mg =? BLOCK_MAGIC then
      sz ← total_size_at header;
      cur ← usize_add (current it) sz;
      mret (Some header, mk cur (end_ it))
    else mret (None, it).

End BlockIterator.

Inductive ValidateError : Type :=
| BlockValidationFailed       (* "Block validation failed" *)
| BlockBeyondHeap             (* "Block extends beyond heap boundary" *)
| BlocksDoNotFillHeap.        (* "Heap blocks do not fill entire heap" *)

Module BlockValidator.

(** The loop [while let Some(header) = iter.next()], with the running total.
    The statistics the struct also holds are never used. *)
Fixpoint validate_loop {P : Profile} (fuel : nat) (heap_end : Z) (it : BlockIterator.t)
    (total : Z) : M Machine (result ValidateError Z) :=
  match fuel with
  | O => hang
  | S fuel' =>
      r ← BlockIterator.next it;
      match r with
      | (None, _) => mret (Ok total)
      | (Some header, it') =>
          ok ← validate_at header;
          if negb ok then mret (Err BlockValidationFailed)
          else
            ua ← user_data_addr header;
            sz ← rd_size header;
            block_end ← usize_add ua sz;
            if heap_end <? block_end then mret (Err BlockBeyondHeap)
            else
              ts ← total_size_at header;
              total' ← usize_add total ts;
              validate_loop fuel' heap_end it' total'
      end
  end.

Definition validate_heap {P : Profile} (fuel : nat) (heap_start heap_end : Z)
    : M Machine (result ValidateError unit) :=
  r ← validate_loop fuel heap_end (BlockIterator.new heap_start heap_end) 0;
  match r with
  | Err e => mret (Err e)
  | Ok total_size =>
      span ← usize_sub heap_end heap_start;
      if negb (total_size =? span) then mret (Err BlocksDoNotFillHeap)
      else mret (Ok tt)
  end.

End BlockValidator.
