(* ===== verification/HeaderSpec.v ===== *)
(** * Block headers in memory: what the field accesses do

    [hdr_at m a h] says that memory [m] holds the header [h] at [a].  The
    lemmas give, for every header operation of [Metadata.v], the header that
    memory holds afterwards and the bytes that are left alone. *)

From Stdlib Require Import ZArith Lia.
From stdpp Require Import base option numbers gmap list.
From S2P Require Import Prelude Memory Purpose Metadata.

Import BlockHeader.

Record hdr_at (m : memory) (a : Z) (h : BlockHeader.t) : Prop := {
  at_size : load 8 m a = size h;
  at_status : load 1 m (a + OFF_status) = status_discriminant (status h);
  at_magic : load 4 m (a + OFF_magic) = magic h;
  at_alloc_id : load 8 m (a + OFF_alloc_id) = alloc_id h;
  at_purpose : load 1 m (a + OFF_purpose) = AllocPurpose.discriminant (purpose h);
  at_timestamp : load 8 m (a + OFF_timestamp) = timestamp h;
  at_checksum : load 4 m (a + OFF_checksum) = checksum h;
}.

(** [only m m' lo hi]: [m'] differs from [m] only inside [lo, hi). *)
Definition only (m m' : memory) (lo hi : Z) : Prop :=
  ∀ x, x < lo ∨ hi ≤ x → m' !! x = m !! x.

Lemma only_refl m lo hi : only m m lo hi.
Proof. by intros x _. Qed.

Lemma only_trans m1 m2 m3 lo hi : only m1 m2 lo hi → only m2 m3 lo hi → only m1 m3 lo hi.
Proof. intros H1 H2 x Hx. by rewrite H2, H1. Qed.

Lemma only_widen m m' lo hi lo' hi' :
  only m m' lo hi → lo' ≤ lo → hi ≤ hi' → only m m' lo' hi'.
Proof. intros H ? ? x ?. apply H. lia. Qed.

Lemma only_store n m a v : only m (store n m a v) a (a + Z.of_nat n).
Proof. intros x Hx. apply store_lookup_out. lia. Qed.

Lemma only_agree m m' lo hi lo' hi' :
  only m m' lo hi → hi' ≤ lo ∨ hi ≤ lo' → agree m m' lo' hi'.
Proof. intros H ? x ?. symmetry. apply H. lia. Qed.

#[export] Hint Resolve only_refl : rustos.

Ltac unfold_offsets :=
  unfold OFF_status, OFF_magic, OFF_alloc_id, OFF_purpose, OFF_timestamp,
    OFF_checksum, HEADER_SIZE in *.

Lemma hdr_at_agree m m' a h :
  agree m m' a (a + HEADER_SIZE) → hdr_at m a h → hdr_at m' a h.
Proof.
  intros Hag [H1 H2 H3 H4 H5 H6 H7]. unfold_offsets.
  split; unfold_offsets;
    (rewrite <- (load_agree _ m m') by (eapply agree_sub; [done|lia..])); done.
Qed.

Lemma hdr_at_inj m a h h' : hdr_at m a h → hdr_at m a h' → h = h'.
Proof.
  intros [A1 A2 A3 A4 A5 A6 A7] [B1 B2 B3 B4 B5 B6 B7]. destruct h, h'; simpl in *.
  assert (status0 = status1) as ->.
  { rewrite A2 in B2. by destruct status0, status1. }
  assert (purpose0 = purpose1) as -> by (apply (inj AllocPurpose.discriminant); congruence).
  congruence.
Qed.

Lemma hdr_at_ranges m a h :
  hdr_at m a h →
  in_u64 (size h) ∧ in_u32 (magic h) ∧ in_u64 (alloc_id h) ∧ in_u64 (timestamp h)
  ∧ in_u32 (checksum h).
Proof.
  intros [H1 _ H3 H4 _ H6 H7]. rewrite <- H1, <- H3, <- H4, <- H6, <- H7.
  repeat split; try apply load_range;
    (eapply Z.lt_le_trans; [apply load_range|done]).
Qed.

(** ** Reads *)

Lemma rd_size_spec s a h : hdr_at (mem s) a h → rd_size a s = Ret (size h, s).
Proof. intros H. unfold rd_size, rd, gets. by rewrite (at_size _ _ _ H). Qed.

Lemma status_of_discriminant st : status_of_byte (status_discriminant st) = Some st.
Proof. by destruct st. Qed.

Lemma rd_status_spec s a h : hdr_at (mem s) a h → rd_status a s = Ret (status h, s).
Proof.
  intros H. unfold rd_status. mstep.
  by rewrite (at_status _ _ _ H), status_of_discriminant.
Qed.

Lemma rd_magic_spec s a h : hdr_at (mem s) a h → rd_magic a s = Ret (magic h, s).
Proof. intros H. unfold rd_magic, rd, gets. by rewrite (at_magic _ _ _ H). Qed.

Lemma rd_purpose_spec s a h : hdr_at (mem s) a h → rd_purpose a s = Ret (purpose h, s).
Proof.
  intros H. unfold rd_purpose. mstep.
  by rewrite (at_purpose _ _ _ H), AllocPurpose.of_byte_discriminant.
Qed.

Lemma read_header_spec s a h : hdr_at (mem s) a h → read_header a s = Ret (h, s).
Proof.
  intros H. unfold read_header.
  mstep_by rd_size_spec; [done|]. mstep_by rd_status_spec; [done|].
  mstep_by rd_magic_spec; [done|]. mstep. mstep_by rd_purpose_spec; [done|].
  do 2 mstep. unfold mret, M_ret.
  rewrite (at_alloc_id _ _ _ H), (at_timestamp _ _ _ H), (at_checksum _ _ _ H).
  by destruct h.
Qed.

Lemma validate_at_spec s a h : hdr_at (mem s) a h → validate_at a s = Ret (validate h, s).
Proof.
  intros H. unfold validate_at. mstep_by rd_magic_spec; [done|].
  destruct (negb (magic h =? BLOCK_MAGIC)) eqn:E.
  - unfold validate. by rewrite E.
  - mstep_by read_header_spec; done.
Qed.

Lemma total_size_at_spec `{Profile} s a h :
  hdr_at (mem s) a h → size h + HEADER_SIZE < 2 ^ 64 →
  total_size_at a s = Ret (size h + HEADER_SIZE, s).
Proof.
  intros Hh Hb. unfold total_size_at. mstep_by rd_size_spec; [done|].
  pose proof (hdr_at_ranges _ _ _ Hh) as ([? ?] & _). unfold_offsets.
  apply usize_add_ok. lia.
Qed.

(** ** Writes *)

Ltac field_write :=
  split; unfold_offsets; simpl;
    repeat first [ rewrite load_store_small by (simpl; lia)
                 | rewrite load_store_ne by lia ]; done.

Section writes.
Context (m : memory) (a : Z) (h : BlockHeader.t) (H : hdr_at m a h).

Lemma wr_size_at v : in_u64 v → hdr_at (store 8 m a v) a (set_size v h).
Proof. destruct H. unfold in_u64. intros. field_write. Qed.

Lemma wr_status_at v :
  hdr_at (store 1 m (a + OFF_status) (status_discriminant v)) a (set_status v h).
Proof. destruct H. assert (0 ≤ status_discriminant v < 2) by (destruct v; simpl; lia). field_write. Qed.

Lemma wr_alloc_id_at v : in_u64 v → hdr_at (store 8 m (a + OFF_alloc_id) v) a (set_id v h).
Proof. destruct H. unfold in_u64. intros. field_write. Qed.

Lemma wr_purpose_at v :
  hdr_at (store 1 m (a + OFF_purpose) (AllocPurpose.discriminant v)) a
    (set_purpose_field v h).
Proof. destruct H. pose proof (AllocPurpose.discriminant_range v). field_write. Qed.

Lemma wr_timestamp_at v :
  in_u64 v → hdr_at (store 8 m (a + OFF_timestamp) v) a (set_timestamp v h).
Proof. destruct H. unfold in_u64. intros. field_write. Qed.

Lemma wr_checksum_at v :
  in_u32 v → hdr_at (store 4 m (a + OFF_checksum) v) a (set_checksum v h).
Proof. destruct H. unfold in_u32. intros. field_write. Qed.

End writes.

(** ** Composite header operations *)

Lemma calculate_checksum_range h : in_u32 (calculate_checksum h).
Proof. unfold calculate_checksum. cbv zeta. apply Z.mod_pos_bound. lia. Qed.

(** The checksum does not cover the checksum field. *)
Lemma calculate_checksum_set_checksum v h :
  calculate_checksum (set_checksum v h) = calculate_checksum h.
Proof.
  unfold calculate_checksum, set_checksum.
  cbn [size status magic alloc_id purpose timestamp]. reflexivity.
Qed.

Lemma validate_update_checksum h :
  magic h = BLOCK_MAGIC → validate (update_checksum h) = true.
Proof.
  intros E. unfold validate, update_checksum. rewrite calculate_checksum_set_checksum.
  cbn [magic checksum set_checksum]. by rewrite E, !Z.eqb_refl.
Qed.

Lemma validate_magic h : validate h = true → magic h = BLOCK_MAGIC.
Proof.
  unfold validate. destruct (magic h =? BLOCK_MAGIC) eqn:E; [|done]. intros _. by b2p.
Qed.

Lemma update_checksum_at_spec s a h :
  hdr_at (mem s) a h →
  ∃ m', update_checksum_at a s = Ret (tt, mkMachine m' (clock s))
        ∧ hdr_at m' a (update_checksum h) ∧ only (mem s) m' a (a + HEADER_SIZE).
Proof.
  intros H. eexists. split; [|split].
  - unfold update_checksum_at. mstep_by read_header_spec; [done|]. reflexivity.
  - apply wr_checksum_at; [done|]. apply calculate_checksum_range.
  - eapply only_widen; [apply only_store|unfold_offsets; lia..].
Qed.

Lemma update_timestamp_at_spec s a h :
  hdr_at (mem s) a h → in_u64 (clock s) →
  ∃ m', update_timestamp_at a s = Ret (tt, mkMachine m' (wrap64 (clock s + 1)))
        ∧ hdr_at m' a (update_checksum (set_timestamp (clock s) h))
        ∧ only (mem s) m' a (a + HEADER_SIZE).
Proof.
  intros H Hc.
  destruct (update_checksum_at_spec
              (mkMachine (store 8 (mem s) (a + OFF_timestamp) (clock s)) (wrap64 (clock s + 1)))
              a (set_timestamp (clock s) h)) as (m' & E & H' & O').
  { by apply wr_timestamp_at. }
  exists m'. split; [|split; [done|]].
  - unfold update_timestamp_at. do 2 mstep. exact E.
  - eapply only_trans; [|exact O'].
    eapply only_widen; [apply only_store|unfold_offsets; lia..].
Qed.

(** The value ranges of a header, as the source's field types give them. *)
Definition hdr_range (h : BlockHeader.t) : Prop :=
  in_u64 (size h) ∧ in_u32 (magic h) ∧ in_u64 (alloc_id h) ∧ in_u64 (timestamp h)
  ∧ in_u32 (checksum h).

Lemma write_header_spec s a h :
  hdr_range h →
  ∃ m', write_header a h s = Ret (tt, mkMachine m' (clock s))
        ∧ hdr_at m' a h ∧ only (mem s) m' a (a + HEADER_SIZE).
Proof.
  intros (R1 & R2 & R3 & R4 & R5). eexists. split; [reflexivity|].
  unfold in_u64, in_u32 in *.
  assert (0 ≤ status_discriminant (status h) < 2) by (destruct (status h); simpl; lia).
  pose proof (AllocPurpose.discriminant_range (purpose h)). split.
  - cbn [mem with_mem]. field_write.
  - cbn [mem with_mem]. unfold_offsets.
    repeat (eapply only_trans; [|eapply only_widen; [apply only_store|lia..]]).
    apply only_refl.
Qed.

Lemma user_data_addr_spec `{Profile} {S} (s : S) a :
  0 ≤ a → a + HEADER_SIZE < 2 ^ 64 → user_data_addr a s = Ret (a + HEADER_SIZE, s).
Proof. intros. unfold user_data_addr, HEADER_SIZE in *. apply usize_add_ok. lia. Qed.

(** ** From a successful read back to memory *)

Lemma status_of_byte_inv b st : status_of_byte b = Some st → b = status_discriminant st.
Proof.
  unfold status_of_byte. destruct (Z.eqb_spec b 0), (Z.eqb_spec b 1); intros [= <-]; done.
Qed.

Lemma of_byte_inv b p : AllocPurpose.of_byte b = Some p → b = AllocPurpose.discriminant p.
Proof.
  unfold AllocPurpose.of_byte. destruct (list_find _ _) as [[i q]|] eqn:E; [|done].
  intros [= <-]. by apply list_find_Some in E as (_ & <- & _).
Qed.

Lemma read_header_inv a ms h ms' : read_header a ms = Ret (h, ms') → hdr_at (mem ms) a h.
Proof.
  unfold read_header. intros E.
  apply bind_inv in E as (sz & t1 & E1 & E). injection E1 as <- <-.
  apply bind_inv in E as (st & t2 & E2 & E). apply bind_inv in E2 as (b & t & E2' & E2).
  injection E2' as <- <-. destruct (status_of_byte _) eqn:Eb; [|done]. injection E2 as <- <-.
  apply bind_inv in E as (mg & t3 & E3 & E). injection E3 as <- <-.
  apply bind_inv in E as (id & t4 & E4 & E). injection E4 as <- <-.
  apply bind_inv in E as (pu & t5 & E5 & E). apply bind_inv in E5 as (b' & t' & E5' & E5).
  injection E5' as <- <-. destruct (AllocPurpose.of_byte _) eqn:Ep; [|done]. injection E5 as <- <-.
  apply bind_inv in E as (ts & t6 & E6 & E). injection E6 as <- <-.
  apply bind_inv in E as (ck & t7 & E7 & E). injection E7 as <- <-.
  injection E as <- <-. split; try done; cbn [BlockHeader.status BlockHeader.purpose].
  - by apply status_of_byte_inv.
  - by apply of_byte_inv.
Qed.
