(* ===== verification/Allocator.v ===== *)
(** * The early allocator

    Models [EarlyAllocator] of [src/init/alloc/allocator.rs]: a first-fit
    allocator over one contiguous heap.  Every block starts with a
    [BlockHeader]; the free blocks are linked in address order through a
    [FreeBlock] stored right after their header.  The methods take [&mut self]
    and act on memory, so they are computations over [AState], the allocator's
    own fields next to the [Machine].

    A null pointer is the address 0.  The loops of the source follow pointers
    in memory and carry fuel here; [FreeList.v] and [HeapInv.v] show that the
    fuel is never the reason to stop on a well-formed heap. *)

From Stdlib Require Import ZArith Lia.
From stdpp Require Import base option numbers gmap list.
From S2P Require Import Prelude Memory Purpose Metadata.

Inductive AllocError : Type :=
| NotInitialized | AlreadyInitialized | OutOfMemory | InvalidParameter
| InvalidAlignment | InvalidPointer | DoubleFree | CorruptedHeader
| AllocatorFrozen | NullPointer | InternalError.

#[global] Instance AllocError_eq_dec : EqDecision AllocError.
Proof. solve_decision. Defined.

(** [FreeBlock]: [next] at offset 0, [prev] at offset 8. *)
Definition FREE_BLOCK_SIZE : Z := 16.
Definition rd_next (p : Z) : M Machine Z := rd 8 p.
Definition rd_prev (p : Z) : M Machine Z := rd 8 (p + 8).
Definition wr_next (p v : Z) : M Machine unit := wr 8 p v.
Definition wr_prev (p v : Z) : M Machine unit := wr 8 (p + 8) v.

(** [mem::align_of::<usize>()] *)
Definition ALIGN_USIZE : Z := 8.

Record EarlyAllocator : Type := mkEarlyAllocator {
  heap_start : Z;
  heap_end : Z;
  free_list_head : Z;
  stats : AllocStats.t;
  frozen : bool;
  next_alloc_id : Z;
}.

Record AState : Type := mkAState { self : EarlyAllocator; mach : Machine }.

Definition set_free_list_head (v : Z) (a : EarlyAllocator) : EarlyAllocator :=
  mkEarlyAllocator (heap_start a) (heap_end a) v (stats a) (frozen a) (next_alloc_id a).
Definition set_stats (v : AllocStats.t) (a : EarlyAllocator) : EarlyAllocator :=
  mkEarlyAllocator (heap_start a) (heap_end a) (free_list_head a) v (frozen a)
    (next_alloc_id a).
Definition set_frozen (v : bool) (a : EarlyAllocator) : EarlyAllocator :=
  mkEarlyAllocator (heap_start a) (heap_end a) (free_list_head a) (stats a) v
    (next_alloc_id a).
Definition set_next_alloc_id (v : Z) (a : EarlyAllocator) : EarlyAllocator :=
  mkEarlyAllocator (heap_start a) (heap_end a) (free_list_head a) (stats a) (frozen a) v.

Definition upd_self (f : EarlyAllocator → EarlyAllocator) : M AState unit :=
  modify (λ s, mkAState (f (self s)) (mach s)).

(** Memory accesses and statistics updates from a method. *)
Definition hw {A} (m : M Machine A) : M AState A :=
  zoom mach (λ t s, mkAState (self s) t) m.
Definition on_stats {A} (m : M AllocStats.t A) : M AState A :=
  zoom (λ s, stats (self s)) (λ t s, mkAState (set_stats t (self s)) (mach s)) m.

(** Fuel for a walk over blocks: each step advances by at least a header, so a
    walk over a heap of [n] bytes leaves it after at most [n / 48 + 1] steps. *)
Definition walk_fuel (a : EarlyAllocator) : nat :=
  S (S (Z.to_nat ((heap_end a - heap_start a) / HEADER_SIZE))).

Section methods.
Context {P : Profile}.

Definition min_block_size : Z := HEADER_SIZE + FREE_BLOCK_SIZE.
Definition min_heap_size : Z := min_block_size * 2.

(** [EarlyAllocator::new]: one free block that spans the heap. *)
Definition EarlyAllocator_new (start sz : Z) : M Machine (result AllocError EarlyAllocator) :=
  if (start =? 0) || (sz <? min_heap_size) then mret (Err InvalidParameter)
  else
    hend ← usize_add start sz;
    hsz ← usize_sub sz HEADER_SIZE;
    hdr ← BlockHeader.new hsz Free;
    write_header start hdr;;
    fb ← usize_add start HEADER_SIZE;
    wr_next fb 0;;
    wr_prev fb 0;;
    let st := AllocStats.new sz in
    let st := AllocStats.set_free_size sz st in
    let st := AllocStats.set_free_count 1 st in
    let st := AllocStats.set_max_free_block_size sz st in
    mret (Ok (mkEarlyAllocator start hend fb st false 1)).

Definition get_header_from_free_block {S} (free_block : Z) : M S Z :=
  usize_sub free_block HEADER_SIZE.

Definition calculate_aligned_addr {S} (block_addr align : Z) : M S Z :=
  data_addr ← usize_add block_addr HEADER_SIZE;
  x ← usize_add data_addr align;
  x ← usize_sub x 1;
  y ← usize_sub align 1;
  mret (Z.land x (usize_not y)).

(** First fit over the free list. *)
Fixpoint find_free_loop (fuel : nat) (current sz align : Z) : M AState (option (Z * Z)) :=
  match fuel with
  | O => hang
  | S fuel' =>
      if current =? 0 then mret None
      else
        header ← get_header_from_free_block current;
        block_size ← hw (rd_size header);
        user_addr ← calculate_aligned_addr header align;
        offset ← usize_sub user_addr header;
        required_space ← usize_add offset sz;
        if required_space <=? block_size then mret (Some (header, user_addr))
        else
          next ← hw (rd_next current);
          find_free_loop fuel' next sz align
  end.

Definition find_free_block (sz align : Z) : M AState (option (Z * Z)) :=
  a ← gets self;
  find_free_loop (walk_fuel a) (free_list_head a) sz align.

Definition remove_from_free_list (block : Z) : M AState unit :=
  prev ← hw (rd_prev block);
  next ← hw (rd_next block);
  (if negb (prev =? 0) then hw (wr_next prev next)
   else upd_self (set_free_list_head next));;
  next' ← hw (rd_next block);
  if negb (next' =? 0) then
    prev' ← hw (rd_prev block);
    hw (wr_prev next' prev')
  else mret tt.

(** The scan of [insert_into_free_list] for the node to insert after. *)
Fixpoint insert_scan (fuel : nat) (current block_addr : Z) : M AState Z :=
  match fuel with
  | O => hang
  | S fuel' =>
      next ← hw (rd_next current);
      if next =? 0 then mret current
      else
        h ← get_header_from_free_block next;
        if h <? block_addr then insert_scan fuel' next block_addr
        else mret current
  end.

Definition insert_into_free_list (block : Z) : M AState unit :=
  block_addr ← get_header_from_free_block block;
  a ← gets self;
  let current := free_list_head a in
  at_head ← (if current =? 0 then mret true
             else h ← get_header_from_free_block current; mret (block_addr <? h));
  if (at_head : bool) then
    hw (wr_next block current);;
    hw (wr_prev block 0);;
    (if negb (current =? 0) then hw (wr_prev current block) else mret tt);;
    upd_self (set_free_list_head block)
  else
    current ← insert_scan (walk_fuel a) current block_addr;
    next ← hw (rd_next current);
    hw (wr_next block next);;
    hw (wr_prev block current);;
    next' ← hw (rd_next current);
    (if negb (next' =? 0) then hw (wr_prev next' block) else mret tt);;
    hw (wr_next current block).

(** [self.stats.free_size += d], [self.stats.free_count += d] and their
    subtracting forms. *)
Definition add_free_size (d : Z) : M AState unit :=
  st ← gets (λ s, stats (self s));
  v ← usize_add (AllocStats.free_size st) d;
  upd_self (set_stats (AllocStats.set_free_size v st)).
Definition sub_free_size (d : Z) : M AState unit :=
  st ← gets (λ s, stats (self s));
  v ← usize_sub (AllocStats.free_size st) d;
  upd_self (set_stats (AllocStats.set_free_size v st)).
Definition add_free_count (d : Z) : M AState unit :=
  st ← gets (λ s, stats (self s));
  v ← usize_add (AllocStats.free_count st) d;
  upd_self (set_stats (AllocStats.set_free_count v st)).
Definition sub_free_count (d : Z) : M AState unit :=
  st ← gets (λ s, stats (self s));
  v ← usize_sub (AllocStats.free_count st) d;
  upd_self (set_stats (AllocStats.set_free_count v st)).

(** The body both halves of [coalesce] share: the free block at [other] (its
    node [other_free] leaves the list) becomes part of the one at [header]. *)
Definition absorb (header other other_free : Z) : M AState unit :=
  remove_from_free_list other_free;;
  ts ← hw (total_size_at other);
  sz ← hw (rd_size header);
  sz' ← usize_add sz ts;
  hw (wr_size header sz');;
  hw (update_checksum_at header);;
  on_stats AllocStats.record_merge;;
  sub_free_count 1.

Definition coalesce_next (header : Z) : M AState unit :=
  a ← gets self;
  ts ← hw (total_size_at header);
  next_header ← usize_add header ts;
  if next_header <? heap_end a then
    status ← hw (rd_status next_header);
    if bool_decide (status = Free) then
      next_free ← usize_add next_header HEADER_SIZE;
      absorb header next_header next_free
    else mret tt
  else mret tt.

Definition coalesce_prev (block header : Z) : M AState unit :=
  prev ← hw (rd_prev block);
  if negb (prev =? 0) then
    prev_block ← hw (rd_prev block);
    prev_header ← get_header_from_free_block prev_block;
    pts ← hw (total_size_at prev_header);
    prev_end ← usize_add prev_header pts;
    if prev_end =? header then absorb prev_header header block
    else mret tt
  else mret tt.

Definition coalesce (block : Z) : M AState unit :=
  header ← get_header_from_free_block block;
  coalesce_next header;;
  coalesce_prev block header.

(** Mark a block allocated: status, fresh id, timestamp and checksum. *)
Definition mark_allocated (block_header : Z) : M AState unit :=
  hw (wr_status block_header Allocated);;
  a ← gets self;
  hw (wr_alloc_id block_header (next_alloc_id a));;
  id' ← u64_add (next_alloc_id a) 1;
  upd_self (set_next_alloc_id id');;
  hw (update_timestamp_at block_header);;
  hw (update_checksum_at block_header).

Definition alloc_fail : M AState (option Z) :=
  on_stats AllocStats.record_alloc_failure;; mret None.

(** [NonNull::new] *)
Definition NonNull_new (p : Z) : option Z := if p =? 0 then None else Some p.

(** Take the chosen block off the free list and out of the free totals. *)
Definition take_block (block_addr block_size : Z) : M AState unit :=
  free_block ← usize_add block_addr HEADER_SIZE;
  remove_from_free_list free_block;;
  taken ← usize_add block_size HEADER_SIZE;
  sub_free_size taken;;
  sub_free_count 1.

(** Cut the taken block in two: the allocated part and a new free block.  When
    [required_size] is not a multiple of eight the new header is misaligned; the
    accesses to it are ordinary loads and stores here ([Requests.v] tells when
    that happens). *)
Definition split_block (block_header block_size required_size : Z) : M AState unit :=
  new_free_block_addr ← usize_add block_header required_size;
  new_free_block_size ← usize_sub block_size required_size;
  kept ← usize_sub required_size HEADER_SIZE;
  hw (wr_size block_header kept);;
  mark_allocated block_header;;
  new_header ← hw (BlockHeader.new new_free_block_size Free);
  hw (write_header new_free_block_addr new_header);;
  new_free ← usize_add new_free_block_addr HEADER_SIZE;
  insert_into_free_list new_free;;
  on_stats (AllocStats.record_split new_free_block_size);;
  back ← usize_add new_free_block_size HEADER_SIZE;
  add_free_size back;;
  add_free_count 1.

Definition alloc_aligned (sz align : Z) : M AState (option Z) :=
  a ← gets self;
  if frozen a then alloc_fail
  else if (sz =? 0) || negb (is_power_of_two align) then alloc_fail
  else
    let alloc_size := Z.max sz FREE_BLOCK_SIZE in
    found ← find_free_block alloc_size align;
    match found with
    | None => alloc_fail
    | Some (block_header, user_addr) =>
        block_size ← hw (rd_size block_header);
        take_block block_header block_size;;
        offset ← usize_sub user_addr block_header;
        required_size ← usize_add offset alloc_size;
        split_at ← usize_add required_size min_block_size;
        (if split_at <=? block_size
         then split_block block_header block_size required_size
         else mark_allocated block_header);;
        final ← hw (rd_size block_header);
        on_stats (AllocStats.record_alloc final);;
        mret (NonNull_new user_addr)
    end.

Definition alloc (sz : Z) : M AState (option Z) := alloc_aligned sz ALIGN_USIZE.

(** Mark a block free: status, timestamp and checksum. *)
Definition mark_free (header : Z) : M AState unit :=
  hw (wr_status header Free);;
  hw (update_timestamp_at header);;
  hw (update_checksum_at header).

Definition dealloc (ptr : Z) : M AState (result AllocError unit) :=
  a ← gets self;
  if frozen a then mret (Err AllocatorFrozen)
  else
    let user_ptr := ptr in
    if (user_ptr <? heap_start a) || (heap_end a <? user_ptr) then
      mret (Err InvalidPointer)
    else
      header ← usize_sub user_ptr HEADER_SIZE;
      ok ← hw (validate_at header);
      if negb ok then
        on_stats AllocStats.record_corruption;; mret (Err CorruptedHeader)
      else
        status ← hw (rd_status header);
        if bool_decide (status = Free) then
          on_stats AllocStats.record_double_free;; mret (Err DoubleFree)
        else
          block_size ← hw (rd_size header);
          on_stats (AllocStats.record_dealloc block_size);;
          back ← usize_add block_size HEADER_SIZE;
          add_free_size back;;
          add_free_count 1;;
          mark_free header;;
          free_block ← usize_add header HEADER_SIZE;
          insert_into_free_list free_block;;
          coalesce free_block;;
          mret (Ok tt).

(** [integrity_check] takes [&self]: it reads memory and changes nothing.  Its fuel
    is enough when the address grows in every round, as it does with overflow
    checks and on every well-formed heap; without the checks a corrupted size can
    take the address back, and a walk that is longer than the fuel counts as one
    that does not end. *)
Fixpoint integrity_loop (fuel : nat) (current_addr hend : Z)
    : M AState (result AllocError Z) :=
  match fuel with
  | O => hang
  | S fuel' =>
      if current_addr <? hend then
        ok ← hw (validate_at current_addr);
        if negb ok then mret (Err CorruptedHeader)
        else
          ts ← hw (total_size_at current_addr);
          next ← usize_add current_addr ts;
          integrity_loop fuel' next hend
      else mret (Ok current_addr)
  end.

Definition integrity_check : M AState (result AllocError unit) :=
  a ← gets self;
  r ← integrity_loop (walk_fuel a) (heap_start a) (heap_end a);
  match r with
  | Err e => mret (Err e)
  | Ok current_addr =>
      if negb (current_addr =? heap_end a) then mret (Err InternalError)
      else mret (Ok tt)
  end.

Definition freeze : M AState unit := upd_self (set_frozen true).

Definition set_purpose (ptr : Z) (purpose : AllocPurpose.t)
    : M AState (result AllocError unit) :=
  header ← usize_sub ptr HEADER_SIZE;
  ok ← hw (validate_at header);
  if negb ok then mret (Err CorruptedHeader)
  else
    status ← hw (rd_status header);
    if negb (bool_decide (status = Allocated)) then mret (Err InvalidPointer)
    else
      hw (wr_purpose header purpose);;
      hw (update_checksum_at header);;
      mret (Ok tt).

Definition get_stats : M AState AllocStats.t := gets (λ s, stats (self s)).

End methods.
