(* ===== verification/FreeList.v ===== *)
(** * The doubly linked free list

    [dseg m prev l nxt] says that the nodes at the addresses [l] form, in this
    order, a segment of a doubly linked list in memory [m]: the first one's
    [prev] field is [prev] and the last one's [next] field is [nxt].  The file
    proves the pointer surgery of [remove_from_free_list] and
    [insert_into_free_list], and the first-fit search of [find_free_block],
    against the list of node addresses. *)

From Stdlib Require Import ZArith Lia.
From stdpp Require Import base option numbers sorting gmap list.
From S2P Require Import Prelude Memory Purpose Metadata HeaderSpec Allocator.

Fixpoint dseg (m : memory) (prev : Z) (l : list Z) (nxt : Z) : Prop :=
  match l with
  | [] => True
  | x :: l' => load 8 m x = hd nxt l' ∧ load 8 m (x + 8) = prev ∧ dseg m x l' nxt
  end.

Definition last_or (p : Z) (l : list Z) : Z := default p (last l).

(** Node addresses come in increasing order with room for a whole block in
    between, and leave room for a header below the first. *)
Definition spaced (l : list Z) : Prop :=
  StronglySorted (λ x y, x + 64 ≤ y) l ∧ Forall (λ x, 48 < x < 2 ^ 64) l.

(** An [n]-byte access at [a] touches none of the nodes [l]. *)
Definition far (l : list Z) (a n : Z) : Prop := ∀ y, y ∈ l → y + 16 ≤ a ∨ a + n ≤ y.

(** [m'] differs from [m] only inside nodes of [l]. *)
Definition nodes_only (m m' : memory) (l : list Z) : Prop :=
  ∀ z, (∀ y, y ∈ l → z < y ∨ y + 16 ≤ z) → m' !! z = m !! z.

(** ** Segments *)

Lemma last_or_snoc p l x : last_or p (l ++ [x]) = x.
Proof. unfold last_or. by rewrite last_snoc. Qed.

Lemma last_or_cons p x l : last_or p (x :: l) = last_or x l.
Proof.
  unfold last_or. destruct l as [|y l]; [done|]. simpl.
  by destruct (last (y :: l)) eqn:E; [|apply last_None in E].
Qed.

Lemma dseg_app m p l1 l2 n :
  dseg m p (l1 ++ l2) n ↔ dseg m p l1 (hd n l2) ∧ dseg m (last_or p l1) l2 n.
Proof.
  revert p; induction l1 as [|x l1 IH]; intros p; simpl; [tauto|].
  rewrite IH, last_or_cons.
  replace (hd (hd n l2) l1) with (hd n (l1 ++ l2)) by (by destruct l1). tauto.
Qed.

Lemma dseg_agree m m' p l n :
  (∀ y, y ∈ l → agree m m' y (y + 16)) → dseg m p l n → dseg m' p l n.
Proof.
  revert p; induction l as [|x l IH]; intros p Hag; [done|]. simpl.
  intros (H1 & H2 & H3).
  assert (agree m m' x (x + 16)) as Hx by (apply Hag; elem).
  rewrite <- (load_agree 8 m m' x), <- (load_agree 8 m m' (x + 8))
    by (eapply agree_sub; [exact Hx|lia..]).
  split_and!; [done..|]. apply IH; [|done]. intros y Hy. apply Hag. elem.
Qed.

Lemma dseg_far m p l n k a v :
  far l a (Z.of_nat k) → dseg m p l n → dseg (store k m a v) p l n.
Proof.
  intros Hf. apply dseg_agree. intros y Hy. apply agree_store.
  destruct (Hf y Hy); lia.
Qed.

Lemma spaced_app l1 l2 :
  spaced (l1 ++ l2) ↔
  spaced l1 ∧ spaced l2 ∧ (∀ x y, x ∈ l1 → y ∈ l2 → x + 64 ≤ y).
Proof.
  unfold spaced. rewrite StronglySorted_app, Forall_app. tauto.
Qed.

Lemma spaced_cons x l :
  spaced (x :: l) ↔ 48 < x < 2 ^ 64 ∧ spaced l ∧ (∀ y, y ∈ l → x + 64 ≤ y).
Proof.
  unfold spaced. rewrite StronglySorted_cons, Forall_cons, (Forall_forall (λ y, _ ≤ y)).
  tauto.
Qed.

Lemma spaced_elem l x : spaced l → x ∈ l → 48 < x < 2 ^ 64.
Proof. intros [_ H] Hx. rewrite Forall_forall in H. auto. Qed.

Lemma spaced_nil : spaced [].
Proof. split; constructor. Qed.

#[export] Hint Resolve spaced_nil : rustos.

(** Retargeting the last node's [next], and the first node's [prev]. *)
Lemma dseg_set_next m p l y n v :
  spaced (l ++ [y]) → 0 ≤ v < 2 ^ 64 →
  dseg m p (l ++ [y]) n → dseg (store 8 m y v) p (l ++ [y]) v.
Proof.
  intros Hs Hv. rewrite !dseg_app. simpl. intros (H1 & H2 & H3 & _).
  apply spaced_app in Hs as (_ & _ & Hs).
  split_and!; [|by apply load_store_small|by rewrite load_store_ne by lia|done].
  apply dseg_far; [|done]. intros z Hz. left.
  assert (z + 64 ≤ y) by (apply Hs; elem). lia.
Qed.

Lemma dseg_set_prev m p z l n v :
  spaced (z :: l) → 0 ≤ v < 2 ^ 64 →
  dseg m p (z :: l) n → dseg (store 8 m (z + 8) v) v (z :: l) n.
Proof.
  intros Hs Hv. apply spaced_cons in Hs as (_ & _ & Hs). simpl. intros (H1 & H2 & H3).
  split_and!; [by rewrite load_store_ne by lia|by apply load_store_small|].
  apply dseg_far; [|done]. intros y Hy. right. specialize (Hs y Hy). lia.
Qed.

Lemma nodes_only_refl m l : nodes_only m m l.
Proof. by intros z _. Qed.

Lemma nodes_only_trans m1 m2 m3 l :
  nodes_only m1 m2 l → nodes_only m2 m3 l → nodes_only m1 m3 l.
Proof. intros H1 H2 z Hz. by rewrite H2, H1. Qed.

Lemma nodes_only_mono m m' l l' : nodes_only m m' l → l ⊆ l' → nodes_only m m' l'.
Proof. intros H Hl z Hz. apply H. intros y Hy. apply Hz. auto. Qed.

Lemma nodes_only_next m y v l : y ∈ l → nodes_only m (store 8 m y v) l.
Proof. intros Hy z Hz. apply store_lookup_out. specialize (Hz y Hy). lia. Qed.

Lemma nodes_only_prev m y v l : y ∈ l → nodes_only m (store 8 m (y + 8) v) l.
Proof. intros Hy z Hz. apply store_lookup_out. specialize (Hz y Hy). lia. Qed.

#[export] Hint Resolve nodes_only_refl : rustos.

(** The fields of a node in the middle of a list. *)
Lemma dseg_mid m p l1 x l2 n :
  dseg m p (l1 ++ x :: l2) n →
  load 8 m x = hd n l2 ∧ load 8 m (x + 8) = last_or p l1.
Proof. rewrite dseg_app. simpl. tauto. Qed.

Lemma hd_range l : spaced l → 0 ≤ hd 0 l < 2 ^ 64.
Proof. destruct l; [simpl; lia|]. intros H. simpl. apply spaced_cons in H. lia. Qed.

Lemma last_or_range l : spaced l → 0 ≤ last_or 0 l < 2 ^ 64.
Proof.
  unfold last_or. destruct (last l) as [x|] eqn:E; [|simpl; lia].
  intros H. simpl. apply last_Some in E as [l' ->].
  apply spaced_elem with (x := x) in H; [lia|elem].
Qed.

(** ** Unlinking a node *)

Lemma hw_rd n a s : hw (rd n a) s = Ret (load n (mem (mach s)) a, s).
Proof. unfold hw, zoom, rd, gets. by destruct s. Qed.

Lemma hw_wr n a v s :
  hw (wr n a v) s =
  Ret (tt, mkAState (self s) (mkMachine (store n (mem (mach s)) a v) (clock (mach s)))).
Proof. reflexivity. Qed.

(** [set_mem m' s]: the state with another memory. *)
Definition set_mem (m' : memory) (s : AState) : AState :=
  mkAState (self s) (mkMachine m' (clock (mach s))).

Lemma set_free_list_head_id a : set_free_list_head (free_list_head a) a = a.
Proof. by destruct a. Qed.

Lemma set_free_list_head_id' a v : free_list_head a = v → set_free_list_head v a = a.
Proof. intros <-. apply set_free_list_head_id. Qed.

(** What unlinking does to memory: the neighbours, where they exist, point
    past the node. *)
Definition relink (m : memory) (prev next : Z) : memory :=
  let m1 := if prev =? 0 then m else store 8 m prev next in
  if next =? 0 then m1 else store 8 m1 (next + 8) prev.

Lemma remove_run (s : AState) x prev next :
  load 8 (mem (mach s)) x = next → load 8 (mem (mach s)) (x + 8) = prev →
  (prev ≠ 0 → prev + 16 ≤ x ∨ x + 16 ≤ prev) →
  remove_from_free_list x s =
  Ret (tt, mkAState (if prev =? 0 then set_free_list_head next (self s) else self s)
             (mkMachine (relink (mem (mach s)) prev next) (clock (mach s)))).
Proof.
  intros Hn Hp Hsep. unfold remove_from_free_list, rd_prev, rd_next, wr_next, wr_prev.
  mstep_by hw_rd. mstep_by hw_rd. rewrite Hn, Hp. unfold relink.
  destruct (prev =? 0) eqn:Ep; cbn [negb]; b2p.
  - mstep. mstep_by hw_rd. cbn [mach mem]. rewrite Hn.
    destruct (next =? 0); cbn [negb]; [by destruct s as [? []]|].
    mstep_by hw_rd. cbn [mach mem]. by rewrite Hp.
  - mstep. mstep_by hw_rd. cbn [mach mem with_mem]. rewrite load_store_ne by lia.
    rewrite Hn. destruct (next =? 0); cbn [negb]; [done|].
    mstep_by hw_rd. cbn [mach mem with_mem]. rewrite load_store_ne by lia. by rewrite Hp.
Qed.

Lemma relink_dseg m l1 x l2 :
  spaced (l1 ++ x :: l2) → dseg m 0 (l1 ++ x :: l2) 0 →
  dseg (relink m (last_or 0 l1) (hd 0 l2)) 0 (l1 ++ l2) 0
  ∧ nodes_only m (relink m (last_or 0 l1) (hd 0 l2)) (l1 ++ l2).
Proof.
  intros Hs Hd. rewrite spaced_app, spaced_cons in Hs.
  destruct Hs as (Hs1 & (_ & Hs2 & _) & Hsep).
  assert (∀ y z, y ∈ l1 → z ∈ l2 → y + 64 ≤ z) as Hsep'
    by (intros ????; apply Hsep; elem).
  pose proof (hd_range _ Hs2) as Hn. pose proof (last_or_range _ Hs1) as Hp.
  rewrite dseg_app in Hd. destruct Hd as (Hd1 & _ & _ & Hd2).
  unfold relink. rewrite dseg_app.
  destruct (last_or 0 l1 =? 0) eqn:E1; b2p.
  - assert (l1 = []) as ->.
    { destruct l1 as [|y l1 _] using rev_ind; [done|]. rewrite last_or_snoc in E1.
      apply spaced_elem with (x := y) in Hs1; [lia|elem]. }
    destruct l2 as [|z l2]; [simpl; auto with rustos|].
    replace (hd 0 (z :: l2) =? 0) with false
      by (symmetry; apply Z.eqb_neq; apply spaced_cons in Hs2; simpl; lia).
    split; [split; [done|]; by eapply dseg_set_prev|].
    apply nodes_only_prev. elem.
  - destruct l1 as [|y l1 _] using rev_ind; [done|]. rewrite last_or_snoc in *.
    destruct l2 as [|z l2]; cbn [hd] in *.
    + rewrite Z.eqb_refl. split; [split; [by eapply dseg_set_next|done]|].
      apply nodes_only_next. elem.
    + apply spaced_cons in Hs2 as Hz.
      replace (z =? 0) with false by (symmetry; apply Z.eqb_neq; lia).
      split; [split|].
      * apply dseg_far; [|by eapply dseg_set_next].
        intros w Hw. left. assert (w + 64 ≤ z) by (apply Hsep'; elem). lia.
      * eapply dseg_set_prev; [done|lia|]. apply dseg_far; [|done].
        intros w Hw. right. assert (y + 64 ≤ w) by (apply Hsep'; elem). lia.
      * eapply nodes_only_trans; [apply nodes_only_next|apply nodes_only_prev]; elem.
Qed.

Lemma remove_spec (s : AState) l1 x l2 :
  spaced (l1 ++ x :: l2) → dseg (mem (mach s)) 0 (l1 ++ x :: l2) 0 →
  free_list_head (self s) = hd 0 (l1 ++ x :: l2) →
  ∃ m', remove_from_free_list x s =
          Ret (tt, mkAState (set_free_list_head (hd 0 (l1 ++ l2)) (self s))
                     (mkMachine m' (clock (mach s))))
        ∧ dseg m' 0 (l1 ++ l2) 0 ∧ nodes_only (mem (mach s)) m' (l1 ++ l2).
Proof.
  intros Hs Hd Hh. destruct (dseg_mid _ _ _ _ _ _ Hd) as [Hn Hp].
  destruct (relink_dseg _ _ _ _ Hs Hd) as [Hd' Ho].
  apply spaced_app in Hs as (Hs1 & _ & Hsep).
  eexists. split; [|split; [exact Hd'|exact Ho]].
  rewrite (remove_run s x _ _ Hn Hp).
  - destruct l1 as [|y l1]; [done|].
    assert (last_or 0 (y :: l1) ≠ 0) as Hne.
    { unfold last_or. destruct (last (y :: l1)) as [w|] eqn:E; [|by apply last_None in E].
      apply last_Some_elem_of in E. apply (spaced_elem _ _ Hs1) in E. simpl. lia. }
    apply Z.eqb_neq in Hne as ->. simpl in Hh |- *. rewrite <- Hh.
    by rewrite set_free_list_head_id.
  - intros Hne. left. unfold last_or in *. destruct (last l1) as [w|] eqn:E; [|done].
    simpl. apply last_Some_elem_of in E. 
    assert (w + 64 ≤ x) by (apply Hsep; elem). lia.
Qed.

(** ** Inserting a node in address order *)

Definition link (m : memory) (prev x next : Z) : memory :=
  let m1 := store 8 (store 8 m x next) (x + 8) prev in
  let m2 := if next =? 0 then m1 else store 8 m1 (next + 8) x in
  if prev =? 0 then m2 else store 8 m2 prev x.

Lemma link_dseg m l1 x l2 :
  spaced (l1 ++ x :: l2) → dseg m 0 (l1 ++ l2) 0 →
  dseg (link m (last_or 0 l1) x (hd 0 l2)) 0 (l1 ++ x :: l2) 0
  ∧ nodes_only m (link m (last_or 0 l1) x (hd 0 l2)) (l1 ++ x :: l2).
Proof.
  intros Hs Hd. rewrite spaced_app, spaced_cons in Hs.
  destruct Hs as (Hs1 & (Hx & Hs2 & Hxs) & Hsep).
  pose proof (hd_range _ Hs2) as Hn. pose proof (last_or_range _ Hs1) as Hp.
  assert (∀ y, y ∈ l1 → y + 64 ≤ x) as Hlo by (intros; apply Hsep; elem).
  assert (∀ y z, y ∈ l1 → z ∈ l2 → y + 64 ≤ z) as Hsep' by (intros; apply Hsep; elem).
  rewrite dseg_app in Hd. destruct Hd as [Hd1 Hd2]. unfold link.
  set (m1 := store 8 (store 8 m x (hd 0 l2)) (x + 8) (last_or 0 l1)).
  assert (load 8 m1 x = hd 0 l2 ∧ load 8 m1 (x + 8) = last_or 0 l1) as [Hm1 Hm1'].
  { unfold m1. split; [rewrite load_store_ne by lia|]; apply load_store_small; simpl; lia. }
  assert (dseg m1 0 l1 (hd 0 l2)) as Hd1'.
  { unfold m1. apply dseg_far; [|apply dseg_far; [|done]]; intros y Hy; left; apply Hlo in Hy; lia. }
  assert (dseg m1 (last_or 0 l1) l2 0) as Hd2'.
  { unfold m1. apply dseg_far; [|apply dseg_far; [|done]]; intros y Hy; right; apply Hxs in Hy; lia. }
  assert (nodes_only m m1 (l1 ++ x :: l2)) as Ho1.
  { unfold m1. eapply nodes_only_trans; [apply nodes_only_next|apply nodes_only_prev]; elem. }
  clearbody m1.
  (* the successor's [prev] *)
  assert (∃ m2, m2 = (if hd 0 l2 =? 0 then m1 else store 8 m1 (hd 0 l2 + 8) x)
            ∧ load 8 m2 x = hd 0 l2 ∧ load 8 m2 (x + 8) = last_or 0 l1
            ∧ dseg m2 0 l1 (hd 0 l2) ∧ dseg m2 x l2 0 ∧ nodes_only m m2 (l1 ++ x :: l2))
    as (m2 & <- & Hm2 & Hm2' & Hd1'' & Hd2'' & Ho2).
  { destruct l2 as [|z l2]; cbn [hd] in *; [by exists m1|].
    assert (x + 64 ≤ z) by (apply Hxs; elem).
    replace (z =? 0) with false by (symmetry; apply Z.eqb_neq; lia).
    exists (store 8 m1 (z + 8) x). split_and!; [done|by rewrite load_store_ne by lia..| | |].
    - apply dseg_far; [|done]. intros y Hy. left. apply Hlo in Hy. lia.
    - eapply dseg_set_prev; [done|lia|done].
    - eapply nodes_only_trans; [done|]. apply nodes_only_prev; elem. }
  rewrite dseg_app. cbn [hd dseg]. destruct l1 as [|y l1 _] using rev_ind.
  { simpl. split_and!; done. }
  rewrite last_or_snoc in *. assert (y + 64 ≤ x) by (apply Hlo; elem).
  assert (48 < y) by (apply (spaced_elem _ _ Hs1); elem).
  replace (y =? 0) with false by (symmetry; apply Z.eqb_neq; lia).
  split; [split_and!|].
  - eapply dseg_set_next; [done|lia|done].
  - by rewrite load_store_ne by lia.
  - by rewrite load_store_ne by lia.
  - apply dseg_far; [|done]. intros z Hz. right. apply Hxs in Hz. lia.
  - eapply nodes_only_trans; [done|]. apply nodes_only_next; elem.
Qed.

Section walks.
Context {P : Profile}.

Lemma get_header_ok {S} x (s : S) :
  48 ≤ x < 2 ^ 64 → get_header_from_free_block x s = Ret (x - 48, s).
Proof. intros. unfold get_header_from_free_block, HEADER_SIZE. apply usize_sub_ok. lia. Qed.

Lemma insert_scan_spec fuel (s : AState) p c l1 l2 x :
  dseg (mem (mach s)) p (c :: l1 ++ l2) 0 → spaced (l1 ++ x :: l2) →
  (length l1 < fuel)%nat →
  insert_scan fuel c (x - 48) s = Ret (last_or c l1, s).
Proof.
  revert p c l1. induction fuel as [|fuel IH]; [lia|].
  intros p c l1 Hd Hs Hf. cbn [insert_scan]. unfold rd_next. mstep_by hw_rd.
  cbn [dseg] in Hd. destruct Hd as (Hn & _ & Hd). rewrite Hn.
  apply spaced_app in Hs as (Hs1 & Hs2 & Hsep).
  apply spaced_cons in Hs2 as (Hx & Hs2 & Hhi).
  destruct l1 as [|y l1]; cbn [app hd] in *.
  - destruct l2 as [|z l2]; cbn [hd]; [done|].
    apply spaced_cons in Hs2 as (Hz & _ & _). assert (x + 64 ≤ z) by (apply Hhi; elem).
    replace (z =? 0) with false by (symmetry; apply Z.eqb_neq; lia).
    mstep_by @get_header_ok; [lia|].
    by replace (z - 48 <? x - 48) with false by (symmetry; apply Z.ltb_ge; lia).
  - assert (y + 64 ≤ x) by (apply Hsep; elem).
    apply spaced_cons in Hs1 as (Hy & Hs1 & _).
    replace (y =? 0) with false by (symmetry; apply Z.eqb_neq; lia).
    mstep_by @get_header_ok; [lia|].
    replace (y - 48 <? x - 48) with true by (symmetry; apply Z.ltb_lt; lia).
    rewrite last_or_cons. eapply IH; [exact Hd| |simpl in Hf; lia].
    apply spaced_app; split_and!; [done| |].
    + apply spaced_cons. done.
    + intros a b Ha Hb. apply Hsep; elem.
Qed.

Lemma insert_spec (s : AState) l1 x l2 :
  spaced (l1 ++ x :: l2) → dseg (mem (mach s)) 0 (l1 ++ l2) 0 →
  free_list_head (self s) = hd 0 (l1 ++ l2) →
  (length l1 < walk_fuel (self s))%nat →
  ∃ m', insert_into_free_list x s =
          Ret (tt, mkAState (set_free_list_head (hd 0 (l1 ++ x :: l2)) (self s))
                     (mkMachine m' (clock (mach s))))
        ∧ dseg m' 0 (l1 ++ x :: l2) 0 ∧ nodes_only (mem (mach s)) m' (l1 ++ x :: l2).
Proof.
  intros Hs Hd Hh Hf. destruct (link_dseg _ _ _ _ Hs Hd) as [Hd' Ho].
  eexists. split; [|split; [exact Hd'|exact Ho]].
  pose proof Hs as Hs'. apply spaced_app in Hs' as (Hs1 & Hs2 & Hsep).
  apply spaced_cons in Hs2 as (Hx & Hs2 & Hhi).
  unfold insert_into_free_list. mstep_by @get_header_ok; [lia|]. mstep.
  rewrite Hh. destruct l1 as [|c l1]; cbn [app hd] in *.
  - unfold link. change (last_or 0 []) with 0. rewrite Z.eqb_refl.
    destruct l2 as [|z l2]; cbn [hd].
    + repeat mstep. reflexivity.
    + assert (x + 64 ≤ z) by (apply Hhi; elem). apply spaced_cons in Hs2 as (Hz & _).
      assert ((z =? 0) = false) as -> by (apply Z.eqb_neq; lia).
      mstep_with ltac:(mstep_by @get_header_ok; [lia|reflexivity]).
      replace (x - 48 <? z - 48) with true by (symmetry; apply Z.ltb_lt; lia).
      repeat mstep. reflexivity.
  - assert (c + 64 ≤ x) by (apply Hsep; elem). apply spaced_cons in Hs1 as (Hc & Hs1 & Hcl).
    assert ((c =? 0) = false) as -> by (apply Z.eqb_neq; lia).
    mstep_with ltac:(mstep_by @get_header_ok; [lia|reflexivity]).
    replace (x - 48 <? c - 48) with false by (symmetry; apply Z.ltb_ge; lia).
    mstep_by insert_scan_spec; [exact Hd| |simpl in Hf; lia|].
    { by apply spaced_cons in Hs as (_ & Hs & _). }
    rewrite <- (last_or_cons 0 c l1).
    set (w := last_or 0 (c :: l1)).
    assert (load 8 (mem (mach s)) w = hd 0 l2 ∧ 48 < w ∧ w + 64 ≤ x) as (Hw & Hw' & Hwx).
    { unfold w, last_or. destruct (last (c :: l1)) as [v|] eqn:E; [|by apply last_None in E].
      simpl. pose proof E as E'. apply last_Some_elem_of in E'.
      split; [|split; [|apply Hsep; elem]].
      - apply last_Some in E as [l' E]. change (c :: l1 ++ l2) with ((c :: l1) ++ l2) in Hd.
        rewrite E, <- app_assoc in Hd. by apply dseg_mid in Hd as [? _].
      - apply elem_of_cons in E' as [->|E']; [lia|]. apply Hcl in E'. lia. }
    unfold rd_next, wr_next, wr_prev. mstep_by hw_rd. rewrite Hw. do 2 mstep.
    mstep_by hw_rd. cbn [mach mem with_mem]. rewrite !load_store_ne by lia. rewrite Hw.
    unfold link. fold w. assert ((w =? 0) = false) as -> by (apply Z.eqb_neq; lia).
    rewrite set_free_list_head_id' by done.
    destruct (hd 0 l2 =? 0); cbn [negb]; mstep; reflexivity.
Qed.

(** ** First fit *)

(** The address of the user data in a block whose header is at [header]: the
    first multiple of [align] after the header. *)
Definition user_addr_of (header align : Z) : Z :=
  let x := header + HEADER_SIZE + align - 1 in x - x mod align.

Lemma user_addr_of_spec header align :
  0 < align →
  header + HEADER_SIZE ≤ user_addr_of header align < header + HEADER_SIZE + align
  ∧ user_addr_of header align mod align = 0.
Proof.
  intros Ha. unfold user_addr_of. cbv zeta.
  set (x := header + HEADER_SIZE + align - 1).
  pose proof (Z.mod_pos_bound x align Ha). pose proof (Z.div_mod x align) as E.
  split; [lia|]. replace (x - x mod align) with (x / align * align) by lia.
  apply Z.mod_mul. lia.
Qed.

(** An aligned header needs no padding. *)
Lemma user_addr_of_aligned header align :
  0 < align → (header + HEADER_SIZE) mod align = 0 →
  user_addr_of header align = header + HEADER_SIZE.
Proof.
  intros Ha E. unfold user_addr_of. cbv zeta.
  pose proof (Z.div_mod (header + HEADER_SIZE) align).
  rewrite <- (Z.mod_unique (header + HEADER_SIZE + align - 1) align
                ((header + HEADER_SIZE) / align) (align - 1)); lia.
Qed.

Lemma calculate_aligned_addr_spec {S} header align (s : S) :
  0 ≤ header → is_power_of_two align = true → header + HEADER_SIZE + align < 2 ^ 64 →
  calculate_aligned_addr header align s = Ret (user_addr_of header align, s).
Proof.
  intros Hh Ha Hb. apply is_power_of_two_spec in Ha as (k & Hk & ->).
  pose proof (Z.pow_pos_nonneg 2 k). unfold HEADER_SIZE in *.
  unfold calculate_aligned_addr, HEADER_SIZE. do 4 mstep_arith.
  unfold mret, M_ret, user_addr_of, HEADER_SIZE. do 2 f_equal.
  apply land_usize_not_pow2; [lia|]. split; [done|].
  apply (Z.pow_lt_mono_r_iff 2); lia.
Qed.

(** The block behind node [y] can hold [sz] bytes aligned to [align]. *)
Definition fits (m : memory) (sz align y : Z) : Prop :=
  user_addr_of (y - 48) align - (y - 48) + sz ≤ load 8 m (y - 48).

#[global] Instance fits_dec m sz align y : Decision (fits m sz align y).
Proof. unfold fits. apply _. Defined.

Lemma find_free_loop_spec fuel (s : AState) p l sz align :
  dseg (mem (mach s)) p l 0 → spaced l → (length l < fuel)%nat →
  0 < sz → is_power_of_two align = true → 48 + align + sz ≤ 2 ^ 64 →
  (∀ y, y ∈ l → y + align < 2 ^ 64) →
  find_free_loop fuel (hd 0 l) sz align s =
  Ret ((λ y, (y - 48, user_addr_of (y - 48) align)) <$>
         head (filter (fits (mem (mach s)) sz align) l), s).
Proof.
  intros Hd Hs Hf Hsz Ha Hb Hl. revert p l Hd Hs Hf Hl.
  pose proof Ha as (k & Hk & Hak)%is_power_of_two_spec.
  assert (0 < align) as Hpos by (rewrite Hak; by apply Z.pow_pos_nonneg).
  induction fuel as [|fuel IH]; [lia|]. intros p [|y l] Hd Hs Hf Hl; [done|].
  cbn [hd find_free_loop]. apply spaced_cons in Hs as (Hy & Hs & _).
  assert ((y =? 0) = false) as -> by (apply Z.eqb_neq; lia).
  mstep_by @get_header_ok; [lia|]. unfold rd_size. mstep_by hw_rd.
  pose proof (user_addr_of_spec (y - 48) align Hpos) as [Hu _]. unfold HEADER_SIZE in Hu.
  assert (y + align < 2 ^ 64) by (apply Hl; elem).
  mstep_by @calculate_aligned_addr_spec; [lia|done|unfold HEADER_SIZE; lia|].
  do 2 mstep_arith. rewrite filter_cons.
  destruct (Z.leb_spec (user_addr_of (y - 48) align - (y - 48) + sz)
              (load 8 (mem (mach s)) (y - 48))).
  - by rewrite decide_True by (unfold fits; lia).
  - rewrite decide_False by (unfold fits; lia). cbn [dseg] in Hd. destruct Hd as (Hn & _ & Hd).
    unfold rd_next. mstep_by hw_rd. rewrite Hn.
    eapply IH; [exact Hd|done|simpl in Hf; lia|]. intros z Hz. apply Hl. elem.
Qed.

End walks.
