(* ===== verification/HeapInv.v ===== *)
(** * The heap as a sequence of blocks

    The abstract state of the allocator is the list of its block headers in
    address order.  [heap_wf s bs] relates it to the concrete state: the
    headers tile the heap, every one validates, the free list in memory is
    exactly the list of free blocks, and the statistics are the sums over
    [bs].  [heap_inv] adds that no two neighbours are both free. *)

From Stdlib Require Import ZArith Lia.
From stdpp Require Import base option numbers sorting gmap list.
From S2P Require Import Prelude Memory Purpose Metadata HeaderSpec Allocator FreeList.

Abbreviation header := BlockHeader.t.

Definition is_free (h : header) : bool := bool_decide (BlockHeader.status h = Free).
Definition total (h : header) : Z := BlockHeader.size h + HEADER_SIZE.

(** Sums over blocks. *)
Fixpoint sumZ (f : header → Z) (bs : list header) : Z :=
  match bs with [] => 0 | h :: r => f h + sumZ f r end.

Definition span : list header → Z := sumZ total.
Definition used_bytes : list header → Z :=
  sumZ (λ h, if is_free h then 0 else BlockHeader.size h).
Definition free_bytes : list header → Z := sumZ (λ h, if is_free h then total h else 0).
Definition free_blocks : list header → Z := sumZ (λ h, if is_free h then 1 else 0).
Definition used_blocks : list header → Z := sumZ (λ h, if is_free h then 0 else 1).

(** The headers of [bs] lie back to back from address [a] on. *)
Fixpoint tiles (m : memory) (a : Z) (bs : list header) : Prop :=
  match bs with
  | [] => True
  | h :: r => hdr_at m a h ∧ tiles m (a + total h) r
  end.

(** The addresses of the [FreeBlock] nodes of the free blocks. *)
Fixpoint free_nodes (a : Z) (bs : list header) : list Z :=
  match bs with
  | [] => []
  | h :: r => (if is_free h then [a + HEADER_SIZE] else []) ++ free_nodes (a + total h) r
  end.

(** [x] is a byte of some header, or of the user area of an allocated block. *)
Fixpoint in_header (a : Z) (bs : list header) (x : Z) : Prop :=
  match bs with
  | [] => False
  | h :: r => a ≤ x < a + HEADER_SIZE ∨ in_header (a + total h) r x
  end.
Fixpoint in_user (a : Z) (bs : list header) (x : Z) : Prop :=
  match bs with
  | [] => False
  | h :: r => (is_free h = false ∧ a + HEADER_SIZE ≤ x < a + total h)
              ∨ in_user (a + total h) r x
  end.

(** No two neighbouring blocks are both free. *)
Fixpoint coalesced (bs : list header) : Prop :=
  match bs with
  | h1 :: ((h2 :: _) as r) => is_free h1 && is_free h2 = false ∧ coalesced r
  | _ => True
  end.

Definition blk_ok (h : header) : Prop :=
  BlockHeader.validate h = true ∧ 16 ≤ BlockHeader.size h.

Record stats_ok (st : AllocStats.t) (bs : list header) : Prop := {
  so_used : AllocStats.used_size st = used_bytes bs;
  so_free : AllocStats.free_size st = free_bytes bs;
  so_allocs : AllocStats.alloc_count st = used_blocks bs;
  so_frees : AllocStats.free_count st = free_blocks bs;
}.

Record heap_wf (s : AState) (bs : list header) : Prop := {
  wf_start : 0 < heap_start (self s);
  wf_end : heap_start (self s) + span bs = heap_end (self s);
  wf_bound : heap_end (self s) < 2 ^ 64;
  wf_tiles : tiles (mem (mach s)) (heap_start (self s)) bs;
  wf_ok : Forall blk_ok bs;
  wf_list : dseg (mem (mach s)) 0 (free_nodes (heap_start (self s)) bs) 0;
  wf_head : free_list_head (self s) = hd 0 (free_nodes (heap_start (self s)) bs);
  wf_stats : stats_ok (stats (self s)) bs;
  wf_clock : in_u64 (clock (mach s));
}.

Definition heap_inv (s : AState) (bs : list header) : Prop :=
  heap_wf s bs ∧ coalesced bs.

(** The event counters are at most [N]: each operation adds at most four
    to each of them, so they stay in range for [2^61] operations. *)
Record counters_below (N : Z) (a : EarlyAllocator) : Prop := {
  cb_allocs : 0 ≤ AllocStats.total_allocs (stats a) ≤ N;
  cb_frees : 0 ≤ AllocStats.total_frees (stats a) ≤ N;
  cb_failed : 0 ≤ AllocStats.failed_allocs (stats a) ≤ N;
  cb_double : 0 ≤ AllocStats.double_free_attempts (stats a) ≤ N;
  cb_corrupted : 0 ≤ AllocStats.corrupted_blocks (stats a) ≤ N;
  cb_merge : 0 ≤ AllocStats.merge_count (stats a) ≤ N;
  cb_split : 0 ≤ AllocStats.split_count (stats a) ≤ N;
  cb_coalesce : 0 ≤ AllocStats.coalesce_count (stats a) ≤ N;
  cb_id : 0 ≤ next_alloc_id a ≤ N;
}.

(** ** Block lists *)

Lemma sumZ_app f bs1 bs2 : sumZ f (bs1 ++ bs2) = sumZ f bs1 + sumZ f bs2.
Proof. induction bs1; simpl; lia. Qed.

Lemma sumZ_nonneg f bs : (∀ h, h ∈ bs → 0 ≤ f h) → 0 ≤ sumZ f bs.
Proof.
  induction bs as [|h bs IH]; simpl; [lia|]. intros H.
  assert (0 ≤ f h) by (apply H; elem). assert (0 ≤ sumZ f bs); [|lia].
  apply IH. intros g Hg. apply H. elem.
Qed.

Lemma tiles_app m a bs1 bs2 :
  tiles m a (bs1 ++ bs2) ↔ tiles m a bs1 ∧ tiles m (a + span bs1) bs2.
Proof.
  revert a; induction bs1 as [|h bs1 IH]; intros a; simpl.
  - unfold span; simpl. rewrite Z.add_0_r. tauto.
  - rewrite IH. unfold span. simpl. rewrite Z.add_assoc. tauto.
Qed.

Lemma free_nodes_app a bs1 bs2 :
  free_nodes a (bs1 ++ bs2) = free_nodes a bs1 ++ free_nodes (a + span bs1) bs2.
Proof.
  revert a; induction bs1 as [|h bs1 IH]; intros a; simpl.
  - unfold span; simpl. by rewrite Z.add_0_r.
  - rewrite IH, <- app_assoc. unfold span. simpl. by rewrite Z.add_assoc.
Qed.

Lemma in_header_app a bs1 bs2 x :
  in_header a (bs1 ++ bs2) x ↔ in_header a bs1 x ∨ in_header (a + span bs1) bs2 x.
Proof.
  revert a; induction bs1 as [|h bs1 IH]; intros a; simpl.
  - unfold span; simpl. rewrite Z.add_0_r. tauto.
  - rewrite IH. unfold span. simpl. rewrite Z.add_assoc. tauto.
Qed.

Lemma in_user_app a bs1 bs2 x :
  in_user a (bs1 ++ bs2) x ↔ in_user a bs1 x ∨ in_user (a + span bs1) bs2 x.
Proof.
  revert a; induction bs1 as [|h bs1 IH]; intros a; simpl.
  - unfold span; simpl. rewrite Z.add_0_r. tauto.
  - rewrite IH. unfold span. simpl. rewrite Z.add_assoc. tauto.
Qed.

Lemma span_app bs1 bs2 : span (bs1 ++ bs2) = span bs1 + span bs2.
Proof. apply sumZ_app. Qed.

Lemma span_cons h bs : span (h :: bs) = total h + span bs.
Proof. done. Qed.

Lemma blk_total h : blk_ok h → 64 ≤ total h.
Proof. intros [_ H]. unfold total, HEADER_SIZE. lia. Qed.

Lemma span_length bs : Forall blk_ok bs → 64 * Z.of_nat (length bs) ≤ span bs.
Proof.
  induction 1 as [|h bs H _ IH]; [done|]. rewrite span_cons. simpl length.
  apply blk_total in H. lia.
Qed.

Lemma span_nonneg bs : Forall blk_ok bs → 0 ≤ span bs.
Proof. intros H. apply span_length in H. lia. Qed.

Lemma in_header_bounds a bs x :
  Forall blk_ok bs → in_header a bs x → a ≤ x < a + span bs.
Proof.
  intros H. revert a; induction H as [|h bs Hh Hbs IH]; intros a; simpl; [done|].
  rewrite span_cons. pose proof (span_nonneg _ Hbs). apply blk_total in Hh.
  unfold HEADER_SIZE. intros [?|Hi]; [lia|]. apply IH in Hi. lia.
Qed.

Lemma in_user_bounds a bs x :
  Forall blk_ok bs → in_user a bs x → a + HEADER_SIZE ≤ x < a + span bs.
Proof.
  intros H. revert a; induction H as [|h bs Hh Hbs IH]; intros a; simpl; [done|].
  rewrite span_cons. pose proof (span_nonneg _ Hbs). apply blk_total in Hh.
  intros [[_ ?]|Hi]; [lia|]. apply IH in Hi. lia.
Qed.

Lemma free_nodes_bounds a bs y :
  Forall blk_ok bs → y ∈ free_nodes a bs → a + HEADER_SIZE ≤ y ∧ y + 16 ≤ a + span bs.
Proof.
  intros H. revert a; induction H as [|h bs Hh Hbs IH]; intros a; simpl.
  { by intros ?%elem_of_nil. }
  rewrite span_cons. pose proof (span_nonneg _ Hbs). apply blk_total in Hh as Ht.
  destruct Hh as [_ Hh]. unfold total, HEADER_SIZE in *.
  rewrite elem_of_app. intros [Hy|Hy].
  - destruct (is_free h); [apply list_elem_of_singleton in Hy as ->; lia|by apply elem_of_nil in Hy].
  - apply IH in Hy. lia.
Qed.

(** Headers and user bytes never overlap list nodes. *)
Lemma in_header_node a bs x y :
  Forall blk_ok bs → in_header a bs x → y ∈ free_nodes a bs → x < y ∨ y + 16 ≤ x.
Proof.
  intros H. revert a; induction H as [|h bs Hh Hbs IH]; intros a; simpl; [done|].
  apply blk_total in Hh as Ht. destruct Hh as [_ Hh].
  rewrite elem_of_app. intros [Hx|Hx] [Hy|Hy].
  - destruct (is_free h); [apply list_elem_of_singleton in Hy as ->; lia|by apply elem_of_nil in Hy].
  - apply free_nodes_bounds in Hy; [|done]. unfold HEADER_SIZE in *. lia.
  - apply in_header_bounds in Hx; [|done]. destruct (is_free h);
      [apply list_elem_of_singleton in Hy as ->|by apply elem_of_nil in Hy].
    unfold total, HEADER_SIZE in *. lia.
  - eauto.
Qed.

Lemma in_user_node a bs x y :
  Forall blk_ok bs → in_user a bs x → y ∈ free_nodes a bs → x < y ∨ y + 16 ≤ x.
Proof.
  intros H. revert a; induction H as [|h bs Hh Hbs IH]; intros a; simpl; [done|].
  apply blk_total in Hh as Ht. destruct Hh as [_ Hh].
  rewrite elem_of_app. intros [[Ef Hx]|Hx] [Hy|Hy].
  - rewrite Ef in Hy. by apply elem_of_nil in Hy.
  - apply free_nodes_bounds in Hy; [|done]. unfold HEADER_SIZE in *. lia.
  - apply in_user_bounds in Hx; [|done]. destruct (is_free h);
      [apply list_elem_of_singleton in Hy as ->|by apply elem_of_nil in Hy].
    unfold total, HEADER_SIZE in *. lia.
  - eauto.
Qed.

Lemma in_user_header a bs x : Forall blk_ok bs → in_user a bs x → ¬ in_header a bs x.
Proof.
  intros H. revert a; induction H as [|h bs Hh Hbs IH]; intros a; simpl; [done|].
  apply blk_total in Hh. intros [[_ Hx]|Hx] [Hy|Hy].
  - lia.
  - apply in_header_bounds in Hy; [|done]. lia.
  - apply in_user_bounds in Hx; [|done]. unfold HEADER_SIZE in *. lia.
  - by eapply IH.
Qed.

Lemma free_nodes_spaced a bs :
  Forall blk_ok bs → 0 < a → a + span bs < 2 ^ 64 → spaced (free_nodes a bs).
Proof.
  intros H. revert a; induction H as [|h bs Hh Hbs IH]; intros a Ha Hb; simpl.
  { apply spaced_nil. }
  rewrite span_cons in Hb. pose proof (span_nonneg _ Hbs). apply blk_total in Hh as Ht.
  assert (spaced (free_nodes (a + total h) bs)) as Hs by (apply IH; lia).
  unfold HEADER_SIZE, total in *. destruct (is_free h); [|done]. simpl.
  apply spaced_cons. split_and!; [lia|lia|done|].
  intros y Hy. apply free_nodes_bounds in Hy; [|done]. unfold HEADER_SIZE in *.
  destruct Hh as [_ Hh]. lia.
Qed.

Lemma free_nodes_length a bs : (length (free_nodes a bs) ≤ length bs)%nat.
Proof.
  revert a; induction bs as [|h bs IH]; intros a; simpl; [lia|].
  rewrite length_app. specialize (IH (a + total h)). destruct (is_free h); simpl; lia.
Qed.

(** A node in the list belongs to a free block. *)
Lemma free_nodes_elem a bs y :
  y ∈ free_nodes a bs →
  ∃ bs1 h bs2, bs = bs1 ++ h :: bs2 ∧ y = a + span bs1 + HEADER_SIZE ∧ is_free h = true.
Proof.
  revert a; induction bs as [|h bs IH]; intros a; simpl; [by intros ?%elem_of_nil|].
  rewrite elem_of_app. intros [Hy|Hy].
  - destruct (is_free h) eqn:E; [|by apply elem_of_nil in Hy].
    apply list_elem_of_singleton in Hy as ->. exists [], h, bs. unfold span. simpl.
    split_and!; [done|lia|done].
  - apply IH in Hy as (bs1 & g & bs2 & -> & -> & Hg). exists (h :: bs1), g, bs2.
    rewrite span_cons. split_and!; [done|lia|done].
Qed.

(** ** Changing part of the heap *)

(** [m'] differs from [m] only inside [lo, hi) and inside the nodes [l]. *)
Definition touched (m m' : memory) (lo hi : Z) (l : list Z) : Prop :=
  ∀ x, x < lo ∨ hi ≤ x → (∀ y, y ∈ l → x < y ∨ y + 16 ≤ x) → m' !! x = m !! x.

Lemma touched_refl m lo hi l : touched m m lo hi l.
Proof. by intros x _ _. Qed.

Lemma touched_trans m1 m2 m3 lo hi l :
  touched m1 m2 lo hi l → touched m2 m3 lo hi l → touched m1 m3 lo hi l.
Proof. intros H1 H2 x Hx Hl. by rewrite H2, H1. Qed.

Lemma touched_only m m' lo hi lo' hi' l :
  only m m' lo' hi' → lo ≤ lo' → hi' ≤ hi → touched m m' lo hi l.
Proof. intros H ? ? x Hx _. apply H. lia. Qed.

(** Writes to nodes of [l'], each one in [l] or inside [lo, hi). *)
Lemma touched_nodes m m' lo hi l l' :
  nodes_only m m' l' → (∀ y, y ∈ l' → y ∈ l ∨ (lo ≤ y ∧ y + 16 ≤ hi)) →
  touched m m' lo hi l.
Proof.
  intros H Hl x Hx Hn. apply H. intros y Hy. destruct (Hl y Hy) as [|]; [auto|lia].
Qed.

Lemma tiles_agree m m' a bs :
  (∀ x, in_header a bs x → m' !! x = m !! x) → tiles m a bs → tiles m' a bs.
Proof.
  revert a; induction bs as [|h bs IH]; intros a H; simpl; [done|]. intros [Hh Ht]. split.
  - eapply hdr_at_agree; [|exact Hh]. intros x Hx. symmetry. apply H. by left.
  - apply IH; [|done]. intros x Hx. apply H. by right.
Qed.

Section outside.
Context (m m' : memory) (a e lo hi : Z) (bs1 bs2 : list header).
Context (Hok1 : Forall blk_ok bs1) (Hok2 : Forall blk_ok bs2).
Context (Hlo : a + span bs1 ≤ lo) (Hhi : hi ≤ e) (Hle : lo ≤ hi).
Context (Ht : touched m m' lo hi (free_nodes a bs1 ++ free_nodes e bs2)).

Lemma outside_node x y :
  in_header a bs1 x ∨ in_header e bs2 x ∨ in_user a bs1 x ∨ in_user e bs2 x →
  y ∈ free_nodes a bs1 ++ free_nodes e bs2 → x < y ∨ y + 16 ≤ x.
Proof.
  rewrite elem_of_app.
  intros [Hx|[Hx|[Hx|Hx]]] [Hy|Hy];
    try (eapply in_header_node; [|exact Hx|exact Hy]; done);
    try (eapply in_user_node; [|exact Hx|exact Hy]; done);
    first [ apply in_header_bounds in Hx; [|done] | apply in_user_bounds in Hx; [|done] ];
    (apply free_nodes_bounds in Hy; [|done]); unfold HEADER_SIZE in *; lia.
Qed.

Lemma touched_outside x :
  in_header a bs1 x ∨ in_header e bs2 x ∨ in_user a bs1 x ∨ in_user e bs2 x →
  m' !! x = m !! x.
Proof.
  intros Hx. apply Ht; [|intros y; by apply outside_node].
  destruct Hx as [Hx|[Hx|[Hx|Hx]]];
    first [ apply in_header_bounds in Hx; [|done] | apply in_user_bounds in Hx; [|done] ];
    unfold HEADER_SIZE in *; lia.
Qed.

End outside.

(** The fuel of the walks covers every list of blocks of the heap. *)
Lemma walk_fuel_enough s bs :
  heap_wf s bs → (length bs < walk_fuel (self s))%nat.
Proof.
  intros W. pose proof (span_length _ (wf_ok _ _ W)) as Hl. pose proof (wf_end _ _ W).
  unfold walk_fuel, HEADER_SIZE.
  assert (Z.of_nat (length bs) ≤ (heap_end (self s) - heap_start (self s)) / 48)
    by (apply Z.div_le_lower_bound; lia). lia.
Qed.

(** Rebuilding the relation after the blocks [mid] were replaced by [mid']. *)
Lemma heap_wf_replace s s' bs1 mid mid' bs2 :
  heap_wf s (bs1 ++ mid ++ bs2) →
  heap_start (self s') = heap_start (self s) →
  heap_end (self s') = heap_end (self s) →
  let lo := heap_start (self s) + span bs1 in
  let hi := lo + span mid in
  touched (mem (mach s)) (mem (mach s')) lo hi
    (free_nodes (heap_start (self s)) bs1 ++ free_nodes hi bs2) →
  span mid' = span mid → tiles (mem (mach s')) lo mid' → Forall blk_ok mid' →
  dseg (mem (mach s')) 0
    (free_nodes (heap_start (self s)) bs1 ++ free_nodes lo mid' ++ free_nodes hi bs2) 0 →
  free_list_head (self s') =
    hd 0 (free_nodes (heap_start (self s)) bs1 ++ free_nodes lo mid' ++ free_nodes hi bs2) →
  stats_ok (stats (self s')) (bs1 ++ mid' ++ bs2) →
  in_u64 (clock (mach s')) →
  heap_wf s' (bs1 ++ mid' ++ bs2)
  ∧ (∀ x, in_user (heap_start (self s)) bs1 x ∨ in_user hi bs2 x →
          mem (mach s') !! x = mem (mach s) !! x).
Proof.
  intros W Es Ee lo hi Ht Esp Htl Hok Hd Hh Hst Hc. destruct W as [W1 W2 W3 W4 W5 _ _ _ _].
  apply Forall_app in W5 as [Hok1 Hok2]. apply Forall_app in Hok2 as [Hokm Hok2].
  rewrite !span_app in W2. apply tiles_app in W4 as [T1 T2]. apply tiles_app in T2 as [_ T2].
  pose proof (span_nonneg _ Hokm).
  assert (∀ x, in_header (heap_start (self s)) bs1 x ∨ in_header hi bs2 x
             ∨ in_user (heap_start (self s)) bs1 x ∨ in_user hi bs2 x →
             mem (mach s') !! x = mem (mach s) !! x) as Hout.
  { intros x Hx. eapply (touched_outside _ _ _ hi lo hi bs1 bs2); eauto; lia. }
  split; [|intros x Hx; apply Hout; tauto].
  split; rewrite ?Es, ?Ee; auto.
  - rewrite !span_app, Esp. lia.
  - apply tiles_app. split; [|apply tiles_app; split; [done|]].
    + eapply tiles_agree; [|exact T1]. intros x Hx. apply Hout. tauto.
    + rewrite Esp. eapply tiles_agree; [|exact T2]. intros x Hx. apply Hout. tauto.
  - apply Forall_app; split; [done|]. apply Forall_app; done.
  - rewrite !free_nodes_app, Esp. done.
  - rewrite !free_nodes_app, Esp. done.
Qed.

(** Taking a well-formed heap apart at a block. *)
Lemma heap_wf_split s bs1 h bs2 :
  heap_wf s (bs1 ++ h :: bs2) →
  let b := heap_start (self s) + span bs1 in
  hdr_at (mem (mach s)) b h ∧ blk_ok h ∧ Forall blk_ok bs1 ∧ Forall blk_ok bs2
  ∧ 0 < b ∧ b + total h + span bs2 = heap_end (self s)
  ∧ 0 ≤ span bs1 ∧ 0 ≤ span bs2.
Proof.
  intros W b. destruct W as [W1 W2 W3 W4 W5 _ _ _ _].
  apply Forall_app in W5 as [Hok1 Hok2]. apply Forall_cons in Hok2 as [Hokh Hok2].
  apply tiles_app in W4 as [_ [T _]].
  rewrite span_app, span_cons in W2.
  pose proof (span_nonneg _ Hok1). pose proof (span_nonneg _ Hok2).
  split_and!; try done; unfold b; lia.
Qed.
