(* ===== verification/AllocSteps.v ===== *)
(** * The steps of allocation and deallocation

    For each building block of [alloc_aligned] and [dealloc] (taking a block
    off the free list, cutting it in two, marking it allocated or free,
    absorbing a free neighbour) the state it leaves behind, on a heap described
    by [heap_wf]. *)

From Stdlib Require Import ZArith Lia.
From stdpp Require Import base option numbers sorting gmap list.
From S2P Require Import Prelude Memory Purpose Metadata HeaderSpec Allocator FreeList HeapInv.

(** ** Accesses of a method *)

Lemma on_stats_Ret {A} (m : M AllocStats.t A) s a st' :
  m (stats (self s)) = Ret (a, st') →
  on_stats m s = Ret (a, mkAState (set_stats st' (self s)) (mach s)).
Proof. unfold on_stats, zoom. by intros ->. Qed.

Lemma hw_Ret {A} (m : M Machine A) s a t :
  m (mach s) = Ret (a, t) → hw m s = Ret (a, mkAState (self s) t).
Proof. unfold hw, zoom. by intros ->. Qed.

(** The last access of a method, whose final state is known. *)
Ltac hw_last E := etransitivity; [ apply hw_Ret; exact E | reflexivity ].

(** Run a prefix of the goal whose run as a whole is the hypothesis [E]. *)
Ltac replay1 E :=
  let F := fresh "F" in
  apply bind_inv in E as (? & ? & F & E); mstep_with ltac:(exact F); clear F.
Ltac replay E := repeat replay1 E; mstep_with ltac:(exact E).

(** Reads leave the state as it is. *)
Lemma hw_read {A} (m : M Machine A) s a :
  m (mach s) = Ret (a, mach s) → hw m s = Ret (a, s).
Proof. intros H. rewrite (hw_Ret _ _ _ _ H). by destruct s. Qed.

(** ** Statistics *)

Section stats_runs.
Context {P : Profile}.

Lemma add_free_size_run d s :
  0 ≤ AllocStats.free_size (stats (self s)) + d < 2 ^ 64 →
  add_free_size d s =
  Ret (tt, mkAState (set_stats (AllocStats.set_free_size
             (AllocStats.free_size (stats (self s)) + d) (stats (self s))) (self s)) (mach s)).
Proof. intros. unfold add_free_size. mstep. mstep_arith. reflexivity. Qed.

Lemma sub_free_size_run d s :
  0 ≤ AllocStats.free_size (stats (self s)) - d < 2 ^ 64 →
  sub_free_size d s =
  Ret (tt, mkAState (set_stats (AllocStats.set_free_size
             (AllocStats.free_size (stats (self s)) - d) (stats (self s))) (self s)) (mach s)).
Proof. intros. unfold sub_free_size. mstep. mstep_arith. reflexivity. Qed.

Lemma add_free_count_run d s :
  0 ≤ AllocStats.free_count (stats (self s)) + d < 2 ^ 64 →
  add_free_count d s =
  Ret (tt, mkAState (set_stats (AllocStats.set_free_count
             (AllocStats.free_count (stats (self s)) + d) (stats (self s))) (self s)) (mach s)).
Proof. intros. unfold add_free_count. mstep. mstep_arith. reflexivity. Qed.

Lemma sub_free_count_run d s :
  0 ≤ AllocStats.free_count (stats (self s)) - d < 2 ^ 64 →
  sub_free_count d s =
  Ret (tt, mkAState (set_stats (AllocStats.set_free_count
             (AllocStats.free_count (stats (self s)) - d) (stats (self s))) (self s)) (mach s)).
Proof. intros. unfold sub_free_count. mstep. mstep_arith. reflexivity. Qed.

(** What the [record_*] methods do to the four totals that [stats_ok] tracks
    and to the counters. *)
Definition stats_step (st st' : AllocStats.t) (du da : Z) : Prop :=
  AllocStats.used_size st' = AllocStats.used_size st + du
  ∧ AllocStats.alloc_count st' = AllocStats.alloc_count st + da
  ∧ AllocStats.free_size st' = AllocStats.free_size st
  ∧ AllocStats.free_count st' = AllocStats.free_count st
  ∧ AllocStats.total_size st' = AllocStats.total_size st
  ∧ AllocStats.max_free_block_size st' = AllocStats.max_free_block_size st.

Definition below_step (N : Z) (a : EarlyAllocator) (st' : AllocStats.t) : Prop :=
  counters_below N a → counters_below (N + 1) (set_stats st' a).

Lemma counters_set_free_size N a v :
  counters_below N a → counters_below N (set_stats (AllocStats.set_free_size v (stats a)) a).
Proof. by intros []. Qed.

Lemma counters_set_free_count N a v :
  counters_below N a → counters_below N (set_stats (AllocStats.set_free_count v (stats a)) a).
Proof. by intros []. Qed.

Lemma counters_mono N N' a : counters_below N a → N ≤ N' → counters_below N' a.
Proof. intros [] ?. split; lia. Qed.

Ltac run_record :=
  eexists; split;
  [ apply on_stats_Ret; repeat first [ mstep_arith | mstep ]; reflexivity
  | split_and?; [ repeat split; simpl; lia | intros []; split; simpl in *; lia | try reflexivity .. ] ].

Section records.
Context (N : Z) (s : AState) (Hc : counters_below N (self s)) (HN : N + 2 < 2 ^ 64).

Lemma record_alloc_run sz :
  0 ≤ AllocStats.used_size (stats (self s)) + sz < 2 ^ 64 →
  0 ≤ AllocStats.alloc_count (stats (self s)) < 2 ^ 63 →
  ∃ st', on_stats (AllocStats.record_alloc sz) s
         = Ret (tt, mkAState (set_stats st' (self s)) (mach s))
         ∧ stats_step (stats (self s)) st' sz 1 ∧ below_step N (self s) st'.
Proof. intros Hu Ha. destruct (Hc). unfold AllocStats.record_alloc. run_record. Qed.

Lemma record_dealloc_run sz :
  0 ≤ AllocStats.used_size (stats (self s)) - sz < 2 ^ 64 →
  1 ≤ AllocStats.alloc_count (stats (self s)) →
  ∃ st', on_stats (AllocStats.record_dealloc sz) s
         = Ret (tt, mkAState (set_stats st' (self s)) (mach s))
         ∧ stats_step (stats (self s)) st' (- sz) (-1) ∧ below_step N (self s) st'.
Proof.
  intros Hu Ha. destruct (Hc). unfold AllocStats.record_dealloc, saturating_sub. run_record.
Qed.

Lemma record_merge_run :
  ∃ st', on_stats AllocStats.record_merge s
         = Ret (tt, mkAState (set_stats st' (self s)) (mach s))
         ∧ stats_step (stats (self s)) st' 0 0 ∧ below_step N (self s) st'.
Proof. destruct (Hc). unfold AllocStats.record_merge. run_record. Qed.

Lemma record_split_run sz :
  ∃ st', on_stats (AllocStats.record_split sz) s
         = Ret (tt, mkAState (set_stats st' (self s)) (mach s))
         ∧ stats_step (stats (self s)) st' 0 0 ∧ below_step N (self s) st'.
Proof. destruct (Hc). unfold AllocStats.record_split. run_record. Qed.

Lemma record_alloc_failure_run :
  ∃ st', on_stats AllocStats.record_alloc_failure s
         = Ret (tt, mkAState (set_stats st' (self s)) (mach s))
         ∧ stats_step (stats (self s)) st' 0 0 ∧ below_step N (self s) st'
         ∧ AllocStats.failed_allocs st' = AllocStats.failed_allocs (stats (self s)) + 1.
Proof. destruct (Hc). unfold AllocStats.record_alloc_failure. run_record. Qed.

Lemma record_double_free_run :
  ∃ st', on_stats AllocStats.record_double_free s
         = Ret (tt, mkAState (set_stats st' (self s)) (mach s))
         ∧ stats_step (stats (self s)) st' 0 0 ∧ below_step N (self s) st'
         ∧ AllocStats.double_free_attempts st' = AllocStats.double_free_attempts (stats (self s)) + 1.
Proof. destruct (Hc). unfold AllocStats.record_double_free. run_record. Qed.

Lemma record_corruption_run :
  ∃ st', on_stats AllocStats.record_corruption s
         = Ret (tt, mkAState (set_stats st' (self s)) (mach s))
         ∧ stats_step (stats (self s)) st' 0 0 ∧ below_step N (self s) st'
         ∧ AllocStats.corrupted_blocks st' = AllocStats.corrupted_blocks (stats (self s)) + 1.
Proof. destruct (Hc). unfold AllocStats.record_corruption. run_record. Qed.

End records.

End stats_runs.

(** ** Headers *)

Section steps.
Context {P : Profile}.

Lemma in_u64_wrap z : in_u64 (wrap64 z).
Proof. apply Z.mod_pos_bound. lia. Qed.

Lemma retime_spec s b h :
  hdr_at (mem (mach s)) b h → BlockHeader.magic h = BLOCK_MAGIC → in_u64 (clock (mach s)) →
  ∃ m' ck h',
    (hw (update_timestamp_at b);; hw (update_checksum_at b)) s
    = Ret (tt, mkAState (self s) (mkMachine m' ck))
    ∧ hdr_at m' b h' ∧ only (mem (mach s)) m' b (b + HEADER_SIZE) ∧ in_u64 ck
    ∧ BlockHeader.size h' = BlockHeader.size h
    ∧ BlockHeader.status h' = BlockHeader.status h
    ∧ BlockHeader.alloc_id h' = BlockHeader.alloc_id h
    ∧ BlockHeader.purpose h' = BlockHeader.purpose h
    ∧ BlockHeader.validate h' = true.
Proof.
  intros Hh Hm Hc.
  destruct (update_timestamp_at_spec (mach s) b h Hh Hc) as (m1 & E1 & H1 & O1).
  destruct (update_checksum_at_spec (mkMachine m1 (wrap64 (clock (mach s) + 1))) b _ H1)
    as (m2 & E2 & H2 & O2).
  do 3 eexists. split; [|split; [exact H2|]].
  - mstep_with ltac:(apply hw_Ret; exact E1). hw_last E2.
  - split_and!; [by eapply only_trans|apply in_u64_wrap|done..|].
    by apply validate_update_checksum.
Qed.

Lemma mark_allocated_spec s b h :
  hdr_at (mem (mach s)) b h → BlockHeader.magic h = BLOCK_MAGIC → in_u64 (clock (mach s)) →
  0 ≤ next_alloc_id (self s) < 2 ^ 64 - 1 →
  ∃ m' ck h',
    mark_allocated b s
    = Ret (tt, mkAState (set_next_alloc_id (next_alloc_id (self s) + 1) (self s))
                 (mkMachine m' ck))
    ∧ hdr_at m' b h' ∧ only (mem (mach s)) m' b (b + HEADER_SIZE) ∧ in_u64 ck
    ∧ BlockHeader.size h' = BlockHeader.size h
    ∧ BlockHeader.status h' = Allocated
    ∧ BlockHeader.alloc_id h' = next_alloc_id (self s)
    ∧ BlockHeader.purpose h' = BlockHeader.purpose h
    ∧ BlockHeader.validate h' = true.
Proof.
  intros Hh Hm Hc Hid.
  pose proof (wr_status_at _ _ _ Hh Allocated) as H1.
  assert (in_u64 (next_alloc_id (self s))) as Hid' by (unfold in_u64; lia).
  pose proof (wr_alloc_id_at _ _ _ H1 _ Hid') as H2.
  destruct (retime_spec (mkAState (set_next_alloc_id (next_alloc_id (self s) + 1) (self s))
              (mkMachine (store 8 (store 1 (mem (mach s)) (b + OFF_status)
                           (status_discriminant Allocated)) (b + OFF_alloc_id)
                           (next_alloc_id (self s))) (clock (mach s)))) b _ H2 Hm Hc)
    as (m' & ck & h' & E & Hh' & O & Hck & Q1 & Q2 & Q3 & Q4 & Q5).
  exists m', ck, h'. split; [|split_and!; try done].
  - unfold mark_allocated. do 3 mstep. cbn [self]. mstep_arith. mstep. exact E.
  - eapply only_trans; [|exact O]. cbn [mem mach].
    eapply only_trans; [|eapply only_widen; [apply only_store|unfold_offsets; lia..]].
    eapply only_widen; [apply only_store|unfold_offsets; lia..].
Qed.

Lemma mark_free_spec s b h :
  hdr_at (mem (mach s)) b h → BlockHeader.magic h = BLOCK_MAGIC → in_u64 (clock (mach s)) →
  ∃ m' ck h',
    mark_free b s = Ret (tt, mkAState (self s) (mkMachine m' ck))
    ∧ hdr_at m' b h' ∧ only (mem (mach s)) m' b (b + HEADER_SIZE) ∧ in_u64 ck
    ∧ BlockHeader.size h' = BlockHeader.size h
    ∧ BlockHeader.status h' = Free
    ∧ BlockHeader.alloc_id h' = BlockHeader.alloc_id h
    ∧ BlockHeader.purpose h' = BlockHeader.purpose h
    ∧ BlockHeader.validate h' = true.
Proof.
  intros Hh Hm Hc. pose proof (wr_status_at _ _ _ Hh Free) as H1.
  destruct (retime_spec (mkAState (self s) (mkMachine (store 1 (mem (mach s)) (b + OFF_status)
              (status_discriminant Free)) (clock (mach s)))) b _ H1 Hm Hc)
    as (m' & ck & h' & E & Hh' & O & Hck & Q1 & Q2 & Q3 & Q4 & Q5).
  exists m', ck, h'. split; [|split_and!; try done].
  - unfold mark_free. mstep. exact E.
  - eapply only_trans; [|exact O].
    eapply only_widen; [apply only_store|unfold_offsets; lia..].
Qed.

(** Growing a block in place: new size, new checksum. *)
Lemma resize_spec s b h v :
  hdr_at (mem (mach s)) b h → BlockHeader.magic h = BLOCK_MAGIC → in_u64 v →
  ∃ m', (hw (wr_size b v);; hw (update_checksum_at b)) s
        = Ret (tt, mkAState (self s) (mkMachine m' (clock (mach s))))
        ∧ hdr_at m' b (BlockHeader.update_checksum (BlockHeader.set_size v h))
        ∧ only (mem (mach s)) m' b (b + HEADER_SIZE).
Proof.
  intros Hh Hm Hv. pose proof (wr_size_at _ _ _ Hh _ Hv) as H1.
  destruct (update_checksum_at_spec (mkMachine (store 8 (mem (mach s)) b v) (clock (mach s)))
              b _ H1) as (m' & E & H2 & O).
  exists m'. split; [|split; [done|]].
  - mstep. hw_last E.
  - eapply only_trans; [|exact O].
    eapply only_widen; [apply only_store|unfold_offsets; lia..].
Qed.

(** ** Taking a free block out of the list *)

(** The state between [take_block] and the marking of the block: everything
    but the block [h] itself, whose node is unlinked and whose bytes are out of
    the free totals. *)
Record taken (s s1 : AState) (bs1 : list header) (h : header) (bs2 : list header) : Prop := {
  tk_self : self s1 =
    set_stats (AllocStats.set_free_count (AllocStats.free_count (stats (self s)) - 1)
      (AllocStats.set_free_size (AllocStats.free_size (stats (self s)) - total h)
         (stats (self s))))
      (set_free_list_head (hd 0 (free_nodes (heap_start (self s)) bs1
         ++ free_nodes (heap_start (self s) + span bs1 + total h) bs2)) (self s));
  tk_clock : clock (mach s1) = clock (mach s);
  tk_list : dseg (mem (mach s1)) 0 (free_nodes (heap_start (self s)) bs1
              ++ free_nodes (heap_start (self s) + span bs1 + total h) bs2) 0;
  tk_nodes : nodes_only (mem (mach s)) (mem (mach s1))
               (free_nodes (heap_start (self s)) bs1
                ++ free_nodes (heap_start (self s) + span bs1 + total h) bs2);
}.

Lemma sums_nonneg bs :
  Forall blk_ok bs →
  0 ≤ used_bytes bs ∧ 0 ≤ free_bytes bs ∧ 0 ≤ free_blocks bs ∧ 0 ≤ used_blocks bs.
Proof.
  intros H. rewrite Forall_forall in H.
  split_and!; apply sumZ_nonneg; intros h Hh; apply H in Hh as Hok;
    pose proof (blk_total _ Hok); destruct Hok; destruct (is_free h); lia.
Qed.

(** The totals account for every byte of the heap. *)
Lemma bytes_total bs : used_bytes bs + HEADER_SIZE * used_blocks bs + free_bytes bs = span bs.
Proof.
  induction bs as [|h bs IH]; [done|].
  unfold used_bytes, used_blocks, free_bytes, span, total, HEADER_SIZE in *. simpl.
  destruct (is_free h); lia.
Qed.

Lemma blocks_total bs : free_blocks bs + used_blocks bs = Z.of_nat (length bs).
Proof.
  induction bs as [|h bs IH]; [done|].
  unfold used_blocks, free_blocks in *. simpl sumZ. simpl length.
  destruct (is_free h); lia.
Qed.

Lemma sums_app bs1 bs2 :
  used_bytes (bs1 ++ bs2) = used_bytes bs1 + used_bytes bs2
  ∧ free_bytes (bs1 ++ bs2) = free_bytes bs1 + free_bytes bs2
  ∧ free_blocks (bs1 ++ bs2) = free_blocks bs1 + free_blocks bs2
  ∧ used_blocks (bs1 ++ bs2) = used_blocks bs1 + used_blocks bs2.
Proof. split_and!; apply sumZ_app. Qed.

Lemma sums_cons h bs :
  used_bytes (h :: bs) = (if is_free h then 0 else BlockHeader.size h) + used_bytes bs
  ∧ free_bytes (h :: bs) = (if is_free h then total h else 0) + free_bytes bs
  ∧ free_blocks (h :: bs) = (if is_free h then 1 else 0) + free_blocks bs
  ∧ used_blocks (h :: bs) = (if is_free h then 0 else 1) + used_blocks bs.
Proof. done. Qed.

(** Everything [lia] needs about the totals of a heap, in one place. *)
Lemma sums_bound bs :
  Forall blk_ok bs →
  0 ≤ used_bytes bs ∧ 0 ≤ free_bytes bs ∧ 0 ≤ free_blocks bs ∧ 0 ≤ used_blocks bs
  ∧ used_bytes bs + 48 * used_blocks bs + free_bytes bs = span bs
  ∧ 64 * (free_blocks bs + used_blocks bs) ≤ span bs.
Proof.
  intros H. pose proof (sums_nonneg _ H). pose proof (bytes_total bs) as Hb.
  pose proof (blocks_total bs). pose proof (span_length _ H).
  unfold HEADER_SIZE in Hb. lia.
Qed.

Lemma free_node_split s bs1 h bs2 :
  is_free h = true →
  free_nodes (heap_start (self s)) (bs1 ++ h :: bs2)
  = free_nodes (heap_start (self s)) bs1
    ++ (heap_start (self s) + span bs1 + HEADER_SIZE)
       :: free_nodes (heap_start (self s) + span bs1 + total h) bs2.
Proof. intros E. rewrite free_nodes_app. simpl. by rewrite E. Qed.

Lemma wf_spaced s bs : heap_wf s bs → spaced (free_nodes (heap_start (self s)) bs).
Proof.
  intros W. apply free_nodes_spaced; [apply W|apply W|].
  rewrite (wf_end _ _ W). apply W.
Qed.

Lemma take_block_spec s bs1 h bs2 :
  heap_wf s (bs1 ++ h :: bs2) → is_free h = true →
  ∃ s1, take_block (heap_start (self s) + span bs1) (BlockHeader.size h) s = Ret (tt, s1)
        ∧ taken s s1 bs1 h bs2.
Proof.
  intros W Hf. pose proof (heap_wf_split _ _ _ _ W) as (Hh & Hok & Ok1 & Ok2 & Hb & He & ? & ?).
  pose proof (wf_spaced _ _ W) as Hs. pose proof (wf_list _ _ W) as Hl.
  pose proof (wf_head _ _ W) as Hhd. rewrite free_node_split in Hs, Hl, Hhd by done.
  destruct (remove_spec _ _ _ _ Hs Hl Hhd) as (m' & E & Hd & Ho).
  pose proof (wf_bound _ _ W). pose proof (blk_total _ Hok).
  destruct (wf_stats _ _ W) as [S1 S2 S3 S4].
  pose proof (sums_bound _ (wf_ok _ _ W)). pose proof (sums_bound _ Ok1).
  pose proof (sums_bound _ Ok2). pose proof (wf_end _ _ W). pose proof (wf_start _ _ W).
  pose proof (sums_app bs1 (h :: bs2)). pose proof (sums_cons h bs2) as Hsc.
  rewrite Hf in Hsc. destruct Hok as [_ Hsz]. unfold total, HEADER_SIZE in *.
  eexists. split.
  - unfold take_block, HEADER_SIZE. mstep_arith. mstep_with ltac:(exact E). mstep_arith.
    mstep_with ltac:(apply sub_free_size_run; simpl; lia).
    apply sub_free_count_run. simpl. lia.
  - split; [|done|done|done]. simpl. by destruct (self s).
Qed.

(** ** Marking and cutting the taken block *)

(** The state once the block [h] at [b] has become the allocated block [h1]
    followed by the free blocks [rest]; only [record_alloc] is still due. *)
Record carved (N : Z) (s s2 : AState) (bs1 : list header) (h : header) (bs2 : list header)
    (h1 : header) (rest : list header) : Prop := {
  cv_start : heap_start (self s2) = heap_start (self s);
  cv_end : heap_end (self s2) = heap_end (self s);
  cv_frozen : frozen (self s2) = frozen (self s);
  cv_id : next_alloc_id (self s2) = next_alloc_id (self s) + 1;
  cv_span : span (h1 :: rest) = total h;
  cv_tiles : tiles (mem (mach s2)) (heap_start (self s) + span bs1) (h1 :: rest);
  cv_ok : Forall blk_ok (h1 :: rest);
  cv_alloc : BlockHeader.status h1 = Allocated;
  cv_alloc_id : BlockHeader.alloc_id h1 = next_alloc_id (self s);
  cv_purpose : BlockHeader.purpose h1 = BlockHeader.purpose h;
  cv_touched : touched (mem (mach s)) (mem (mach s2)) (heap_start (self s) + span bs1)
                 (heap_start (self s) + span bs1 + total h)
                 (free_nodes (heap_start (self s)) bs1
                  ++ free_nodes (heap_start (self s) + span bs1 + total h) bs2);
  cv_list : dseg (mem (mach s2)) 0
              (free_nodes (heap_start (self s)) bs1
               ++ free_nodes (heap_start (self s) + span bs1) (h1 :: rest)
               ++ free_nodes (heap_start (self s) + span bs1 + total h) bs2) 0;
  cv_head : free_list_head (self s2) =
              hd 0 (free_nodes (heap_start (self s)) bs1
                    ++ free_nodes (heap_start (self s) + span bs1) (h1 :: rest)
                    ++ free_nodes (heap_start (self s) + span bs1 + total h) bs2);
  cv_used : AllocStats.used_size (stats (self s2)) = used_bytes bs1 + used_bytes bs2;
  cv_count : AllocStats.alloc_count (stats (self s2)) = used_blocks bs1 + used_blocks bs2;
  cv_free : AllocStats.free_size (stats (self s2))
            = free_bytes bs1 + free_bytes rest + free_bytes bs2;
  cv_nfree : AllocStats.free_count (stats (self s2))
             = free_blocks bs1 + free_blocks rest + free_blocks bs2;
  cv_clock : in_u64 (clock (mach s2));
  cv_below : counters_below (N + 2) (self s2);
}.

(** The common hypotheses on the state after [take_block]. *)
Lemma taken_facts s s1 bs1 h bs2 :
  heap_wf s (bs1 ++ h :: bs2) → is_free h = true → taken s s1 bs1 h bs2 →
  hdr_at (mem (mach s1)) (heap_start (self s) + span bs1) h
  ∧ AllocStats.used_size (stats (self s1)) = used_bytes bs1 + used_bytes bs2
  ∧ AllocStats.alloc_count (stats (self s1)) = used_blocks bs1 + used_blocks bs2
  ∧ AllocStats.free_size (stats (self s1)) = free_bytes bs1 + free_bytes bs2
  ∧ AllocStats.free_count (stats (self s1)) = free_blocks bs1 + free_blocks bs2
  ∧ in_u64 (clock (mach s1)).
Proof.
  intros W Hf [T1 T2 T3 T4].
  pose proof (heap_wf_split _ _ _ _ W) as (Hh & Hok & Ok1 & Ok2 & Hb & He & Hs1 & Hs2).
  destruct (wf_stats _ _ W) as [S1 S2 S3 S4].
  pose proof (sums_app bs1 (h :: bs2)) as (A1 & A2 & A3 & A4).
  pose proof (sums_cons h bs2) as (C1 & C2 & C3 & C4). rewrite Hf in C1, C2, C3, C4.
  split_and!.
  - eapply hdr_at_agree; [|exact Hh]. intros x Hx. symmetry. apply T4.
    intros y [Hy|Hy]%elem_of_app; apply free_nodes_bounds in Hy; try done;
      pose proof (blk_total _ Hok); unfold HEADER_SIZE in *; lia.
  - rewrite T1. simpl. lia.
  - rewrite T1. simpl. lia.
  - rewrite T1. simpl. lia.
  - rewrite T1. simpl. lia.
  - rewrite T2. apply W.
Qed.

Lemma mark_whole_spec N s s1 bs1 h bs2 :
  heap_wf s (bs1 ++ h :: bs2) → is_free h = true → taken s s1 bs1 h bs2 →
  counters_below N (self s) → N + 4 < 2 ^ 64 →
  ∃ s2 h1, mark_allocated (heap_start (self s) + span bs1) s1 = Ret (tt, s2)
           ∧ carved N s s2 bs1 h bs2 h1 [] ∧ BlockHeader.size h1 = BlockHeader.size h.
Proof.
  intros W Hf T Hc HN.
  pose proof (heap_wf_split _ _ _ _ W) as (_ & Hok & Ok1 & Ok2 & _).
  destruct (taken_facts _ _ _ _ _ W Hf T) as (Hh & S1 & S2 & S3 & S4 & Hck).
  pose proof T as [T1 T2 T3 T4].
  destruct (mark_allocated_spec s1 _ h Hh) as
    (m' & ck & h1 & E & Hh1 & O & Hck' & Q1 & Q2 & Q3 & Q4 & Q5); [|done| |].
  { apply validate_magic, Hok. }
  { rewrite T1. simpl. destruct Hc. lia. }
  set (s2 := mkAState _ _) in E. exists s2, h1. split; [done|]. split; [|done].
  assert (is_free h1 = false) as Hf1 by (unfold is_free; by rewrite Q2).
  assert (total h1 = total h) as Et by (unfold total; by rewrite Q1).
  pose proof (blk_total _ Hok). unfold HEADER_SIZE in *.
  split; cbn [s2 self mach mem clock]; try (rewrite T1; reflexivity); try done.
  - rewrite span_cons, Et. unfold span. simpl. lia.
  - constructor; [split; [done|]|constructor]. destruct Hok. lia.
  - by rewrite Q3, T1.
  - eapply touched_trans; [eapply touched_nodes; [exact T4|tauto]|].
    eapply touched_only; [exact O|lia|lia].
  - simpl. rewrite Hf1. simpl. eapply dseg_agree; [|exact T3].
    intros y Hy. eapply only_agree; [exact O|].
    apply elem_of_app in Hy as [Hy|Hy]; apply free_nodes_bounds in Hy; try done;
      unfold HEADER_SIZE in *; lia.
  - simpl. rewrite Hf1. by rewrite T1.
  - cbn [stats set_next_alloc_id]. change (free_bytes []) with 0. lia.
  - cbn [stats set_next_alloc_id]. change (free_blocks []) with 0. lia.
  - rewrite T1. destruct Hc. split; simpl; lia.
Qed.

Lemma BlockHeader_new_spec sz st ms :
  in_u64 (clock ms) → in_u64 sz →
  ∃ h, BlockHeader.new sz st ms = Ret (h, mkMachine (mem ms) (wrap64 (clock ms + 1)))
       ∧ hdr_range h ∧ BlockHeader.size h = sz ∧ BlockHeader.status h = st
       ∧ BlockHeader.validate h = true.
Proof.
  intros Hc Hs. eexists. split; [reflexivity|]. split_and!; try done.
  - split_and!; try done. apply calculate_checksum_range.
  - by apply validate_update_checksum.
Qed.

(** The memory part of the split: the two headers. *)
Lemma split_headers_spec s b h req :
  hdr_at (mem (mach s)) b h → BlockHeader.magic h = BLOCK_MAGIC → in_u64 (clock (mach s)) →
  0 ≤ next_alloc_id (self s) < 2 ^ 64 - 1 →
  64 ≤ req → req + 64 ≤ BlockHeader.size h → 0 < b → b + total h < 2 ^ 64 →
  ∃ m' ck h1 h2,
    (hw (wr_size b (req - HEADER_SIZE));;
     mark_allocated b;;
     new_header ← hw (BlockHeader.new (BlockHeader.size h - req) Free);
     hw (write_header (b + req) new_header)) s
    = Ret (tt, mkAState (set_next_alloc_id (next_alloc_id (self s) + 1) (self s))
                 (mkMachine m' ck))
    ∧ tiles m' b [h1; h2] ∧ only (mem (mach s)) m' b (b + req + HEADER_SIZE) ∧ in_u64 ck
    ∧ BlockHeader.size h1 = req - HEADER_SIZE ∧ BlockHeader.status h1 = Allocated
    ∧ BlockHeader.alloc_id h1 = next_alloc_id (self s)
    ∧ BlockHeader.purpose h1 = BlockHeader.purpose h
    ∧ BlockHeader.size h2 = BlockHeader.size h - req ∧ BlockHeader.status h2 = Free
    ∧ BlockHeader.validate h1 = true ∧ BlockHeader.validate h2 = true.
Proof.
  intros Hh Hm Hc Hid Hr Hr' Hb Hbd. unfold total, HEADER_SIZE in *.
  assert (in_u64 (req - 48)) as Hk by (unfold in_u64; lia).
  pose proof (wr_size_at _ _ _ Hh _ Hk) as H1.
  destruct (mark_allocated_spec (mkAState (self s) (mkMachine (store 8 (mem (mach s)) b (req - 48))
              (clock (mach s)))) b _ H1 Hm Hc Hid)
    as (m1 & ck1 & h1 & E1 & Hh1 & O1 & Hck1 & Q1 & Q2 & Q3 & Q4 & Q5).
  destruct (BlockHeader_new_spec (BlockHeader.size h - req) Free (mkMachine m1 ck1))
    as (h2 & E2 & R2 & Z2 & St2 & V2); [done|unfold in_u64; lia|].
  destruct (write_header_spec (mkMachine m1 (wrap64 (ck1 + 1))) (b + req) h2 R2)
    as (m2 & E3 & Hh2 & O2).
  cbn [mem mach clock self] in *. unfold HEADER_SIZE in *.
  exists m2, (wrap64 (ck1 + 1)), h1, h2. split; [|split_and!; try done].
  - mstep. mstep_with ltac:(exact E1). mstep_with ltac:(apply hw_Ret; exact E2).
    hw_last E3.
  - split; [|split; [|done]].
    + eapply hdr_at_agree; [|exact Hh1]. eapply only_agree; [exact O2|]. unfold HEADER_SIZE. lia.
    + unfold total, HEADER_SIZE. rewrite Q1. cbn [BlockHeader.size BlockHeader.set_size].
      by replace (b + (req - 48 + 48)) with (b + req) by lia.
  - eapply only_trans; [|eapply only_widen; [exact O2|lia|lia]].
    eapply only_trans; [|eapply only_widen; [exact O1|lia|lia]].
    eapply only_widen; [apply only_store|lia..].
  - apply in_u64_wrap.
Qed.

(** The list after the split: the new node between the two halves. *)
Lemma split_nodes s bs1 h bs2 h1 h2 :
  heap_wf s (bs1 ++ h :: bs2) → blk_ok h1 → blk_ok h2 →
  is_free h1 = false → is_free h2 = true → total h1 + total h2 = total h →
  let b := heap_start (self s) + span bs1 in
  let x := b + total h1 + HEADER_SIZE in
  let bs := bs1 ++ [h1; h2] ++ bs2 in
  free_nodes b [h1; h2] = [x]
  ∧ free_nodes (heap_start (self s)) bs
    = free_nodes (heap_start (self s)) bs1 ++ x :: free_nodes (b + total h) bs2
  ∧ Forall blk_ok bs ∧ spaced (free_nodes (heap_start (self s)) bs).
Proof.
  intros W Hok1 Hok2 Hf1 Hf2 Et b x bs.
  pose proof (heap_wf_split _ _ _ _ W) as (_ & _ & Ok1 & Ok2 & _ & He & _).
  pose proof (wf_bound _ _ W). pose proof (wf_start _ _ W). fold b in He.
  assert (free_nodes b [h1; h2] = [x]) as E by (simpl; rewrite Hf1, Hf2; done).
  assert (Forall blk_ok bs) as Hok by (unfold bs; rewrite !Forall_app, !Forall_cons; done).
  split_and!; [done| |done|].
  - unfold bs. rewrite !free_nodes_app. fold b. rewrite E, !span_cons. change (span []) with 0.
    by replace (b + (total h1 + (total h2 + 0))) with (b + total h) by lia.
  - apply free_nodes_spaced; [done|done|].
    unfold bs. rewrite !span_app, !span_cons. change (span []) with 0. lia.
Qed.

(** Chaining a node in after only the headers of its block were written. *)
Lemma insert_between s s2 bs1 h bs2 m hi x :
  heap_wf s (bs1 ++ h :: bs2) →
  let b := heap_start (self s) + span bs1 in
  let l1 := free_nodes (heap_start (self s)) bs1 in
  let l2 := free_nodes (b + total h) bs2 in
  dseg m 0 (l1 ++ l2) 0 → only m (mem (mach s2)) b hi → hi ≤ b + total h →
  spaced (l1 ++ x :: l2) → free_list_head (self s2) = hd 0 (l1 ++ l2) →
  walk_fuel (self s2) = walk_fuel (self s) →
  ∃ m', insert_into_free_list x s2 =
          Ret (tt, mkAState (set_free_list_head (hd 0 (l1 ++ x :: l2)) (self s2))
                     (mkMachine m' (clock (mach s2))))
        ∧ dseg m' 0 (l1 ++ x :: l2) 0 ∧ nodes_only (mem (mach s2)) m' (l1 ++ x :: l2).
Proof.
  intros W b l1 l2 Hd O Hhi Hsp Hhd Hwf.
  pose proof (heap_wf_split _ _ _ _ W) as (_ & Hok & Ok1 & Ok2 & _).
  apply insert_spec; [done| |done|].
  - eapply dseg_agree; [|exact Hd]. intros y Hy. eapply only_agree; [exact O|].
    apply elem_of_app in Hy as [Hy|Hy]; apply free_nodes_bounds in Hy; try done;
      unfold b, HEADER_SIZE in *; lia.
  - pose proof (walk_fuel_enough _ _ W) as H. rewrite length_app in H.
    pose proof (free_nodes_length (heap_start (self s)) bs1) as Hl. fold l1 in Hl. lia.
Qed.

Lemma split_block_spec N s s1 bs1 h bs2 req :
  heap_wf s (bs1 ++ h :: bs2) → is_free h = true → taken s s1 bs1 h bs2 →
  counters_below N (self s) → N + 4 < 2 ^ 64 →
  64 ≤ req → req + 64 ≤ BlockHeader.size h →
  ∃ s2 h1 h2,
    split_block (heap_start (self s) + span bs1) (BlockHeader.size h) req s1 = Ret (tt, s2)
    ∧ carved N s s2 bs1 h bs2 h1 [h2] ∧ BlockHeader.size h1 = req - HEADER_SIZE
    ∧ is_free h2 = true.
Proof.
  intros W Hf T Hc HN Hr Hr'.
  pose proof (heap_wf_split _ _ _ _ W) as (_ & Hok & Ok1 & Ok2 & Hb & He & Hs1 & Hs2).
  destruct (taken_facts _ _ _ _ _ W Hf T) as (Hh & S1 & S2 & S3 & S4 & Hck).
  pose proof T as [T1 T2 T3 T4]. pose proof (wf_bound _ _ W) as Hbd.
  pose proof (wf_start _ _ W) as Hst. pose proof (wf_end _ _ W) as Hen.
  set (b := heap_start (self s) + span bs1) in *.
  destruct (split_headers_spec s1 b h req Hh) as
    (m2 & ck & h1 & h2 & E & Ht & O & Hck2 & Z1 & St1 & Id1 & Pu1 & Z2 & St2 & V1 & V2);
    try done; [apply validate_magic, Hok|rewrite T1; simpl; destruct Hc; lia|lia|].
  unfold HEADER_SIZE in *.
  assert (is_free h1 = false ∧ is_free h2 = true) as [Hf1 Hf2]
    by (unfold is_free; by rewrite St1, St2).
  assert (total h1 = req ∧ total h2 = total h - req) as [Et1 Et2]
    by (unfold total, HEADER_SIZE; lia).
  assert (total h = BlockHeader.size h + 48) as Eth by done.
  assert (blk_ok h1 ∧ blk_ok h2) as [Hok1 Hok2] by (split; split; try done; lia).
  pose proof (blk_total _ Hok) as Htot.
  destruct (split_nodes s bs1 h bs2 h1 h2 W) as (Hn & Hfn & Hall & Hsp);
    try done; [lia|]. fold b in Hn, Hfn. rewrite Et1 in Hn, Hfn. unfold HEADER_SIZE in *.
  set (N1 := free_nodes (heap_start (self s)) bs1) in *.
  set (N2 := free_nodes (b + total h) bs2) in *. rewrite Hfn in Hsp.
  set (s2 := mkAState (set_next_alloc_id (next_alloc_id (self s1) + 1) (self s1))
               (mkMachine m2 ck)) in *.
  destruct (insert_between s s2 bs1 h bs2 _ _ (b + req + 48) W T3 O) as (m3 & E3 & Hd3 & O3);
    [fold b; lia|done|cbn [s2 self]; by rewrite T1..|]. fold b N1 N2 in E3, Hd3, O3.
  set (s3 := mkAState _ _) in E3.
  assert (counters_below (N + 1) (self s3)) as Hc3.
  { cbn [s3 s2 self]. rewrite T1. destruct Hc. split; simpl; lia. }
  destruct (record_split_run (N + 1) s3 Hc3 ltac:(lia) (BlockHeader.size h - req))
    as (st & E4 & (U1 & U2 & U3 & U4 & U5 & U6) & B4).
  cbn [s3 s2 self stats set_free_list_head set_next_alloc_id] in U1, U2, U3, U4.
  pose proof (sums_bound _ Ok1). pose proof (sums_bound _ Ok2).
  eexists _, h1, h2. split; [|split; [|split; [lia|done]]].
  - unfold split_block, HEADER_SIZE. mstep_arith. mstep_arith. mstep_arith.
    replay E. mstep_arith. mstep_with ltac:(exact E3).
    mstep_with ltac:(exact E4). mstep_arith.
    mstep_with ltac:(apply add_free_size_run; cbn [self stats set_stats]; lia).
    apply add_free_count_run. simpl. lia.
  - fold b.
    split; fold b N1; cbn [self mach mem clock set_stats stats heap_start heap_end frozen
      next_alloc_id free_list_head s3 s2 set_free_list_head set_next_alloc_id];
      try (rewrite T1; reflexivity); try done.
    + rewrite !span_cons. change (span []) with 0. lia.
    + eapply tiles_agree; [|exact Ht]. intros x Hx. apply O3. intros y Hy.
      rewrite <- Hfn in Hy. eapply in_header_node; [exact Hall| |exact Hy].
      apply in_header_app. right. apply in_header_app. by left.
    + by repeat constructor; (apply Hok1 || apply Hok2).
    + by rewrite Id1, T1.
    + fold N2. eapply touched_trans; [eapply touched_nodes; [exact T4|tauto]|].
      eapply touched_trans; [eapply touched_only; [exact O|lia|lia]|].
      eapply touched_nodes; [exact O3|]. intros y. rewrite !elem_of_app, elem_of_cons. intros [?|[->|?]]; [tauto|lia|tauto].
    + fold N2. by rewrite Hn.
    + fold N2. by rewrite Hn.
    + simpl. lia.
    + simpl. lia.
    + rewrite (proj1 (proj2 (sums_cons h2 []))), Hf2. simpl. change (free_bytes []) with 0. lia.
    + rewrite (proj1 (proj2 (proj2 (sums_cons h2 [])))), Hf2. simpl. change (free_blocks []) with 0. lia.
    + apply counters_set_free_count, counters_set_free_size.
      by replace (N + 2) with (N + 1 + 1) by lia; apply B4.
Qed.

(** ** Absorbing a free neighbour *)

Definition merged (h g : header) : header :=
  BlockHeader.update_checksum (BlockHeader.set_size (BlockHeader.size h + total g) h).

Lemma merged_facts h g :
  blk_ok h → blk_ok g → is_free h = true → total h + total g < 2 ^ 64 →
  blk_ok (merged h g) ∧ is_free (merged h g) = true ∧ total (merged h g) = total h + total g
  ∧ in_u64 (BlockHeader.size h + total g).
Proof.
  intros [V Z] [_ Zg] Hf Hb. unfold total, HEADER_SIZE in *. split_and!; try done.
  - split; [|simpl; unfold total, HEADER_SIZE; lia].
    apply validate_update_checksum. simpl. by apply validate_magic.
  - simpl. unfold total, HEADER_SIZE. lia.
  - unfold in_u64. lia.
Qed.

(** The memory part: the node of [g] leaves the list, [h] grows over it. *)
Lemma absorb_mem s bs1 h g bs2 :
  heap_wf s (bs1 ++ h :: g :: bs2) → is_free h = true → is_free g = true →
  let b := heap_start (self s) + span bs1 in
  let o := b + total h in
  let l := free_nodes (heap_start (self s)) bs1
           ++ [b + HEADER_SIZE] ++ free_nodes (o + total g) bs2 in
  ∃ m', (remove_from_free_list (o + HEADER_SIZE);;
         ts ← hw (total_size_at o);
         sz ← hw (rd_size b);
         sz' ← usize_add sz ts;
         hw (wr_size b sz');;
         hw (update_checksum_at b)) s
        = Ret (tt, mkAState (set_free_list_head (hd 0 l) (self s))
                     (mkMachine m' (clock (mach s))))
    ∧ hdr_at m' b (merged h g) ∧ dseg m' 0 l 0
    ∧ touched (mem (mach s)) m' b (o + total g)
        (free_nodes (heap_start (self s)) bs1 ++ free_nodes (o + total g) bs2).
Proof.
  intros W Hf Hg b o l.
  pose proof (heap_wf_split _ _ _ _ W) as (Hh & Hok & Ok1 & Ok2' & Hb & He & Hs1 & Hs2).
  apply Forall_cons in Ok2' as [Hokg Ok2]. fold b in Hh, Hb, He.
  rewrite span_cons in He, Hs2. pose proof (span_nonneg _ Ok2).
  pose proof (blk_total _ Hok) as Hth. pose proof (blk_total _ Hokg) as Htg.
  pose proof (wf_tiles _ _ W) as Ht. apply tiles_app in Ht as [_ (_ & Hhg & _)].
  fold b o in Hhg. pose proof (wf_bound _ _ W) as Hbd.
  destruct (merged_facts h g Hok Hokg Hf ltac:(lia)) as (_ & _ & _ & Hsz).
  assert (free_nodes (heap_start (self s)) (bs1 ++ h :: g :: bs2)
          = (free_nodes (heap_start (self s)) bs1 ++ [b + HEADER_SIZE])
            ++ (o + HEADER_SIZE) :: free_nodes (o + total g) bs2) as El.
  { rewrite free_nodes_app, <- app_assoc. simpl. fold b. rewrite Hf, Hg. done. }
  pose proof (wf_spaced _ _ W) as Hsp. pose proof (wf_list _ _ W) as Hl.
  pose proof (wf_head _ _ W) as Hhd. rewrite El in Hsp, Hl, Hhd.
  destruct (remove_spec _ _ _ _ Hsp Hl Hhd) as (m1 & E1 & Hd1 & O1).
  rewrite <- app_assoc in E1, Hd1, O1. fold l in E1, Hd1, O1.
  assert (∀ x, b ≤ x < b + 48 ∨ o ≤ x < o + 48 → m1 !! x = mem (mach s) !! x) as Hsame.
  { intros x Hx. apply O1. unfold l. intros y. rewrite !elem_of_app, list_elem_of_singleton.
    unfold o in *. intros [Hy|[->|Hy]]; try (apply free_nodes_bounds in Hy; [|done]);
      unfold total, HEADER_SIZE in *; destruct Hok; lia. }
  set (s1 := mkAState _ _) in E1.
  assert (hdr_at (mem (mach s1)) b h) as Hh1
    by (eapply hdr_at_agree; [|exact Hh]; intros x Hx; symmetry; apply Hsame; by left).
  assert (hdr_at (mem (mach s1)) o g) as Hg1
    by (eapply hdr_at_agree; [|exact Hhg]; intros x Hx; symmetry; apply Hsame; by right).
  destruct (resize_spec s1 b h _ Hh1 (validate_magic _ (proj1 Hok)) Hsz) as (m2 & E2 & Hh2 & O2).
  exists m2. split_and!; [|done| |].
  - mstep_with ltac:(exact E1).
    mstep_with ltac:(apply hw_read, total_size_at_spec; [exact Hg1|unfold total, HEADER_SIZE in *; lia]).
    mstep_with ltac:(apply hw_read, rd_size_spec; exact Hh1).
    destruct Hsz. mstep_with ltac:(apply usize_add_ok; unfold total in *; lia). exact E2.
  - eapply dseg_agree; [|exact Hd1]. intros y. unfold l.
    rewrite !elem_of_app, list_elem_of_singleton. intros Hy. eapply only_agree; [exact O2|].
    unfold o in *. destruct Hy as [Hy|[->|Hy]]; try (apply free_nodes_bounds in Hy; [|done]);
      unfold HEADER_SIZE in *; lia.
  - eapply touched_trans; [eapply touched_nodes; [exact O1|]|].
    + intros y. unfold l. rewrite !elem_of_app, list_elem_of_singleton.
      unfold o, HEADER_SIZE in *. intros [?|[->|?]]; [tauto|right; lia|tauto].
    + eapply touched_only; [exact O2|lia|unfold o, HEADER_SIZE; lia].
Qed.

Lemma absorb_spec N s bs1 h g bs2 :
  heap_wf s (bs1 ++ h :: g :: bs2) → is_free h = true → is_free g = true →
  counters_below N (self s) → N + 4 < 2 ^ 64 →
  let b := heap_start (self s) + span bs1 in
  let o := b + total h in
  ∃ s', absorb b o (o + HEADER_SIZE) s = Ret (tt, s')
    ∧ heap_wf s' (bs1 ++ merged h g :: bs2)
    ∧ (∀ x, in_user (heap_start (self s)) bs1 x ∨ in_user (o + total g) bs2 x →
            mem (mach s') !! x = mem (mach s) !! x)
    ∧ heap_start (self s') = heap_start (self s) ∧ heap_end (self s') = heap_end (self s)
    ∧ frozen (self s') = frozen (self s) ∧ counters_below (N + 1) (self s').
Proof.
  intros W Hf Hg Hc HN b o.
  pose proof (heap_wf_split _ _ _ _ W) as (Hh & Hok & Ok1 & Ok2' & Hb & He & Hs1 & Hs2).
  apply Forall_cons in Ok2' as [Hokg Ok2]. fold b in Hh, Hb, He.
  rewrite span_cons in He, Hs2. pose proof (span_nonneg _ Ok2). pose proof (wf_bound _ _ W) as Hbd.
  destruct (merged_facts h g Hok Hokg Hf ltac:(lia)) as (Hokm & Hfm & Htm & _).
  destruct (absorb_mem s bs1 h g bs2 W Hf Hg) as (m' & E & Hhm & Hd & Ht). fold b o in E, Hhm, Hd, Ht.
  set (s1 := mkAState _ _) in E.
  assert (counters_below N (self s1)) as Hc1 by (destruct Hc; by split).
  destruct (record_merge_run N s1 Hc1 ltac:(lia)) as (st & E4 & (U1 & U2 & U3 & U4 & U5 & U6) & B4).
  cbn [s1 self stats set_free_list_head] in U1, U2, U3, U4.
  destruct (wf_stats _ _ W) as [S1 S2 S3 S4].
  pose proof (sums_app bs1 (h :: g :: bs2)) as (A1 & A2 & A3 & A4).
  pose proof (sums_cons h (g :: bs2)) as (C1 & C2 & C3 & C4). rewrite Hf in C1, C2, C3, C4.
  pose proof (sums_cons g bs2) as (D1 & D2 & D3 & D4). rewrite Hg in D1, D2, D3, D4.
  pose proof (sums_app bs1 (merged h g :: bs2)) as (F1 & F2 & F3 & F4).
  pose proof (sums_cons (merged h g) bs2) as (G1 & G2 & G3 & G4). rewrite Hfm in G1, G2, G3, G4.
  pose proof (sums_bound _ Ok1). pose proof (sums_bound _ Ok2).
  pose proof (sums_bound _ (wf_ok _ _ W)). pose proof (wf_start _ _ W). pose proof (wf_end _ _ W).
  eexists. split.
  - unfold absorb. replay E.
    mstep_with ltac:(exact E4). apply sub_free_count_run. simpl. lia.
  - set (s' := mkAState _ _).
    destruct (heap_wf_replace s s' bs1 [h; g] [merged h g] bs2 W) as [W' Hu]; try done;
      rewrite ?span_cons; change (span []) with 0.
    + fold b. replace (b + (total h + (total g + 0))) with (o + total g) by (unfold o; lia). done.
    + lia.
    + by constructor.
    + fold b. replace (b + (total h + (total g + 0))) with (o + total g) by (unfold o; lia).
      simpl free_nodes. rewrite Hfm. done.
    + fold b. replace (b + (total h + (total g + 0))) with (o + total g) by (unfold o; lia).
      simpl free_nodes. rewrite Hfm. done.
    + split; simpl; lia.
    + apply W.
    + split_and!; try done.
      * intros x Hx. apply Hu. rewrite !span_cons. change (span []) with 0. fold b.
        by replace (b + (total h + (total g + 0))) with (o + total g) by (unfold o; lia).
      * by apply (counters_set_free_count (N + 1) (set_stats st (self s1))), B4.
Qed.

End steps.
