(* ===== verification/AllocSpec.v ===== *)
(** * Allocation and deallocation against the block list

    The abstract state is the list of headers [bs] of [HeapInv.v].  [alloc_aligned]
    is first fit on that list; [dealloc] frees one block of it and merges it
    with its free neighbours.  The lemmas here give, for every branch of both
    operations, the result, the new list and the memory that is left alone. *)

From Stdlib Require Import ZArith Lia.
From stdpp Require Import base option numbers sorting gmap list.
From S2P Require Import Prelude Memory Purpose Metadata HeaderSpec Allocator FreeList HeapInv AllocSteps.

(** ** First fit on the block list *)

(** The block [h] with header address [b] can hold [sz] bytes aligned to
    [align].  The test of [find_free_block] counts the header on the left. *)
Definition block_fits (sz align b : Z) (h : header) : bool :=
  is_free h && (user_addr_of b align - b + sz <=? BlockHeader.size h).

Fixpoint first_fit (sz align a : Z) (bs : list header)
    : option (list header * header * list header) :=
  match bs with
  | [] => None
  | h :: r =>
      if block_fits sz align a h then Some ([], h, r)
      else (λ '(bs1, g, bs2), (h :: bs1, g, bs2)) <$> first_fit sz align (a + total h) r
  end.

Lemma first_fit_Some sz align a bs bs1 h bs2 :
  first_fit sz align a bs = Some (bs1, h, bs2) →
  bs = bs1 ++ h :: bs2 ∧ block_fits sz align (a + span bs1) h = true.
Proof.
  revert a bs1; induction bs as [|g bs IH]; intros a bs1; simpl; [done|].
  destruct (block_fits sz align a g) eqn:E.
  - intros [= <- <- <-]. unfold span. simpl. by rewrite Z.add_0_r.
  - destruct (first_fit sz align (a + total g) bs) as [[[cs1 k] cs2]|] eqn:F; [|done].
    intros [= <- <- <-]. destruct (IH _ _ F) as [-> Hk]. split; [done|].
    by rewrite span_cons, Z.add_assoc.
Qed.

(** Every block before the one chosen, and every block when none is chosen,
    is not free or too small. *)
Lemma first_fit_first sz align a bs bs1 h bs2 i g :
  first_fit sz align a bs = Some (bs1, h, bs2) → bs1 !! i = Some g →
  block_fits sz align (a + span (take i bs1)) g = false.
Proof.
  revert a bs1 i; induction bs as [|k bs IH]; intros a bs1 i; simpl; [done|].
  destruct (block_fits sz align a k) eqn:E; [by intros [= <- <- <-]|].
  destruct (first_fit sz align (a + total k) bs) as [[[cs1 k'] cs2]|] eqn:F; [|done].
  intros [= <- <- <-]. destruct i as [|i]; simpl.
  - intros [= <-]. unfold span. simpl. by rewrite Z.add_0_r.
  - intros Hi. rewrite span_cons, Z.add_assoc. eauto.
Qed.

Lemma first_fit_None sz align a bs :
  first_fit sz align a bs = None ↔
  ∀ i g, bs !! i = Some g → block_fits sz align (a + span (take i bs)) g = false.
Proof.
  revert a; induction bs as [|k bs IH]; intros a; simpl; [done|]. split.
  - destruct (block_fits sz align a k) eqn:E; [done|]. intros F%fmap_None.
    intros [|i] g; simpl.
    + intros [= <-]. unfold span. simpl. by rewrite Z.add_0_r.
    + intros Hi. rewrite span_cons, Z.add_assoc. by eapply IH.
  - intros H. pose proof (H 0%nat k eq_refl) as E. unfold span in E. simpl in E.
    rewrite Z.add_0_r in E. rewrite E. apply fmap_None, IH. intros i g Hi.
    specialize (H (S i) g Hi). simpl in H. by rewrite span_cons, Z.add_assoc in H.
Qed.

(** The walk over the list nodes finds the same block. *)
Lemma find_nodes m sz align a bs :
  tiles m a bs →
  head (filter (fits m sz align) (free_nodes a bs)) =
  (λ '(bs1, _, _), a + span bs1 + HEADER_SIZE) <$> first_fit sz align a bs.
Proof.
  revert a; induction bs as [|h bs IH]; intros a; [done|]. intros [Hh Ht].
  simpl free_nodes. simpl first_fit. rewrite filter_app. unfold block_fits.
  assert (head (filter (fits m sz align) (free_nodes (a + total h) bs)) =
          (λ '(bs1, _, _), a + span bs1 + HEADER_SIZE) <$>
            ((λ '(bs1, g, bs2), (h :: bs1, g, bs2)) <$> first_fit sz align (a + total h) bs)) as E.
  { rewrite (IH _ Ht).
    destruct (first_fit sz align (a + total h) bs) as [[[cs1 k] cs2]|]; [|done].
    simpl. rewrite span_cons. f_equal. lia. }
  destruct (is_free h) eqn:Ef; simpl; [|done]. rewrite filter_cons.
  assert (fits m sz align (a + HEADER_SIZE) ↔ user_addr_of a align - a + sz ≤ BlockHeader.size h)
    as Hfit.
  { unfold fits, HEADER_SIZE. replace (a + 48 - 48) with a by lia. by rewrite (at_size _ _ _ Hh). }
  destruct (Z.leb_spec (user_addr_of a align - a + sz) (BlockHeader.size h)).
  - rewrite decide_True by (by apply Hfit). simpl. unfold span. simpl. by rewrite Z.add_0_r.
  - rewrite decide_False by (rewrite Hfit; lia). done.
Qed.

(** ** Neighbours *)

(** Whether the last block of [l] is free, and the first of [r]. *)
Definition last_free (l : list header) : bool := from_option is_free false (last l).
Definition head_free (r : list header) : bool := from_option is_free false (head r).

Lemma coalesced_app l r :
  coalesced (l ++ r) ↔ coalesced l ∧ coalesced r ∧ last_free l && head_free r = false.
Proof.
  induction l as [|h l IH]; [simpl; tauto|]. destruct l as [|h' l].
  - simpl. destruct r as [|g r]; simpl; [rewrite andb_false_r|]; tauto.
  - assert (last_free (h :: h' :: l) = last_free (h' :: l)) as -> by done.
    cbn [app coalesced] in *. tauto.
Qed.

Lemma coalesced_cons h r :
  coalesced (h :: r) ↔ is_free h && head_free r = false ∧ coalesced r.
Proof. destruct r as [|g r]; simpl; [rewrite andb_false_r|]; tauto. Qed.

(** Allocating in a coalesced heap leaves it coalesced. *)
Lemma coalesced_alloc bs1 h bs2 h1 rest :
  coalesced (bs1 ++ h :: bs2) → is_free h = true → is_free h1 = false →
  rest = [] ∨ (∃ h2, rest = [h2] ∧ is_free h2 = true) →
  coalesced (bs1 ++ h1 :: rest ++ bs2).
Proof.
  rewrite !coalesced_app, !coalesced_cons. intros (C1 & (C2 & C3) & C4) Hf Hf1 Hr.
  rewrite Hf in C2. simpl in *. assert (head_free (h1 :: rest ++ bs2) = false) as -> by done.
  rewrite Hf1, andb_false_r. split_and!; try done.
  destruct Hr as [->|(h2 & -> & Hf2)]; [done|]. cbn [app].
  by rewrite coalesced_cons, Hf2, C2.
Qed.

(** ** Allocation *)

Section alloc.
Context {P : Profile}.

(** What the caller of an operation may rely on: the heap bounds and the frozen
    flag stay, the event counters stay below [N]. *)
Definition same_heap (N : Z) (s s' : AState) : Prop :=
  heap_start (self s') = heap_start (self s) ∧ heap_end (self s') = heap_end (self s)
  ∧ frozen (self s') = frozen (self s) ∧ counters_below N (self s').

Lemma wf_set_stats s bs st' :
  heap_wf s bs → stats_step (stats (self s)) st' 0 0 →
  heap_wf (mkAState (set_stats st' (self s)) (mach s)) bs.
Proof.
  intros [? ? ? ? ? ? ? [] ?] (U1 & U2 & U3 & U4 & _). split; try done. split; simpl; lia.
Qed.

(** Refusal: only the failure counter changes. *)
Lemma alloc_fail_spec N s bs :
  heap_wf s bs → counters_below N (self s) → N + 4 < 2 ^ 64 →
  ∃ s', alloc_fail s = Ret (None, s') ∧ heap_wf s' bs ∧ mach s' = mach s
        ∧ AllocStats.failed_allocs (stats (self s')) = AllocStats.failed_allocs (stats (self s)) + 1
        ∧ same_heap (N + 4) s s'.
Proof.
  intros W Hc HN. destruct (record_alloc_failure_run N s Hc ltac:(lia)) as (st & E & U & B & F).
  eexists. split; [unfold alloc_fail; mstep_with ltac:(exact E); reflexivity|].
  split_and!; [by apply wf_set_stats|done|done|]. unfold same_heap. split_and!; try done.
  eapply counters_mono; [by apply B|lia].
Qed.

(** Once the block is carved, [record_alloc] completes the invariant. *)
Lemma carved_recorded N s s2 bs1 h bs2 h1 rest :
  heap_wf s (bs1 ++ h :: bs2) → is_free h = true → carved N s s2 bs1 h bs2 h1 rest →
  used_bytes rest = 0 → used_blocks rest = 0 → N + 4 < 2 ^ 64 →
  ∃ s3, hw (rd_size (heap_start (self s) + span bs1)) s2 = Ret (BlockHeader.size h1, s2)
    ∧ on_stats (AllocStats.record_alloc (BlockHeader.size h1)) s2 = Ret (tt, s3)
    ∧ heap_wf s3 (bs1 ++ (h1 :: rest) ++ bs2)
    ∧ (∀ x, in_user (heap_start (self s)) bs1 x
            ∨ in_user (heap_start (self s) + span bs1 + total h) bs2 x →
            mem (mach s3) !! x = mem (mach s) !! x)
    ∧ same_heap (N + 4) s s3 ∧ next_alloc_id (self s3) = next_alloc_id (self s) + 1.
Proof.
  intros W Hf C R1 R2 HN. pose proof C as [].
  pose proof (heap_wf_split _ _ _ _ W) as (_ & Hok & Ok1 & Ok2 & Hb & He & Hs1 & Hs2).
  pose proof (wf_bound _ _ W). pose proof (wf_start _ _ W).
  pose proof cv_tiles as [Hh1 _]. pose proof (sums_bound _ Ok1). pose proof (sums_bound _ Ok2).
  assert (is_free h1 = false) as Hf1 by (unfold is_free; by rewrite cv_alloc).
  pose proof (sums_cons h1 rest) as (C1 & C2 & C3 & C4). rewrite Hf1 in C1, C2, C3, C4.
  pose proof (sums_app bs1 ((h1 :: rest) ++ bs2)) as (A1 & A2 & A3 & A4).
  pose proof (sums_app (h1 :: rest) bs2) as (B1 & B2 & B3 & B4).
  pose proof (sums_bound _ cv_ok) as Hsb. rewrite cv_span in Hsb.
  destruct (record_alloc_run (N + 2) s2 cv_below ltac:(lia) (BlockHeader.size h1))
    as (st & E & (U1 & U2 & U3 & U4 & U5 & U6) & B); [lia|lia|].
  eexists. split; [|split; [exact E|]].
  { by apply hw_read, rd_size_spec. }
  set (s3 := mkAState _ _).
  assert (span (h1 :: rest) = span [h]) as Esp
    by (rewrite cv_span, span_cons; change (span []) with 0; lia).
  assert (heap_start (self s) + span bs1 + span [h] = heap_start (self s) + span bs1 + total h)
    as Ehi by (rewrite span_cons; change (span []) with 0; lia).
  destruct (heap_wf_replace s s3 bs1 [h] (h1 :: rest) bs2 W) as [W3 Hu];
    rewrite ?Ehi; try done.
  - split; cbn [s3 self stats set_stats]; lia.
  - split_and!; [done|by rewrite Ehi in Hu| |done]. unfold same_heap. split_and!; try done.
    eapply counters_mono; [apply B; exact cv_below|lia].
Qed.

(** The blocks that replace the chosen free block [h] at [b]. *)
Definition carve (sz align b : Z) (h h1 : header) (rest : list header) : Prop :=
  let req := user_addr_of b align - b + sz in
  BlockHeader.status h1 = Allocated ∧ BlockHeader.purpose h1 = BlockHeader.purpose h
  ∧ if req + min_block_size <=? BlockHeader.size h
    then ∃ h2, rest = [h2] ∧ is_free h2 = true ∧ BlockHeader.size h1 = req - HEADER_SIZE
               ∧ BlockHeader.size h2 = BlockHeader.size h - req
    else rest = [] ∧ BlockHeader.size h1 = BlockHeader.size h.

(** [take_block], then the split or the marking of the whole block. *)
Lemma carve_spec N s bs1 h bs2 sz align :
  heap_wf s (bs1 ++ h :: bs2) → counters_below N (self s) → N + 4 < 2 ^ 64 →
  16 ≤ sz → 0 < align →
  let b := heap_start (self s) + span bs1 in
  let req := user_addr_of b align - b + sz in
  block_fits sz align b h = true →
  ∃ s1 s2 h1 rest,
    take_block b (BlockHeader.size h) s = Ret (tt, s1)
    ∧ (if req + min_block_size <=? BlockHeader.size h
       then split_block b (BlockHeader.size h) req else mark_allocated b) s1 = Ret (tt, s2)
    ∧ carved N s s2 bs1 h bs2 h1 rest ∧ carve sz align b h h1 rest.
Proof.
  intros W Hc HN Hsz Ha b req Hfit. unfold block_fits in Hfit. b2p. fold req in H0.
  pose proof (user_addr_of_spec b align Ha) as [Hu _].
  destruct (take_block_spec s bs1 h bs2 W H) as (s1 & E1 & T). exists s1.
  unfold carve. fold req. change min_block_size with 64. unfold HEADER_SIZE in Hu.
  destruct (Z.leb_spec (req + 64) (BlockHeader.size h)).
  - destruct (split_block_spec N s s1 bs1 h bs2 req) as (s2 & h1 & h2 & E2 & C & Z1 & F2);
      [done..|unfold req; lia|lia|].
    exists s2, h1, [h2]. split_and!; try done; try by destruct C.
    exists h2. split_and!; try done. destruct C. rewrite !span_cons in cv_span.
    unfold total, HEADER_SIZE in *. change (span []) with 0 in cv_span. lia.
  - destruct (mark_whole_spec N s s1 bs1 h bs2) as (s2 & h1 & E2 & C & Z1); [done..|].
    exists s2, h1, []. split_and!; try done; by destruct C.
Qed.

Lemma rest_used sz align b h h1 rest :
  carve sz align b h h1 rest →
  used_bytes rest = 0 ∧ used_blocks rest = 0
  ∧ (rest = [] ∨ ∃ h2, rest = [h2] ∧ is_free h2 = true).
Proof.
  intros (_ & _ & C). destruct (_ <=? _).
  - destruct C as (h2 & -> & F & _). pose proof (sums_cons h2 []) as (-> & _ & _ & ->).
    rewrite F. split_and!; eauto.
  - destruct C as [-> _]. split_and!; auto.
Qed.

Section alloc_aligned.
Context (N : Z) (s : AState) (bs : list header) (sz align : Z).
Context (I : heap_inv s bs) (Hc : counters_below N (self s)) (HN : N + 4 < 2 ^ 64).
Context (Hfr : frozen (self s) = false) (Hsz : 0 < sz) (Hal : is_power_of_two align = true).
Context (Hb1 : 48 + align + Z.max sz 16 ≤ 2 ^ 64) (Hb2 : heap_end (self s) + align + 64 ≤ 2 ^ 64).

Let asz := Z.max sz 16.

Lemma find_free_block_spec :
  find_free_block asz align s =
  Ret ((λ '(bs1, _, _), let b := heap_start (self s) + span bs1 in (b, user_addr_of b align))
         <$> first_fit asz align (heap_start (self s)) bs, s).
Proof.
  destruct I as [W _]. unfold find_free_block. mstep. rewrite (wf_head _ _ W).
  erewrite find_free_loop_spec; [|apply W|by apply wf_spaced| |unfold asz; lia|done|done|].
  - rewrite find_nodes by apply W.
    destruct (first_fit _ _ _ _) as [[[bs1 h] bs2]|]; [|done]. simpl. unfold HEADER_SIZE.
    by replace (heap_start (self s) + span bs1 + 48 - 48) with (heap_start (self s) + span bs1)
      by lia.
  - pose proof (walk_fuel_enough _ _ W). pose proof (free_nodes_length (heap_start (self s)) bs).
    lia.
  - intros y Hy. apply free_nodes_bounds in Hy; [|apply W]. rewrite (wf_end _ _ W) in Hy. lia.
Qed.

Lemma alloc_guards k :
  (if frozen (self s) then alloc_fail
   else if (sz =? 0) || negb (is_power_of_two align) then alloc_fail else k) s = k s.
Proof.
  rewrite Hfr, Hal. assert ((sz =? 0) = false) as -> by (apply Z.eqb_neq; lia). done.
Qed.

(** No block fits: the request fails and only the failure counter moves. *)
Lemma alloc_none :
  first_fit asz align (heap_start (self s)) bs = None →
  ∃ s', alloc_aligned sz align s = Ret (None, s') ∧ heap_inv s' bs ∧ mach s' = mach s
        ∧ AllocStats.failed_allocs (stats (self s')) = AllocStats.failed_allocs (stats (self s)) + 1
        ∧ same_heap (N + 4) s s'.
Proof.
  intros F. destruct (alloc_fail_spec N s bs (proj1 I) Hc HN) as (s' & E & W & ?).
  exists s'. split; [|split; [split; [done|apply I]|done]].
  unfold alloc_aligned. mstep. rewrite alloc_guards.
  mstep_with ltac:(apply find_free_block_spec). by rewrite F.
Qed.

(** The first block that fits is carved up. *)
Lemma alloc_some bs1 h bs2 :
  first_fit asz align (heap_start (self s)) bs = Some (bs1, h, bs2) →
  let b := heap_start (self s) + span bs1 in
  ∃ s' h1 rest,
    alloc_aligned sz align s = Ret (Some (user_addr_of b align), s')
    ∧ carve asz align b h h1 rest ∧ BlockHeader.alloc_id h1 = next_alloc_id (self s)
    ∧ span (h1 :: rest) = total h
    ∧ heap_inv s' (bs1 ++ (h1 :: rest) ++ bs2)
    ∧ (∀ x, in_user (heap_start (self s)) bs1 x ∨ in_user (b + total h) bs2 x →
            mem (mach s') !! x = mem (mach s) !! x)
    ∧ same_heap (N + 4) s s' ∧ next_alloc_id (self s') = next_alloc_id (self s) + 1.
Proof.
  intros F b. pose proof I as [W Co]. destruct (first_fit_Some _ _ _ _ _ _ _ F) as [Ebs Hfit].
  rewrite Ebs in W, Co.
  fold b in Hfit. assert (is_free h = true) as Hf by (unfold block_fits in Hfit; b2p; done).
  assert (0 < align) as Ha
    by (apply is_power_of_two_spec in Hal as (k & ? & ->); by apply Z.pow_pos_nonneg).
  destruct (carve_spec N s bs1 h bs2 asz align W Hc HN ltac:(unfold asz; lia) Ha Hfit)
    as (s1 & s2 & h1 & rest & E1 & E2 & C & K). fold b in E1, E2, K.
  destruct (rest_used _ _ _ _ _ _ K) as (R1 & R2 & R3).
  destruct (carved_recorded N s s2 bs1 h bs2 h1 rest W Hf C R1 R2 HN)
    as (s3 & E3 & E4 & W3 & Hu & Hs & Hid). fold b in E3.
  pose proof (heap_wf_split _ _ _ _ W) as (Hh & Hok & _ & _ & Hb & He & _ & Hs2). fold b in Hh, Hb, He.
  pose proof (user_addr_of_spec b align Ha) as [Hua _]. unfold HEADER_SIZE in Hua.
  pose proof (wf_bound _ _ W). unfold block_fits in Hfit. b2p. unfold total, HEADER_SIZE in He.
  exists s3, h1, rest. split_and!; try done.
  - unfold alloc_aligned. mstep. rewrite alloc_guards.
    mstep_with ltac:(apply find_free_block_spec). change (Z.max sz FREE_BLOCK_SIZE) with asz.
    rewrite F. simpl fmap. cbv zeta beta iota. fold b.
    mstep_with ltac:(apply hw_read, rd_size_spec; exact Hh).
    mstep_with ltac:(exact E1). fold b. mstep_arith. unfold asz in *. mstep_arith.
    change min_block_size with 64 in *. mstep_arith. mstep_with ltac:(exact E2).
    mstep_with ltac:(exact E3). mstep_with ltac:(exact E4).
    unfold NonNull_new. by assert ((user_addr_of b align =? 0) = false) as ->
      by (apply Z.eqb_neq; lia).
  - by destruct C.
  - by destruct C.
  - split; [done|]. eapply (coalesced_alloc bs1 h bs2 h1 rest); try done.
    unfold is_free. by rewrite (cv_alloc _ _ _ _ _ _ _ _ C).
Qed.

End alloc_aligned.

End alloc.
