(* ===== verification/DeallocSpec.v ===== *)
(** * Deallocation against the block list

    [dealloc] turns one allocated block of the list into a free one and merges
    it with its free neighbours ([freed]); the lemmas cover the refusals and
    both halves of [coalesce]. *)

From Stdlib Require Import ZArith Lia.
From stdpp Require Import base option numbers sorting gmap list.
From S2P Require Import Prelude Memory Purpose Metadata HeaderSpec Allocator FreeList HeapInv AllocSteps AllocSpec.

(** ** Merging on the block list *)

Definition merge_next (h : header) (bs2 : list header) : header * list header :=
  match bs2 with
  | g :: r => if is_free g then (merged h g, r) else (h, bs2)
  | [] => (h, [])
  end.

Fixpoint merge_prev (bs1 : list header) (h : header) (bs2 : list header) : list header :=
  match bs1 with
  | [] => h :: bs2
  | [k] => if is_free k then merged k h :: bs2 else k :: h :: bs2
  | k :: r => k :: merge_prev r h bs2
  end.

(** The list after the free block [h] between [bs1] and [bs2] is coalesced. *)
Definition freed (bs1 : list header) (h : header) (bs2 : list header) : list header :=
  let '(h', r) := merge_next h bs2 in merge_prev bs1 h' r.

Lemma merge_prev_snoc cs k h bs2 :
  merge_prev (cs ++ [k]) h bs2 = cs ++ (if is_free k then [merged k h] else [k; h]) ++ bs2.
Proof.
  induction cs as [|c cs IH]; simpl; [by destruct (is_free k)|].
  destruct (cs ++ [k]) eqn:E; [by destruct cs|]. by rewrite <- IH.
Qed.

Lemma merge_prev_none bs1 h bs2 : last_free bs1 = false → merge_prev bs1 h bs2 = bs1 ++ h :: bs2.
Proof.
  destruct bs1 as [|k cs _] using rev_ind; [done|].
  unfold last_free. rewrite last_snoc. simpl. intros E. rewrite merge_prev_snoc, E.
  by rewrite <- app_assoc.
Qed.

Lemma is_free_merged h g : is_free (merged h g) = is_free h.
Proof. done. Qed.

(** The result of [coalesce] has no two free neighbours. *)
Lemma freed_coalesced bs1 h bs2 :
  coalesced bs1 → coalesced bs2 → is_free h = true → coalesced (freed bs1 h bs2).
Proof.
  intros C1 C2 Hf. unfold freed.
  assert (∃ h' r, merge_next h bs2 = (h', r) ∧ is_free h' = true ∧ coalesced r
                  ∧ head_free r = false) as (h' & r & -> & Hf' & Cr & Hr).
  { destruct bs2 as [|g r]; simpl; [by exists h, []|]. destruct (is_free g) eqn:Eg.
    - apply coalesced_cons in C2 as [E C2]. rewrite Eg in E. exists (merged h g), r. done.
    - exists h, (g :: r). done. }
  assert (coalesced (h' :: r)) as Chr by (apply coalesced_cons; by rewrite Hf', Hr).
  destruct bs1 as [|k cs _] using rev_ind; [done|]. rewrite merge_prev_snoc.
  apply coalesced_app in C1 as (C1 & _ & C3). destruct (is_free k) eqn:Ek; cbn [app].
  - apply coalesced_app. split_and!; [done| |].
    + apply coalesced_cons. rewrite is_free_merged, Ek, Hr. done.
    + exact C3.
  - apply coalesced_app. split_and!; [done| |].
    + apply coalesced_cons. by rewrite Ek.
    + exact C3.
Qed.

Section dealloc.
Context {P : Profile}.

(** ** The block becomes free *)

(** Refusals of [dealloc] that only touch a counter. *)
Lemma dealloc_frozen ptr s :
  frozen (self s) = true → dealloc ptr s = Ret (Err AllocatorFrozen, s).
Proof. intros E. unfold dealloc. mstep. by rewrite E. Qed.

Lemma dealloc_range ptr s :
  frozen (self s) = false → ptr < heap_start (self s) ∨ heap_end (self s) < ptr →
  dealloc ptr s = Ret (Err InvalidPointer, s).
Proof.
  intros E H. unfold dealloc. mstep. rewrite E. cbv zeta.
  destruct (Z.ltb_spec ptr (heap_start (self s))), (Z.ltb_spec (heap_end (self s)) ptr);
    simpl; try done; lia.
Qed.

(** The header in front of [ptr] does not validate. *)
Lemma dealloc_corrupted N ptr s bs :
  heap_wf s bs → counters_below N (self s) → N + 4 < 2 ^ 64 →
  frozen (self s) = false → heap_start (self s) ≤ ptr ≤ heap_end (self s) → 48 ≤ ptr →
  validate_at (ptr - 48) (mach s) = Ret (false, mach s) →
  ∃ s', dealloc ptr s = Ret (Err CorruptedHeader, s') ∧ heap_wf s' bs ∧ mach s' = mach s
    ∧ AllocStats.corrupted_blocks (stats (self s'))
      = AllocStats.corrupted_blocks (stats (self s)) + 1
    ∧ same_heap (N + 4) s s'.
Proof.
  intros W Hc HN Hfr Hp H48 V. destruct (record_corruption_run N s Hc ltac:(lia))
    as (st & E & U & B & F). pose proof (wf_bound _ _ W).
  eexists. split; [|split_and!; [by apply wf_set_stats|done|done|]].
  - unfold dealloc. mstep. rewrite Hfr. cbv zeta.
    destruct (Z.ltb_spec ptr (heap_start (self s))), (Z.ltb_spec (heap_end (self s)) ptr);
      try lia. cbn [orb]. unfold HEADER_SIZE. mstep_arith.
    mstep_with ltac:(apply hw_read; exact V). cbn [negb]. mstep_with ltac:(exact E). reflexivity.
  - unfold same_heap. split_and!; try done. eapply counters_mono; [by apply B|lia].
Qed.

(** The pointer to the first byte after a header passes the guards of
    [dealloc]. *)
Lemma dealloc_guards ptr s (k : Z → M AState (result AllocError unit)) :
  frozen (self s) = false → heap_start (self s) ≤ ptr ≤ heap_end (self s) → 48 ≤ ptr →
  ptr < 2 ^ 64 →
  (if frozen (self s) then mret (Err AllocatorFrozen)
   else if (ptr <? heap_start (self s)) || (heap_end (self s) <? ptr)
        then mret (Err InvalidPointer)
        else header ← usize_sub ptr HEADER_SIZE; k header) s = k (ptr - 48) s.
Proof.
  intros -> ? ? ?.
  destruct (Z.ltb_spec ptr (heap_start (self s))), (Z.ltb_spec (heap_end (self s)) ptr); try lia.
  cbn [orb]. unfold HEADER_SIZE. by mstep_arith.
Qed.

Lemma dealloc_double N s bs1 h bs2 :
  heap_wf s (bs1 ++ h :: bs2) → counters_below N (self s) → N + 4 < 2 ^ 64 →
  frozen (self s) = false → is_free h = true →
  let ptr := heap_start (self s) + span bs1 + HEADER_SIZE in
  ∃ s', dealloc ptr s = Ret (Err DoubleFree, s') ∧ heap_wf s' (bs1 ++ h :: bs2)
    ∧ mach s' = mach s
    ∧ AllocStats.double_free_attempts (stats (self s'))
      = AllocStats.double_free_attempts (stats (self s)) + 1
    ∧ same_heap (N + 4) s s'.
Proof.
  intros W Hc HN Hfr Hf ptr. destruct (record_double_free_run N s Hc ltac:(lia))
    as (st & E & U & B & F).
  pose proof (heap_wf_split _ _ _ _ W) as (Hh & [V Z] & _ & _ & Hb & He & Hs1 & Hs2).
  pose proof (wf_bound _ _ W). unfold total, HEADER_SIZE in He.
  eexists. split; [|split_and!; [by apply wf_set_stats|done|done|]].
  - unfold dealloc. mstep. cbv zeta. unfold ptr, HEADER_SIZE.
    rewrite dealloc_guards by (done || lia).
    replace (heap_start (self s) + span bs1 + 48 - 48) with (heap_start (self s) + span bs1) by lia.
    mstep_with ltac:(apply hw_read, validate_at_spec; exact Hh). rewrite V. cbn [negb].
    mstep_with ltac:(apply hw_read, rd_status_spec; exact Hh).
    unfold is_free in Hf. rewrite Hf. mstep_with ltac:(exact E). reflexivity.
  - unfold same_heap. split_and!; try done. eapply counters_mono; [by apply B|lia].
Qed.

(** Everything [dealloc] does before [coalesce]. *)
Definition release (header : Z) : M AState unit :=
  block_size ← hw (rd_size header);
  on_stats (AllocStats.record_dealloc block_size);;
  back ← usize_add block_size HEADER_SIZE;
  add_free_size back;;
  add_free_count 1;;
  mark_free header;;
  free_block ← usize_add header HEADER_SIZE;
  insert_into_free_list free_block.

(** The free nodes before and after a block becomes free. *)
Lemma release_nodes s bs1 h h' bs2 :
  heap_wf s (bs1 ++ h :: bs2) → is_free h = false → is_free h' = true → blk_ok h' → total h' = total h →
  let b := heap_start (self s) + span bs1 in
  let l1 := free_nodes (heap_start (self s)) bs1 in
  let l2 := free_nodes (b + total h) bs2 in
  free_nodes (heap_start (self s)) (bs1 ++ h' :: bs2) = l1 ++ (b + 48) :: l2
  ∧ free_nodes (heap_start (self s)) (bs1 ++ h :: bs2) = l1 ++ l2 ∧ spaced (l1 ++ (b + 48) :: l2).
Proof.
  intros W Hf Hf' Hok' Et b l1 l2. pose proof (heap_wf_split _ _ _ _ W) as (_ & _ & Ok1 & Ok2 & Hb & He & _).
  pose proof (wf_start _ _ W). pose proof (wf_bound _ _ W).
  assert (free_nodes (heap_start (self s)) (bs1 ++ h' :: bs2) = l1 ++ (b + 48) :: l2) as E
    by (rewrite (free_node_split s bs1 h' bs2 Hf'), Et; done).
  split_and!; [done|rewrite free_nodes_app; simpl; rewrite Hf; done|].
  rewrite <- E. apply free_nodes_spaced; [|done|].
  - rewrite Forall_app, Forall_cons. done.
  - rewrite span_app, span_cons. lia.
Qed.

Lemma release_spec N s bs1 h bs2 :
  heap_wf s (bs1 ++ h :: bs2) → counters_below N (self s) → N + 4 < 2 ^ 64 →
  is_free h = false →
  ∃ s' h', release (heap_start (self s) + span bs1) s = Ret (tt, s')
    ∧ heap_wf s' (bs1 ++ h' :: bs2) ∧ is_free h' = true
    ∧ BlockHeader.size h' = BlockHeader.size h
    ∧ (∀ x, in_user (heap_start (self s)) bs1 x
            ∨ in_user (heap_start (self s) + span bs1 + total h) bs2 x →
            mem (mach s') !! x = mem (mach s) !! x)
    ∧ same_heap (N + 1) s s'.
Proof.
  intros W Hc HN Hf. set (b := heap_start (self s) + span bs1).
  pose proof (heap_wf_split _ _ _ _ W) as (Hh & Hok & Ok1 & Ok2 & Hb & He & Hs1 & Hs2).
  fold b in Hh, Hb, He. pose proof (wf_bound _ _ W). pose proof (wf_start _ _ W).
  destruct (wf_stats _ _ W) as [S1 S2 S3 S4]. pose proof (wf_end _ _ W).
  pose proof (sums_bound _ (wf_ok _ _ W)). pose proof (sums_bound _ Ok1). pose proof (sums_bound _ Ok2).
  pose proof (sums_app bs1 (h :: bs2)) as (A1 & A2 & A3 & A4).
  pose proof (sums_cons h bs2) as (C1 & C2 & C3 & C4). rewrite Hf in C1, C2, C3, C4.
  destruct (record_dealloc_run N s Hc ltac:(lia) (BlockHeader.size h))
    as (st & E1 & (U1 & U2 & U3 & U4 & _) & B1); [destruct Hok; lia|lia|].
  set (s1 := mkAState _ _) in E1.
  pose proof (add_free_size_run (BlockHeader.size h + 48) s1) as E2.
  set (s2 := mkAState _ _) in E2.
  pose proof (add_free_count_run 1 s2) as E3. set (s3 := mkAState _ _) in E3.
  destruct (mark_free_spec s3 b h) as (m4 & ck & h' & E4 & Hh' & O4 & Hck & Q1 & Q2 & Q3 & Q4 & Q5);
    [done|apply validate_magic, Hok|apply W|].
  set (s4 := mkAState _ _) in E4.
  assert (is_free h' = true) as Hf' by (unfold is_free; by rewrite Q2).
  assert (total h' = total h) as Et by (unfold total; by rewrite Q1).
  assert (blk_ok h') as Hok' by (split; [done|]; destruct Hok; lia).
  pose proof (blk_total _ Hok) as Hth.
  destruct (release_nodes s bs1 h h' bs2 W Hf Hf' Hok' Et) as (Hfn' & Hfn & Hsp). fold b in Hfn', Hfn, Hsp.
  set (N1 := free_nodes (heap_start (self s)) bs1) in *. set (N2 := free_nodes (b + total h) bs2) in *.
  assert (dseg (mem (mach s3)) 0 (N1 ++ N2) 0) as Hd3 by (rewrite <- Hfn; apply W).
  destruct (insert_between s s4 bs1 h bs2 _ _ (b + 48) W Hd3 O4) as (m5 & E5 & Hd5 & O5);
    [fold b; unfold total, HEADER_SIZE; destruct Hok; lia|done| |done|].
  { cbn [s4 s3 s2 s1 self free_list_head set_stats]. rewrite (wf_head _ _ W). by rewrite Hfn. }
  fold b N1 N2 in E5, Hd5, O5.
  set (s5 := mkAState _ _) in E5. exists s5, h'.
  assert (∀ x, b ≤ x < b + 48 → m5 !! x = m4 !! x) as Hsame.
  { intros x Hx. apply O5. rewrite <- Hfn'. intros y Hy. eapply in_header_node; [| |exact Hy].
    - rewrite Forall_app, Forall_cons. done.
    - apply in_header_app. right. left. unfold b, HEADER_SIZE in *. lia. }
  destruct (heap_wf_replace s s5 bs1 [h] [h'] bs2 W) as [W5 Hu]; try done.
  { fold b. rewrite span_cons. change (span []) with 0. rewrite Z.add_0_r. fold N1 N2.
    eapply touched_trans; [eapply touched_only; [exact O4|lia|unfold HEADER_SIZE; lia]|].
    eapply touched_nodes; [exact O5|]. intros y. rewrite !elem_of_app, elem_of_cons.
    intros [?|[->|?]]; [tauto|lia|tauto]. }
  { rewrite !span_cons, Et. done. }
  { split; [|done]. eapply hdr_at_agree; [|exact Hh']. intros x Hx. symmetry. by apply Hsame. }
  { by constructor. }
  { fold b. rewrite span_cons. change (span []) with 0. rewrite Z.add_0_r. simpl. by rewrite Hf'. }
  { fold b. rewrite span_cons. change (span []) with 0. rewrite Z.add_0_r. simpl. by rewrite Hf'. }
  { pose proof (sums_app bs1 ([h'] ++ bs2)) as (F1 & F2 & F3 & F4).
    pose proof (sums_cons h' bs2) as (G1 & G2 & G3 & G4). rewrite Hf' in G1, G2, G3, G4.
    cbn [app] in *. unfold total, HEADER_SIZE in *. split; simpl; lia. }
  split_and!; try done.
  - unfold release. mstep_with ltac:(apply hw_read, rd_size_spec; exact Hh).
    mstep_with ltac:(exact E1). unfold HEADER_SIZE, total in *. mstep_arith.
    mstep_with ltac:(apply E2; cbn [s1 self stats set_stats]; lia).
    mstep_with ltac:(apply E3; cbn [s2 s1 self stats set_stats AllocStats.free_count AllocStats.set_free_size]; lia).
    mstep_with ltac:(exact E4). mstep_arith. exact E5.
  - intros x Hx. apply Hu. rewrite span_cons. change (span []) with 0.
    by rewrite Z.add_0_r.
  - unfold same_heap. split_and!; try done.
    destruct (B1 Hc). by split.
Qed.

(** ** Coalescing *)

Lemma coalesce_next_spec N s bs1 h bs2 :
  heap_wf s (bs1 ++ h :: bs2) → counters_below N (self s) → N + 4 < 2 ^ 64 →
  is_free h = true →
  ∃ s', coalesce_next (heap_start (self s) + span bs1) s = Ret (tt, s')
    ∧ heap_wf s' (bs1 ++ (merge_next h bs2).1 :: (merge_next h bs2).2)
    ∧ is_free (merge_next h bs2).1 = true
    ∧ (∀ x, in_user (heap_start (self s)) bs1 x
            ∨ in_user (heap_start (self s) + span bs1 + total h) bs2 x →
            mem (mach s') !! x = mem (mach s) !! x)
    ∧ same_heap (N + 1) s s'.
Proof.
  intros W Hc HN Hf. set (b := heap_start (self s) + span bs1).
  pose proof (heap_wf_split _ _ _ _ W) as (Hh & Hok & Ok1 & Ok2 & Hb & He & Hs1 & Hs2).
  fold b in Hh, Hb, He. pose proof (wf_bound _ _ W). pose proof (blk_total _ Hok) as Ht.
  assert (same_heap (N + 1) s s) as Hsame
    by (unfold same_heap; split_and!; try done; eapply counters_mono; [exact Hc|lia]).
  assert (∀ r, (if b + total h <? heap_end (self s) then
             status ← hw (rd_status (b + total h));
             if bool_decide (status = Free) then
               next_free ← usize_add (b + total h) HEADER_SIZE;
               absorb b (b + total h) next_free
             else mret tt
           else mret tt) s = r → coalesce_next b s = r) as Hgo.
  { intros r <-. unfold coalesce_next. mstep.
    mstep_with ltac:(apply hw_read, total_size_at_spec; [exact Hh|unfold total in *; lia]).
    fold (total h). by mstep_arith. }
  destruct bs2 as [|g bs2].
  - exists s. split_and!; try done. apply Hgo. change (span []) with 0 in He.
    by destruct (Z.ltb_spec (b + total h) (heap_end (self s))); [lia|].
  - apply Forall_cons in Ok2 as [Hokg Ok2]. rewrite span_cons in He, Hs2.
    pose proof (blk_total _ Hokg) as Htg. pose proof (span_nonneg _ Ok2).
    assert (hdr_at (mem (mach s)) (b + total h) g) as Hg.
    { pose proof (wf_tiles _ _ W) as T. apply tiles_app in T as [_ (_ & T & _)]. exact T. }
    assert ((b + total h <? heap_end (self s)) = true) as Hlt by (apply Z.ltb_lt; lia).
    simpl merge_next. destruct (is_free g) eqn:Eg.
    + destruct (absorb_spec N s bs1 h g bs2 W Hf Eg Hc HN)
        as (s' & E & W' & Hu & ? & ? & ? & ?). fold b in E, Hu.
      exists s'. split_and!; [|done|done| |done].
      * apply Hgo. rewrite Hlt. mstep_with ltac:(apply hw_read, rd_status_spec; exact Hg).
        unfold is_free in Eg. rewrite Eg. unfold HEADER_SIZE in *. mstep_arith. exact E.
      * intros x [Hx|Hx]; apply Hu; [by left|right]. destruct Hx as [[? _]|Hx]; [congruence|done].
    + exists s. split_and!; try done. apply Hgo. rewrite Hlt.
      mstep_with ltac:(apply hw_read, rd_status_spec; exact Hg).
      unfold is_free in Eg. rewrite Eg. done.
Qed.

(** The node before the free block that follows [bs1]. *)
Lemma last_node a bs1 :
  (free_nodes a bs1 = [] ∧ last_free bs1 = false)
  ∨ ∃ cs k ds, bs1 = cs ++ k :: ds ∧ is_free k = true
      ∧ last_or 0 (free_nodes a bs1) = a + span cs + HEADER_SIZE
      ∧ (ds = [] ∨ last_free bs1 = false).
Proof.
  induction bs1 as [|k cs IH] using rev_ind; [by left|].
  unfold last_free. rewrite last_snoc, free_nodes_app. simpl. rewrite app_nil_r.
  destruct (is_free k) eqn:Ek.
  - right. exists cs, k, []. rewrite last_or_snoc. eauto.
  - rewrite app_nil_r. destruct IH as [[-> _]|(cs' & k' & ds & -> & Hk & El & _)]; [by left|].
    right. exists cs', k', (ds ++ [k]). rewrite <- app_assoc. eauto.
Qed.

(** The node of the block and the link to the one before. *)
Lemma rd_prev_spec s bs1 h bs2 :
  heap_wf s (bs1 ++ h :: bs2) → is_free h = true →
  hw (rd_prev (heap_start (self s) + span bs1 + HEADER_SIZE)) s
  = Ret (last_or 0 (free_nodes (heap_start (self s)) bs1), s).
Proof.
  intros W Hf. pose proof (wf_list _ _ W) as Hl. rewrite free_node_split in Hl by done.
  destruct (dseg_mid _ _ _ _ _ _ Hl) as [_ Hp]. unfold rd_prev. by rewrite hw_rd, Hp.
Qed.

Lemma coalesce_prev_spec N s bs1 h bs2 :
  heap_wf s (bs1 ++ h :: bs2) → counters_below N (self s) → N + 4 < 2 ^ 64 →
  is_free h = true →
  let b := heap_start (self s) + span bs1 in
  ∃ s', coalesce_prev (b + HEADER_SIZE) b s = Ret (tt, s')
    ∧ heap_wf s' (merge_prev bs1 h bs2)
    ∧ (∀ x, in_user (heap_start (self s)) bs1 x ∨ in_user (b + total h) bs2 x →
            mem (mach s') !! x = mem (mach s) !! x)
    ∧ same_heap (N + 1) s s'.
Proof.
  intros W Hc HN Hf b. pose proof (rd_prev_spec s bs1 h bs2 W Hf) as Hp. fold b in Hp.
  pose proof (heap_wf_split _ _ _ _ W) as (_ & _ & Ok1 & _ & Hb & He & _ & Hs2). fold b in Hb, He.
  pose proof (wf_bound _ _ W). pose proof (wf_start _ _ W).
  assert (same_heap (N + 1) s s) as Hsame
    by (unfold same_heap; split_and!; try done; eapply counters_mono; [exact Hc|lia]).
  destruct (last_node (heap_start (self s)) bs1) as [[En El]|(cs & k & ds & Ebs & Hk & El & Hds)].
  { exists s. split_and!; try done; [|by rewrite merge_prev_none].
    rewrite En in Hp. unfold coalesce_prev. by mstep_with ltac:(exact Hp). }
  rewrite El in Hp. set (p := heap_start (self s) + span cs) in *.
  assert (heap_wf s (cs ++ k :: ds ++ h :: bs2)) as W' by (by rewrite Ebs, <- app_assoc in W).
  pose proof (heap_wf_split _ _ _ _ W') as (Hhk & Hokk & Ok3 & Ok4 & Hpp & He' & ? & ?).
  fold p in Hhk, Hpp, He'. pose proof (blk_total _ Hokk) as Htk.
  assert (Forall blk_ok ds) as Okd by (by apply Forall_app in Ok4 as [? _]).
  assert (b = p + total k + span ds) as Eb by (unfold b, p; rewrite Ebs, span_app, span_cons; lia).
  assert (∀ r, (if p + total k =? b then absorb p b (b + HEADER_SIZE) else mret tt) s = r →
               coalesce_prev (b + HEADER_SIZE) b s = r) as Hgo.
  { intros r <-. unfold coalesce_prev. mstep_with ltac:(exact Hp). unfold HEADER_SIZE in *.
    assert ((p + 48 =? 0) = false) as -> by (apply Z.eqb_neq; lia). cbn [negb].
    mstep_with ltac:(exact Hp). mstep_with ltac:(apply get_header_ok; lia).
    replace (p + 48 - 48) with p by lia.
    mstep_with ltac:(apply hw_read, total_size_at_spec; [exact Hhk|unfold total, HEADER_SIZE in *; lia]).
    fold (total k). by mstep_arith. }
  destruct ds as [|d ds].
  - change (span []) with 0 in Eb. rewrite Z.add_0_r in Eb.
    destruct (absorb_spec N s cs k h bs2 W' Hk Hf Hc HN) as (s' & E & W2 & Hu & ? & ? & ? & ?).
    fold p in E, Hu. rewrite <- Eb in E, Hu. exists s'. split_and!; try done.
    + apply Hgo. rewrite Eb, Z.eqb_refl, <- Eb. exact E.
    + rewrite Ebs, merge_prev_snoc, Hk. exact W2.
    + intros x [Hx|Hx]; apply Hu; [left|by right]. rewrite Ebs in Hx. apply in_user_app in Hx.
      destruct Hx as [Hx|[[? _]|[]]]; [done|congruence].
  - destruct Hds as [?|Hds]; [done|]. exists s. rewrite merge_prev_none by done.
    split_and!; try done. apply Hgo. apply Forall_cons in Okd as [Hd Okd].
    pose proof (blk_total _ Hd). pose proof (span_nonneg _ Okd). rewrite span_cons in Eb.
    by destruct (Z.eqb_spec (p + total k) b); [lia|].
Qed.

(** ** [dealloc] on an allocated block *)

Lemma merge_next_total h bs2 :
  blk_ok h → total (merge_next h bs2).1 + span (merge_next h bs2).2 = total h + span bs2.
Proof.
  intros _. destruct bs2 as [|g r]; [done|]. simpl. rewrite span_cons.
  destruct (is_free g); [|done]. simpl. unfold total, merged. simpl. unfold total. lia.
Qed.

Lemma merge_next_user a h bs2 x :
  in_user (a + total (merge_next h bs2).1) (merge_next h bs2).2 x ↔ in_user (a + total h) bs2 x.
Proof.
  destruct bs2 as [|g r]; [done|]. simpl. destruct (is_free g) eqn:Eg; simpl.
  - replace (a + total (merged h g)) with (a + total h + total g)
      by (unfold total, merged; simpl; unfold total; lia). intuition congruence.
  - rewrite ?Eg. done.
Qed.

Lemma dealloc_ok N s bs1 h bs2 :
  heap_inv s (bs1 ++ h :: bs2) → counters_below N (self s) → N + 8 < 2 ^ 64 →
  frozen (self s) = false → is_free h = false →
  let b := heap_start (self s) + span bs1 in
  ∃ s' h', dealloc (b + HEADER_SIZE) s = Ret (Ok tt, s')
    ∧ is_free h' = true ∧ BlockHeader.size h' = BlockHeader.size h
    ∧ heap_inv s' (freed bs1 h' bs2)
    ∧ (∀ x, in_user (heap_start (self s)) bs1 x ∨ in_user (b + total h) bs2 x →
            mem (mach s') !! x = mem (mach s) !! x)
    ∧ same_heap (N + 4) s s'.
Proof.
  intros [W Co] Hc HN Hfr Hf b.
  destruct (release_spec N s bs1 h bs2 W Hc ltac:(lia) Hf)
    as (s1 & h' & E1 & W1 & Hf' & Ez & Hu1 & Hs1 & He1 & Hf1 & Hc1). fold b in E1, Hu1.
  destruct (coalesce_next_spec _ s1 bs1 h' bs2 W1 Hc1 ltac:(lia) Hf')
    as (s2 & E2 & W2 & Hf2 & Hu2 & Hs2 & He2 & Hf2' & Hc2). rewrite Hs1 in E2, Hu2. fold b in E2, Hu2.
  destruct (coalesce_prev_spec _ s2 bs1 _ _ W2 Hc2 ltac:(lia) Hf2)
    as (s3 & E3 & W3 & Hu3 & Hs3 & He3 & Hf3 & Hc3). rewrite Hs2, Hs1 in E3, Hu3. fold b in E3, Hu3.
  pose proof (heap_wf_split _ _ _ _ W) as (Hh & [V Z] & _ & _ & Hb & He & Hsp1 & Hsp2).
  fold b in Hh, Hb, He. pose proof (wf_bound _ _ W). unfold total, HEADER_SIZE in He.
  exists s3, h'. split_and!; try done.
  - unfold dealloc. mstep. cbv zeta. unfold HEADER_SIZE.
    rewrite dealloc_guards by (done || lia).
    replace (b + 48 - 48) with b by lia.
    mstep_with ltac:(apply hw_read, validate_at_spec; exact Hh). rewrite V. cbn [negb].
    mstep_with ltac:(apply hw_read, rd_status_spec; exact Hh).
    unfold is_free in Hf. rewrite Hf. unfold release in E1.
    do 6 replay1 E1. apply bind_inv in E1 as (y & t & F & E1).
    unfold HEADER_SIZE in F. rewrite usize_add_ok in F by lia. injection F as <- <-.
    mstep_arith. mstep_with ltac:(exact E1). unfold coalesce.
    mstep_with ltac:(mstep_with ltac:(apply get_header_ok; lia);
      replace (b + 48 - 48) with b by lia; mstep_with ltac:(exact E2); exact E3).
    reflexivity.
  - split; [by unfold freed; destruct (merge_next h' bs2)|].
    apply coalesced_app in Co as (Co1 & Co2 & _). apply coalesced_cons in Co2 as [_ Co2].
    by apply freed_coalesced.
  - assert (total h' = total h) as Et by (unfold total; lia). intros x Hx.
    rewrite Hu3, Hu2, Hu1; [done|done|by rewrite Et|by rewrite merge_next_user, Et].
  - unfold same_heap. rewrite Hs3, Hs2, He3, He2, Hf3, Hf2'. split_and!; try done.
    eapply counters_mono; [exact Hc3|lia].
Qed.

End dealloc.
