(* ===== verification/AllocOps.v ===== *)
(** * The remaining operations of the allocator

    [EarlyAllocator::new] establishes the invariant, [integrity_check] accepts
    exactly the heaps whose headers tile it, [set_purpose] and the writes of
    clients to their own blocks keep it. *)

From Stdlib Require Import ZArith Lia.
From stdpp Require Import base option numbers sorting gmap list.
From S2P Require Import Prelude Memory Purpose Metadata HeaderSpec Allocator FreeList HeapInv AllocSteps AllocSpec DeallocSpec.

Section ops.
Context {P : Profile}.

(** ** [EarlyAllocator::new] *)

Lemma new_refused start sz ms :
  start = 0 ∨ sz < min_heap_size → EarlyAllocator_new start sz ms = Ret (Err InvalidParameter, ms).
Proof.
  intros H. unfold EarlyAllocator_new.
  assert ((start =? 0) || (sz <? min_heap_size) = true) as -> by (apply orb_true_iff; b2p; lia).
  done.
Qed.

Lemma new_ok start sz ms :
  0 < start → min_heap_size ≤ sz → start + sz < 2 ^ 64 → in_u64 (clock ms) →
  ∃ a ms' h, EarlyAllocator_new start sz ms = Ret (Ok a, ms')
    ∧ heap_inv (mkAState a ms') [h] ∧ is_free h = true ∧ total h = sz
    ∧ heap_start a = start ∧ heap_end a = start + sz ∧ frozen a = false ∧ next_alloc_id a = 1
    ∧ counters_below 1 a ∧ only (mem ms) (mem ms') start (start + min_block_size).
Proof.
  intros Hs Hz Hb Hc. change min_heap_size with 128 in *. change min_block_size with 64 in *.
  destruct (BlockHeader_new_spec (sz - 48) Free ms) as (h & E1 & R & Z1 & St & V);
    [done|unfold in_u64; lia|].
  destruct (write_header_spec (mkMachine (mem ms) (wrap64 (clock ms + 1))) start h R)
    as (m2 & E2 & Hh & O2).
  assert (is_free h = true) as Hf by (unfold is_free; by rewrite St).
  assert (total h = sz) as Et by (unfold total, HEADER_SIZE; lia).
  do 3 eexists. split; [|split; [split|]].
  - unfold EarlyAllocator_new. change min_heap_size with 128.
    assert ((start =? 0) || (sz <? 128) = false) as -> by (apply orb_false_iff; b2p; lia).
    unfold HEADER_SIZE in *. mstep_arith. mstep_arith. mstep_with ltac:(exact E1).
    mstep_with ltac:(exact E2). mstep_arith. do 2 mstep. reflexivity.
  - split; cbn [self mach heap_start heap_end free_list_head stats mem clock].
    + lia.
    + rewrite span_cons, Et. change (span []) with 0. lia.
    + done.
    + split; [|done]. eapply hdr_at_agree; [|exact Hh].
      intros x Hx. unfold with_mem, HEADER_SIZE in *. cbn [mem clock] in *.
      by rewrite !store_lookup_out by lia.
    + constructor; [split; [done|lia]|constructor].
    + simpl. rewrite Hf. unfold with_mem, HEADER_SIZE. cbn [mem app]. simpl.
      split_and!; [|by rewrite load_store_small|done].
      rewrite load_store_ne by lia. by rewrite load_store_small.
    + simpl. rewrite Hf. done.
    + pose proof (sums_cons h []) as (A1 & A2 & A3 & A4). rewrite Hf in A1, A2, A3, A4.
      split; cbn [AllocStats.used_size AllocStats.free_size AllocStats.alloc_count
        AllocStats.free_count AllocStats.set_max_free_block_size AllocStats.set_free_count
        AllocStats.set_free_size AllocStats.new];
        unfold used_bytes, free_bytes, used_blocks, free_blocks in *; simpl in *; rewrite Hf; lia.
    + apply in_u64_wrap.
  - done.
  - split_and!; try done. intros x Hx. unfold with_mem, HEADER_SIZE in *. cbn [mem] in *.
    rewrite !store_lookup_out by lia. apply O2. unfold HEADER_SIZE. lia.
Qed.

(** ** [integrity_check] *)

Lemma integrity_loop_spec fuel s a bs :
  tiles (mem (mach s)) a bs → Forall blk_ok bs → 0 < a → a + span bs < 2 ^ 64 →
  (length bs < fuel)%nat →
  integrity_loop fuel a (a + span bs) s = Ret (Ok (a + span bs), s).
Proof.
  revert a bs; induction fuel as [|fuel IH]; intros a bs Ht Hok Ha Hb Hl; [lia|].
  destruct bs as [|h bs]; cbn [integrity_loop].
  - change (span []) with 0. rewrite Z.add_0_r, Z.ltb_irrefl. done.
  - apply Forall_cons in Hok as [Hh Hok]. destruct Ht as [Hd Ht]. rewrite span_cons in *.
    pose proof (blk_total _ Hh). pose proof (span_nonneg _ Hok).
    destruct (Z.ltb_spec a (a + (total h + span bs))); [|lia].
    mstep_with ltac:(apply hw_read, validate_at_spec; exact Hd). rewrite (proj1 Hh). cbn [negb].
    mstep_with ltac:(apply hw_read, total_size_at_spec; [exact Hd|unfold total in *; lia]).
    fold (total h). mstep_arith. rewrite Z.add_assoc. apply IH; try done; [lia..|simpl in Hl; lia].
Qed.

Lemma integrity_ok s bs : heap_wf s bs → integrity_check s = Ret (Ok tt, s).
Proof.
  intros W. unfold integrity_check. mstep. rewrite <- (wf_end _ _ W).
  mstep_with ltac:(apply integrity_loop_spec; try apply W;
    [rewrite (wf_end _ _ W); apply W|by apply walk_fuel_enough]).
  cbn. by rewrite Z.eqb_refl.
Qed.

(** A header that does not validate is found, whatever follows it. *)
Lemma integrity_loop_bad fuel s a bs h hend :
  tiles (mem (mach s)) a (bs ++ [h]) → Forall blk_ok bs → BlockHeader.validate h = false →
  0 < a → a + span bs < hend → hend < 2 ^ 64 → (length bs < fuel)%nat →
  integrity_loop fuel a hend s = Ret (Err CorruptedHeader, s).
Proof.
  revert a bs; induction fuel as [|fuel IH]; intros a bs Ht Hok Hv Ha Hb Hb' Hl; [lia|].
  destruct bs as [|g bs]; cbn [integrity_loop].
  - change (span []) with 0 in Hb. destruct Ht as [Hd _].
    destruct (Z.ltb_spec a hend); [|lia].
    mstep_with ltac:(apply hw_read, validate_at_spec; exact Hd). by rewrite Hv.
  - apply Forall_cons in Hok as [Hh Hok]. destruct Ht as [Hd Ht]. rewrite span_cons in *.
    pose proof (blk_total _ Hh). pose proof (span_nonneg _ Hok).
    destruct (Z.ltb_spec a hend); [|lia].
    mstep_with ltac:(apply hw_read, validate_at_spec; exact Hd). rewrite (proj1 Hh). cbn [negb].
    mstep_with ltac:(apply hw_read, total_size_at_spec; [exact Hd|unfold total in *; lia]).
    fold (total g). mstep_arith. apply (IH _ bs); try done; [lia..|simpl in Hl; lia].
Qed.

(** ** [set_purpose] *)

Lemma set_purpose_ok s bs1 h bs2 p :
  heap_inv s (bs1 ++ h :: bs2) → is_free h = false →
  let b := heap_start (self s) + span bs1 in
  ∃ ms', set_purpose (b + HEADER_SIZE) p s = Ret (Ok tt, mkAState (self s) ms')
    ∧ heap_inv (mkAState (self s) ms') (bs1 ++ BlockHeader.set_purpose p h :: bs2)
    ∧ only (mem (mach s)) (mem ms') b (b + HEADER_SIZE).
Proof.
  intros [W Co] Hf b.
  pose proof (heap_wf_split _ _ _ _ W) as (Hh & Hok & Ok1 & Ok2 & Hb & He & Hsp1 & Hsp2).
  fold b in Hh, Hb, He. pose proof (wf_bound _ _ W). pose proof (blk_total _ Hok).
  pose proof (wr_purpose_at _ _ _ Hh p) as H1.
  destruct (update_checksum_at_spec (mkMachine (store 1 (mem (mach s)) (b + OFF_purpose)
              (AllocPurpose.discriminant p)) (clock (mach s))) b _ H1) as (m' & E & H2 & O).
  set (h' := BlockHeader.set_purpose p h).
  assert (is_free h' = is_free h) as Ef by done.
  assert (total h' = total h) as Et by done.
  assert (only (mem (mach s)) m' b (b + HEADER_SIZE)) as Ho.
  { eapply only_trans; [|exact O]. eapply only_widen; [apply only_store|unfold_offsets; lia..]. }
  exists (mkMachine m' (clock (mach s))). split_and!; [| |done].
  - unfold set_purpose, HEADER_SIZE in *. unfold total in *. mstep_arith.
    replace (b + 48 - 48) with b by lia.
    mstep_with ltac:(apply hw_read, validate_at_spec; exact Hh). rewrite (proj1 Hok). cbn [negb].
    mstep_with ltac:(apply hw_read, rd_status_spec; exact Hh).
    assert (BlockHeader.status h = Allocated) as ->.
    { unfold is_free in Hf. by destruct (BlockHeader.status h). }
    cbn [negb bool_decide]. mstep. mstep_with ltac:(hw_last E). reflexivity.
  - split.
    + pose proof (wf_list _ _ W) as Hl. pose proof (wf_head _ _ W) as Hhd.
      rewrite free_nodes_app in Hl, Hhd. simpl in Hl, Hhd. rewrite Hf in Hl, Hhd. simpl in Hl, Hhd.
      eapply (heap_wf_replace s _ bs1 [h] [h'] bs2 W); try done;
        rewrite ?span_cons; change (span []) with 0; rewrite ?Z.add_0_r; fold b.
      * eapply touched_only; [exact Ho|lia|unfold HEADER_SIZE; lia].
      * constructor; [|done]. split; [|apply Hok].
        apply validate_update_checksum. simpl. by apply validate_magic, Hok.
      * simpl. rewrite Ef, Hf. eapply dseg_agree; [|exact Hl]. intros y Hy.
        eapply only_agree; [exact Ho|].
        apply elem_of_app in Hy as [Hy|Hy]; apply free_nodes_bounds in Hy; try done;
          unfold b, HEADER_SIZE in *; lia.
      * simpl. rewrite Ef, Hf. exact Hhd.
      * destruct (wf_stats _ _ W) as [S1 S2 S3 S4].
        pose proof (sums_app bs1 (h :: bs2)). pose proof (sums_cons h bs2).
        pose proof (sums_app bs1 (h' :: bs2)). pose proof (sums_cons h' bs2).
        rewrite Et, Ef in *. change (BlockHeader.size h') with (BlockHeader.size h) in *.
        cbn [app self] in *. split; lia.
      * apply W.
    + apply coalesced_app in Co as (C1 & C2 & C3). apply coalesced_cons in C2 as [C2 C4].
      apply coalesced_app. split_and!; [done|apply coalesced_cons; by rewrite Ef|done].
Qed.

(** ** Clients *)

(** A client that writes inside the user areas of allocated blocks. *)
Lemma client_write_inv s bs m' :
  heap_inv s bs →
  (∀ x, ¬ in_user (heap_start (self s)) bs x → m' !! x = mem (mach s) !! x) →
  heap_inv (mkAState (self s) (mkMachine m' (clock (mach s)))) bs.
Proof.
  intros [W Co] Hm. split; [|done].
  assert (Forall blk_ok bs) as Hok by apply W.
  destruct W. split; try done; cbn [self mach mem].
  - eapply tiles_agree; [|done]. intros x Hx. apply Hm. intros Hu.
    by eapply in_user_header.
  - eapply dseg_agree; [|done]. intros y Hy x Hx. symmetry. apply Hm. intros Hu.
    destruct (in_user_node _ _ _ _ Hok Hu Hy); lia.
Qed.

End ops.
