(* ===== verification/AllocRefine.v ===== *)
(** * The abstract allocator and the refinement

    What the early allocator promises, without headers, pointers or memory: a
    list of block sizes with a used flag.  [aexec] gives the effect of each
    operation on it as a function; [simulation] shows that the concrete
    operation on memory does the same, never panics, hangs or touches memory
    it does not own, for every legal request. *)

From Stdlib Require Import ZArith Lia.
From stdpp Require Import base option numbers sorting gmap list.
From S2P Require Import Prelude Memory Purpose Metadata HeaderSpec Allocator FreeList HeapInv AllocSteps AllocSpec DeallocSpec AllocOps.

(** ** The abstract allocator *)

Record ablock : Type := mkAB { ab_size : Z; ab_used : bool }.

Record astate : Type := mkA { a_start : Z; a_blocks : list ablock; a_frozen : bool }.

Definition a_total (b : ablock) : Z := ab_size b + HEADER_SIZE.
Fixpoint a_span (bs : list ablock) : Z :=
  match bs with [] => 0 | b :: r => a_total b + a_span r end.
Definition a_end (a : astate) : Z := a_start a + a_span (a_blocks a).
Definition with_blocks (a : astate) (bs : list ablock) : astate := mkA (a_start a) bs (a_frozen a).

Definition a_fits (sz align addr : Z) (b : ablock) : bool :=
  negb (ab_used b) && (user_addr_of addr align - addr + sz <=? ab_size b).

(** The first block for which [f address block] holds. *)
Fixpoint a_find (f : Z → ablock → bool) (addr : Z) (bs : list ablock)
    : option (list ablock * ablock * list ablock) :=
  match bs with
  | [] => None
  | b :: r =>
      if f addr b then Some ([], b, r)
      else (λ '(b1, g, b2), (b :: b1, g, b2)) <$> a_find f (addr + a_total b) r
  end.

Definition a_alloc (sz align : Z) (a : astate) : option Z * astate :=
  if a_frozen a || (sz =? 0) || negb (is_power_of_two align) then (None, a)
  else
    let sz := Z.max sz FREE_BLOCK_SIZE in
    match a_find (a_fits sz align) (a_start a) (a_blocks a) with
    | None => (None, a)
    | Some (b1, h, b2) =>
        let b := a_start a + a_span b1 in
        let req := user_addr_of b align - b + sz in
        (Some (user_addr_of b align),
         with_blocks a
           (b1 ++ (if req + min_block_size <=? ab_size h
                   then [mkAB (req - HEADER_SIZE) true; mkAB (ab_size h - req) false]
                   else [mkAB (ab_size h) true]) ++ b2))
    end.

Definition a_merged (h g : ablock) : ablock := mkAB (ab_size h + a_total g) (ab_used h).

Definition a_merge_next (h : ablock) (b2 : list ablock) : ablock * list ablock :=
  match b2 with
  | g :: r => if ab_used g then (h, b2) else (a_merged h g, r)
  | [] => (h, [])
  end.

Fixpoint a_merge_prev (b1 : list ablock) (h : ablock) (b2 : list ablock) : list ablock :=
  match b1 with
  | [] => h :: b2
  | [k] => if ab_used k then k :: h :: b2 else a_merged k h :: b2
  | k :: r => k :: a_merge_prev r h b2
  end.

Definition a_freed (b1 : list ablock) (h : ablock) (b2 : list ablock) : list ablock :=
  let '(h', r) := a_merge_next (mkAB (ab_size h) false) b2 in a_merge_prev b1 h' r.

(** The block whose first byte after the header is [p]. *)
Definition a_at (p : Z) (a : astate) : option (list ablock * ablock * list ablock) :=
  a_find (λ addr _, addr + HEADER_SIZE =? p) (a_start a) (a_blocks a).

Definition a_dealloc (p : Z) (a : astate) : result AllocError unit * astate :=
  if a_frozen a then (Err AllocatorFrozen, a)
  else if (p <? a_start a) || (a_end a <? p) then (Err InvalidPointer, a)
  else match a_at p a with
       | Some (b1, h, b2) =>
           if ab_used h then (Ok tt, with_blocks a (a_freed b1 h b2)) else (Err DoubleFree, a)
       | None => (Err CorruptedHeader, a)
       end.

Definition a_set_purpose (p : Z) (a : astate) : result AllocError unit :=
  match a_at p a with
  | Some (_, h, _) => if ab_used h then Ok tt else Err InvalidPointer
  | None => Err CorruptedHeader
  end.

(** ** Operations *)

Inductive op : Type :=
| OpAlloc (sz : Z)
| OpAllocAligned (sz align : Z)
| OpDealloc (p : Z)
| OpSetPurpose (p : Z) (purpose : AllocPurpose.t)
| OpFreeze
| OpIntegrityCheck.

Inductive reply : Type :=
| RPtr (p : option Z)
| RRes (r : result AllocError unit)
| RUnit.

Definition exec {P : Profile} (o : op) : M AState reply :=
  match o with
  | OpAlloc sz => p ← alloc sz; mret (RPtr p)
  | OpAllocAligned sz align => p ← alloc_aligned sz align; mret (RPtr p)
  | OpDealloc p => r ← dealloc p; mret (RRes r)
  | OpSetPurpose p purpose => r ← set_purpose p purpose; mret (RRes r)
  | OpFreeze => freeze;; mret RUnit
  | OpIntegrityCheck => r ← integrity_check; mret (RRes r)
  end.

Definition aexec (o : op) (a : astate) : reply * astate :=
  match o with
  | OpAlloc sz => let '(p, a') := a_alloc sz ALIGN_USIZE a in (RPtr p, a')
  | OpAllocAligned sz align => let '(p, a') := a_alloc sz align a in (RPtr p, a')
  | OpDealloc p => let '(r, a') := a_dealloc p a in (RRes r, a')
  | OpSetPurpose p _ => (RRes (a_set_purpose p a), a)
  | OpFreeze => (RUnit, mkA (a_start a) (a_blocks a) true)
  | OpIntegrityCheck => (RRes (Ok tt), a)
  end.

(** Legal requests: sizes and alignments that leave the address arithmetic in
    range, and pointers that are outside the heap or right after a header. *)
Definition legal_alloc (a : astate) (sz align : Z) : bool :=
  (0 <=? sz) && (HEADER_SIZE + align + Z.max sz FREE_BLOCK_SIZE <=? 2 ^ 64)
  && (a_end a + align + min_block_size <=? 2 ^ 64).

Definition legal (a : astate) (o : op) : bool :=
  match o with
  | OpAlloc sz => legal_alloc a sz ALIGN_USIZE
  | OpAllocAligned sz align => legal_alloc a sz align
  | OpDealloc p => a_frozen a || (p <? a_start a) || (a_end a <? p) || bool_decide (is_Some (a_at p a))
  | OpSetPurpose p _ => bool_decide (is_Some (a_at p a))
  | OpFreeze | OpIntegrityCheck => true
  end.

Fixpoint run {P : Profile} (os : list op) : M AState (list reply) :=
  match os with
  | [] => mret []
  | o :: r => x ← exec o; xs ← run r; mret (x :: xs)
  end.

Fixpoint arun (os : list op) (a : astate) : list reply * astate :=
  match os with
  | [] => ([], a)
  | o :: r => let '(x, a1) := aexec o a in let '(xs, a2) := arun r a1 in (x :: xs, a2)
  end.

Fixpoint legal_run (a : astate) (os : list op) : bool :=
  match os with
  | [] => true
  | o :: r => legal a o && legal_run (aexec o a).2 r
  end.

(** ** The abstraction *)

Definition abs_block (h : header) : ablock := mkAB (BlockHeader.size h) (negb (is_free h)).

Definition abs (s : AState) (bs : list header) : astate :=
  mkA (heap_start (self s)) (abs_block <$> bs) (frozen (self s)).

(** The concrete state [s] represents [a]; its counters are at most [N]. *)
Definition refines (N : Z) (s : AState) (a : astate) : Prop :=
  ∃ bs, heap_inv s bs ∧ counters_below N (self s) ∧ abs s bs = a.

Lemma a_total_abs h : a_total (abs_block h) = total h.
Proof. done. Qed.

Lemma a_span_abs bs : a_span (abs_block <$> bs) = span bs.
Proof. induction bs as [|h bs IH]; [done|]. csimpl. by rewrite IH, span_cons. Qed.

Lemma a_end_abs s bs : heap_wf s bs → a_end (abs s bs) = heap_end (self s).
Proof. intros W. unfold a_end. simpl. rewrite a_span_abs. apply W. Qed.

Definition abs_split : list header * header * list header → list ablock * ablock * list ablock :=
  λ '(bs1, h, bs2), (abs_block <$> bs1, abs_block h, abs_block <$> bs2).

Lemma a_find_fits sz align addr bs :
  a_find (a_fits sz align) addr (abs_block <$> bs) = abs_split <$> first_fit sz align addr bs.
Proof.
  revert addr; induction bs as [|h bs IH]; intros addr; [done|]. csimpl.
  unfold a_fits at 1, block_fits at 1. csimpl. rewrite negb_involutive.
  destruct (is_free h && _); [done|]. rewrite a_total_abs, IH.
  by destruct (first_fit sz align (addr + total h) bs) as [[[? ?] ?]|].
Qed.

(** A block found by address, on the concrete list. *)
Lemma a_find_at p addr bs b1 h b2 :
  a_find (λ addr _, addr + HEADER_SIZE =? p) addr (abs_block <$> bs) = Some (b1, h, b2) →
  ∃ bs1 g bs2, bs = bs1 ++ g :: bs2 ∧ p = addr + span bs1 + HEADER_SIZE
    ∧ b1 = abs_block <$> bs1 ∧ h = abs_block g ∧ b2 = abs_block <$> bs2.
Proof.
  revert addr b1; induction bs as [|g bs IH]; intros addr b1; csimpl; [done|].
  destruct (Z.eqb_spec (addr + HEADER_SIZE) p) as [<-|Hne].
  - intros [= <- <- <-]. exists [], g, bs. unfold span. simpl. split_and!; try done. lia.
  - rewrite a_total_abs.
    destruct (a_find _ (addr + total g) (abs_block <$> bs)) as [[[c1 k] c2]|] eqn:E; [|done].
    intros [= <- <- <-]. destruct (IH _ _ E) as (bs1 & g' & bs2 & -> & -> & -> & -> & ->).
    exists (g :: bs1), g', bs2. rewrite span_cons. split_and!; try done. lia.
Qed.

Lemma a_freed_abs bs1 h h' bs2 :
  BlockHeader.size h' = BlockHeader.size h → is_free h' = true →
  a_freed (abs_block <$> bs1) (abs_block h) (abs_block <$> bs2) = abs_block <$> freed bs1 h' bs2.
Proof.
  intros Ez Hf. unfold a_freed, freed.
  assert (mkAB (ab_size (abs_block h)) false = abs_block h') as ->
    by (unfold abs_block; simpl; by rewrite Ez, Hf).
  assert (a_merge_next (abs_block h') (abs_block <$> bs2)
          = (abs_block (merge_next h' bs2).1, abs_block <$> (merge_next h' bs2).2)) as ->.
  { destruct bs2 as [|g r]; [done|]. csimpl. by destruct (is_free g). }
  destruct (merge_next h' bs2) as [k r]. simpl. clear. induction bs1 as [|c cs IH]; [done|].
  destruct cs as [|c' cs]; [csimpl; by destruct (is_free c)|].
  change (abs_block <$> merge_prev (c :: c' :: cs) k r)
    with (abs_block c :: (abs_block <$> merge_prev (c' :: cs) k r)).
  rewrite <- IH. done.
Qed.

(** ** The simulation *)

Section simulation.
Context {P : Profile}.

Lemma refines_same N s s' bs bs' :
  heap_inv s' bs' → same_heap N s s' → refines N s' (with_blocks (abs s bs) (abs_block <$> bs')).
Proof.
  intros I (E1 & _ & E2 & Hc). exists bs'. split_and!; [done|done|].
  unfold abs, with_blocks. simpl. by rewrite E1, E2.
Qed.

Lemma refines_id N s s' bs :
  heap_inv s' bs → same_heap N s s' → refines N s' (abs s bs).
Proof.
  intros I H. change (abs s bs) with (with_blocks (abs s bs) (abs_block <$> bs)).
  by eapply refines_same.
Qed.

Lemma carve_abs sz align b h h1 rest :
  carve sz align b h h1 rest →
  abs_block <$> h1 :: rest =
  let req := user_addr_of b align - b + sz in
  if req + min_block_size <=? BlockHeader.size h
  then [mkAB (req - HEADER_SIZE) true; mkAB (BlockHeader.size h - req) false]
  else [mkAB (BlockHeader.size h) true].
Proof.
  intros (Ha & _ & C). cbv zeta.
  assert (abs_block h1 = mkAB (BlockHeader.size h1) true) as E
    by (unfold abs_block, is_free; by rewrite Ha).
  destruct (_ <=? _).
  - destruct C as (h2 & -> & F & Z1 & Z2). csimpl. rewrite E, Z1. unfold abs_block. by rewrite F, Z2.
  - destruct C as [-> Z1]. csimpl. by rewrite E, Z1.
Qed.

Lemma alloc_refused N s bs sz align :
  heap_inv s bs → counters_below N (self s) → N + 4 < 2 ^ 64 →
  frozen (self s) || (sz =? 0) || negb (is_power_of_two align) = true →
  ∃ s', alloc_aligned sz align s = Ret (None, s') ∧ heap_inv s' bs ∧ mach s' = mach s
        ∧ AllocStats.failed_allocs (stats (self s')) = AllocStats.failed_allocs (stats (self s)) + 1
        ∧ same_heap (N + 4) s s'.
Proof.
  intros [W Co] Hc HN G. destruct (alloc_fail_spec N s bs W Hc HN) as (s' & E & W' & ?).
  exists s'. split_and!; try done; [|tauto..]. unfold alloc_aligned. mstep.
  destruct (frozen (self s)); [done|]. cbn [orb] in G. by rewrite G.
Qed.

Lemma alloc_simulation N s bs sz align :
  heap_inv s bs → counters_below N (self s) → N + 8 < 2 ^ 64 →
  legal_alloc (abs s bs) sz align = true →
  ∃ s', alloc_aligned sz align s = Ret ((a_alloc sz align (abs s bs)).1, s')
        ∧ refines (N + 4) s' (a_alloc sz align (abs s bs)).2.
Proof.
  intros I Hc HN L. unfold legal_alloc in L. rewrite (a_end_abs _ _ (proj1 I)) in L. b2p.
  change FREE_BLOCK_SIZE with 16 in *. change min_block_size with 64 in *. unfold HEADER_SIZE in *.
  unfold a_alloc. cbn [abs a_frozen a_start a_blocks].
  destruct (frozen (self s) || (sz =? 0) || negb (is_power_of_two align)) eqn:G.
  { destruct (alloc_refused N s bs sz align) as (s' & E & I' & _ & _ & Hs); [done..|lia|done|].
    exists s'. split; [done|]. by apply refines_id. }
  b2p. change FREE_BLOCK_SIZE with 16. rewrite a_find_fits.
  destruct (first_fit (Z.max sz 16) align (heap_start (self s)) bs) as [[[bs1 h] bs2]|] eqn:F.
  - edestruct alloc_some as (s' & h1 & rest & E & K & _ & _ & I' & _ & Hs & _);
      [exact I|exact Hc|..|exact F|]; try done; try lia.
    exists s'. simpl. rewrite a_span_abs. split; [done|].
    apply carve_abs in K. cbv zeta in K. rewrite <- K, <- !fmap_app.
    by eapply (refines_same _ s).
  - edestruct alloc_none as (s' & E & I' & _ & _ & Hs);
      [exact I|exact Hc|..|exact F|]; try done; try lia.
    exists s'. split; [done|]. by apply refines_id.
Qed.

Lemma same_heap_refl N s : counters_below N (self s) → same_heap N s s.
Proof. intros Hc. unfold same_heap. by split_and!. Qed.

Lemma dealloc_simulation N s bs p :
  heap_inv s bs → counters_below N (self s) → N + 8 < 2 ^ 64 →
  legal (abs s bs) (OpDealloc p) = true →
  ∃ s', dealloc p s = Ret ((a_dealloc p (abs s bs)).1, s')
        ∧ refines (N + 4) s' (a_dealloc p (abs s bs)).2.
Proof.
  intros I Hc HN L. unfold a_dealloc. cbn [legal] in L.
  rewrite (a_end_abs _ _ (proj1 I)) in *. cbn [abs a_frozen a_start] in *.
  assert (same_heap (N + 4) s s) as Hid
    by (apply same_heap_refl; eapply counters_mono; [exact Hc|lia]).
  destruct (frozen (self s)) eqn:Hfr.
  { exists s. split; [by apply dealloc_frozen|by apply refines_id]. }
  destruct ((p <? heap_start (self s)) || (heap_end (self s) <? p)) eqn:R.
  { exists s. split; [|by apply refines_id]. apply dealloc_range; [done|].
    apply orb_true_iff in R as [R|R]; b2p; lia. }
  cbn [orb] in L. rewrite R in L. cbn [orb] in L. apply bool_decide_eq_true in L as [[[b1 h] b2] E].
  rewrite E. destruct (a_find_at _ _ _ _ _ _ E) as (bs1 & g & bs2 & -> & -> & -> & -> & ->).
  cbn [abs_block ab_used]. destruct (is_free g) eqn:Eg; cbn [negb].
  - destruct (dealloc_double N s bs1 g bs2 (proj1 I) Hc ltac:(lia) Hfr Eg) as (s' & E' & W & _ & _ & Hs).
    exists s'. split; [done|]. apply refines_id; [|done]. split; [done|apply I].
  - destruct (dealloc_ok N s bs1 g bs2 I Hc HN Hfr Eg) as (s' & h' & E' & Hf' & Ez & I' & _ & Hs).
    exists s'. split; [done|]. cbn [snd]. rewrite (a_freed_abs bs1 g h' bs2 Ez Hf').
    by eapply (refines_same _ s).
Qed.

Lemma set_purpose_free s bs1 h bs2 p :
  heap_wf s (bs1 ++ h :: bs2) → is_free h = true →
  set_purpose (heap_start (self s) + span bs1 + HEADER_SIZE) p s = Ret (Err InvalidPointer, s).
Proof.
  intros W Hf. pose proof (heap_wf_split _ _ _ _ W) as (Hh & [V Z] & _ & _ & Hb & He & Hsp1 & Hsp2).
  pose proof (wf_bound _ _ W). unfold set_purpose, total, HEADER_SIZE in *. mstep_arith.
  replace (heap_start (self s) + span bs1 + 48 - 48) with (heap_start (self s) + span bs1) by lia.
  mstep_with ltac:(apply hw_read, validate_at_spec; exact Hh). rewrite V. cbn [negb].
  mstep_with ltac:(apply hw_read, rd_status_spec; exact Hh).
  unfold is_free in Hf. apply bool_decide_eq_true in Hf. by rewrite Hf.
Qed.

Lemma set_purpose_simulation N s bs p pu :
  heap_inv s bs → counters_below N (self s) → is_Some (a_at p (abs s bs)) →
  ∃ s', set_purpose p pu s = Ret (a_set_purpose p (abs s bs), s') ∧ refines (N + 4) s' (abs s bs).
Proof.
  intros I Hc [[[b1 h] b2] E]. unfold a_set_purpose. rewrite E.
  destruct (a_find_at _ _ _ _ _ _ E) as (bs1 & g & bs2 & -> & -> & -> & -> & ->).
  cbn [abs_block ab_used]. destruct (is_free g) eqn:Eg; cbn [negb].
  - exists s. split; [by apply (set_purpose_free s bs1 g bs2), Eg; destruct I|].
    apply refines_id; [done|]. apply same_heap_refl. eapply counters_mono; [exact Hc|lia].
  - destruct (set_purpose_ok s bs1 g bs2 pu I Eg) as (ms' & E' & I' & _).
    eexists. split; [exact E'|]. eexists. split_and!; [exact I'|eapply counters_mono; [exact Hc|lia]|].
    unfold abs. cbn [self]. f_equal. by rewrite !fmap_app, !fmap_cons.
Qed.

(** One operation: the concrete one returns what the abstract one does. *)
Lemma simulation N s a o :
  refines N s a → legal a o = true → N + 8 < 2 ^ 64 →
  ∃ s', exec o s = Ret ((aexec o a).1, s') ∧ refines (N + 4) s' (aexec o a).2.
Proof.
  intros (bs & I & Hc & <-) L HN. destruct o as [sz|sz align|p|p pu| |]; cbn [exec aexec].
  - destruct (alloc_simulation N s bs sz ALIGN_USIZE I Hc HN L) as (s' & E & R).
    exists s'. destruct (a_alloc sz ALIGN_USIZE (abs s bs)). by split; [unfold alloc; mstep_with ltac:(exact E)|].
  - destruct (alloc_simulation N s bs sz align I Hc HN L) as (s' & E & R).
    exists s'. destruct (a_alloc sz align (abs s bs)). by split; [mstep_with ltac:(exact E)|].
  - destruct (dealloc_simulation N s bs p I Hc HN L) as (s' & E & R).
    exists s'. destruct (a_dealloc p (abs s bs)). by split; [mstep_with ltac:(exact E)|].
  - cbn [legal] in L. apply bool_decide_eq_true in L.
    destruct (set_purpose_simulation N s bs p pu I Hc L) as (s' & E & R).
    exists s'. by split; [mstep_with ltac:(exact E)|].
  - eexists. split; [unfold freeze; mstep; reflexivity|]. exists bs. split_and!; [|by destruct Hc; split; simpl; lia|done].
    destruct I as [[] ?]. by split.
  - exists s. split; [mstep_with ltac:(apply (integrity_ok s bs), I); done|].
    exists bs. split_and!; [done|eapply counters_mono; [exact Hc|lia]|done].
Qed.

(** Any sequence of operations. *)
Lemma run_simulation os : ∀ N s a,
  refines N s a → legal_run a os = true → N + 4 * Z.of_nat (length os) + 8 < 2 ^ 64 →
  ∃ s', run os s = Ret ((arun os a).1, s')
        ∧ refines (N + 4 * Z.of_nat (length os)) s' (arun os a).2.
Proof.
  induction os as [|o os IH]; intros N s a R L HN.
  { exists s. split; [done|]. simpl length. by rewrite Z.add_0_r. }
  cbn [legal_run] in L. b2p. simpl length in *.
  destruct (simulation N s a o R) as (s1 & E1 & R1); [done|lia|]. cbn [run arun].
  destruct (aexec o a) as [x a1]. cbn [fst snd] in *.
  destruct (IH _ _ _ R1) as (s2 & E2 & R2); [done|lia|].
  destruct (arun os a1) as [xs a2]. cbn [fst snd] in *. exists s2. split.
  - mstep_with ltac:(exact E1). mstep_with ltac:(exact E2). done.
  - by replace (N + 4 * Z.of_nat (S (length os))) with (N + 4 + 4 * Z.of_nat (length os)) by lia.
Qed.

End simulation.
