(* ===== verification/AllocClient.v ===== *)
(** * What the early allocator guarantees its clients

    Which bytes belong to whom before and after an allocation and a
    deallocation: the form in which the users of the allocator (the global
    allocator, the handover) rely on it. *)

From Stdlib Require Import ZArith Lia.
From stdpp Require Import base option numbers sorting gmap list.
From S2P Require Import Prelude Memory Purpose Metadata HeaderSpec Allocator FreeList HeapInv AllocSteps AllocSpec DeallocSpec AllocOps AllocRefine.

(** ** Who owns which byte *)

Lemma carve_user sz align b h h1 rest x :
  carve sz align b h h1 rest →
  in_user b (h1 :: rest) x ↔ b + HEADER_SIZE ≤ x < b + total h1.
Proof.
  intros (Ha & _ & C). assert (is_free h1 = false) as Hf1 by (unfold is_free; by rewrite Ha).
  cbn [in_user]. rewrite Hf1. destruct (_ <=? _).
  - destruct C as (h2 & -> & F & _). cbn [in_user]. rewrite F. intuition congruence.
  - destruct C as [-> _]. cbn [in_user]. tauto.
Qed.

(** The user area of the carved block holds the request. *)
Lemma carve_room sz align b h h1 rest :
  0 < align → block_fits sz align b h = true → carve sz align b h h1 rest →
  user_addr_of b align + sz ≤ b + total h1.
Proof.
  intros Ha Hfit (_ & _ & C). unfold block_fits in Hfit. b2p. unfold total, HEADER_SIZE in *.
  destruct (_ <=? _); [destruct C as (h2 & _ & _ & -> & _); lia|destruct C as [_ ->]; lia].
Qed.

(** Blocks before and after the replaced ones keep their user areas. *)
Lemma in_user_mid a bs1 mid bs2 x :
  in_user a (bs1 ++ mid ++ bs2) x ↔
  in_user a bs1 x ∨ in_user (a + span bs1) mid x ∨ in_user (a + span bs1 + span mid) bs2 x.
Proof. by rewrite !in_user_app. Qed.

Lemma in_user_not_mid a bs1 h bs2 x :
  Forall blk_ok bs1 → Forall blk_ok bs2 → 64 ≤ total h →
  in_user a bs1 x ∨ in_user (a + span bs1 + total h) bs2 x →
  ¬ (a + span bs1 ≤ x < a + span bs1 + total h).
Proof.
  intros Ok1 Ok2 Ht [Hx|Hx] ?; apply in_user_bounds in Hx; try done; unfold HEADER_SIZE in *; lia.
Qed.

Lemma is_power_of_two_pos align : is_power_of_two align = true → 0 < align.
Proof. intros (k & ? & ->)%is_power_of_two_spec. by apply Z.pow_pos_nonneg. Qed.

(** Two ways to pick a block of the same list. *)
Lemma same_split (bs1 : list header) h bs2 c1 g c2 :
  bs1 ++ h :: bs2 = c1 ++ g :: c2 →
  (∃ r, bs1 = c1 ++ g :: r ∧ c2 = r ++ h :: bs2)
  ∨ (∃ r, c1 = bs1 ++ h :: r ∧ bs2 = r ++ g :: c2)
  ∨ (bs1 = c1 ∧ h = g ∧ bs2 = c2).
Proof.
  revert c1. induction bs1 as [|x bs1 IH]; intros [|y c1] E; cbn [app] in E; injection E as <- E.
  - right. right. done.
  - right. left. by exists c1.
  - left. by exists bs1.
  - apply IH in E as [(r & -> & ->)|[(r & -> & ->)|(-> & -> & ->)]];
      [left; by exists r|right; left; by exists r|right; right; done].
Qed.

Lemma alloc_client {P : Profile} N s bs sz align :
  heap_inv s bs → counters_below N (self s) → N + 8 < 2 ^ 64 →
  frozen (self s) = false → 0 < sz → is_power_of_two align = true →
  HEADER_SIZE + align + Z.max sz FREE_BLOCK_SIZE ≤ 2 ^ 64 →
  heap_end (self s) + align + min_block_size ≤ 2 ^ 64 →
  let a := heap_start (self s) in
  ∃ r s' bs', alloc_aligned sz align s = Ret (r, s')
    ∧ heap_inv s' bs' ∧ same_heap (N + 4) s s'
    ∧ match r with
      | Some p =>
          p mod align = 0 ∧ a + HEADER_SIZE ≤ p ∧ p + sz ≤ heap_end (self s)
          ∧ (∀ x, p ≤ x < p + sz → in_user a bs' x ∧ ¬ in_user a bs x)
          ∧ (∀ x, in_user a bs x → in_user a bs' x ∧ mem (mach s') !! x = mem (mach s) !! x)
          ∧ (∀ c1 g c2, bs = c1 ++ g :: c2 → is_free g = false →
               ∃ c1' c2', bs' = c1' ++ g :: c2' ∧ span c1' = span c1)
      | None =>
          bs' = bs ∧ mach s' = mach s
          ∧ ∀ i h, bs !! i = Some h →
              block_fits (Z.max sz FREE_BLOCK_SIZE) align (a + span (take i bs)) h = false
      end.
Proof.
  intros I Hc HN Hfr Hsz Hal B1 B2 a. change min_block_size with 64 in *.
  change FREE_BLOCK_SIZE with 16 in *. unfold HEADER_SIZE in B1.
  destruct (first_fit (Z.max sz 16) align a bs) as [[[bs1 h] bs2]|] eqn:F.
  2:{ edestruct alloc_none as (s' & E & I' & Em & _ & Hs); [exact I|exact Hc|..|exact F|];
        try done; try lia.
      exists None, s', bs. split_and!; try done. by apply first_fit_None. }
  edestruct alloc_some as (s' & h1 & rest & E & K & _ & Esp & I' & Hu & Hs & _);
    [exact I|exact Hc|..|exact F|]; try done; try lia. fold a in E, K, Hu.
  exists (Some (user_addr_of (a + span bs1) align)), s', (bs1 ++ (h1 :: rest) ++ bs2).
  destruct (first_fit_Some _ _ _ _ _ _ _ F) as [-> Hfit].
  pose proof (is_power_of_two_pos _ Hal) as Ha.
  destruct (user_addr_of_spec (a + span bs1) align Ha) as [Hua Hmod].
  pose proof (carve_room _ _ _ _ _ _ Ha Hfit K) as Hroom.
  pose proof (heap_wf_split _ _ _ _ (proj1 I)) as (_ & Hok & Ok1 & Ok2 & Hb & He & Hs1 & Hs2).
  fold a in Hb, He. pose proof (blk_total _ Hok) as Ht.
  assert (is_free h = true) as Hf by (unfold block_fits in Hfit; b2p; done).
  assert (total h1 ≤ total h) as Hle.
  { rewrite span_cons in Esp. destruct I' as [W' _]. pose proof (wf_ok _ _ W') as Hall.
    apply Forall_app in Hall as [_ Hall]. apply Forall_app in Hall as [Hall _].
    apply Forall_cons in Hall as [_ Hall]. pose proof (span_nonneg _ Hall). lia. }
  unfold HEADER_SIZE in *. split_and!; try done; try lia.
  - intros x Hx. rewrite in_user_mid, (carve_user _ _ _ _ _ _ _ K). unfold HEADER_SIZE.
    split; [lia|]. rewrite in_user_app. cbn [in_user]. rewrite Hf.
    intros Hin. eapply (in_user_not_mid a bs1 h bs2 x); try done; [intuition congruence|lia].
  - intros x. rewrite in_user_mid, in_user_app, Esp. cbn [in_user]. rewrite Hf. intros Hx.
    split; [intuition congruence|]. apply Hu. intuition congruence.
  - intros c1 g c2 E' Hg.
    destruct (same_split bs1 h bs2 c1 g c2 E') as [(r & -> & ->)|[(r & -> & ->)|(_ & -> & _)]]; [| |congruence].
    + exists c1, (r ++ (h1 :: rest) ++ bs2). by rewrite <- !app_assoc.
    + exists (bs1 ++ (h1 :: rest) ++ r), c2. split; [by rewrite <- !app_assoc|].
      rewrite !span_app, Esp, span_cons. lia.
Qed.

(** ** Deallocation *)

Lemma merge_prev_user a bs1 h bs2 x :
  is_free h = true →
  in_user a (merge_prev bs1 h bs2) x ↔
  in_user a bs1 x ∨ in_user (a + span bs1 + total h) bs2 x.
Proof.
  intros Hf. destruct bs1 as [|k cs _] using rev_ind.
  - simpl. change (span []) with 0. rewrite Z.add_0_r, Hf. intuition congruence.
  - rewrite merge_prev_snoc, in_user_app, span_app, span_cons. change (span []) with 0.
    rewrite in_user_app. cbn [in_user]. destruct (is_free k) eqn:Ek; rewrite in_user_app.
    + cbn [in_user]. rewrite is_free_merged, Ek, span_cons. change (span []) with 0.
      replace (a + span cs + (total (merged k h) + 0)) with (a + (span cs + (total k + 0)) + total h)
        by (unfold total, merged; simpl; unfold total; lia). intuition congruence.
    + cbn [in_user]. rewrite Ek, Hf, !span_cons. change (span []) with 0.
      replace (a + span cs + (total k + (total h + 0))) with (a + (span cs + (total k + 0)) + total h)
        by lia. intuition congruence.
Qed.

Lemma freed_user a bs1 h bs2 x :
  is_free h = true →
  in_user a (freed bs1 h bs2) x ↔ in_user a bs1 x ∨ in_user (a + span bs1 + total h) bs2 x.
Proof.
  intros Hf. unfold freed. rewrite <- merge_next_user.
  assert (is_free (merge_next h bs2).1 = true) as Hf'
    by (destruct bs2 as [|g r]; simpl; [done|by destruct (is_free g)]).
  destruct (merge_next h bs2) as [h' r]. by apply merge_prev_user.
Qed.

(** Merging free blocks leaves the used totals alone. *)
Lemma freed_used bs1 h bs2 :
  is_free h = true →
  used_bytes (freed bs1 h bs2) = used_bytes bs1 + used_bytes bs2
  ∧ used_blocks (freed bs1 h bs2) = used_blocks bs1 + used_blocks bs2.
Proof.
  intros Hf. unfold freed.
  assert (∃ h' r, merge_next h bs2 = (h', r) ∧ is_free h' = true
            ∧ used_bytes r = used_bytes bs2 ∧ used_blocks r = used_blocks bs2)
    as (h' & r & -> & Hf' & <- & <-).
  { destruct bs2 as [|g r]; [by exists h, []|]. simpl. pose proof (sums_cons g r) as (A & _ & _ & B).
    destruct (is_free g); [exists (merged h g), r|exists h, (g :: r)]; split_and!; done || lia. }
  destruct bs1 as [|k cs _] using rev_ind.
  - pose proof (sums_cons h' r) as (A & _ & _ & B). rewrite Hf' in A, B. done.
  - rewrite merge_prev_snoc. pose proof (sums_app cs [k]) as (A1 & _ & _ & A4).
    pose proof (sums_cons k []) as (B1 & _ & _ & B4).
    change (used_bytes []) with 0 in *. change (used_blocks []) with 0 in *.
    destruct (is_free k) eqn:Ek; cbn [app] in *.
    + pose proof (sums_app cs (merged k h' :: r)) as (C1 & _ & _ & C4).
      pose proof (sums_cons (merged k h') r) as (D1 & _ & _ & D4).
      rewrite is_free_merged, Ek in D1, D4. lia.
    + pose proof (sums_app cs (k :: h' :: r)) as (C1 & _ & _ & C4).
      pose proof (sums_cons k (h' :: r)) as (D1 & _ & _ & D4). rewrite Ek in D1, D4.
      pose proof (sums_cons h' r) as (F1 & _ & _ & F4). rewrite Hf' in F1, F4.
      lia.
Qed.

Lemma dealloc_client {P : Profile} N s bs1 h bs2 :
  heap_inv s (bs1 ++ h :: bs2) → counters_below N (self s) → N + 8 < 2 ^ 64 →
  frozen (self s) = false → BlockHeader.status h = Allocated →
  let a := heap_start (self s) in
  let b := a + span bs1 in
  ∃ s' bs', dealloc (b + HEADER_SIZE) s = Ret (Ok tt, s')
    ∧ heap_inv s' bs' ∧ same_heap (N + 4) s s'
    ∧ (∀ x, in_user a bs' x ↔
            in_user a (bs1 ++ h :: bs2) x ∧ ¬ (b + HEADER_SIZE ≤ x < b + total h))
    ∧ (∀ x, in_user a bs' x → mem (mach s') !! x = mem (mach s) !! x)
    ∧ AllocStats.used_size (stats (self s'))
      = AllocStats.used_size (stats (self s)) - BlockHeader.size h
    ∧ AllocStats.free_size (stats (self s'))
      = AllocStats.free_size (stats (self s)) + total h.
Proof.
  intros I Hc HN Hfr Hst a b.
  assert (is_free h = false) as Hf by (unfold is_free; by rewrite Hst).
  destruct (dealloc_ok N s bs1 h bs2 I Hc HN Hfr Hf) as (s' & h' & E & Hf' & Ez & I' & Hu & Hs).
  fold a b in E, Hu. assert (total h' = total h) as Et by (unfold total; lia).
  pose proof (heap_wf_split _ _ _ _ (proj1 I)) as (_ & Hok & Ok1 & Ok2 & _).
  pose proof (blk_total _ Hok) as Ht. exists s', (freed bs1 h' bs2).
  assert (∀ x, in_user a (freed bs1 h' bs2) x ↔ in_user a bs1 x ∨ in_user (b + total h) bs2 x) as Hin
    by (intros x; rewrite freed_user by done; by rewrite Et).
  destruct (wf_stats _ _ (proj1 I)) as [S1 S2 S3 S4]. destruct (wf_stats _ _ (proj1 I')) as [S1' S2' S3' S4'].
  destruct (freed_used bs1 h' bs2 Hf') as [F1 F2].
  pose proof (sums_app bs1 (h :: bs2)) as (A1 & _ & _ & A4).
  pose proof (sums_cons h bs2) as (C1 & _ & _ & C4). rewrite Hf in C1, C4.
  pose proof (bytes_total (freed bs1 h' bs2)) as B1. pose proof (bytes_total (bs1 ++ h :: bs2)) as B2.
  pose proof (wf_end _ _ (proj1 I)) as W1. pose proof (wf_end _ _ (proj1 I')) as W2.
  pose proof Hs as (Hs1 & Hs2 & _). rewrite Hs1, Hs2 in W2.
  split_and!; try done.
  - intros x. rewrite Hin, in_user_app. cbn [in_user]. rewrite Hf. split.
    + intros Hx. split; [unfold b; tauto|]. intros ?.
      eapply (in_user_not_mid a bs1 h bs2 x); try done. unfold b, HEADER_SIZE in *. lia.
    + fold b. tauto.
  - intros x Hx. apply Hu, Hin, Hx.
  - lia.
  - unfold total, HEADER_SIZE in *. lia.
Qed.
