(* ===== verification/Examples.v ===== *)
(** * A concrete heap

    A 1 KiB heap at address 4096, fresh and after some operations, with its
    block list: the instances at which the theorems about the allocator are
    evaluated. *)

From Stdlib Require Import ZArith Lia.
From stdpp Require Import base option numbers sorting gmap list.
From S2P Require Import Prelude Memory Purpose Metadata HeaderSpec Allocator FreeList HeapInv AllocSteps AllocSpec DeallocSpec AllocOps AllocRefine.

(** Discharge a closed hypothesis by evaluation. *)
Ltac by_eval :=
  first [ vm_compute; reflexivity | vm_compute; discriminate | vm_compute; tauto ].

#[export] Instance example_profile : Profile := Dev.

#[export] Instance header_inhabited : Inhabited header :=
  populate (BlockHeader.mk 0 Free 0 0 AllocPurpose.Unknown 0 0).

(** The headers found by walking the heap. *)
Fixpoint walk (fuel : nat) (a hend : Z) (ms : Machine) : list header :=
  match fuel with
  | O => []
  | S fuel' =>
      if a <? hend then
        match read_header a ms with
        | Ret (h, _) => h :: walk fuel' (a + total h) hend ms
        | _ => []
        end
      else []
  end.

Definition blocks_of (s : AState) : list header :=
  walk (walk_fuel (self s)) (heap_start (self s)) (heap_end (self s)) (mach s).

Definition no_heap : AState :=
  mkAState (mkEarlyAllocator 0 0 0 (AllocStats.new 0) false 0) (mkMachine ∅ 0).

(** The state a run ends in. *)
Definition state_of {A} (o : outcome (A * AState)) : AState :=
  match o with Ret (_, s) => s | _ => no_heap end.

(** The value a run returns. *)
Definition reply_of {S A} (o : outcome (A * S)) : option A :=
  match o with Ret (x, _) => Some x | _ => None end.

Definition heap0 : AState := Eval vm_compute in
  match EarlyAllocator_new 4096 1024 (mkMachine ∅ 0) with
  | Ret (Ok a, ms) => mkAState a ms
  | _ => no_heap
  end.
Definition blocks0 : list header := Eval vm_compute in blocks_of heap0.

(** After [alloc(64)], [alloc(128)] and [alloc(32)]. *)
Definition heap3 : AState := Eval vm_compute in
  state_of (run [OpAlloc 64; OpAlloc 128; OpAlloc 32] heap0).
Definition blocks3 : list header := Eval vm_compute in blocks_of heap3.

(** And after the second of the three is freed. *)
Definition heap4 : AState := Eval vm_compute in
  state_of (run [OpDealloc 4256] heap3).
Definition blocks4 : list header := Eval vm_compute in blocks_of heap4.

(** A frozen heap. *)
Definition heap_frozen : AState := Eval vm_compute in state_of (run [OpFreeze] heap3).

Ltac eval_eq := vm_compute; reflexivity.
Ltac eval_nodes :=
  match goal with
  | |- context [free_nodes ?a ?bs] =>
      let l := eval vm_compute in (free_nodes a bs) in
      replace (free_nodes a bs) with l by eval_eq
  end.
Ltac eval_inv :=
  split; [split|];
  [ eval_eq | eval_eq | eval_eq
  | repeat (split; [constructor; eval_eq|]); exact I
  | repeat (constructor; [split; [eval_eq|vm_compute; discriminate]|]); constructor
  | eval_nodes; repeat (split; [eval_eq|split; [eval_eq|]]); exact I
  | eval_nodes; eval_eq
  | split; eval_eq
  | vm_compute; split; [discriminate|reflexivity]
  | repeat (split; [eval_eq|]); exact I ].

Lemma heap0_inv : heap_inv heap0 blocks0.
Proof. eval_inv. Qed.

Lemma heap3_inv : heap_inv heap3 blocks3.
Proof. eval_inv. Qed.

Lemma heap4_inv : heap_inv heap4 blocks4.
Proof. eval_inv. Qed.

Lemma heap_frozen_inv : heap_inv heap_frozen blocks3.
Proof. eval_inv. Qed.

Lemma heap0_counters : counters_below 1 (self heap0).
Proof. split; vm_compute; done. Qed.

Lemma heap3_counters : counters_below 10 (self heap3).
Proof. split; vm_compute; done. Qed.

Lemma heap4_counters : counters_below 20 (self heap4).
Proof. split; vm_compute; done. Qed.

Lemma heap_frozen_counters : counters_below 20 (self heap_frozen).
Proof. split; vm_compute; done. Qed.
