(* ===== verification/AllocThms.v ===== *)
(** * Theorems about the early allocator

    The guarantees of [EarlyAllocator] to its clients, each with an instance
    on the heap of [Examples.v]. *)

From Stdlib Require Import ZArith Lia.
From stdpp Require Import base option numbers sorting gmap list.
From S2P Require Import Prelude Memory Purpose Metadata HeaderSpec Allocator FreeList HeapInv AllocSteps AllocSpec DeallocSpec AllocOps AllocRefine AllocClient Examples.

(** C5: [alloc_aligned] of a non-zero size to a power of two, on a well-formed,
    unfrozen heap, returns when size and alignment leave the address arithmetic
    below [2^64].  On
    success the pointer is aligned, the requested bytes lie in the heap, belong
    to an allocated block afterwards and to none before, and the bytes of every
    block already handed out are the same and still handed out; on failure no
    free block could hold the request and memory is unchanged.  In both cases
    the invariant holds afterwards. *)
Theorem alloc_aligned_correct {P : Profile} N s bs sz align :
  heap_inv s bs → counters_below N (self s) → N + 8 < 2 ^ 64 →
  frozen (self s) = false → 0 < sz → is_power_of_two align = true →
  HEADER_SIZE + align + Z.max sz FREE_BLOCK_SIZE ≤ 2 ^ 64 →
  heap_end (self s) + align + min_block_size ≤ 2 ^ 64 →
  let a := heap_start (self s) in
  ∃ r s' bs', alloc_aligned sz align s = Ret (r, s')
    ∧ heap_inv s' bs' ∧ same_heap (N + 4) s s'
    ∧ match r with
      | Some p =>
          p mod align = 0 ∧ a + HEADER_SIZE ≤ p ∧ p + sz ≤ heap_end (self s)
          ∧ (∀ x, p ≤ x < p + sz → in_user a bs' x ∧ ¬ in_user a bs x)
          ∧ (∀ x, in_user a bs x → in_user a bs' x ∧ mem (mach s') !! x = mem (mach s) !! x)
      | None =>
          bs' = bs ∧ mach s' = mach s
          ∧ ∀ i h, bs !! i = Some h →
              block_fits (Z.max sz FREE_BLOCK_SIZE) align (a + span (take i bs)) h = false
      end.
Proof.
  intros I Hc HN Hfr Hsz Hal B1 B2 a.
  destruct (alloc_client N s bs sz align I Hc HN Hfr Hsz Hal B1 B2) as (r & s' & bs' & E & I' & Hs & H).
  exists r, s', bs'. split_and!; try done. destruct r as [p|]; [|exact H].
  destruct H as (H1 & H2 & H3 & H4 & H5 & _). split_and!; done.
Qed.

Lemma alloc_aligned_correct_witness :
  ∃ r s' bs', alloc_aligned 100 256 heap4 = Ret (r, s') ∧ heap_inv s' bs' ∧ r = Some 4608.
Proof.
  destruct (alloc_aligned_correct 20 heap4 blocks4 100 256 heap4_inv heap4_counters)
    as (r & s' & bs' & E & I & _); [by_eval..|].
  assert (reply_of (alloc_aligned 100 256 heap4) = Some (Some 4608)) as V by by_eval.
  rewrite E in V. exists r, s', bs'. injection V as ->.
  split; [exact E|]. split; [exact I|reflexivity].
Defined.

(** ** Deallocation *)

(** C6: Freeing the pointer right after the header of an allocated block
    succeeds on an unfrozen heap.  The invariant holds afterwards (in particular
    no two neighbours are free), the block's bytes are no longer handed out,
    those of every other block are, unchanged, and the used and free totals
    move by exactly the block. *)
Theorem dealloc_correct {P : Profile} N s bs1 h bs2 :
  heap_inv s (bs1 ++ h :: bs2) → counters_below N (self s) → N + 8 < 2 ^ 64 →
  frozen (self s) = false → BlockHeader.status h = Allocated →
  let a := heap_start (self s) in
  let b := a + span bs1 in
  ∃ s' bs', dealloc (b + HEADER_SIZE) s = Ret (Ok tt, s')
    ∧ heap_inv s' bs' ∧ same_heap (N + 4) s s'
    ∧ (∀ x, in_user a bs' x ↔
            in_user a (bs1 ++ h :: bs2) x ∧ ¬ (b + HEADER_SIZE ≤ x < b + total h))
    ∧ (∀ x, in_user a bs' x → mem (mach s') !! x = mem (mach s) !! x)
    ∧ AllocStats.used_size (stats (self s'))
      = AllocStats.used_size (stats (self s)) - BlockHeader.size h
    ∧ AllocStats.free_size (stats (self s'))
      = AllocStats.free_size (stats (self s)) + total h.
Proof. apply dealloc_client. Qed.

Lemma dealloc_correct_witness :
  ∃ s' bs', dealloc 4256 heap3 = Ret (Ok tt, s') ∧ heap_inv s' bs'
    ∧ AllocStats.used_size (stats (self s')) = 96.
Proof.
  destruct (dealloc_correct 10 heap3 (take 1 blocks3) (blocks3 !!! 1%nat) (drop 2 blocks3)
              heap3_inv heap3_counters)
    as (s' & bs' & E & I & _ & _ & _ & U & _); [by_eval..|].
  exists s', bs'. split; [exact E|]. split; [exact I|]. rewrite U. by_eval.
Defined.

(** C33: Every refusal of [dealloc]: a frozen allocator and a pointer outside
    the heap change nothing; a pointer whose header does not validate and a
    pointer to a block that is already free are counted, and leave the heap and
    memory as they were. *)
Theorem dealloc_refusals {P : Profile} N s bs p :
  heap_inv s bs → counters_below N (self s) → N + 8 < 2 ^ 64 →
  (frozen (self s) = true → dealloc p s = Ret (Err AllocatorFrozen, s))
  ∧ (frozen (self s) = false → p < heap_start (self s) ∨ heap_end (self s) < p →
     dealloc p s = Ret (Err InvalidPointer, s))
  ∧ (frozen (self s) = false → heap_start (self s) ≤ p ≤ heap_end (self s) → 48 ≤ p →
     validate_at (p - 48) (mach s) = Ret (false, mach s) →
     ∃ s', dealloc p s = Ret (Err CorruptedHeader, s') ∧ heap_inv s' bs ∧ mach s' = mach s
       ∧ AllocStats.corrupted_blocks (stats (self s'))
         = AllocStats.corrupted_blocks (stats (self s)) + 1)
  ∧ (∀ bs1 h bs2, frozen (self s) = false → bs = bs1 ++ h :: bs2 →
     BlockHeader.status h = Free → p = heap_start (self s) + span bs1 + HEADER_SIZE →
     ∃ s', dealloc p s = Ret (Err DoubleFree, s') ∧ heap_inv s' bs ∧ mach s' = mach s
       ∧ AllocStats.double_free_attempts (stats (self s'))
         = AllocStats.double_free_attempts (stats (self s)) + 1).
Proof.
  intros [W Co] Hc HN. split_and!.
  - apply dealloc_frozen.
  - apply dealloc_range.
  - intros Hfr Hp H48 V.
    destruct (dealloc_corrupted N p s bs W Hc ltac:(lia) Hfr Hp H48 V) as (s' & E & W' & ? & ? & _).
    exists s'. by split_and!.
  - intros bs1 h bs2 Hfr -> Hst ->.
    assert (is_free h = true) as Hf by (unfold is_free; by rewrite Hst).
    destruct (dealloc_double N s bs1 h bs2 W Hc ltac:(lia) Hfr Hf) as (s' & E & W' & ? & ? & _).
    exists s'. by split_and!.
Qed.

Lemma dealloc_refusals_witness :
  ∃ s', dealloc 4256 heap4 = Ret (Err DoubleFree, s') ∧ heap_inv s' blocks4.
Proof.
  destruct (dealloc_refusals 20 heap4 blocks4 4256 heap4_inv heap4_counters) as (_ & _ & _ & D);
    [by_eval|].
  destruct (D (take 1 blocks4) (blocks4 !!! 1%nat) (drop 2 blocks4)) as (s' & E & I & _);
    [by_eval..|].
  exists s'. split; [exact E|exact I].
Defined.

(** ** The whole life of a heap *)

(** C1: From [EarlyAllocator::new] on, any sequence of legal operations
    returns, with exactly the replies of the abstract allocator, and ends in a
    state that represents the abstract one: no panic, no overflow, no loop
    without end, no corrupted free list.  The bound on the number of operations
    keeps the 64-bit event counters in range. *)
Theorem early_allocator_refinement {P : Profile} start sz ms os :
  0 < start → min_heap_size ≤ sz → start + sz < 2 ^ 64 → in_u64 (clock ms) →
  let a := mkA start [mkAB (sz - HEADER_SIZE) false] false in
  legal_run a os = true → 4 * Z.of_nat (length os) + 16 < 2 ^ 64 →
  ∃ al ms' s', EarlyAllocator_new start sz ms = Ret (Ok al, ms')
    ∧ run os (mkAState al ms') = Ret ((arun os a).1, s')
    ∧ refines (1 + 4 * Z.of_nat (length os)) s' (arun os a).2.
Proof.
  intros Hs Hz Hb Hc a L Hn.
  destruct (new_ok start sz ms Hs Hz Hb Hc)
    as (al & ms' & h & E & I & Hf & Et & Es & Ee & Efr & _ & Hcb & _).
  assert (refines 1 (mkAState al ms') a) as R.
  { exists [h]. split_and!; [done|done|]. unfold abs, a. cbn [self]. rewrite Es, Efr.
    csimpl. unfold abs_block. rewrite Hf. unfold total in Et. do 3 f_equal. lia. }
  destruct (run_simulation os 1 _ a R L) as (s' & Er & R'); [lia|]. by exists al, ms', s'.
Qed.

(** Allocate three blocks, free them in the order 2, 1, 3 and try a double
    free, on a 1 KiB heap. *)
Definition session : list op :=
  [OpAlloc 64; OpAlloc 128; OpAllocAligned 32 16; OpDealloc 4256; OpDealloc 4144;
   OpDealloc 4432; OpDealloc 4144; OpIntegrityCheck].

Lemma early_allocator_refinement_witness :
  ∃ al ms' s', EarlyAllocator_new 4096 1024 (mkMachine ∅ 0) = Ret (Ok al, ms')
    ∧ run session (mkAState al ms')
      = Ret ([RPtr (Some 4144); RPtr (Some 4256); RPtr (Some 4432); RRes (Ok tt); RRes (Ok tt);
              RRes (Ok tt); RRes (Err DoubleFree); RRes (Ok tt)], s')
    ∧ refines 33 s' (mkA 4096 [mkAB 976 false] false).
Proof.
  exact (early_allocator_refinement 4096 1024 (mkMachine ∅ 0) session eq_refl ltac:(by_eval)
           eq_refl ltac:(vm_compute; split; [discriminate|reflexivity]) ltac:(by_eval) ltac:(by_eval)).
Defined.

(** ** Statistics, integrity, purposes, clients *)

(** The statistics of a well-formed heap are exact: the used and free byte
    totals and one header per allocated block make up the whole heap, and the
    block counts are the lengths of the block list and of the free list. *)
Theorem stats_account_for_heap s bs :
  heap_inv s bs →
  AllocStats.used_size (stats (self s)) + AllocStats.free_size (stats (self s))
    + HEADER_SIZE * AllocStats.alloc_count (stats (self s))
    = heap_end (self s) - heap_start (self s)
  ∧ AllocStats.alloc_count (stats (self s)) + AllocStats.free_count (stats (self s))
    = Z.of_nat (length bs)
  ∧ AllocStats.free_count (stats (self s))
    = Z.of_nat (length (free_nodes (heap_start (self s)) bs)).
Proof.
  intros [W _]. destruct (wf_stats _ _ W) as [S1 S2 S3 S4].
  pose proof (bytes_total bs). pose proof (blocks_total bs). pose proof (wf_end _ _ W).
  split_and!; [lia|lia|]. rewrite S4. clear. generalize (heap_start (self s)).
  induction bs as [|h bs IH]; intros a; [done|]. cbn [free_nodes]. rewrite length_app.
  rewrite Nat2Z.inj_add, <- IH. pose proof (sums_cons h bs) as (_ & _ & -> & _).
  by destruct (is_free h).
Qed.

Lemma stats_account_for_heap_witness :
  AllocStats.used_size (stats (self heap4)) + AllocStats.free_size (stats (self heap4))
    + 48 * AllocStats.alloc_count (stats (self heap4)) = 1024.
Proof. exact (proj1 (stats_account_for_heap heap4 blocks4 heap4_inv)). Defined.

(** A successful walk visits headers that validate and lie back to back.  The
    overflow checks of the development profile rule out a size that wraps. *)
Lemma integrity_loop_sound fuel s a hend e t :
  @integrity_loop Dev fuel a hend s = Ret (Ok e, t) →
  t = s ∧ ∃ bs, tiles (mem (mach s)) a bs ∧ Forall (λ h, BlockHeader.validate h = true) bs
         ∧ e = a + span bs.
Proof.
  revert a; induction fuel as [|fuel IH]; intros a; cbn [integrity_loop]; [done|].
  destruct (a <? hend) eqn:Ea.
  2:{ intros [= <- <-]. split; [done|]. exists []. change (span []) with 0. split_and!; [done..|lia]. }
  intros E. apply bind_inv in E as (ok & t1 & E1 & E).
  unfold hw, zoom in E1. destruct (validate_at a (mach s)) as [[ok' u]| | |] eqn:V; try done.
  injection E1 as <- <-. destruct ok'; [|by injection E]. cbn [negb] in E.
  unfold validate_at in V. apply bind_inv in V as (mg & t2 & V1 & V). injection V1 as <- <-.
  destruct (negb _); [done|]. apply bind_inv in V as (h & t3 & V2 & V). injection V as Vh <-.
  pose proof (read_header_inv _ _ _ _ V2) as Hh.
  rewrite (read_header_spec _ _ _ Hh) in V2. injection V2 as <-.
  apply bind_inv in E as (ts & t4 & E4 & E). unfold hw, zoom in E4. cbn [mach] in E4.
  destruct (total_size_at a (mach s)) as [[ts' u]| | |] eqn:T; try done. injection E4 as <- <-.
  unfold total_size_at in T. apply bind_inv in T as (sz & t5 & T1 & T).
  rewrite (rd_size_spec _ _ _ Hh) in T1. injection T1 as <- <-.
  apply arith_Dev in T as [-> ->]. apply bind_inv in E as (nx & t6 & E6 & E).
  apply arith_Dev in E6 as [-> ->]. cbn [self mach] in E. destruct s as [al ms]. cbn [self mach] in *.
  apply IH in E as (-> & bs & Ht & Hv & ->). split; [done|]. exists (h :: bs).
  rewrite span_cons. split_and!; [by split|by constructor|unfold total; lia].
Qed.

(** C32: [integrity_check] is exact.  It accepts every well-formed heap without
    changing anything; it answers [CorruptedHeader] when a header that does not
    validate follows intact ones; and when it accepts (with overflow checks on)
    the heap really is covered, end to end, by headers that validate. *)
Theorem integrity_check_exact s :
  (∀ P bs, heap_wf s bs → @integrity_check P s = Ret (Ok tt, s))
  ∧ (∀ P bs h, tiles (mem (mach s)) (heap_start (self s)) (bs ++ [h]) → Forall blk_ok bs →
       BlockHeader.validate h = false → 0 < heap_start (self s) →
       heap_start (self s) + span bs < heap_end (self s) → heap_end (self s) < 2 ^ 64 →
       @integrity_check P s = Ret (Err CorruptedHeader, s))
  ∧ (∀ t, @integrity_check Dev s = Ret (Ok tt, t) →
       t = s ∧ ∃ bs, tiles (mem (mach s)) (heap_start (self s)) bs
         ∧ Forall (λ h, BlockHeader.validate h = true) bs
         ∧ heap_start (self s) + span bs = heap_end (self s)).
Proof.
  split_and!.
  - intros P bs. apply integrity_ok.
  - intros P bs h Ht Hok Hv Hs Hb Hb'. unfold integrity_check. mstep.
    mstep_with ltac:(eapply integrity_loop_bad; try done).
    + pose proof (span_length _ Hok). unfold walk_fuel, HEADER_SIZE.
      assert (Z.of_nat (length bs) ≤ (heap_end (self s) - heap_start (self s)) / 48)
        by (apply Z.div_le_lower_bound; lia). lia.
    + done.
  - intros t E. unfold integrity_check in E. apply bind_inv in E as (a & t1 & E1 & E).
    injection E1 as <- <-. apply bind_inv in E as (r & t2 & E2 & E).
    destruct r as [e|err]; [|by injection E]. destruct (negb _) eqn:En; [by injection E|].
    injection E as <-. apply integrity_loop_sound in E2 as (-> & bs & Ht & Hv & ->).
    split; [done|]. exists bs. b2p. done.
Qed.

Lemma integrity_check_exact_witness :
  integrity_check heap4 = Ret (Ok tt, heap4).
Proof.
  exact (proj1 (integrity_check_exact heap4) Dev blocks4 (proj1 heap4_inv)).
Defined.

(** [set_purpose] on the pointer of an allocated block stores the purpose in
    its header and refreshes the checksum so that the header validates; every
    other byte of memory, the statistics and the invariant stay.  On a free
    block it answers [InvalidPointer] and changes nothing. *)
Theorem set_purpose_correct {P : Profile} s bs1 h bs2 p :
  heap_inv s (bs1 ++ h :: bs2) →
  let b := heap_start (self s) + span bs1 in
  (BlockHeader.status h = Allocated →
   ∃ s' h', set_purpose (b + HEADER_SIZE) p s = Ret (Ok tt, s')
     ∧ self s' = self s ∧ heap_inv s' (bs1 ++ h' :: bs2)
     ∧ BlockHeader.purpose h' = p ∧ BlockHeader.alloc_id h' = BlockHeader.alloc_id h
     ∧ BlockHeader.size h' = BlockHeader.size h
     ∧ (∀ x, x < b ∨ b + HEADER_SIZE ≤ x → mem (mach s') !! x = mem (mach s) !! x))
  ∧ (BlockHeader.status h = Free →
     set_purpose (b + HEADER_SIZE) p s = Ret (Err InvalidPointer, s)).
Proof.
  intros I b. split; intros Hst.
  - assert (is_free h = false) as Hf by (unfold is_free; by rewrite Hst).
    destruct (set_purpose_ok s bs1 h bs2 p I Hf) as (ms' & E & I' & O).
    exists (mkAState (self s) ms'), (BlockHeader.set_purpose p h). by split_and!.
  - apply (set_purpose_free s bs1 h bs2 p); [apply I|]. unfold is_free. by rewrite Hst.
Qed.

Lemma set_purpose_correct_witness :
  set_purpose 4256 AllocPurpose.PageTable heap4 = Ret (Err InvalidPointer, heap4).
Proof.
  exact (proj2 (set_purpose_correct heap4 (take 1 blocks4) (blocks4 !!! 1%nat) (drop 2 blocks4)
           AllocPurpose.PageTable heap4_inv) eq_refl).
Defined.

(** Clients cannot hurt the allocator by writing to their own memory: any
    change of bytes inside the user areas of allocated blocks keeps the
    invariant. *)
Theorem client_writes_preserve_heap s bs m' :
  heap_inv s bs →
  (∀ x, ¬ in_user (heap_start (self s)) bs x → m' !! x = mem (mach s) !! x) →
  heap_inv (mkAState (self s) (mkMachine m' (clock (mach s)))) bs.
Proof. apply client_write_inv. Qed.

Lemma client_writes_preserve_heap_witness :
  heap_inv (mkAState (self heap3)
    (mkMachine (store 8 (mem (mach heap3)) 4144 (2 ^ 64 - 1)) (clock (mach heap3)))) blocks3.
Proof.
  apply (client_writes_preserve_heap heap3 blocks3); [exact heap3_inv|].
  intros x Hx. apply store_lookup_out.
  assert (4144 ≤ x < 4208 → False) as Hn; [|lia].
  intros Hr. apply Hx. left. split; [by_eval|exact Hr].
Defined.

(** [EarlyAllocator::new] accepts exactly a non-null start with room for two
    minimal blocks; it then holds one free block over the whole heap, is not
    frozen, and has written only the first 64 bytes.  Otherwise it answers
    [InvalidParameter] and touches nothing. *)
Theorem new_correct {P : Profile} start sz ms :
  0 ≤ start → start + sz < 2 ^ 64 → in_u64 (clock ms) →
  (start = 0 ∨ sz < min_heap_size →
   EarlyAllocator_new start sz ms = Ret (Err InvalidParameter, ms))
  ∧ (start ≠ 0 → min_heap_size ≤ sz →
     ∃ al ms' h, EarlyAllocator_new start sz ms = Ret (Ok al, ms')
       ∧ heap_inv (mkAState al ms') [h] ∧ is_free h = true ∧ total h = sz
       ∧ heap_start al = start ∧ heap_end al = start + sz ∧ frozen al = false
       ∧ only (mem ms) (mem ms') start (start + min_block_size)).
Proof.
  intros Hs Hb Hc. split; [apply new_refused|]. intros Hn Hz.
  destruct (new_ok start sz ms ltac:(lia) Hz Hb Hc)
    as (al & ms' & h & E & I & Hf & Et & Es & Ee & Efr & _ & _ & O).
  exists al, ms', h. by split_and!.
Qed.

Lemma new_correct_witness :
  EarlyAllocator_new 4096 127 (mkMachine ∅ 0) = Ret (Err InvalidParameter, mkMachine ∅ 0).
Proof.
  refine (proj1 (new_correct 4096 127 (mkMachine ∅ 0) _ _ _) (or_intror _));
    [by_eval|by_eval|vm_compute; split; [discriminate|reflexivity]|by_eval].
Defined.

(** ** Allocation followed by deallocation *)

(** Splitting the first fitting block and freeing the front again gives the
    same block list: the rest is merged back and no other neighbour is free. *)
Lemma carve_freed bs1 h bs2 sz align b h1 rest h1' :
  coalesced (bs1 ++ h :: bs2) → is_free h = true → carve sz align b h h1 rest →
  BlockHeader.size h1' = BlockHeader.size h1 → is_free h1' = true →
  abs_block <$> freed bs1 h1' (rest ++ bs2) = abs_block <$> bs1 ++ h :: bs2.
Proof.
  intros Co Hf K Ez Hf1. apply coalesced_app in Co as (_ & Co & Cl).
  apply coalesced_cons in Co as [Cr _]. rewrite Hf in Cr. simpl in Cr.
  assert (last_free bs1 = false) as Hl.
  { unfold head_free in Cl. simpl in Cl. rewrite Hf, andb_true_r in Cl. done. }
  assert (∃ k, merge_next h1' (rest ++ bs2) = (k, bs2) ∧ abs_block k = abs_block h) as (k & Em & Ek).
  { destruct K as (_ & _ & K). destruct (_ <=? _).
    - destruct K as (h2 & -> & F2 & Z1 & Z2). exists (merged h1' h2). simpl. rewrite F2. split; [done|].
      unfold abs_block. rewrite is_free_merged, Hf1, Hf. f_equal. simpl.
      unfold total, HEADER_SIZE in *. lia.
    - destruct K as [-> Z1]. exists h1'. simpl. split.
      + destruct bs2 as [|g r]; [done|]. unfold head_free in Cr. simpl in Cr. simpl. by rewrite Cr.
      + unfold abs_block. by rewrite Hf1, Hf, Ez, Z1. }
  unfold freed. rewrite Em, merge_prev_none by done. by rewrite !fmap_app, !fmap_cons, Ek.
Qed.

(** C31: Round trip.  When the chosen block needs no alignment padding (the
    returned pointer is right after the header), [dealloc] of the pointer that
    [alloc_aligned] returned succeeds and gives back the same blocks, sizes and
    flags, as before the allocation. *)
Theorem alloc_dealloc_roundtrip {P : Profile} N s bs sz align bs1 h bs2 :
  heap_inv s bs → counters_below N (self s) → N + 16 < 2 ^ 64 →
  frozen (self s) = false → 0 < sz → is_power_of_two align = true →
  HEADER_SIZE + align + Z.max sz FREE_BLOCK_SIZE ≤ 2 ^ 64 →
  heap_end (self s) + align + min_block_size ≤ 2 ^ 64 →
  first_fit (Z.max sz FREE_BLOCK_SIZE) align (heap_start (self s)) bs = Some (bs1, h, bs2) →
  (heap_start (self s) + span bs1 + HEADER_SIZE) mod align = 0 →
  ∃ p s1 s2 bs', alloc_aligned sz align s = Ret (Some p, s1)
    ∧ dealloc p s1 = Ret (Ok tt, s2) ∧ heap_inv s2 bs'
    ∧ abs s2 bs' = abs s bs.
Proof.
  intros I Hc HN Hfr Hsz Hal B1 B2 F Hm. change min_block_size with 64 in *.
  change FREE_BLOCK_SIZE with 16 in *. pose proof (is_power_of_two_pos _ Hal) as Ha.
  destruct (first_fit_Some _ _ _ _ _ _ _ F) as [Ebs Hfit].
  edestruct alloc_some as (s1 & h1 & rest & E & K & _ & Esp & I1 & _ & Hs & _);
    [exact I|exact Hc|..|exact F|]; try done; try (unfold HEADER_SIZE in *; lia).
  rewrite user_addr_of_aligned in E by done. destruct Hs as (Es & Ee & Ef & Hc1).
  assert (is_free h1 = false) as Hf1 by (destruct K as (K & _); unfold is_free; by rewrite K).
  cbn [app] in I1. destruct (dealloc_ok _ s1 bs1 h1 (rest ++ bs2) I1 Hc1 ltac:(lia))
    as (s2 & h1' & E2 & Hf' & Ez & I2 & _ & Hs2); [congruence|done|].
  rewrite Es in E2. do 4 eexists. split_and!; [exact E|exact E2|exact I2|].
  destruct Hs2 as (Es2 & _ & Ef2 & _). unfold abs. rewrite Es2, Es, Ef2, Ef. f_equal.
  rewrite Ebs. destruct I as [_ Co]. rewrite Ebs in Co. eapply carve_freed; try done.
  unfold block_fits in Hfit. b2p. done.
Qed.

Lemma alloc_dealloc_roundtrip_witness :
  ∃ p s1 s2 bs', alloc_aligned 24 16 heap4 = Ret (Some p, s1)
    ∧ dealloc p s1 = Ret (Ok tt, s2) ∧ heap_inv s2 bs' ∧ abs s2 bs' = abs heap4 blocks4.
Proof.
  apply (alloc_dealloc_roundtrip 20 heap4 blocks4 24 16 (take 1 blocks4) (blocks4 !!! 1%nat)
           (drop 2 blocks4) heap4_inv heap4_counters); by_eval.
Defined.

(** ** Which pointers can be freed *)

(** Every size is a multiple of eight. *)
Definition words (bs : list header) : Prop := Forall (λ h, BlockHeader.size h mod 8 = 0) bs.

Lemma words_span bs : words bs → span bs mod 8 = 0.
Proof.
  induction 1 as [|h bs H _ IH]; [done|]. rewrite span_cons. unfold total, HEADER_SIZE.
  rewrite Z.add_mod, IH, (Z.add_mod _ 48), H by done. done.
Qed.

Lemma carve_words sz b h h1 rest :
  (b + 48) mod 8 = 0 → sz mod 8 = 0 → BlockHeader.size h mod 8 = 0 →
  carve sz 8 b h h1 rest → words (h1 :: rest).
Proof.
  intros Hb Hsz Hh (_ & _ & K). rewrite user_addr_of_aligned in K by done. unfold HEADER_SIZE in K.
  replace (b + 48 - b + sz) with (48 + sz) in K by lia. destruct (_ <=? _).
  - destruct K as (h2 & -> & _ & Z1 & Z2). repeat constructor; rewrite ?Z1, ?Z2.
    + by replace (48 + sz - 48) with sz by lia.
    + rewrite Zminus_mod, (Z.add_mod 48), Hsz, Hh by done. done.
  - destruct K as [-> Z1]. repeat constructor. by rewrite Z1.
Qed.

(** On a heap that starts at a multiple of eight and is only ever asked for
    multiples of eight bytes, the pointer [alloc] returns is right after the
    header of its block, so [dealloc] finds the header, and the sizes stay
    multiples of eight. *)
Theorem word_sized_allocations_are_freeable {P : Profile} N s bs sz :
  heap_inv s bs → counters_below N (self s) → N + 8 < 2 ^ 64 → frozen (self s) = false →
  heap_start (self s) mod 8 = 0 → words bs → 0 < sz → sz mod 8 = 0 → sz < 2 ^ 63 →
  heap_end (self s) + 72 ≤ 2 ^ 64 →
  ∃ r s' bs', alloc sz s = Ret (r, s') ∧ heap_inv s' bs' ∧ words bs'
    ∧ same_heap (N + 4) s s'
    ∧ (∀ p, r = Some p → ∃ bs1 h bs2, bs' = bs1 ++ h :: bs2
         ∧ BlockHeader.status h = Allocated ∧ sz ≤ BlockHeader.size h
         ∧ p = heap_start (self s') + span bs1 + HEADER_SIZE).
Proof.
  intros I Hc HN Hfr Hst Hw Hsz Hm Hz He. unfold alloc, ALIGN_USIZE.
  destruct (first_fit (Z.max sz 16) 8 (heap_start (self s)) bs) as [[[bs1 h] bs2]|] eqn:F.
  2:{ edestruct alloc_none as (s' & E & I' & _ & _ & Hs); [exact I|exact Hc|..|exact F|];
        try done; try lia.
      exists None, s', bs. split_and!; done. }
  destruct (first_fit_Some _ _ _ _ _ _ _ F) as [Ebs Hfit].
  edestruct alloc_some as (s' & h1 & rest & E & K & _ & _ & I' & _ & Hs & _);
    [exact I|exact Hc|..|exact F|]; try done; try lia.
  unfold words in Hw. rewrite Ebs, Forall_app, Forall_cons in Hw. destruct Hw as (Hw1 & Hwh & Hw2).
  assert ((heap_start (self s) + span bs1 + 48) mod 8 = 0) as Hb.
  { rewrite (Z.add_mod _ 48), (Z.add_mod (heap_start (self s))), Hst, words_span by done. done. }
  assert (Z.max sz 16 mod 8 = 0) as Hmax by (destruct (Z.max_spec sz 16) as [[_ ->]|[_ ->]]; done).
  pose proof (carve_words _ _ _ _ _ Hb Hmax Hwh K) as Hwc.
  pose proof (carve_room _ _ _ _ _ _ (eq_refl : 0 < 8) Hfit K) as Hroom.
  rewrite user_addr_of_aligned in E, Hroom by done.
  do 3 eexists. split_and!; [exact E|exact I'| |done|].
  - unfold words. rewrite !Forall_app. done.
  - intros p [= <-]. exists bs1, h1, (rest ++ bs2). destruct K as (Ka & _), Hs as (-> & _).
    split_and!; [done|done| |done]. unfold total, HEADER_SIZE in *. lia.
Qed.

Lemma word_sized_allocations_are_freeable_witness :
  ∃ r s' bs', alloc 128 heap3 = Ret (r, s') ∧ heap_inv s' bs' ∧ words bs'.
Proof.
  destruct (word_sized_allocations_are_freeable 10 heap3 blocks3 128 heap3_inv heap3_counters)
    as (r & s' & bs' & E & I & W & _);
    [by_eval|by_eval|by_eval|repeat constructor; by_eval|by_eval..|].
  exists r, s', bs'. split; [exact E|]. split; [exact I|exact W].
Defined.

(** The header of a padded block is not found.  After [alloc(100)] the next
    block starts at an address that is not a multiple of eight, so [alloc(64)]
    pads; [dealloc] of that pointer, and of one from an over-aligned request,
    looks for the header 48 bytes before it and answers [CorruptedHeader]: the
    blocks stay allocated for good. *)
Theorem padded_pointers_cannot_be_freed :
  reply_of (run [OpAlloc 100; OpAlloc 64; OpDealloc 4296] heap0)
  = Some [RPtr (Some 4144); RPtr (Some 4296); RRes (Err CorruptedHeader)]
  ∧ reply_of (run [OpAllocAligned 64 4096; OpDealloc 8192]
      (match EarlyAllocator_new 4096 8192 (mkMachine ∅ 0) with
       | Ret (Ok al, ms) => mkAState al ms
       | _ => no_heap
       end))
    = Some [RPtr (Some 8192); RRes (Err CorruptedHeader)].
Proof. split; vm_compute; reflexivity. Qed.

(** C40: A free block is only used when it is 48 bytes larger than the request:
    [find_free_block] adds the header's offset to the request and compares with
    the size without the header.  So a freed block is never reused for a
    request of its own size. *)
Theorem free_blocks_need_header_slack {P : Profile} N s bs sz align p s' :
  heap_inv s bs → counters_below N (self s) → N + 8 < 2 ^ 64 →
  HEADER_SIZE + align + Z.max sz FREE_BLOCK_SIZE ≤ 2 ^ 64 →
  heap_end (self s) + align + min_block_size ≤ 2 ^ 64 → 0 ≤ sz →
  alloc_aligned sz align s = Ret (Some p, s') →
  ∃ bs1 h bs2, bs = bs1 ++ h :: bs2 ∧ is_free h = true ∧ sz + HEADER_SIZE ≤ BlockHeader.size h
    ∧ heap_start (self s) + span bs1 + HEADER_SIZE ≤ p < heap_start (self s) + span bs1 + total h.
Proof.
  intros I Hc HN B1 B2 Hsz E. change min_block_size with 64 in *. change FREE_BLOCK_SIZE with 16 in *.
  destruct (frozen (self s) || (sz =? 0) || negb (is_power_of_two align)) eqn:G.
  { destruct (alloc_refused N s bs sz align I Hc ltac:(lia) G) as (? & E' & _). congruence. }
  b2p. destruct (first_fit (Z.max sz 16) align (heap_start (self s)) bs) as [[[bs1 h] bs2]|] eqn:F.
  2:{ edestruct alloc_none as (? & E' & _); [exact I|exact Hc|..|exact F|];
        try done; try (unfold HEADER_SIZE in *; lia). congruence. }
  edestruct alloc_some as (? & ? & ? & E' & _); [exact I|exact Hc|..|exact F|];
    try done; try (unfold HEADER_SIZE in *; lia).
  rewrite E in E'. injection E' as -> ->. destruct (first_fit_Some _ _ _ _ _ _ _ F) as [-> Hfit].
  assert (0 < align) as Ha by (by apply is_power_of_two_pos).
  destruct (user_addr_of_spec (heap_start (self s) + span bs1) align Ha) as [Hua _].
  unfold block_fits in Hfit. b2p. exists bs1, h, bs2. unfold total, HEADER_SIZE in *.
  split_and!; [done|done|lia..].
Qed.

Lemma free_blocks_need_header_slack_witness :
  ∃ bs1 h bs2, blocks4 = bs1 ++ h :: bs2 ∧ is_free h = true ∧ 128 + HEADER_SIZE ≤ BlockHeader.size h
    ∧ 4096 + span bs1 + HEADER_SIZE ≤ 4512 < 4096 + span bs1 + total h.
Proof.
  exact (free_blocks_need_header_slack 20 heap4 blocks4 128 8 4512
           (state_of (alloc_aligned 128 8 heap4)) heap4_inv heap4_counters
           ltac:(by_eval) ltac:(by_eval) ltac:(by_eval) ltac:(by_eval) ltac:(by_eval)).
Defined.
