(* ===== verification/Requests.v ===== *)
(** * What the sizes of requests do to the heap

    [alloc_aligned] of [src/init/alloc/allocator.rs] takes any size.  Sizes that are
    whole words keep every header and free-list node of the heap aligned, whatever
    the sequence of calls; a size that is not puts the header behind it at an
    address where Rust does not allow it to be accessed.  Sizes close to [2^64]
    overflow the addition in [find_free_block]: a panic or a corrupted heap, by the
    build profile. *)

From Stdlib Require Import ZArith Lia.
From stdpp Require Import base option numbers sorting gmap list.
From S2P Require Import Prelude Memory Purpose Metadata HeaderSpec Allocator FreeList HeapInv AllocSteps AllocSpec DeallocSpec AllocOps AllocRefine AllocClient Examples AllocThms.

(** ** Header addresses *)

Fixpoint headers (a : Z) (bs : list header) : list Z :=
  match bs with [] => [] | h :: r => a :: headers (a + total h) r end.

Fixpoint a_headers (a : Z) (bs : list ablock) : list Z :=
  match bs with [] => [] | b :: r => a :: a_headers (a + a_total b) r end.

(** [#[repr(C)]] structures with 64-bit fields are accessed at multiples of
    eight. *)
Definition aligned (l : list Z) : Prop := Forall (λ x, x mod 8 = 0) l.

Lemma a_headers_abs a bs : a_headers a (abs_block <$> bs) = headers a bs.
Proof. revert a. induction bs as [|h bs IH]; intros a; [done|]. csimpl. by rewrite a_total_abs, IH. Qed.

Lemma a_headers_app a b1 b2 : a_headers a (b1 ++ b2) = a_headers a b1 ++ a_headers (a + a_span b1) b2.
Proof.
  revert a. induction b1 as [|b b1 IH]; intros a; cbn [app a_headers a_span]; [by rewrite Z.add_0_r|].
  by rewrite IH, Z.add_assoc.
Qed.

Lemma a_find_split f addr bs b1 h b2 : a_find f addr bs = Some (b1, h, b2) → bs = b1 ++ h :: b2.
Proof.
  revert addr b1. induction bs as [|b bs IH]; intros addr b1; [done|]. cbn [a_find].
  destruct (f addr b); [by intros [= <- <- <-]|].
  destruct (a_find f (addr + a_total b) bs) as [[[c1 g] c2]|] eqn:E; [|done].
  intros [= <- <- <-]. by rewrite (IH _ _ E).
Qed.

(** A node lies 48 bytes behind its header, so that it is aligned when the header
    is. *)
Lemma aligned_node x : (x + HEADER_SIZE) mod 8 = x mod 8.
Proof. unfold HEADER_SIZE. rewrite Z.add_mod by done. by rewrite Z.add_0_r, Z.mod_mod. Qed.

(** An aligned header and a power of two: the user data is aligned too. *)
Lemma aligned_user x align :
  x mod 8 = 0 → is_power_of_two align = true → user_addr_of x align mod 8 = 0.
Proof.
  intros Hx (k & Hk & ->)%is_power_of_two_spec.
  assert (0 < 2 ^ k) as Hp by (by apply Z.pow_pos_nonneg).
  destruct (decide (k < 3)) as [Hlt|Hge].
  - rewrite user_addr_of_aligned, aligned_node; [done|done|].
    apply Z.mod_divide; [lia|]. apply (Z.divide_trans _ 8).
    + exists (2 ^ (3 - k)). change 8 with (2 ^ 3). rewrite <-Z.pow_add_r by lia. f_equal. lia.
    + apply Z.mod_divide; [done|]. by rewrite aligned_node.
  - destruct (user_addr_of_spec x (2 ^ k) Hp) as [_ Hm]. apply Z.mod_divide in Hm; [|lia].
    apply Z.mod_divide; [done|]. apply (Z.divide_trans _ (2 ^ k)); [|done].
    exists (2 ^ (k - 3)). change 8 with (2 ^ 3) at 1. rewrite <-Z.pow_add_r by lia. f_equal. lia.
Qed.

(** ** Whole-word requests *)

Definition word_size (sz : Z) : bool := Z.max sz FREE_BLOCK_SIZE mod 8 =? 0.
Definition word_op (o : op) : bool :=
  match o with OpAlloc sz | OpAllocAligned sz _ => word_size sz | _ => true end.

Definition a_aligned (a : astate) : Prop := aligned (a_headers (a_start a) (a_blocks a)).

Lemma a_aligned_at a b1 h b2 :
  a_blocks a = b1 ++ h :: b2 → a_aligned a → (a_start a + a_span b1) mod 8 = 0.
Proof.
  unfold a_aligned, aligned. intros -> H. rewrite a_headers_app, Forall_app in H. cbn [a_headers] in H.
  rewrite Forall_cons in H. tauto.
Qed.

(** Replacing a block by blocks of the same length, all at aligned addresses. *)
Lemma a_aligned_replace a b1 h b2 mid :
  a_blocks a = b1 ++ h :: b2 → a_aligned a → a_span mid = a_total h →
  aligned (a_headers (a_start a + a_span b1) mid) → a_aligned (with_blocks a (b1 ++ mid ++ b2)).
Proof.
  unfold a_aligned, aligned. intros -> H Es Hm. cbn [with_blocks a_blocks a_start].
  rewrite !a_headers_app, !Forall_app in *. cbn [a_headers] in H. rewrite Forall_cons in H.
  rewrite Es. tauto.
Qed.

Lemma a_alloc_aligned sz align a :
  a_aligned a → word_size sz = true → a_aligned (a_alloc sz align a).2.
Proof.
  intros Ha Hw%Z.eqb_eq. unfold a_alloc.
  destruct (is_power_of_two align) eqn:Hal; [|by rewrite orb_true_r].
  destruct (_ || _); [done|]. cbv zeta.
  destruct (a_find _ _ _) as [[[b1 h] b2]|] eqn:F; [|done]. apply a_find_split in F. cbn [snd].
  pose proof (a_aligned_at _ _ _ _ F Ha) as Hb. apply (a_aligned_replace _ _ h); [done|done| |].
  - destruct (_ <=? _); cbn [a_span]; unfold a_total, HEADER_SIZE; cbn [ab_size]; lia.
  - set (b := a_start a + a_span b1) in *. pose proof (aligned_user b align Hb Hal) as Hu.
    destruct (_ <=? _); [|by repeat constructor]. apply Forall_cons. split; [done|]. cbn [a_headers].
    apply Forall_cons. split; [|constructor]. unfold a_total, HEADER_SIZE. cbn [ab_size].
    replace (b + (user_addr_of b align - b + Z.max sz FREE_BLOCK_SIZE - 48 + 48))
      with (user_addr_of b align + Z.max sz FREE_BLOCK_SIZE) by lia.
    by rewrite Z.add_mod, Hu, Hw by done.
Qed.

Lemma a_headers_merged a h g r : a_headers a (a_merged h g :: r) = a :: a_headers (a + a_total h + a_total g) r.
Proof. cbn [a_headers]. f_equal. f_equal. unfold a_merged, a_total. cbn [ab_size]. unfold a_total. lia. Qed.

(** Freeing only makes headers disappear. *)
Lemma a_freed_aligned a b1 h b2 :
  aligned (a_headers a (b1 ++ h :: b2)) → aligned (a_headers a (a_freed b1 h b2)).
Proof.
  unfold aligned. intros H. unfold a_freed.
  assert (Forall (λ x, x mod 8 = 0)
    (a_headers a (b1 ++ (a_merge_next (mkAB (ab_size h) false) b2).1 :: (a_merge_next (mkAB (ab_size h) false) b2).2)))
    as H'.
  { destruct b2 as [|g r]; cbn [a_merge_next]; [by rewrite a_headers_app in *|].
    destruct (ab_used g); cbn [fst snd]; [by rewrite a_headers_app in *|].
    rewrite a_headers_app, Forall_app in *. rewrite a_headers_merged. cbn [a_headers] in H.
    rewrite !Forall_cons in *. tauto. }
  destruct (a_merge_next _ _) as [h' r]. cbn [fst snd] in H'. clear H. revert a H'.
  induction b1 as [|k b1 IH]; intros a H; [done|]. cbn [app a_headers] in H.
  apply Forall_cons in H as [Hk H]. destruct b1 as [|k' b1].
  - cbn [a_merge_prev]. destruct (ab_used k); [by apply Forall_cons|].
    rewrite a_headers_merged. cbn [app a_headers] in H. apply Forall_cons in H as [_ H]. by apply Forall_cons.
  - apply Forall_cons. split; [done|]. by apply IH.
Qed.

Lemma aexec_aligned o a : a_aligned a → word_op o = true → a_aligned (aexec o a).2.
Proof.
  intros Ha Hw. destruct o as [sz|sz align|p|p pu| |]; cbn [aexec word_op] in *; try done.
  - pose proof (a_alloc_aligned sz ALIGN_USIZE a Ha Hw). by destruct (a_alloc _ _ _).
  - pose proof (a_alloc_aligned sz align a Ha Hw). by destruct (a_alloc _ _ _).
  - unfold a_dealloc. destruct (a_frozen a); [done|]. destruct (_ || _); [done|].
    destruct (a_at p a) as [[[b1 h] b2]|] eqn:F; [|done]. destruct (ab_used h); [|done].
    apply a_find_split in F. cbn [snd]. unfold a_aligned in *. rewrite F in Ha. by apply a_freed_aligned.
Qed.

Lemma arun_aligned os a : a_aligned a → forallb word_op os = true → a_aligned (arun os a).2.
Proof.
  revert a. induction os as [|o os IH]; intros a Ha Hw; [done|]. cbn [forallb arun] in *. b2p.
  pose proof (aexec_aligned o a Ha H) as Ha1. destruct (aexec o a) as [x a1].
  specialize (IH a1 Ha1 H0). by destruct (arun os a1).
Qed.

(** A heap whose headers are aligned, and one with a header that is not. *)
Definition headers_aligned (s : AState) (bs : list header) : Prop := aligned (headers (heap_start (self s)) bs).

Lemma headers_app a bs1 bs2 : headers a (bs1 ++ bs2) = headers a bs1 ++ headers (a + span bs1) bs2.
Proof.
  revert a. induction bs1 as [|h bs1 IH]; intros a; [by cbn; rewrite Z.add_0_r|].
  cbn [app headers]. by rewrite IH, span_cons, Z.add_assoc.
Qed.

(** C7: Whole-word requests keep all headers, and so the free-list nodes behind
    them, at multiples of eight, where their 64-bit fields may be accessed: from
    [EarlyAllocator::new] on a word-aligned heap, after any sequence of calls whose
    sizes are (rounded up to the minimum of 16) multiples of eight, whatever their
    alignments.  A request for another size does not: on any such heap whose free
    blocks are all large enough to be split, [alloc_aligned] of it leaves the
    header of the rest at an address that is not a multiple of eight. *)
Theorem word_requests_keep_headers_aligned {P : Profile} :
  (∀ start sz ms os,
     0 < start → start mod 8 = 0 → min_heap_size ≤ sz → start + sz < 2 ^ 64 → in_u64 (clock ms) →
     legal_run (mkA start [mkAB (sz - HEADER_SIZE) false] false) os = true →
     4 * Z.of_nat (length os) + 16 < 2 ^ 64 → forallb word_op os = true →
     ∃ al ms' rs s' bs, EarlyAllocator_new start sz ms = Ret (Ok al, ms')
       ∧ run os (mkAState al ms') = Ret (rs, s') ∧ heap_inv s' bs ∧ headers_aligned s' bs)
  ∧ (∀ N s bs sz align p s',
     heap_inv s bs → counters_below N (self s) → N + 4 < 2 ^ 64 → headers_aligned s bs →
     FREE_BLOCK_SIZE ≤ sz → sz mod 8 ≠ 0 → HEADER_SIZE + align + sz ≤ 2 ^ 64 →
     heap_end (self s) + align + min_block_size ≤ 2 ^ 64 →
     (∀ h, h ∈ bs → is_free h = true → sz + HEADER_SIZE + align + min_block_size ≤ BlockHeader.size h) →
     alloc_aligned sz align s = Ret (Some p, s') →
     ∃ bs', heap_inv s' bs' ∧ ∃ x, x ∈ headers (heap_start (self s')) bs' ∧ x mod 8 ≠ 0).
Proof.
  split.
  - intros start sz ms os Hs Hs8 Hz Hb Hc L Hn Hw. set (a := mkA start _ _) in *.
    destruct (new_ok start sz ms Hs Hz Hb Hc)
      as (al & ms' & h & E & I & Hf & Et & Es & Ee & Efr & _ & Hcb & _).
    assert (refines 1 (mkAState al ms') a) as R.
    { exists [h]. split_and!; [done|done|]. unfold abs, a. cbn [self]. rewrite Es, Efr.
      csimpl. unfold abs_block. rewrite Hf. unfold total in Et. do 3 f_equal. lia. }
    destruct (run_simulation os 1 _ a R L) as (s' & Er & bs & I' & _ & Ea); [lia|].
    exists al, ms', (arun os a).1, s', bs. split_and!; [done|done|done|].
    assert (a_aligned (arun os a).2) as Hal by (apply arun_aligned; [by repeat constructor|done]).
    rewrite <-Ea in Hal. unfold a_aligned, abs in Hal. cbn [a_start a_blocks] in Hal.
    by rewrite a_headers_abs in Hal.
  - intros N s bs sz align p s' I Hc HN Hal Hsz Hm B1 B2 Hroom E.
    change min_block_size with 64 in *. change FREE_BLOCK_SIZE with 16 in *. unfold HEADER_SIZE in *.
    destruct (frozen (self s) || (sz =? 0) || negb (is_power_of_two align)) eqn:G.
    { destruct (alloc_refused N s bs sz align I Hc HN G) as (? & E' & _). congruence. }
    b2p. assert (Z.max sz 16 = sz) as Emax by lia.
    destruct (first_fit (Z.max sz 16) align (heap_start (self s)) bs) as [[[bs1 h] bs2]|] eqn:F.
    2:{ edestruct alloc_none as (? & E' & _); [exact I|exact Hc|..|exact F|]; try done; try lia. congruence. }
    destruct (first_fit_Some _ _ _ _ _ _ _ F) as [Ebs Hfit].
    assert (is_free h = true) as Hf by (unfold block_fits in Hfit; b2p; done).
    edestruct alloc_some as (s1 & h1 & rest & E' & (_ & _ & K) & _ & Esp & I' & _ & (Es & _) & _);
      [exact I|exact Hc|..|exact F|]; try done; try lia.
    rewrite E in E'. injection E' as -> ->. eexists. split; [exact I'|]. rewrite Es.
    assert (h ∈ bs) as Hin by (rewrite Ebs; elem).
    specialize (Hroom h Hin Hf). set (b := heap_start (self s) + span bs1) in *.
    assert (b mod 8 = 0) as Hb.
    { unfold headers_aligned, aligned in Hal. rewrite Ebs, headers_app, Forall_app in Hal.
      cbn [headers] in Hal. rewrite Forall_cons in Hal. tauto. }
    assert (is_power_of_two align = true) as Hpow by done.
    pose proof (user_addr_of_spec b align (is_power_of_two_pos _ Hpow)) as [Hu _]. unfold HEADER_SIZE in Hu.
    pose proof (aligned_user b align Hb Hpow) as Hu8. rewrite Emax in K. change min_block_size with 64 in K.
    rewrite (proj2 (Z.leb_le _ _)) in K by lia. destruct K as (h2 & -> & _ & Z1 & _).
    exists (user_addr_of b align + sz). split.
    + rewrite !headers_app. fold b. cbn [app headers]. apply elem_of_app. right. apply elem_of_cons. right.
      unfold total, HEADER_SIZE in *. rewrite Z1.
      apply elem_of_cons. left. lia.
    + rewrite Z.add_mod, Hu8 by done. by rewrite Z.add_0_l, Z.mod_mod.
Qed.

(** Three words requested on the heap of 1 KiB; and 17 bytes. *)
Lemma word_requests_keep_headers_aligned_witness :
  (∃ al ms' rs s' bs, EarlyAllocator_new 4096 1024 (mkMachine ∅ 0) = Ret (Ok al, ms')
     ∧ run session (mkAState al ms') = Ret (rs, s') ∧ heap_inv s' bs ∧ headers_aligned s' bs)
  ∧ ∃ bs', heap_inv (state_of (alloc_aligned 17 8 heap0)) bs'
      ∧ ∃ x, x ∈ headers (heap_start (self (state_of (alloc_aligned 17 8 heap0)))) bs' ∧ x mod 8 ≠ 0.
Proof.
  destruct (word_requests_keep_headers_aligned (P := Dev)) as [H1 H2]. split.
  - apply (H1 4096 1024 (mkMachine ∅ 0) session); [by_eval|by_eval|by_eval|by_eval|vm_compute; split; [discriminate|reflexivity]|by_eval..].
  - apply (H2 1 heap0 blocks0 17 8 4144 (state_of (alloc_aligned 17 8 heap0)));
      [exact heap0_inv|exact heap0_counters|by_eval|repeat constructor; by_eval|by_eval|by_eval|by_eval|by_eval| |by_eval].
    intros h Hh%list_elem_of_singleton _. subst. by_eval.
Defined.

(** ** Sizes close to [2^64] *)

(** The first node of the free list is that of the first free block. *)
Lemma first_free_head s bs1 h bs2 :
  heap_wf s (bs1 ++ h :: bs2) → Forall (λ g, is_free g = false) bs1 → is_free h = true →
  free_list_head (self s) = heap_start (self s) + span bs1 + HEADER_SIZE.
Proof.
  intros W Hu Hf. rewrite (wf_head _ _ W), free_nodes_app. cbn [free_nodes]. rewrite Hf.
  assert (∀ a, free_nodes a bs1 = []) as ->; [|done].
  clear W. induction Hu as [|g bs1 Hg _ IH]; intros a; [done|]. cbn [free_nodes]. rewrite Hg. apply IH.
Qed.

(** The first round of [find_free_loop] up to the addition of the size. *)
Lemma find_free_first {P : Profile} s bs1 h bs2 sz align :
  heap_wf s (bs1 ++ h :: bs2) → Forall (λ g, is_free g = false) bs1 → is_free h = true →
  is_power_of_two align = true → heap_end (self s) + align + min_block_size ≤ 2 ^ 64 →
  let b := heap_start (self s) + span bs1 in
  ∃ k, find_free_block sz align s
  = (required_space ← usize_add (user_addr_of b align - b) sz;
     if required_space <=? BlockHeader.size h then mret (Some (b, user_addr_of b align)) else k) s.
Proof.
  intros W Hu Hf Hal Hb b. pose proof (first_free_head _ _ _ _ W Hu Hf) as Eh. fold b in Eh.
  pose proof (heap_wf_split _ _ _ _ W) as (Hh & Hok & _ & _ & Hpos & He & _ & Hs2). fold b in Hh, Hpos, He.
  pose proof (wf_bound _ _ W). pose proof (blk_total _ Hok). change min_block_size with 64 in *.
  pose proof (user_addr_of_spec b align (is_power_of_two_pos _ Hal)) as [Hua _]. unfold total, HEADER_SIZE in *.
  eexists (next ← hw (rd_next (b + 48));
           find_free_loop (S (Z.to_nat ((heap_end (self s) - heap_start (self s)) / 48))) next sz align).
  unfold find_free_block. mstep. unfold walk_fuel. cbn [find_free_loop]. rewrite Eh.
  rewrite (proj2 (Z.eqb_neq _ 0)) by lia.
  mstep_with ltac:(apply get_header_ok; lia). replace (b + 48 - 48) with b by lia.
  mstep_with ltac:(apply hw_read, rd_size_spec; exact Hh).
  mstep_with ltac:(apply calculate_aligned_addr_spec; [lia|done|unfold HEADER_SIZE; lia]).
  mstep_arith. reflexivity.
Qed.

(** C8: A request so large that adding the offset of the user data overflows is not
    refused.  With overflow checks [alloc_aligned] panics on every heap with a free
    block.  Without them the sum wraps around, [find_free_block] compares the
    remainder and hands out the first free block, however small; on a fresh heap of
    1 KiB, [alloc] of [2^64 - 40] bytes then returns a pointer, having cut the
    block inside its own header: the heap fails its integrity check. *)
Theorem oversized_requests_not_refused s bs1 h bs2 sz align :
  heap_inv s (bs1 ++ h :: bs2) → Forall (λ g, is_free g = false) bs1 → is_free h = true →
  frozen (self s) = false → is_power_of_two align = true →
  heap_end (self s) + align + min_block_size ≤ 2 ^ 64 →
  let b := heap_start (self s) + span bs1 in
  let required := user_addr_of b align - b + sz in
  FREE_BLOCK_SIZE ≤ sz < 2 ^ 64 → 2 ^ 64 ≤ required →
  @alloc_aligned Dev sz align s = Panic
  ∧ (required - 2 ^ 64 ≤ BlockHeader.size h →
     @find_free_block Release sz align s = Ret (Some (b, user_addr_of b align), s))
  ∧ (let r := @alloc Release (2 ^ 64 - 40) heap0 in
     reply_of r = Some (Some 4144)
     ∧ @integrity_check Release (state_of r) = Ret (Err CorruptedHeader, state_of r)).
Proof.
  intros [W _] Hu Hf Hfr Hal Hb b required Hsz Hov. change FREE_BLOCK_SIZE with 16 in *.
  split_and!; [| |split; vm_compute; reflexivity].
  - destruct (@find_free_first Dev s bs1 h bs2 sz align W Hu Hf Hal Hb) as [k E]. fold b in E.
    unfold alloc_aligned. mstep. rewrite Hfr, Hal, (proj2 (Z.eqb_neq sz 0)) by lia. cbn [orb negb].
    change (Z.max sz FREE_BLOCK_SIZE) with (Z.max sz 16). rewrite Z.max_l by lia.
    unfold mbind at 1, M_bind at 1. rewrite E. unfold usize_add, arith, mbind, M_bind. fold required.
    rewrite (proj2 (Z.ltb_ge required _)) by lia. by rewrite andb_false_r.
  - intros Hle. destruct (@find_free_first Release s bs1 h bs2 sz align W Hu Hf Hal Hb) as [k ->]. fold b.
    pose proof (user_addr_of_spec b align (is_power_of_two_pos _ Hal)) as [Hua _].
    pose proof (heap_wf_split _ _ _ _ W) as (_ & _ & _ & _ & Hpos & He & _ & Hs2). fold b in Hpos, He.
    pose proof (wf_bound _ _ W). change min_block_size with 64 in *. unfold total, HEADER_SIZE in *.
    pose proof (heap_wf_split _ _ _ _ W) as (_ & [_ Hbig] & _).
    unfold usize_add, arith, mbind, M_bind. fold required.
    rewrite (proj2 (Z.ltb_ge required _)), andb_false_r by lia. cbn [build_profile].
    assert (required mod 2 ^ 64 = required - 2 ^ 64) as ->.
    { symmetry. apply (Z.mod_unique _ _ 1); [left; unfold required; lia|lia]. }
    cbn [mret M_ret]. by rewrite (proj2 (Z.leb_le _ _)).
Qed.

Lemma oversized_requests_not_refused_witness :
  @alloc_aligned Dev (2 ^ 64 - 40) 8 heap0 = Panic
  ∧ @find_free_block Release (2 ^ 64 - 40) 8 heap0 = Ret (Some (4096, 4144), heap0).
Proof.
  destruct (oversized_requests_not_refused heap0 [] (blocks0 !!! 0%nat) [] (2 ^ 64 - 40) 8 heap0_inv)
    as (H1 & H2 & _); [constructor|by_eval|by_eval|by_eval|by_eval|split; by_eval|by_eval|].
  split; [exact H1|]. apply H2. by_eval.
Defined.
