(* ===== verification/Validation.v ===== *)
(** * What the checks on the heap detect

    The header checksum against corrupted words, the termination of the heap
    walks on arbitrary memory, and the agreement of the two validators of the
    code: [EarlyAllocator::integrity_check] ([allocator.rs]) and
    [BlockValidator::validate_heap] ([metadata.rs]). *)

From Stdlib Require Import ZArith Lia.
From stdpp Require Import base option numbers sorting gmap list.
From S2P Require Import Prelude Memory Purpose Metadata HeaderSpec Allocator FreeList HeapInv Examples.

(** ** The checksum *)

Lemma load8_words m a :
  load 8 m a = load 4 m a + 2 ^ 32 * load 4 m (a + 4).
Proof. apply (load_app 4 4). Qed.

(** The 32-bit words and the two enum bytes that enter the checksum. *)
Definition header_words (m : memory) (a : Z) : list Z :=
  [load 4 m a; load 4 m (a + 4); load 1 m (a + 8); load 4 m (a + 12); load 4 m (a + 16);
   load 4 m (a + 20); load 1 m (a + 24); load 4 m (a + 32); load 4 m (a + 36)].

Lemma load4_range m a : 0 ≤ load 4 m a < 2 ^ 32.
Proof. apply (load_range 4). Qed.

Lemma wrap32_words m a :
  wrap32 (load 8 m a) = load 4 m a ∧ wrap32 (Z.shiftr (load 8 m a) 32) = load 4 m (a + 4).
Proof.
  rewrite load8_words. pose proof (load4_range m a). pose proof (load4_range m (a + 4)).
  unfold wrap32. rewrite Z.shiftr_div_pow2 by lia. split.
  - rewrite Z.mul_comm, Z_mod_plus_full. by apply Z.mod_small.
  - rewrite Z.mul_comm, Z.div_add by lia. rewrite (Z.div_small (load 4 m a)) by lia.
    by apply Z.mod_small.
Qed.

(** Wrapping after every addition is wrapping once. *)
Lemma wrapping_sum l c :
  foldl (λ c w, wrap32 (c + w)) c l mod 2 ^ 32 = foldl Z.add c l mod 2 ^ 32.
Proof.
  revert c. induction l as [|w l IH]; intros c; [done|]. cbn [foldl]. rewrite IH. clear IH.
  assert (∀ l x y, x mod 2 ^ 32 = y mod 2 ^ 32 → foldl Z.add x l mod 2 ^ 32 = foldl Z.add y l mod 2 ^ 32) as E.
  { clear. induction l as [|w l IH]; intros x y E; [done|]. apply IH.
    by rewrite <- (Zplus_mod_idemp_l x), E, Zplus_mod_idemp_l. }
  apply E. by apply Z.mod_mod.
Qed.

(** The checksum is the sum of the words, modulo [2^32]. *)
Lemma checksum_of_words m a h :
  hdr_at m a h →
  BlockHeader.calculate_checksum h = foldl Z.add 0 (header_words m a) mod 2 ^ 32.
Proof.
  intros H. pose proof (calculate_checksum_range h) as R.
  rewrite <- (Z.mod_small (BlockHeader.calculate_checksum h) (2 ^ 32)) by exact R. clear R.
  unfold header_words. cbn [foldl]. rewrite Z.add_0_l.
  etransitivity; [|exact (wrapping_sum (tail (header_words m a)) (load 4 m a))].
  unfold BlockHeader.calculate_checksum, header_words. cbn [foldl tail].
  rewrite <- (at_size _ _ _ H), <- (at_status _ _ _ H), <- (at_magic _ _ _ H), <- (at_alloc_id _ _ _ H),
    <- (at_purpose _ _ _ H), <- (at_timestamp _ _ _ H). unfold_offsets.
  destruct (wrap32_words m a) as [-> ->].
  destruct (wrap32_words m (a + 16)) as [-> ->]. destruct (wrap32_words m (a + 32)) as [-> ->].
  rewrite <- !Z.add_assoc. done.
Qed.

Lemma validate_words m a h :
  hdr_at m a h → BlockHeader.validate h = true →
  load 4 m (a + 40) = foldl Z.add 0 (header_words m a) mod 2 ^ 32.
Proof.
  intros H. unfold BlockHeader.validate. destruct (negb _); [done|]. destruct (negb _) eqn:E; [done|].
  b2p. intros _. rewrite <- (checksum_of_words _ _ _ H), <- E. apply (at_checksum _ _ _ H).
Qed.

(** An accepted header is read from memory and validates. *)
Lemma validate_at_true a ms t :
  validate_at a ms = Ret (true, t) → t = ms ∧ ∃ h, hdr_at (mem ms) a h ∧ BlockHeader.validate h = true.
Proof.
  unfold validate_at. intros V. apply bind_inv in V as (mg & t2 & V1 & V). injection V1 as <- <-.
  destruct (negb _); [done|]. apply bind_inv in V as (h & t3 & V2 & V). injection V as Vh <-.
  pose proof (read_header_inv _ _ _ _ V2) as Hh.
  rewrite (read_header_spec _ _ _ Hh) in V2. injection V2 as <-. split; [done|]. by exists h.
Qed.

(** A sum modulo [2^32] determines each of its terms. *)
Lemma sum_term_inj c x y : 0 ≤ x < 2 ^ 32 → 0 ≤ y < 2 ^ 32 → (c + x) mod 2 ^ 32 = (c + y) mod 2 ^ 32 → x = y.
Proof. intros Hx Hy E. Z.to_euclidean_division_equations. lia. Qed.

Lemma foldl_add_acc l c x : foldl Z.add (c + x) l = foldl Z.add c l + x.
Proof.
  revert c. induction l as [|w l IH]; intros c; [done|]. cbn [foldl].
  rewrite <- IH. f_equal. lia.
Qed.

Lemma sum_determines (l l' : list Z) i c :
  length l = length l' → Forall in_u32 l → Forall in_u32 l' → (∀ j, j ≠ i → l !! j = l' !! j) →
  foldl Z.add c l mod 2 ^ 32 = foldl Z.add c l' mod 2 ^ 32 → l = l'.
Proof.
  revert l' i c. induction l as [|x l IH]; intros [|x' l'] i c Hlen F F' Hj E; try done.
  injection Hlen as Hlen. inversion_clear F as [|? ? Hx Fl]. inversion_clear F' as [|? ? Hx' Fl'].
  cbn [foldl] in E. destruct i as [|i].
  - assert (l = l') as -> by (apply list_eq; intros j; exact (Hj (S j) ltac:(done))).
    rewrite !foldl_add_acc in E. f_equal. by eapply sum_term_inj.
  - pose proof (Hj O ltac:(done)) as [= ->]. f_equal. apply (IH l' i (c + x')); try done.
    intros j Hne. exact (Hj (S j) ltac:(congruence)).
Qed.

Lemma header_words_range m a : Forall in_u32 (header_words m a).
Proof.
  assert (∀ n x, (n ≤ 4)%nat → in_u32 (load n m x)) as R.
  { intros n x Hn. unfold in_u32. pose proof (load_range n m x).
    assert (256 ^ Z.of_nat n ≤ 256 ^ 4) by (apply Z.pow_le_mono_r; lia). lia. }
  unfold header_words. repeat constructor; apply R; lia.
Qed.

(** The position in [header_words] of the aligned word [k]; 9 when it holds only
    padding or the checksum. *)
Definition word_index (k : Z) : nat :=
  if k <? 7 then Z.to_nat k else if (k =? 8) || (k =? 9) then Z.to_nat (k - 1) else 9.

Lemma header_words_agree m m' a k j :
  0 ≤ k < 12 → only m m' (a + 4 * k) (a + 4 * k + 4) → j ≠ word_index k →
  header_words m' a !! j = header_words m a !! j.
Proof.
  intros Hk Ho Hj.
  assert (∀ n off, off + Z.of_nat n ≤ 4 * k ∨ 4 * k + 4 ≤ off → load n m' (a + off) = load n m (a + off)) as L.
  { intros n off Hoff. symmetry. apply load_agree. intros x Hx. symmetry. apply Ho. lia. }
  pose proof (L 4%nat 0) as L0. rewrite Z.add_0_r in L0.
  unfold word_index in Hj.
  do 9 (destruct j as [|j]; [cbn; f_equal; (apply L || apply L0);
    destruct (k <? 7) eqn:?; destruct ((k =? 8) || (k =? 9)) eqn:?; lia|]).
  done.
Qed.

(** Two memories that hold headers which validate, and that agree on all but one
    of the aligned words, hold the same fields. *)
Lemma one_word_apart m m' a h h' k :
  hdr_at m a h → BlockHeader.validate h = true → hdr_at m' a h' → BlockHeader.validate h' = true →
  0 ≤ k < 12 → only m m' (a + 4 * k) (a + 4 * k + 4) →
  header_words m' a = header_words m a ∧ load 4 m' (a + 40) = load 4 m (a + 40).
Proof.
  intros H V H' V' Hk Ho.
  pose proof (validate_words _ _ _ H V) as C. pose proof (validate_words _ _ _ H' V') as C'.
  destruct (decide (k = 10)) as [->|Hne].
  - assert (header_words m' a = header_words m a) as E; [|by rewrite C, C', E].
    apply list_eq. intros j. destruct (decide (j = 9%nat)) as [->|]; [done|].
    by apply (header_words_agree m m' a 10).
  - assert (load 4 m' (a + 40) = load 4 m (a + 40)) as E.
    { symmetry. apply load_agree. intros x Hx. symmetry. apply Ho. lia. }
    split; [|done]. apply (sum_determines _ _ (word_index k) 0); try apply header_words_range; [done| |congruence].
    intros j. by apply header_words_agree.
Qed.

Lemma hdr_at_words m m' a h :
  hdr_at m a h → header_words m' a = header_words m a → load 4 m' (a + 40) = load 4 m (a + 40) →
  hdr_at m' a h.
Proof.
  intros [H1 H2 H3 H4 H5 H6 H7] [= E1 E2 E3 E4 E5 E6 E7 E8 E9] E10. unfold_offsets.
  rewrite load8_words in H1, H4, H6.
  replace (a + 16 + 4) with (a + 20) in H4 by lia. replace (a + 32 + 4) with (a + 36) in H6 by lia.
  split; unfold_offsets; rewrite ?load8_words;
    try congruence.
  - replace (a + 16 + 4) with (a + 20) by lia. congruence.
  - replace (a + 32 + 4) with (a + 36) by lia. congruence.
Qed.

(** A 64-bit value with its halves exchanged. *)
Definition swap_halves (z : Z) : Z := z / 2 ^ 32 + 2 ^ 32 * (z mod 2 ^ 32).

Lemma swap_halves_words z :
  in_u64 z → wrap32 (swap_halves z) = wrap32 (Z.shiftr z 32)
           ∧ wrap32 (Z.shiftr (swap_halves z) 32) = wrap32 z.
Proof.
  unfold in_u64, wrap32, swap_halves. intros R. rewrite !Z.shiftr_div_pow2 by lia.
  assert (0 ≤ z / 2 ^ 32 < 2 ^ 32) as Hq.
  { split; [apply Z.div_pos; lia|apply Z.div_lt_upper_bound; lia]. }
  rewrite (Z.mul_comm (2 ^ 32)). split.
  - by rewrite Z_mod_plus_full.
  - rewrite Z.div_add by lia. rewrite (Z.div_small (z / 2 ^ 32)) by done. rewrite Z.add_0_l. by apply Z.mod_mod.
Qed.

Lemma validate_swap h :
  in_u64 (BlockHeader.size h) → BlockHeader.validate h = true →
  BlockHeader.validate (BlockHeader.set_size (swap_halves (BlockHeader.size h)) h) = true.
Proof.
  intros R <-. unfold BlockHeader.validate. cbn [BlockHeader.magic BlockHeader.set_size BlockHeader.checksum].
  assert (BlockHeader.calculate_checksum (BlockHeader.set_size (swap_halves (BlockHeader.size h)) h)
          = BlockHeader.calculate_checksum h) as ->; [|done].
  unfold BlockHeader.calculate_checksum, BlockHeader.set_size. cbv zeta. cbn.
  destruct (swap_halves_words _ R) as [-> ->]. by rewrite (Z.add_comm (wrap32 (Z.shiftr _ _))).
Qed.

(** C26: The checksum catches every corruption that stays inside one aligned 32-bit
    word of a header: if the header is still accepted after such a change, then
    no field of it has changed (only padding was hit).  It catches no more than
    that: exchanging the two halves of the size goes unnoticed. *)
Theorem header_corruption_detected ms ms' a h k t :
  hdr_at (mem ms) a h → BlockHeader.validate h = true →
  0 ≤ k < 12 → only (mem ms) (mem ms') (a + 4 * k) (a + 4 * k + 4) →
  (validate_at a ms' = Ret (true, t) → hdr_at (mem ms') a h)
  ∧ BlockHeader.validate (BlockHeader.set_size (swap_halves (BlockHeader.size h)) h) = true.
Proof.
  intros H V Hk Ho. split.
  - intros E. apply validate_at_true in E as (-> & h' & H' & V').
    destruct (one_word_apart _ _ _ _ _ _ H V H' V' Hk Ho). by eapply hdr_at_words.
  - apply validate_swap; [|done]. apply (hdr_at_ranges _ _ _ H).
Qed.

Lemma header_corruption_detected_witness :
  let ms := mach heap3 in
  let ms' := mkMachine (store 1 (mem ms) 4098 3) (clock ms) in
  validate_at 4096 ms = Ret (true, ms) ∧ ∀ t, validate_at 4096 ms' ≠ Ret (true, t).
Proof.
  intros ms ms'. split; [by vm_compute|]. intros t E.
  assert (hdr_at (mem ms) 4096 (blocks3 !!! 0%nat)) as H by (split; by_eval).
  destruct (header_corruption_detected ms ms' 4096 (blocks3 !!! 0%nat) 0 t H) as [Hd _]; [by_eval|lia| |].
  - intros x Hx. apply store_lookup_out. lia.
  - pose proof (at_size _ _ _ (Hd E)) as Hs. revert Hs. by_eval.
Defined.

(** ** The walks terminate *)

(** Reading a header either succeeds or hits a byte that is no discriminant. *)
Lemma read_header_cases a ms :
  (∃ h, read_header a ms = Ret (h, ms)) ∨ read_header a ms = Undef.
Proof.
  unfold read_header, rd_size, rd_status, rd_magic, rd_purpose, rd, gets, mbind, M_bind, mret, M_ret, undef.
  destruct (status_of_byte _); [|by right]. destruct (AllocPurpose.of_byte _); [|by right].
  left. by eexists.
Qed.

Lemma validate_at_state a ms :
  (∃ b, validate_at a ms = Ret (b, ms)) ∨ validate_at a ms = Undef.
Proof.
  assert (validate_at a ms =
    if negb (load 4 (mem ms) (a + OFF_magic) =? BLOCK_MAGIC) then Ret (false, ms)
    else (h ← read_header a; mret (BlockHeader.validate h)) ms) as ->.
  { unfold validate_at, rd_magic, rd, gets, mbind, M_bind. by destruct (negb _). }
  destruct (negb _); [left; by eexists|]. unfold mbind, M_bind.
  destruct (read_header_cases a ms) as [[h ->]| ->]; [left; by eexists|by right].
Qed.

(** One round of the walk of [integrity_check]. *)
Lemma integrity_loop_round {P : Profile} fuel a hend s :
  integrity_loop (S fuel) a hend s =
  if a <? hend then
    match validate_at a (mach s) with
    | Ret (true, _) =>
        (ts ← arith 64 (load 8 (mem (mach s)) a + HEADER_SIZE);
         next ← arith 64 (a + ts);
         integrity_loop fuel next hend) s
    | Ret (false, _) => Ret (Err CorruptedHeader, s)
    | _ => Undef
    end
  else Ret (Ok a, s).
Proof.
  cbn [integrity_loop]. destruct (a <? hend); [|done].
  destruct (validate_at_state a (mach s)) as [[b E]|E].
  - rewrite E. mstep_with ltac:(unfold hw, zoom; rewrite E; reflexivity).
    destruct s as [al ms]. cbn [mach self] in *. destruct b; [|done]. cbn [negb].
    unfold total_size_at, rd_size, rd, usize_add.
    destruct (arith_cases (load 8 (mem ms) a + HEADER_SIZE)) as [[H _]|(_ & _ & H)].
    + mstep_with ltac:(unfold hw, zoom, gets, mbind, M_bind; cbn [mach]; rewrite H; reflexivity).
      symmetry. by mstep_with ltac:(apply H).
    + unfold hw, zoom, gets, mbind, M_bind. cbn [mach]. by rewrite !H.
  - assert (hw (validate_at a) s = Undef) as E' by (unfold hw, zoom; by rewrite E).
    unfold mbind, M_bind. by rewrite E, E'.
Qed.

Lemma integrity_loop_terminates fuel a hend s :
  0 ≤ a → hend - a ≤ 48 * (Z.of_nat fuel - 1) → 0 < Z.of_nat fuel →
  @integrity_loop Dev fuel a hend s ≠ Hang.
Proof.
  revert a. induction fuel as [|fuel IH]; intros a Ha Hf Hp; [lia|].
  rewrite integrity_loop_round. destruct (a <? hend) eqn:E; [|done]. b2p.
  destruct (validate_at_state a (mach s)) as [[b ->]| ->]; [|done]. destruct b; [|done].
  pose proof (load_range 8 (mem (mach s)) a) as R. unfold HEADER_SIZE.
  set (z := load 8 _ a) in *. unfold mbind, M_bind.
  destruct (@arith_cases Dev (z + 48)) as [[H Hz]|(_ & _ & H)]; rewrite H; [|done].
  specialize (Hz eq_refl). rewrite Z.mod_small by done.
  destruct (@arith_cases Dev (a + (z + 48))) as [[H' Hz']|(_ & _ & H')]; rewrite H'; [|done].
  specialize (Hz' eq_refl). rewrite Z.mod_small by done. apply IH; lia.
Qed.

(** C27: With overflow checks, [integrity_check] comes back on every memory, however
    corrupted: it never walks in circles.  Without them it can: a header that
    validates but whose size is 48 short of wrapping around sends the walk back
    to itself for ever, whatever the number of rounds it is given. *)
Theorem integrity_check_terminates s :
  0 ≤ heap_start (self s) →
  @integrity_check Dev s ≠ Hang
  ∧ (∀ h fuel, hdr_at (mem (mach s)) (heap_start (self s)) h → BlockHeader.validate h = true →
       BlockHeader.size h = 2 ^ 64 - HEADER_SIZE → heap_start (self s) < heap_end (self s) →
       heap_end (self s) < 2 ^ 64 →
       @integrity_loop Release fuel (heap_start (self s)) (heap_end (self s)) s = Hang).
Proof.
  intros Hs. split.
  - unfold integrity_check, mbind, M_bind, gets. set (f := walk_fuel (self s)).
    pose proof (integrity_loop_terminates f (heap_start (self s)) (heap_end (self s)) s Hs) as H.
    assert (heap_end (self s) - heap_start (self s) ≤ 48 * (Z.of_nat f - 1)) as H1.
    { unfold f, walk_fuel, HEADER_SIZE. Z.to_euclidean_division_equations. lia. }
    assert (0 < Z.of_nat f) as H2 by (unfold f, walk_fuel; lia). specialize (H H1 H2).
    destruct (integrity_loop _ _ _ _) as [[[] t]| | |]; try done. by case_match.
  - intros h fuel Hh V Hz Hlt Hb. induction fuel as [|fuel IH]; [done|].
    rewrite integrity_loop_round, (proj2 (Z.ltb_lt _ _)), (validate_at_spec _ _ _ Hh), V by done.
    rewrite (at_size _ _ _ Hh), Hz. unfold mbind, M_bind.
    destruct (@arith_cases Release (2 ^ 64 - HEADER_SIZE + HEADER_SIZE)) as [[-> _]|(? & _)]; [|done].
    replace ((2 ^ 64 - HEADER_SIZE + HEADER_SIZE) mod 2 ^ 64) with 0 by done. rewrite Z.add_0_r.
    destruct (@arith_cases Release (heap_start (self s))) as [[-> _]|(? & _)]; [|done].
    by rewrite Z.mod_small by lia.
Qed.

Lemma integrity_check_terminates_witness : @integrity_check Dev heap4 ≠ Hang.
Proof. apply (integrity_check_terminates heap4). by_eval. Defined.

(** ** The two validators *)

(** One round of the loop of [validate_heap]. *)
Lemma validate_loop_round {P : Profile} fuel a hend total ms :
  BlockValidator.validate_loop (S fuel) hend (BlockIterator.mk a hend) total ms =
  if hend <=? a then Ret (Ok total, ms)
  else if load 4 (mem ms) (a + OFF_magic) =? BLOCK_MAGIC then
    (ts ← arith 64 (load 8 (mem ms) a + HEADER_SIZE);
     cur ← arith 64 (a + ts);
     ok ← validate_at a;
     if negb ok then mret (Err BlockValidationFailed)
     else
       ua ← arith 64 (a + HEADER_SIZE);
       block_end ← arith 64 (ua + load 8 (mem ms) a);
       if hend <? block_end then mret (Err BlockBeyondHeap)
       else
         ts' ← arith 64 (load 8 (mem ms) a + HEADER_SIZE);
         total' ← arith 64 (total + ts');
         BlockValidator.validate_loop fuel hend (BlockIterator.mk cur hend) total') ms
  else Ret (Ok total, ms).
Proof.
  cbn [BlockValidator.validate_loop]. unfold BlockIterator.next. cbn [BlockIterator.current BlockIterator.end_].
  destruct (hend <=? a); [done|]. unfold rd_magic, rd.
  unfold mbind, M_bind, gets, mret, M_ret. cbv beta iota.
  destruct (_ =? BLOCK_MAGIC); [|done].
  unfold total_size_at, rd_size, rd, gets, usize_add, user_data_addr, mbind, M_bind. cbv beta iota.
  destruct (arith_cases (load 8 (mem ms) a + HEADER_SIZE)) as [[H _]|(_ & _ & H)]; rewrite !H; [|done].
  destruct (arith_cases (a + (load 8 (mem ms) a + HEADER_SIZE) mod 2 ^ 64)) as [[H' _]|(_ & _ & H')];
    rewrite !H'; [|done].
  destruct (validate_at_state a ms) as [[b ->]| ->]; [|done]. destruct b; [|done]. cbn [negb].
  unfold usize_add.
  destruct (arith_cases (a + HEADER_SIZE)) as [[H2 _]|(_ & _ & H2)]; rewrite !H2; [|done].
  destruct (arith _ _ ms) as [[be t]| | |] eqn:E; [|done..].
  assert (t = ms) as -> by (destruct (arith_cases ((a + HEADER_SIZE) mod 2 ^ 64 + load 8 (mem ms) a))
    as [[H3 _]|(_ & _ & H3)]; rewrite H3 in E; congruence).
  destruct (hend <? be); [done|]. by rewrite !H.
Qed.

Definition accepts {S E A} (r : outcome (result E A * S)) (a : A) : Prop := ∃ t, r = Ret (Ok a, t).

Lemma mod64_sub_inj x y z : 0 ≤ x < 2 ^ 64 → 0 ≤ y < 2 ^ 64 → (x - z) mod 2 ^ 64 = (y - z) mod 2 ^ 64 → x = y.
Proof. intros Hx Hy E. Z.to_euclidean_division_equations. lia. Qed.

(** The additions one round of either walk makes, once [z + 48] and the address
    after the block have been computed without a panic. *)
Lemma round_arith {P : Profile} a z start next :
  0 ≤ a < 2 ^ 64 → 0 ≤ z < 2 ^ 64 → next = (a + (z + 48) mod 2 ^ 64) mod 2 ^ 64 →
  (build_profile = Dev → next = a + z + 48) → (build_profile = Dev → 0 ≤ start ≤ a) →
  (∀ S (t : S), arith 64 (a + 48) t = Ret ((a + 48) mod 2 ^ 64, t))
  ∧ (∀ S (t : S), arith 64 ((a + 48) mod 2 ^ 64 + z) t = Ret (next, t))
  ∧ (∀ S (t : S), arith 64 ((a - start) mod 2 ^ 64 + (z + 48) mod 2 ^ 64) t
                  = Ret ((next - start) mod 2 ^ 64, t)).
Proof.
  intros Ha Hz En HD Hd. assert (0 ≤ next < 2 ^ 64) as Hn by (rewrite En; apply Z.mod_pos_bound; lia).
  assert (((a + 48) mod 2 ^ 64 + z) mod 2 ^ 64 = next) as E1.
  { rewrite En, Zplus_mod_idemp_l, Zplus_mod_idemp_r. f_equal. lia. }
  assert (((a - start) mod 2 ^ 64 + (z + 48) mod 2 ^ 64) mod 2 ^ 64 = (next - start) mod 2 ^ 64) as E2.
  { rewrite En, Zplus_mod_idemp_l, Zminus_mod_idemp_l. f_equal. lia. }
  split_and!.
  - destruct (arith_cases (a + 48)) as [[H _]|(D & H & _)]; [done|]. specialize (HD D). lia.
  - rewrite <- E1. destruct (arith_cases ((a + 48) mod 2 ^ 64 + z)) as [[H _]|(D & H & _)]; [done|].
    specialize (HD D). rewrite Z.mod_small in H; lia.
  - rewrite <- E2. destruct (arith_cases ((a - start) mod 2 ^ 64 + (z + 48) mod 2 ^ 64)) as [[H _]|(D & H & _)];
      [done|]. specialize (HD D). specialize (Hd D). rewrite !Z.mod_small in H by lia. lia.
Qed.

(** The walks from [a] agree: [integrity_check]'s ends at [hend] exactly when the
    validator's total is the distance from [start] to [hend]. *)
Lemma loops_agree {P : Profile} fuel start a hend total s :
  0 ≤ a < 2 ^ 64 → 0 ≤ hend < 2 ^ 64 → total = (a - start) mod 2 ^ 64 →
  (build_profile = Dev → 0 ≤ start ≤ a) →
  accepts (integrity_loop fuel a hend s) hend ↔
  accepts (BlockValidator.validate_loop fuel hend (BlockIterator.mk a hend) total (mach s))
    ((hend - start) mod 2 ^ 64).
Proof.
  revert a total. induction fuel as [|fuel IH]; intros a total Ha Hh -> Hd.
  { split; intros [t E]; done. }
  rewrite integrity_loop_round, validate_loop_round.
  destruct (Z.leb_spec hend a) as [Hle|Hgt].
  { rewrite (proj2 (Z.ltb_ge a hend)) by done. split; intros [t E].
    - assert (a = hend) as -> by congruence. by eexists.
    - assert (a = hend) as -> by (apply (mod64_sub_inj _ _ start); congruence). by eexists. }
  rewrite (proj2 (Z.ltb_lt a hend)) by done.
  destruct (_ =? BLOCK_MAGIC) eqn:Em.
  2:{ split; intros [t E]; exfalso.
      - unfold validate_at, rd_magic, rd, gets, mbind, M_bind in E. rewrite Em in E. done.
      - assert (a = hend) by (apply (mod64_sub_inj _ _ start); congruence). lia. }
  set (z := load 8 (mem (mach s)) a). assert (0 ≤ z < 2 ^ 64) as Hz by apply (load_range 8).
  unfold HEADER_SIZE, mbind, M_bind.
  (* not accepted on either side *)
  assert (∀ (r1 : outcome (result AllocError Z * AState)) (r2 : outcome (result ValidateError Z * Machine)) x y,
    (∀ t, r1 ≠ Ret (Ok x, t)) → (∀ t, r2 ≠ Ret (Ok y, t)) → accepts r1 x ↔ accepts r2 y) as Hno.
  { intros r1 r2 x y H1 H2. split; intros [t E]; [by apply H1 in E|by apply H2 in E]. }
  destruct (validate_at_state a (mach s)) as [[[] Ev]|Ev].
  2-3: apply Hno; [by rewrite Ev|]; intros t E;
    destruct (arith_cases (z + 48)) as [[H _]|(_ & _ & H)]; rewrite H in E; [|done];
    destruct (arith_cases (a + (z + 48) mod 2 ^ 64)) as [[H' _]|(_ & _ & H')]; rewrite H' in E; [|done];
    by rewrite Ev in E.
  rewrite Ev.
  destruct (arith_cases (z + 48)) as [[H HD]|(_ & _ & H)]; rewrite !H; [|by apply Hno].
  destruct (arith_cases (a + (z + 48) mod 2 ^ 64)) as [[H' HD']|(_ & _ & H')]; rewrite !H'; [|by apply Hno].
  rewrite Ev. cbn [negb].
  set (next := (a + (z + 48) mod 2 ^ 64) mod 2 ^ 64) in *.
  assert (build_profile = Dev → next = a + z + 48) as HDn.
  { intros D. specialize (HD D). specialize (HD' D). unfold next. rewrite (Z.mod_small (z + 48)) in * by lia.
    rewrite Z.mod_small; lia. }
  assert (0 ≤ next < 2 ^ 64) as Hn by (apply Z.mod_pos_bound; lia).
  destruct (round_arith a z start next Ha Hz eq_refl HDn Hd) as (A1 & A2 & A3). rewrite A1, A2.
  destruct (Z.ltb_spec hend next) as [Hlt|Hge].
  { apply Hno; [|done]. intros t E. destruct fuel as [|fuel]; [done|].
    rewrite integrity_loop_round, (proj2 (Z.ltb_ge next hend)) in E by lia.
    assert (next = hend) by congruence. lia. }
  rewrite H, A3.
  apply IH; [done|done|done|]. intros D. specialize (HDn D). specialize (Hd D). lia.
Qed.

(** C28: The allocator's [integrity_check] and the free-standing
    [BlockValidator::validate_heap] accept exactly the same heaps, with and
    without overflow checks, although one compares addresses and the other adds
    up sizes. *)
Theorem validators_agree {P : Profile} s :
  0 ≤ heap_start (self s) ≤ heap_end (self s) → heap_end (self s) < 2 ^ 64 →
  accepts (integrity_check s) tt ↔
  accepts (BlockValidator.validate_heap (walk_fuel (self s)) (heap_start (self s)) (heap_end (self s))
             (mach s)) tt.
Proof.
  intros Hs Hb. set (a := heap_start (self s)) in *. set (e := heap_end (self s)) in *.
  pose proof (loops_agree (walk_fuel (self s)) a a e 0 s) as L.
  rewrite Z.sub_diag in L. rewrite (Z.mod_small (e - a)) in L by lia.
  specialize (L ltac:(lia) ltac:(lia) eq_refl ltac:(lia)).
  unfold integrity_check, BlockValidator.validate_heap, BlockIterator.new. fold a e.
  split; intros [t E].
  - apply bind_inv in E as (? & ? & E1 & E). injection E1 as <- <-.
    apply bind_inv in E as (r & t1 & E1 & E). destruct r as [c|]; [|by injection E].
    destruct (negb _) eqn:Ec; [by injection E|]. b2p. subst c. fold a e in E1.
    destruct L as [L _]. destruct (L (ex_intro _ _ E1)) as [t2 E2].
    exists t2. mstep_with ltac:(exact E2). cbn beta iota. mstep_arith.
    by rewrite Z.eqb_refl.
  - apply bind_inv in E as (r & t1 & E1 & E). destruct r as [c|]; [|by injection E].
    apply bind_inv in E as (sp & t2 & E2 & E). rewrite usize_sub_ok in E2 by lia. injection E2 as <- <-.
    destruct (negb _) eqn:Ec; [by injection E|]. b2p. subst c.
    destruct L as [_ L]. destruct (L (ex_intro _ _ E1)) as [t2 E2].
    exists t2. mstep. fold a e. mstep_with ltac:(exact E2). cbn beta iota. by rewrite Z.eqb_refl.
Qed.

Lemma validators_agree_witness :
  accepts (BlockValidator.validate_heap (walk_fuel (self heap4)) 4096 5120 (mach heap4)) tt.
Proof.
  apply (validators_agree heap4); [split; by_eval|by_eval|]. exists heap4. by vm_compute.
Defined.
