(* ===== verification/RingBuffer.v ===== *)
(** * The ring buffer

    Models [src/trap/collections/ring_buffer.rs]: a fixed-capacity circular
    queue that overwrites its oldest element when full.  [represents] relates a
    buffer to the queue it stands for; every operation is shown to act on that
    queue.  [BoundedLog] is what the error manager relies on. *)

From Stdlib Require Import ZArith Lia.
From stdpp Require Import base option numbers gmap list.
From S2P Require Import Prelude.

Module RingBuffer.

Section defs.
Context {P : Profile} {T : Type}.

Record t : Type := mk {
  buffer : list (option T);
  capacity : Z;
  head : Z;
  tail : Z;
  count : Z;
}.

(** Indexing a [Vec]: out of range it panics. *)
Definition index_get (i : Z) : M t (option T) :=
  r ← gets (λ r, r);
  match buffer r !! Z.to_nat i with Some v => mret v | None => panic end.
Definition index_set (i : Z) (v : option T) : M t unit :=
  r ← gets (λ r, r);
  match buffer r !! Z.to_nat i with
  | Some _ => modify (λ r, mk (<[Z.to_nat i := v]> (buffer r)) (capacity r) (head r) (tail r) (count r))
  | None => panic
  end.

Definition set_head (v : Z) : M t unit :=
  modify (λ r, mk (buffer r) (capacity r) v (tail r) (count r)).
Definition set_tail (v : Z) : M t unit :=
  modify (λ r, mk (buffer r) (capacity r) (head r) v (count r)).
Definition set_count (v : Z) : M t unit :=
  modify (λ r, mk (buffer r) (capacity r) (head r) (tail r) v).

(** [a % b], which panics on a zero divisor. *)
Definition rem {S} (a b : Z) : M S Z := if b =? 0 then panic else mret (a mod b).

(** [with_capacity]: the assertion, then [capacity] empty slots. *)
Definition with_capacity {S} (cap : Z) : M S t :=
  if 0 <? cap then mret (mk (replicate (Z.to_nat cap) None) cap 0 0 0) else panic.

Definition len (r : t) : Z := count r.
Definition is_empty (r : t) : bool := count r =? 0.
Definition is_full (r : t) : bool := count r =? capacity r.

Definition push (item : T) : M t unit :=
  r ← gets (λ r, r);
  index_set (head r) (Some item);;
  h ← usize_add (head r) 1;
  h ← rem h (capacity r);
  set_head h;;
  r ← gets (λ r, r);
  if is_full r then
    x ← usize_add (tail r) 1;
    x ← rem x (capacity r);
    set_tail x
  else
    c ← usize_add (count r) 1;
    set_count c.

Definition pop : M t (option T) :=
  r ← gets (λ r, r);
  if is_empty r then mret None
  else
    item ← index_get (tail r);
    index_set (tail r) None;;
    x ← usize_add (tail r) 1;
    x ← rem x (capacity r);
    set_tail x;;
    c ← usize_sub (count r) 1;
    set_count c;;
    mret item.

Definition front : M t (option T) :=
  r ← gets (λ r, r);
  if is_empty r then mret None else index_get (tail r).

Definition back : M t (option T) :=
  r ← gets (λ r, r);
  if is_empty r then mret None
  else
    i ← usize_add (head r) (capacity r);
    i ← usize_sub i 1;
    i ← rem i (capacity r);
    index_get i.

Definition clear : M t unit :=
  modify (λ r, mk ((λ _, None) <$> buffer r) (capacity r) 0 0 0).

(** [Iter]: the buffer it borrows is the state. *)
Record Iter : Type := mkIter { index : Z; remaining : Z }.

Definition iter (r : t) : Iter := mkIter (tail r) (count r).

Definition next (it : Iter) : M t (option T * Iter) :=
  if remaining it =? 0 then mret (None, it)
  else
    r ← gets (λ r, r);
    item ← index_get (index it);
    i ← usize_add (index it) 1;
    i ← rem i (capacity r);
    n ← usize_sub (remaining it) 1;
    mret (item, mkIter i n).

(** [for x in buffer.iter()]: until [next] returns [None]. *)
Fixpoint collect (fuel : nat) (it : Iter) : M t (list T) :=
  match fuel with
  | O => hang
  | S fuel' =>
      '(item, it') ← next it;
      match item with
      | None => mret []
      | Some x => xs ← collect fuel' it'; mret (x :: xs)
      end
  end.

End defs.
Arguments t : clear implicits.

(** ** The queue a buffer stands for *)

(** Slot [tail + i] holds element [i] of the queue, and nothing once the queue
    is over: no element that was removed or cleared is kept alive. *)
Record represents {T} (r : t T) (q : list T) : Prop := {
  rp_cap : 0 < capacity r < 2 ^ 63;
  rp_buffer : Z.of_nat (length (buffer r)) = capacity r;
  rp_tail : 0 ≤ tail r < capacity r;
  rp_count : count r = Z.of_nat (length q);
  rp_bound : Z.of_nat (length q) ≤ capacity r;
  rp_head : head r = (tail r + count r) mod capacity r;
  rp_slots : ∀ i, 0 ≤ i < capacity r →
    buffer r !! Z.to_nat ((tail r + i) mod capacity r) = Some (q !! Z.to_nat i);
}.

(** The queue after a push into a buffer of [cap] slots. *)
Definition q_push {T} (cap : Z) (q : list T) (x : T) : list T :=
  if Z.of_nat (length q) =? cap then drop 1 q ++ [x] else q ++ [x].

Lemma mod_offset_inj t i j c :
  0 < c → 0 ≤ i < c → 0 ≤ j < c → (t + i) mod c = (t + j) mod c → i = j.
Proof.
  intros Hc Hi Hj E. pose proof (Z.div_mod (t + i) c). pose proof (Z.div_mod (t + j) c).
  assert (c * ((t + i) / c - (t + j) / c) = i - j) by lia.
  assert ((t + i) / c - (t + j) / c = 0) by nia. lia.
Qed.

Lemma mod_wrap t c : 0 ≤ t < c → (t + c) mod c = t.
Proof.
  intros H. replace (t + c) with (t + 1 * c) by lia.
  rewrite Z_mod_plus_full. by apply Z.mod_small.
Qed.

Lemma mod_shift t i c : 0 < c → ((t + 1) mod c + i) mod c = (t + (i + 1)) mod c.
Proof.
  intros Hc. rewrite Zplus_mod_idemp_l. f_equal. lia.
Qed.

Section lemmas.
Context {P : Profile} {T : Type}.
Implicit Types (r : t T) (q : list T).

Lemma slot_some r q i :
  represents r q → 0 ≤ i < capacity r → is_Some (buffer r !! Z.to_nat i).
Proof. intros [] Hi. apply lookup_lt_is_Some. lia. Qed.

Lemma head_range r q : represents r q → 0 ≤ head r < capacity r.
Proof. intros []. rewrite rp_head0. apply Z.mod_pos_bound. lia. Qed.

Lemma with_capacity_spec {S} cap (s : S) :
  0 < cap < 2 ^ 63 →
  ∃ r, with_capacity cap s = Ret (r, s) ∧ represents r ([] : list T) ∧ capacity r = cap.
Proof.
  intros Hc. eexists. split; [|split].
  - unfold with_capacity. destruct (Z.ltb_spec 0 cap); [done|lia].
  - split; simpl; try lia.
    + rewrite length_replicate. lia.
    + by rewrite Z.mod_0_l by lia.
    + intros i Hi. rewrite lookup_replicate_2; [done|].
      pose proof (Z.mod_pos_bound i cap). rewrite Z.add_0_l. lia.
  - done.
Qed.

(** Writing slot [tail + k]. *)
Lemma slots_insert r q k (v : option T) i :
  represents r q → 0 ≤ k < capacity r → 0 ≤ i < capacity r →
  <[Z.to_nat ((tail r + k) mod capacity r) := v]> (buffer r)
    !! Z.to_nat ((tail r + i) mod capacity r)
  = Some (if i =? k then v else q !! Z.to_nat i).
Proof.
  intros R Hk Hi. pose proof R as []. 
  pose proof (Z.mod_pos_bound (tail r + k) (capacity r)).
  pose proof (Z.mod_pos_bound (tail r + i) (capacity r)).
  destruct (Z.eqb_spec i k) as [->|Hne].
  - apply list_lookup_insert_eq. lia.
  - rewrite list_lookup_insert_ne; [by apply rp_slots0|].
    intros E. apply Hne. symmetry. apply (mod_offset_inj (tail r) _ _ (capacity r)); lia.
Qed.

Lemma rem_ok {S} a b (s : S) : 0 < b → rem a b s = Ret (a mod b, s).
Proof. intros. unfold rem. by destruct (Z.eqb_spec b 0); [lia|]. Qed.

Lemma push_spec r q x :
  represents r q →
  ∃ r', push x r = Ret (tt, r') ∧ represents r' (q_push (capacity r) q x)
        ∧ capacity r' = capacity r.
Proof.
  intros R. pose proof R as []. pose proof (head_range _ _ R) as Hh.
  destruct (slot_some _ _ (head r) R Hh) as [v Hv].
  unfold q_push. destruct (Z.eqb_spec (Z.of_nat (length q)) (capacity r)) as [Ef|Ef].
  - assert (head r = tail r) as Eh.
    { rewrite rp_head0, rp_count0, Ef. by apply mod_wrap. }
    eexists. split; [|split].
    + unfold push, index_set. mstep. mstep_with ltac:(mstep; rewrite Hv; reflexivity).
      mstep_arith. mstep_with ltac:(apply rem_ok; lia). do 2 mstep.
      unfold is_full. cbn [count capacity]. rewrite rp_count0, Ef, Z.eqb_refl.
      cbn [tail]. mstep_arith. mstep_with ltac:(apply rem_ok; lia). reflexivity.
    + assert (length (drop 1 q ++ [x]) = length q) as El
        by (rewrite length_app, length_drop; simpl; lia).
      split; cbn [buffer capacity head tail count]; rewrite ?length_insert, ?El; try lia.
      * apply Z.mod_pos_bound. lia.
      * rewrite mod_wrap by (apply Z.mod_pos_bound; lia). by rewrite Eh.
      * intros i Hi. rewrite mod_shift by lia. rewrite Eh.
        assert ((tail r + 0) mod capacity r = tail r) as Et by (rewrite Z.add_0_r; by apply Z.mod_small).
        pose proof (slots_insert r q 0 (Some x)) as Hs. rewrite Et in Hs.
        destruct (Z.eq_dec (i + 1) (capacity r)) as [E|E].
        -- rewrite E, mod_wrap by lia. specialize (Hs 0 R). rewrite Et in Hs. rewrite Hs by lia.
           rewrite Z.eqb_refl, lookup_app_r by (rewrite length_drop; lia).
           rewrite length_drop. by replace (Z.to_nat i - (length q - 1))%nat with 0%nat by lia.
        -- rewrite Hs by (done || lia). destruct (Z.eqb_spec (i + 1) 0); [lia|]. f_equal.
           rewrite lookup_app_l by (rewrite length_drop; lia). rewrite lookup_drop.
           f_equal. lia.
    + done.
  - eexists. split; [|split].
    + unfold push, index_set. mstep. mstep_with ltac:(mstep; rewrite Hv; reflexivity).
      mstep_arith. mstep_with ltac:(apply rem_ok; lia). do 2 mstep.
      unfold is_full. cbn [count capacity]. rewrite rp_count0.
      destruct (Z.eqb_spec (Z.of_nat (length q)) (capacity r)); [done|].
      mstep_arith. reflexivity.
    + split; cbn [buffer capacity head tail count]; rewrite ?length_insert, ?length_app;
        simpl length; try lia.
      * rewrite rp_head0, rp_count0, Zplus_mod_idemp_l. f_equal. lia.
      * intros i Hi. rewrite rp_head0, rp_count0, (slots_insert r q) by (done || lia).
        destruct (Z.eqb_spec i (Z.of_nat (length q))) as [->|Hne].
        -- rewrite Nat2Z.id, lookup_app_r by lia. by rewrite Nat.sub_diag.
        -- destruct (Z.lt_decidable i (Z.of_nat (length q))).
           ++ by rewrite lookup_app_l by lia.
           ++ rewrite lookup_ge_None_2 by lia. rewrite lookup_ge_None_2; [done|].
              rewrite length_app. simpl. lia.
    + done.
Qed.

Lemma index_get_spec r q i :
  represents r q → 0 ≤ i < capacity r →
  index_get ((tail r + i) mod capacity r) r = Ret (q !! Z.to_nat i, r).
Proof. intros [] Hi. unfold index_get. mstep. by rewrite rp_slots0. Qed.

Lemma tail_index r q : represents r q → tail r = (tail r + 0) mod capacity r.
Proof. intros []. rewrite Z.add_0_r. by rewrite Z.mod_small. Qed.

Lemma is_empty_nil r : represents r [] → is_empty r = true.
Proof. intros []. unfold is_empty. by rewrite rp_count0. Qed.

Lemma is_empty_cons r x q : represents r (x :: q) → is_empty r = false.
Proof. intros []. unfold is_empty. rewrite rp_count0. apply Z.eqb_neq. simpl. lia. Qed.

Lemma pop_spec r q :
  represents r q →
  ∃ r', pop r = Ret (list.head q, r') ∧ represents r' (list.tail q) ∧ capacity r' = capacity r.
Proof.
  intros R. destruct q as [|x q].
  { exists r. split; [|done]. unfold pop. mstep. by rewrite is_empty_nil. }
  pose proof R as []. pose proof (tail_index _ _ R) as Et.
  pose proof (index_get_spec _ _ 0 R ltac:(lia)) as Hg. rewrite <- Et in Hg.
  destruct (slot_some _ _ (tail r) R rp_tail0) as [v Hv]. simpl length in *.
  eexists. split; [|split].
  - unfold pop. mstep. rewrite (is_empty_cons _ _ _ R). mstep_with ltac:(exact Hg).
    unfold index_set. mstep_with ltac:(mstep; rewrite Hv; reflexivity).
    mstep_arith. mstep_with ltac:(apply rem_ok; lia). mstep. mstep_arith. mstep. reflexivity.
  - split; cbn [buffer capacity head tail count list.tail]; rewrite ?length_insert; try lia.
    + apply Z.mod_pos_bound. lia.
    + rewrite rp_head0, mod_shift by lia. f_equal. lia.
    + intros i Hi. rewrite mod_shift by lia.
      pose proof (slots_insert r (x :: q) 0 None) as Hs. rewrite <- Et in Hs.
      destruct (Z.eq_dec (i + 1) (capacity r)) as [E|E].
      * rewrite E, mod_wrap by lia. specialize (Hs 0 R). rewrite <- Et in Hs. rewrite Hs by lia.
        rewrite Z.eqb_refl, lookup_ge_None_2; [done|lia].
      * rewrite Hs by (done || lia). destruct (Z.eqb_spec (i + 1) 0); [lia|].
        by replace (Z.to_nat (i + 1)) with (S (Z.to_nat i)) by lia.
  - done.
Qed.

Lemma front_spec r q : represents r q → front r = Ret (list.head q, r).
Proof.
  intros R. unfold front. mstep. destruct q as [|x q]; [by rewrite is_empty_nil|].
  rewrite (is_empty_cons _ _ _ R), (tail_index _ _ R). apply (index_get_spec r (x :: q) 0); [done|].
  destruct R. lia.
Qed.

Lemma back_spec r q : represents r q → back r = Ret (last q, r).
Proof.
  intros R. unfold back. mstep. destruct q as [|x q]; [by rewrite is_empty_nil|].
  rewrite (is_empty_cons _ _ _ R). pose proof R as []. pose proof (head_range _ _ R).
  mstep_arith. mstep_arith. mstep_with ltac:(apply rem_ok; lia). simpl length in *.
  replace ((head r + capacity r - 1) mod capacity r)
    with ((tail r + (count r - 1)) mod capacity r).
  - rewrite (index_get_spec _ _ _ R) by lia. rewrite last_lookup, rp_count0.
    by replace (Z.to_nat (Z.of_nat (S (length q)) - 1)) with (pred (length (x :: q))) by (simpl; lia).
  - rewrite rp_head0.
    replace ((tail r + count r) mod capacity r + capacity r - 1)
      with ((tail r + count r) mod capacity r + (capacity r - 1)) by lia.
    rewrite Zplus_mod_idemp_l.
    replace (tail r + count r + (capacity r - 1))
      with (tail r + (count r - 1) + 1 * capacity r) by lia.
    by rewrite Z_mod_plus_full.
Qed.

Lemma clear_spec r q :
  represents r q → ∃ r', clear r = Ret (tt, r') ∧ represents r' [] ∧ capacity r' = capacity r.
Proof.
  intros []. eexists. split; [done|]. split; [|done].
  split; cbn [buffer capacity head tail count]; rewrite ?length_fmap; simpl length; try lia.
  - by rewrite Z.mod_0_l by lia.
  - intros i Hi. rewrite Z.add_0_l, Z.mod_small by lia.
    rewrite list_lookup_fmap, lookup_nil. destruct (lookup_lt_is_Some_2 (buffer r) (Z.to_nat i)) as [v ->];
      [lia|done].
Qed.

(** Iteration from the [k]-th element on. *)
Lemma collect_spec r q fuel : ∀ k,
  represents r q → 0 ≤ k ≤ count r → (Z.to_nat (count r - k) < fuel)%nat →
  collect fuel (mkIter ((tail r + k) mod capacity r) (count r - k)) r
  = Ret (drop (Z.to_nat k) q, r).
Proof.
  induction fuel as [|fuel IH]; intros k R Hk Hf; [lia|]. pose proof R as [].
  cbn [collect next remaining index].
  destruct (Z.eq_dec k (count r)) as [->|Hne].
  - mstep_with ltac:(unfold next; rewrite Z.sub_diag; reflexivity). cbn.
    rewrite drop_ge; [done|lia].
  - destruct (lookup_lt_is_Some_2 q (Z.to_nat k)) as [x Hx]; [lia|].
    pose proof (Z.mod_pos_bound (tail r + k) (capacity r)).
    mstep_with ltac:(unfold next; cbn [remaining index];
      destruct (Z.eqb_spec (count r - k) 0); [lia|]; mstep;
      mstep_with ltac:(apply (index_get_spec r q); [done|lia]); mstep_arith;
      mstep_with ltac:(apply rem_ok; lia); mstep_arith; reflexivity).
    rewrite Hx. cbv iota beta.
    replace (((tail r + k) mod capacity r + 1) mod capacity r)
      with ((tail r + (k + 1)) mod capacity r)
      by (rewrite Zplus_mod_idemp_l; f_equal; lia).
    replace (count r - k - 1) with (count r - (k + 1)) by lia.
    mstep_with ltac:(apply IH; [done|lia|lia]).
    rewrite (drop_S q x (Z.to_nat k) Hx). by replace (Z.to_nat (k + 1)) with (S (Z.to_nat k)) by lia.
Qed.

End lemmas.

(** ** Operations in sequence *)

Inductive op (T : Type) : Type := Push (x : T) | Pop | Clear.
Arguments Push {T}. Arguments Pop {T}. Arguments Clear {T}.

Section runs.
Context {P : Profile} {T : Type}.

Definition exec (o : op T) : M (t T) (option T) :=
  match o with
  | Push x => push x;; mret None
  | Pop => pop
  | Clear => clear;; mret None
  end.

(** The same on the queue. *)
Definition q_exec (cap : Z) (o : op T) (q : list T) : option T * list T :=
  match o with
  | Push x => (None, q_push cap q x)
  | Pop => (list.head q, list.tail q)
  | Clear => (None, [])
  end.

Fixpoint run (os : list (op T)) : M (t T) (list (option T)) :=
  match os with
  | [] => mret []
  | o :: r => x ← exec o; xs ← run r; mret (x :: xs)
  end.

Fixpoint q_run (cap : Z) (os : list (op T)) (q : list T) : list (option T) * list T :=
  match os with
  | [] => ([], q)
  | o :: r => let '(x, q1) := q_exec cap o q in
              let '(xs, q2) := q_run cap r q1 in (x :: xs, q2)
  end.

Lemma exec_spec o r q :
  represents r q →
  ∃ r', exec o r = Ret ((q_exec (capacity r) o q).1, r')
        ∧ represents r' (q_exec (capacity r) o q).2 ∧ capacity r' = capacity r.
Proof.
  intros R. destruct o as [x| |]; cbn [exec q_exec fst snd].
  - destruct (push_spec r q x R) as (r' & E & H). exists r'. split; [by mstep_with ltac:(exact E)|done].
  - by apply pop_spec.
  - destruct (clear_spec r q R) as (r' & E & H). exists r'. split; [by mstep_with ltac:(exact E)|done].
Qed.

Lemma run_spec os : ∀ r q,
  represents r q →
  ∃ r', run os r = Ret ((q_run (capacity r) os q).1, r')
        ∧ represents r' (q_run (capacity r) os q).2 ∧ capacity r' = capacity r.
Proof.
  induction os as [|o os IH]; intros r q R; [by exists r|]. cbn [run q_run].
  destruct (exec_spec o r q R) as (r1 & E1 & R1 & C1).
  destruct (q_exec (capacity r) o q) as [x q1]. cbn [fst snd] in *.
  destruct (IH r1 q1 R1) as (r2 & E2 & R2 & C2). rewrite C1 in *.
  destruct (q_run (capacity r) os q1) as [xs q2]. cbn [fst snd] in *.
  exists r2. split; [|done]. mstep_with ltac:(exact E1). by mstep_with ltac:(exact E2).
Qed.

End runs.

(** C23: A ring buffer of positive capacity behaves, through any sequence of
    pushes, pops and clears, as a queue that drops its oldest element when it is
    full; no operation panics. *)
Theorem ring_buffer_is_bounded_queue {P : Profile} {T} cap (os : list (op T)) :
  0 < cap < 2 ^ 63 →
  ∃ r r', with_capacity cap tt = Ret (r, tt)
    ∧ run os r = Ret ((q_run cap os []).1, r') ∧ represents r' (q_run cap os []).2.
Proof.
  intros Hc. destruct (with_capacity_spec (T := T) cap tt Hc) as (r & E & R & <-).
  destruct (run_spec os r [] R) as (r' & E' & R' & _). by exists r, r'.
Qed.

Lemma ring_buffer_is_bounded_queue_witness :
  ∃ r r', with_capacity 2 tt = Ret (r, tt)
    ∧ @run Dev Z [Push 1; Push 2; Push 3; Pop; Pop; Pop] r
      = Ret ([None; None; None; Some 2; Some 3; None], r')
    ∧ represents r' [].
Proof.
  exact (@ring_buffer_is_bounded_queue Dev Z 2 [Push 1; Push 2; Push 3; Pop; Pop; Pop]
           (conj eq_refl eq_refl)).
Defined.

(** The read-only operations see the same queue: [len], [is_empty],
    [is_full], the oldest and newest element, and iteration, which yields every
    element once, oldest first. *)
Theorem ring_buffer_reads {P : Profile} {T} (r : t T) q :
  represents r q →
  len r = Z.of_nat (length q) ∧ is_empty r = bool_decide (q = [])
  ∧ is_full r = (Z.of_nat (length q) =? capacity r)
  ∧ front r = Ret (list.head q, r) ∧ back r = Ret (last q, r)
  ∧ collect (S (Z.to_nat (capacity r))) (iter r) r = Ret (q, r).
Proof.
  intros R. pose proof R as []. split_and!.
  - done.
  - unfold is_empty. rewrite rp_count0. by destruct q.
  - unfold is_full. by rewrite rp_count0.
  - by apply front_spec.
  - by apply back_spec.
  - unfold iter. rewrite (tail_index _ _ R) at 1.
    replace (count r) with (count r - 0) by lia. apply (collect_spec r q); [done|lia|lia].
Qed.

Lemma ring_buffer_reads_witness :
  front (mk [Some 3; Some 2] 2 1 1 2) = Ret (Some 2, mk [Some 3; Some 2] 2 1 1 2).
Proof.
  refine (proj1 (proj2 (proj2 (proj2 (@ring_buffer_reads Dev Z (mk [Some 3; Some 2] 2 1 1 2) [2; 3] _))))).
  split; cbn [capacity buffer tail count head]; [lia|reflexivity|lia|reflexivity|simpl; lia|reflexivity|].
  intros i Hi. assert (i = 0 ∨ i = 1) as [-> | ->] by lia; reflexivity.
Defined.

End RingBuffer.

(** ** What a bounded log promises *)

(** Interface to the error manager: a log that keeps the newest [log_capacity]
    entries. *)
Class BoundedLog (T L : Type) : Type := {
  log_push : T → M L unit;
  log_capacity : Z;
  log_holds : L → list T → Prop;
  log_push_ok : ∀ l q x, log_holds l q →
    ∃ l', log_push x l = Ret (tt, l') ∧ log_holds l' (RingBuffer.q_push log_capacity q x);
}.

Section ring_log.
Context {P : Profile} {T : Type} (cap : Z).

Definition ring_holds (r : RingBuffer.t T) (q : list T) : Prop :=
  RingBuffer.represents r q ∧ RingBuffer.capacity r = cap.

Lemma ring_push_ok r q x :
  ring_holds r q →
  ∃ r', RingBuffer.push x r = Ret (tt, r') ∧ ring_holds r' (RingBuffer.q_push cap q x).
Proof.
  intros [R Ec]. destruct (RingBuffer.push_spec r q x R) as (r' & E & R' & C).
  exists r'. rewrite <- Ec at 1. split; [done|]. split; congruence.
Qed.

(** The ring buffer is such a log. *)
Definition ring_log : BoundedLog T (RingBuffer.t T) := {|
  log_push := RingBuffer.push;
  log_capacity := cap;
  log_holds := ring_holds;
  log_push_ok := ring_push_ok;
|}.

End ring_log.
