(* ===== verification/TrapTypes.v ===== *)
(** * Trap causes, contexts and error codes

    Models [src/trap/ds/types.rs], [src/trap/ds/context.rs] and the error codes
    of [src/trap/ds/error.rs]: how the raw [scause] register becomes a
    [TrapType], the saved register file, and the packed 32-bit [ErrorCode]. *)

From Stdlib Require Import ZArith Lia String.
From stdpp Require Import base option numbers gmap list.
From S2P Require Import Prelude.

(** ** [types.rs] *)

Inductive TrapMode : Type := Direct | Vectored.
Definition TrapMode_discriminant (m : TrapMode) : Z :=
  match m with Direct => 0 | Vectored => 1 end.

Inductive Interrupt : Type := SupervisorSoft | SupervisorTimer | SupervisorExternal.
Definition Interrupt_discriminant (i : Interrupt) : Z :=
  match i with SupervisorSoft => 1 | SupervisorTimer => 5 | SupervisorExternal => 9 end.

Module Exception.
Inductive t : Type :=
| InstructionMisaligned | InstructionFault | IllegalInstruction | Breakpoint
| LoadMisaligned | LoadFault | StoreMisaligned | StoreFault
| UserEnvCall | SupervisorEnvCall
| InstructionPageFault | LoadPageFault | StorePageFault.

Definition discriminant (e : t) : Z :=
  match e with
  | InstructionMisaligned => 0 | InstructionFault => 1 | IllegalInstruction => 2
  | Breakpoint => 3 | LoadMisaligned => 4 | LoadFault => 5 | StoreMisaligned => 6
  | StoreFault => 7 | UserEnvCall => 8 | SupervisorEnvCall => 9
  | InstructionPageFault => 12 | LoadPageFault => 13 | StorePageFault => 15
  end.

Definition all : list t :=
  [InstructionMisaligned; InstructionFault; IllegalInstruction; Breakpoint; LoadMisaligned;
   LoadFault; StoreMisaligned; StoreFault; UserEnvCall; SupervisorEnvCall;
   InstructionPageFault; LoadPageFault; StorePageFault].
End Exception.

Module TrapType.
Inductive t : Type :=
| TimerInterrupt | ExternalInterrupt | SoftwareInterrupt | SystemCall
| InstructionPageFault | LoadPageFault | StorePageFault
| InstructionAccessFault | LoadAccessFault | StoreAccessFault
| IllegalInstruction | Breakpoint
| InstructionMisaligned | LoadMisaligned | StoreMisaligned
| Unknown.

#[global] Instance t_eq_dec : EqDecision t.
Proof. solve_decision. Defined.

Definition COUNT : Z := 16.

Definition from_index (index : Z) : option t :=
  match index with
  | 0 => Some TimerInterrupt
  | 1 => Some ExternalInterrupt
  | 2 => Some SoftwareInterrupt
  | 3 => Some SystemCall
  | 4 => Some InstructionPageFault
  | 5 => Some LoadPageFault
  | 6 => Some StorePageFault
  | 7 => Some InstructionAccessFault
  | 8 => Some LoadAccessFault
  | 9 => Some StoreAccessFault
  | 10 => Some IllegalInstruction
  | 11 => Some Breakpoint
  | 12 => Some InstructionMisaligned
  | 13 => Some LoadMisaligned
  | 14 => Some StoreMisaligned
  | 15 => Some Unknown
  | _ => None
  end.

(** The derived [Ord] compares by declaration order. *)
Definition index (t : t) : Z :=
  match t with
  | TimerInterrupt => 0 | ExternalInterrupt => 1 | SoftwareInterrupt => 2 | SystemCall => 3
  | InstructionPageFault => 4 | LoadPageFault => 5 | StorePageFault => 6
  | InstructionAccessFault => 7 | LoadAccessFault => 8 | StoreAccessFault => 9
  | IllegalInstruction => 10 | Breakpoint => 11 | InstructionMisaligned => 12
  | LoadMisaligned => 13 | StoreMisaligned => 14 | Unknown => 15
  end.

Lemma from_index_index t : from_index (index t) = Some t.
Proof. by destruct t. Qed.

#[global] Instance index_inj : Inj eq eq index.
Proof. intros a b E. apply (f_equal from_index) in E. rewrite !from_index_index in E. congruence. Qed.
End TrapType.

Module TrapCause.
(** The raw [scause] register. *)
Record t : Type := mk { bits : Z }.

Definition from_bits (bits : Z) : t := mk bits.

(** [self.bits >> (size_of::<usize>() * 8 - 1) & 1 != 0] *)
Definition is_interrupt (self : t) : bool :=
  negb (Z.land (Z.shiftr (bits self) (8 * 8 - 1)) 1 =? 0).

(** [self.bits & !(1 << 63)] *)
Definition code (self : t) : Z :=
  Z.land (bits self) (usize_not (Z.shiftl 1 (8 * 8 - 1))).

Definition to_trap_type (self : t) : TrapType.t :=
  if is_interrupt self then
    match code self with
    | 1 => TrapType.SoftwareInterrupt
    | 5 => TrapType.TimerInterrupt
    | 9 => TrapType.ExternalInterrupt
    | _ => TrapType.Unknown
    end
  else
    match code self with
    | 0 => TrapType.InstructionMisaligned
    | 1 => TrapType.InstructionAccessFault
    | 2 => TrapType.IllegalInstruction
    | 3 => TrapType.Breakpoint
    | 4 => TrapType.LoadMisaligned
    | 5 => TrapType.LoadAccessFault
    | 6 => TrapType.StoreMisaligned
    | 7 => TrapType.StoreAccessFault
    | 8 | 9 => TrapType.SystemCall
    | 12 => TrapType.InstructionPageFault
    | 13 => TrapType.LoadPageFault
    | 15 => TrapType.StorePageFault
    | _ => TrapType.Unknown
    end.

(** The two parts of the register, arithmetically. *)
Lemma is_interrupt_spec c : in_u64 (bits c) → is_interrupt c = (2 ^ 63 <=? bits c).
Proof.
  intros [H0 H1]. unfold is_interrupt. change (8 * 8 - 1) with 63.
  change 1 with (Z.ones 1) at 1. rewrite Z.land_ones by lia. rewrite Z.shiftr_div_pow2 by lia.
  destruct (Z.leb_spec (2 ^ 63) (bits c)).
  - replace (bits c / 2 ^ 63) with 1; [done|]. apply (Z.div_unique _ _ _ (bits c - 2 ^ 63)); lia.
  - rewrite Z.div_small by lia. done.
Qed.

Lemma code_spec c : in_u64 (bits c) → code c = bits c mod 2 ^ 63.
Proof.
  intros [H0 H1]. unfold code. replace (usize_not _) with (Z.ones 63) by done.
  by rewrite Z.land_ones.
Qed.
End TrapCause.

(** The causes the RISC-V privileged specification gives these traps. *)
Definition interrupt_trap (i : Interrupt) : TrapType.t :=
  match i with
  | SupervisorSoft => TrapType.SoftwareInterrupt
  | SupervisorTimer => TrapType.TimerInterrupt
  | SupervisorExternal => TrapType.ExternalInterrupt
  end.

Definition exception_trap (e : Exception.t) : TrapType.t :=
  match e with
  | Exception.InstructionMisaligned => TrapType.InstructionMisaligned
  | Exception.InstructionFault => TrapType.InstructionAccessFault
  | Exception.IllegalInstruction => TrapType.IllegalInstruction
  | Exception.Breakpoint => TrapType.Breakpoint
  | Exception.LoadMisaligned => TrapType.LoadMisaligned
  | Exception.LoadFault => TrapType.LoadAccessFault
  | Exception.StoreMisaligned => TrapType.StoreMisaligned
  | Exception.StoreFault => TrapType.StoreAccessFault
  | Exception.UserEnvCall | Exception.SupervisorEnvCall => TrapType.SystemCall
  | Exception.InstructionPageFault => TrapType.InstructionPageFault
  | Exception.LoadPageFault => TrapType.LoadPageFault
  | Exception.StorePageFault => TrapType.StorePageFault
  end.

Ltac elem_decide := apply (bool_decide_unpack _); vm_compute; exact I.

(** The codes that have a meaning, and those that do not. *)
Definition interrupt_code (c : Z) : TrapType.t :=
  match c with
  | 1 => TrapType.SoftwareInterrupt
  | 5 => TrapType.TimerInterrupt
  | 9 => TrapType.ExternalInterrupt
  | _ => TrapType.Unknown
  end.
Definition exception_code (c : Z) : TrapType.t :=
  match c with
  | 0 => TrapType.InstructionMisaligned
  | 1 => TrapType.InstructionAccessFault
  | 2 => TrapType.IllegalInstruction
  | 3 => TrapType.Breakpoint
  | 4 => TrapType.LoadMisaligned
  | 5 => TrapType.LoadAccessFault
  | 6 => TrapType.StoreMisaligned
  | 7 => TrapType.StoreAccessFault
  | 8 | 9 => TrapType.SystemCall
  | 12 => TrapType.InstructionPageFault
  | 13 => TrapType.LoadPageFault
  | 15 => TrapType.StorePageFault
  | _ => TrapType.Unknown
  end.

Lemma interrupt_code_known c :
  interrupt_code c ≠ TrapType.Unknown → ∃ i, c = Interrupt_discriminant i.
Proof.
  destruct c as [|p|]; try done. intros H.
  repeat (destruct p as [p|p|]; try done);
    [by exists SupervisorExternal|by exists SupervisorTimer|by exists SupervisorSoft].
Qed.

Lemma exception_code_known c :
  exception_code c ≠ TrapType.Unknown → ∃ e, c = Exception.discriminant e.
Proof.
  intros H.
  assert (c ∈ Exception.discriminant <$> Exception.all) as Hc.
  { destruct c as [|p|]; [elem_decide| |done].
    repeat (destruct p as [p|p|]; try done; try elem_decide). }
  apply list_elem_of_fmap in Hc as (e & -> & _). by exists e.
Qed.

Lemma to_trap_type_code c :
  TrapCause.to_trap_type c =
  if TrapCause.is_interrupt c then interrupt_code (TrapCause.code c)
  else exception_code (TrapCause.code c).
Proof. done. Qed.

(** Decoding [scause] is complete and exact.  A raw 64-bit value decodes to
    a trap type other than [Unknown] precisely when it is the cause register of
    one of the supervisor interrupts (top bit set) or exceptions (top bit clear)
    the enums list, and then to the trap type that belongs to it. *)
Theorem to_trap_type_exact bits t :
  in_u64 bits → t ≠ TrapType.Unknown →
  TrapCause.to_trap_type (TrapCause.from_bits bits) = t ↔
  (∃ i, bits = 2 ^ 63 + Interrupt_discriminant i ∧ t = interrupt_trap i)
  ∨ (∃ e, bits = Exception.discriminant e ∧ t = exception_trap e).
Proof.
  intros Hb Ht. rewrite to_trap_type_code, TrapCause.is_interrupt_spec, TrapCause.code_spec by done.
  cbn [TrapCause.bits TrapCause.from_bits]. split.
  - intros <-. pose proof (Z.div_mod bits (2 ^ 63)) as Hd. destruct Hb as [H0 H1].
    destruct (Z.leb_spec (2 ^ 63) bits).
    + assert (bits / 2 ^ 63 = 1) by (symmetry; apply (Z.div_unique _ _ _ (bits - 2 ^ 63)); lia).
      left. destruct (interrupt_code_known _ Ht) as [i Ei]. exists i.
      rewrite Ei in *. split; [lia|by destruct i].
    + rewrite Z.mod_small in * by lia. right. destruct (exception_code_known _ Ht) as [e Ee].
      exists e. split; [done|]. rewrite Ee. by destruct e.
  - intros [(i & -> & ->)|(e & -> & ->)]; [by destruct i|by destruct e].
Qed.

Lemma to_trap_type_exact_witness :
  TrapCause.to_trap_type (TrapCause.from_bits (2 ^ 63 + 5)) = TrapType.TimerInterrupt.
Proof.
  apply (to_trap_type_exact (2 ^ 63 + 5) TrapType.TimerInterrupt).
  - split; [discriminate|reflexivity].
  - discriminate.
  - left. exists SupervisorTimer. split; reflexivity.
Defined.

(** [from_index] enumerates the trap types: an index below [COUNT] gives a
    type, every type has exactly one index, and indices from [COUNT] on give
    none. *)
Theorem from_index_enumerates i t :
  (TrapType.from_index i = Some t ↔ i = TrapType.index t)
  ∧ 0 ≤ TrapType.index t < TrapType.COUNT
  ∧ (0 ≤ i → TrapType.from_index i = None ↔ TrapType.COUNT ≤ i).
Proof.
  assert (∀ j u, TrapType.from_index j = Some u → j = TrapType.index u) as Hinv.
  { intros j u. destruct j as [|p|]; [by intros [= <-]| |done].
    repeat (destruct p as [p|p|]; try done); by intros [= <-]. }
  split_and!.
  - split; [apply Hinv|]. intros ->. apply TrapType.from_index_index.
  - by destruct t.
  - by destruct t.
  - intros Hi. split.
    + intros E. destruct (Z.lt_decidable i 16) as [Hlt|]; [|unfold TrapType.COUNT; lia].
      assert (i ∈ TrapType.index <$> [TrapType.TimerInterrupt; TrapType.ExternalInterrupt;
        TrapType.SoftwareInterrupt; TrapType.SystemCall; TrapType.InstructionPageFault;
        TrapType.LoadPageFault; TrapType.StorePageFault; TrapType.InstructionAccessFault;
        TrapType.LoadAccessFault; TrapType.StoreAccessFault; TrapType.IllegalInstruction;
        TrapType.Breakpoint; TrapType.InstructionMisaligned; TrapType.LoadMisaligned;
        TrapType.StoreMisaligned; TrapType.Unknown]) as Hin.
      { change (i ∈ seqZ 0 16). apply elem_of_seqZ. lia. }
      apply list_elem_of_fmap in Hin as (u & -> & _). by rewrite TrapType.from_index_index in E.
    + intros H. destruct (TrapType.from_index i) as [u|] eqn:E; [|done].
      apply Hinv in E as ->. by destruct u.
Qed.

(** ** [context.rs] *)

Module TrapContext.
Record t : Type := mk {
  x : list Z;          (* [usize; 32] *)
  sstatus : Z;
  sepc : Z;
  scause : Z;
  stval : Z;
}.

Definition new : t := mk (replicate 32 0) 0 0 0 0.
Definition cause (self : t) : TrapCause.t := TrapCause.from_bits (scause self).

Definition advance_sepc {P : Profile} : M t unit :=
  c ← gets (λ c, c);
  pc ← usize_add (sepc c) 4;
  modify (λ c, mk (x c) (sstatus c) pc (scause c) (stval c)).

Definition set_return_value (value : Z) : M t unit :=
  modify (λ c, mk (<[10%nat := value]> (x c)) (sstatus c) (sepc c) (scause c) (stval c)).

Definition well_formed (c : t) : Prop := length (x c) = 32%nat ∧ Forall in_u64 (x c) ∧ in_u64 (sepc c).
End TrapContext.

Module TaskContext.
Record t : Type := mk { ra : Z; sp : Z; s : list Z (* [usize; 12] *) }.
Definition new : t := mk 0 0 (replicate 12 0).
Definition new_for_task (entry_point stack_top : Z) : t :=
  mk entry_point stack_top (replicate 12 0).
End TaskContext.

(** The two mutators of a saved context.  [advance_sepc] moves the return
    address by four and nothing else, or panics in the development profile when
    the address would wrap; [set_return_value] changes register [a0] and nothing
    else. *)
Theorem context_mutators c v :
  TrapContext.well_formed c → in_u64 v →
  (TrapContext.sepc c + 4 < 2 ^ 64 →
   ∀ P, ∃ c', @TrapContext.advance_sepc P c = Ret (tt, c')
     ∧ TrapContext.sepc c' = TrapContext.sepc c + 4 ∧ TrapContext.x c' = TrapContext.x c
     ∧ TrapContext.cause c' = TrapContext.cause c ∧ TrapContext.well_formed c')
  ∧ (2 ^ 64 ≤ TrapContext.sepc c + 4 → @TrapContext.advance_sepc Dev c = Panic)
  ∧ ∃ c', TrapContext.set_return_value v c = Ret (tt, c') ∧ TrapContext.well_formed c'
     ∧ TrapContext.x c' !! 10%nat = Some v ∧ TrapContext.sepc c' = TrapContext.sepc c
     ∧ ∀ i, i ≠ 10%nat → TrapContext.x c' !! i = TrapContext.x c !! i.
Proof.
  intros (Hl & Hx & Hp0 & Hp1) Hv. split_and!.
  - intros Hb P. eexists. split.
    + unfold TrapContext.advance_sepc. mstep. mstep_arith. reflexivity.
    + split_and!; [done..|]. repeat split; cbn; try done; lia.
  - intros Hb. unfold TrapContext.advance_sepc, usize_add, arith, mbind, M_bind. simpl.
    destruct (Z.ltb_spec (TrapContext.sepc c + 4) (2 ^ 64)) as [|_]; [lia|].
    by rewrite andb_false_r.
  - eexists. split; [reflexivity|]. split_and!; cbn.
    + split; cbn; [by rewrite length_insert|]. split; [by apply Forall_insert|done].
    + apply list_lookup_insert_eq. lia.
    + done.
    + intros i Hi. by apply list_lookup_insert_ne.
Qed.

Lemma context_mutators_witness :
  ∃ c', TrapContext.set_return_value 7 TrapContext.new = Ret (tt, c')
        ∧ TrapContext.x c' !! 10%nat = Some 7.
Proof.
  destruct (context_mutators TrapContext.new 7) as (_ & _ & c' & E & _ & Hx & _).
  - split; [reflexivity|]. split; [repeat constructor|split; [discriminate|reflexivity]];
      first [discriminate|reflexivity].
  - split; [discriminate|reflexivity].
  - exists c'. split; [exact E|exact Hx].
Defined.

(** ** [error.rs] *)

Module ErrorLevel.
Inductive t : Type := Fatal | Critical | Error | Warning | Info.
Definition discriminant (l : t) : Z :=
  match l with Fatal => 0 | Critical => 1 | Error => 2 | Warning => 3 | Info => 4 end.
#[global] Instance t_eq_dec : EqDecision t.
Proof. solve_decision. Defined.
End ErrorLevel.

Module ErrorSource.
Inductive t : Type :=
| Unknown | Generic | Trap | Memory | Process | FileSystem | Device | Network | Syscall.
Definition discriminant (s : t) : Z :=
  match s with
  | Unknown => 0 | Generic => 1 | Trap => 2 | Memory => 3 | Process => 4
  | FileSystem => 5 | Device => 6 | Network => 7 | Syscall => 8
  end.
#[global] Instance t_eq_dec : EqDecision t.
Proof. solve_decision. Defined.
End ErrorSource.

Module ErrorCode.
(** The packed 32-bit word. *)
Record t : Type := mk { raw : Z }.

Definition new (source : ErrorSource.t) (level : ErrorLevel.t) (code : Z) : t :=
  mk (Z.lor (Z.lor (wrap32 (Z.shiftl (ErrorSource.discriminant source) 24))
                   (wrap32 (Z.shiftl (ErrorLevel.discriminant level) 16)))
            code).

Definition source (self : t) : ErrorSource.t :=
  match wrap8 (Z.shiftr (raw self) 24) with
  | 1 => ErrorSource.Generic
  | 2 => ErrorSource.Trap
  | 3 => ErrorSource.Memory
  | 4 => ErrorSource.Process
  | 5 => ErrorSource.FileSystem
  | 6 => ErrorSource.Device
  | 7 => ErrorSource.Network
  | 8 => ErrorSource.Syscall
  | _ => ErrorSource.Unknown
  end.

Definition level (self : t) : ErrorLevel.t :=
  match wrap8 (Z.land (Z.shiftr (raw self) 16) 255) with
  | 0 => ErrorLevel.Fatal
  | 1 => ErrorLevel.Critical
  | 2 => ErrorLevel.Error
  | 3 => ErrorLevel.Warning
  | 4 => ErrorLevel.Info
  | _ => ErrorLevel.Error
  end.

Definition number (self : t) : Z := wrap16 (Z.land (raw self) 65535).

Definition is_fatal (self : t) : bool := bool_decide (level self = ErrorLevel.Fatal).

(** The packed word as a sum of its three fields. *)
Lemma raw_new s l c :
  in_u16 c →
  raw (new s l c) = ErrorSource.discriminant s * 2 ^ 24 + ErrorLevel.discriminant l * 2 ^ 16 + c.
Proof.
  intros [H0 H1]. unfold new. cbn [raw].
  assert (∃ k, Z.lor (wrap32 (Z.shiftl (ErrorSource.discriminant s) 24))
                     (wrap32 (Z.shiftl (ErrorLevel.discriminant l) 16)) = k * 2 ^ 16
               ∧ ErrorSource.discriminant s * 2 ^ 24 + ErrorLevel.discriminant l * 2 ^ 16 = k * 2 ^ 16)
    as (k & -> & ->).
  { exists (ErrorSource.discriminant s * 256 + ErrorLevel.discriminant l). by destruct s, l. }
  rewrite <- Z.add_lor_land. replace (Z.land (k * 2 ^ 16) c) with 0; [lia|].
  symmetry. apply Z.bits_inj'. intros n Hn. rewrite Z.land_spec, Z.bits_0.
  destruct (Z.lt_decidable n 16).
  - by rewrite Z.mul_pow2_bits_low.
  - rewrite (Z.bits_above_log2 c n), andb_false_r; [done|lia|].
    destruct (decide (c = 0)) as [->|]; [simpl; lia|].
    apply Z.lt_le_trans with 16; [|lia]. apply Z.log2_lt_pow2; lia.
Qed.
End ErrorCode.

(** Packing and unpacking an error code is a round trip: source, level and
    number come back unchanged, the word fits 32 bits with the documented
    layout, and distinct triples give distinct codes. *)
Theorem error_code_roundtrip s l c :
  in_u16 c →
  let e := ErrorCode.new s l c in
  ErrorCode.source e = s ∧ ErrorCode.level e = l ∧ ErrorCode.number e = c
  ∧ ErrorCode.is_fatal e = bool_decide (l = ErrorLevel.Fatal)
  ∧ in_u32 (ErrorCode.raw e)
  ∧ (∀ s' l' c', in_u16 c' → ErrorCode.new s' l' c' = e → s' = s ∧ l' = l ∧ c' = c).
Proof.
  intros Hc e.
  assert (∀ s l c, in_u16 c → ErrorCode.source (ErrorCode.new s l c) = s
            ∧ ErrorCode.level (ErrorCode.new s l c) = l
            ∧ ErrorCode.number (ErrorCode.new s l c) = c) as Hdec.
  { clear. intros s l c Hc. unfold ErrorCode.source, ErrorCode.level, ErrorCode.number.
    rewrite (ErrorCode.raw_new s l c Hc). destruct Hc as [H0 H1].
    assert (0 ≤ ErrorLevel.discriminant l ≤ 4) as Hl by (destruct l; simpl; lia).
    assert (0 ≤ ErrorSource.discriminant s ≤ 8) as Hs by (destruct s; simpl; lia).
    unfold wrap8, wrap16. change 255 with (Z.ones 8). change 65535 with (Z.ones 16).
    rewrite !Z.land_ones, !Z.shiftr_div_pow2 by lia.
    set (sd := ErrorSource.discriminant s) in *. set (ld := ErrorLevel.discriminant l) in *.
    replace ((sd * 2 ^ 24 + ld * 2 ^ 16 + c) / 2 ^ 24) with sd
      by (apply (Z.div_unique _ _ _ (ld * 2 ^ 16 + c)); lia).
    replace ((sd * 2 ^ 24 + ld * 2 ^ 16 + c) / 2 ^ 16) with (sd * 256 + ld)
      by (apply (Z.div_unique _ _ _ c); lia).
    replace ((sd * 256 + ld) mod 2 ^ 8) with ld
      by (apply (Z.mod_unique _ _ sd); lia).
    replace ((sd * 2 ^ 24 + ld * 2 ^ 16 + c) mod 2 ^ 16) with c
      by (apply (Z.mod_unique _ _ (sd * 256 + ld)); lia).
    rewrite !(Z.mod_small sd), !(Z.mod_small ld), (Z.mod_small c) by lia.
    unfold sd, ld. split_and!; [by destruct s|by destruct l|done]. }
  destruct (Hdec s l c Hc) as (E1 & E2 & E3). split_and!; try done.
  - unfold ErrorCode.is_fatal. fold e in E2. by rewrite E2.
  - unfold e, in_u32. rewrite ErrorCode.raw_new by done. destruct Hc. destruct s, l; simpl; lia.
  - intros s' l' c' Hc' E. destruct (Hdec s' l' c' Hc') as (F1 & F2 & F3).
    rewrite E in F1, F2, F3. unfold e in *. split_and!; congruence.
Qed.

Lemma error_code_roundtrip_witness :
  ErrorCode.number (ErrorCode.new ErrorSource.Memory ErrorLevel.Fatal 4097) = 4097.
Proof.
  refine (proj1 (proj2 (proj2 (error_code_roundtrip ErrorSource.Memory ErrorLevel.Fatal 4097 _)))).
  split; [discriminate|reflexivity].
Defined.

Module SystemError.
Record t : Type := mk {
  code : ErrorCode.t;
  message : string;
  address : option Z;
  instruction_pointer : Z;
  timestamp : Z;
}.
Definition new (code : ErrorCode.t) (message : string) (address : option Z)
    (instruction_pointer timestamp : Z) : t :=
  mk code message address instruction_pointer timestamp.
End SystemError.

Inductive ErrorResult : Type := Handled | Partial | Unhandled.

#[global] Instance ErrorResult_eq_dec : EqDecision ErrorResult.
Proof. solve_decision. Defined.

Record ErrorLogEntry : Type := mkErrorLogEntry { error : SystemError.t; result_ : ErrorResult }.
