(* ===== verification/BTree.v ===== *)
(** * Ordered maps

    The kernel keeps its handlers in [BTreeMap]s, whose iteration order (by
    key) decides which handler runs first.  A map is a list of entries with
    strictly increasing keys; the order of a key type is given by [key]. *)

From Stdlib Require Import ZArith Lia.
From stdpp Require Import base option numbers sorting gmap list.
From S2P Require Import Prelude.

Abbreviation BTreeMap K V := (list (K * V)).

Section btree.
Context {K V : Type} (key : K → Z) `{!Inj eq eq key, !EqDecision K}.

(** [get], [insert], [remove] and the in-place update of [get_mut]. *)
Fixpoint bt_get (k : K) (m : list (K * V)) : option V :=
  match m with
  | [] => None
  | (k', v) :: r => if key k =? key k' then Some v else bt_get k r
  end.

Fixpoint bt_insert (k : K) (v : V) (m : list (K * V)) : list (K * V) :=
  match m with
  | [] => [(k, v)]
  | (k', v') :: r =>
      if key k <? key k' then (k, v) :: m
      else if key k =? key k' then (k, v) :: r
      else (k', v') :: bt_insert k v r
  end.

Definition bt_remove (k : K) (m : list (K * V)) : list (K * V) :=
  filter (λ e, key (fst e) ≠ key k) m.

Definition bt_modify (k : K) (f : V → V) (m : list (K * V)) : list (K * V) :=
  map (λ e, if key (fst e) =? key k then (fst e, f (snd e)) else e) m.

(** [entry(k).or_insert_with(d)] followed by the update [f]. *)
Definition bt_upsert (k : K) (d : V) (f : V → V) (m : list (K * V)) : list (K * V) :=
  bt_insert k (f (default d (bt_get k m))) m.

Definition bt_sorted (m : list (K * V)) : Prop :=
  StronglySorted (λ a b, key (fst a) < key (fst b)) m.

Lemma bt_get_elem k m v : bt_get k m = Some v → (k, v) ∈ m.
Proof.
  induction m as [|[k' v'] r IH]; simpl; [done|]. destruct (Z.eqb_spec (key k) (key k')) as [E|].
  - intros [= <-]. apply (inj key) in E as ->. elem.
  - intros H. apply elem_of_cons. right. auto.
Qed.

Lemma bt_elem_get k m v : bt_sorted m → (k, v) ∈ m → bt_get k m = Some v.
Proof.
  unfold bt_sorted. intros Hs. induction Hs as [|[k' v'] r Hs IH Hall]; simpl.
  - by intros ?%elem_of_nil.
  - intros [[= -> ->]|Hin]%elem_of_cons; [by rewrite Z.eqb_refl|].
    destruct (Z.eqb_spec (key k) (key k')) as [E|]; [|auto].
    rewrite Forall_forall in Hall. specialize (Hall _ Hin). simpl in Hall. lia.
Qed.

Lemma bt_get_insert k k' v m :
  bt_get k (bt_insert k' v m) = if decide (k = k') then Some v else bt_get k m.
Proof.
  induction m as [|[k1 v1] r IH]; simpl.
  - destruct (Z.eqb_spec (key k) (key k')) as [E|Hne].
    + apply (inj key) in E as ->. by rewrite decide_True.
    + rewrite decide_False; congruence.
  - destruct (Z.ltb_spec (key k') (key k1)); simpl.
    + destruct (Z.eqb_spec (key k) (key k')) as [E|Hne].
      * apply (inj key) in E as ->. by rewrite decide_True.
      * rewrite decide_False; congruence.
    + destruct (Z.eqb_spec (key k') (key k1)) as [E1|Hne1]; simpl.
      * apply (inj key) in E1 as ->. destruct (Z.eqb_spec (key k) (key k1)) as [E|Hne].
        -- apply (inj key) in E as ->. by rewrite decide_True.
        -- rewrite decide_False; congruence.
      * destruct (Z.eqb_spec (key k) (key k1)) as [E|Hne]; [|done].
        apply (inj key) in E as ->. rewrite decide_False; congruence.
Qed.

Lemma bt_insert_elem k v m e :
  e ∈ bt_insert k v m → e = (k, v) ∨ e ∈ m.
Proof.
  induction m as [|[k1 v1] r IH]; simpl.
  - rewrite list_elem_of_singleton. auto.
  - destruct (key k <? key k1); [|destruct (key k =? key k1)]; rewrite !elem_of_cons; intuition.
Qed.

Lemma bt_insert_sorted k v m : bt_sorted m → bt_sorted (bt_insert k v m).
Proof.
  unfold bt_sorted. intros Hs. induction Hs as [|[k1 v1] r Hs IH Hall]; simpl.
  - repeat constructor.
  - rewrite Forall_forall in Hall.
    destruct (Z.ltb_spec (key k) (key k1)).
    + constructor; [constructor; [done|by apply Forall_forall]|]. apply Forall_forall.
      intros e [->|He]%elem_of_cons; [done|]. specialize (Hall _ He). simpl in *. lia.
    + destruct (Z.eqb_spec (key k) (key k1)) as [E|].
      * constructor; [done|]. apply Forall_forall. intros e He. specialize (Hall _ He). simpl in *. lia.
      * constructor; [done|]. apply Forall_forall. intros e [->|He]%bt_insert_elem; simpl; [lia|].
        by apply Hall.
Qed.

Lemma bt_remove_elem k m e : e ∈ bt_remove k m ↔ key (fst e) ≠ key k ∧ e ∈ m.
Proof. unfold bt_remove. by rewrite list_elem_of_filter. Qed.

Lemma bt_remove_sorted k m : bt_sorted m → bt_sorted (bt_remove k m).
Proof.
  unfold bt_sorted, bt_remove. induction 1 as [|e r Hs IH Hall]; [constructor|].
  rewrite filter_cons. case_decide; [|done]. constructor; [done|].
  apply Forall_forall. intros x [_ Hx]%list_elem_of_filter. rewrite Forall_forall in Hall. auto.
Qed.

Lemma bt_get_remove k k' m :
  bt_get k (bt_remove k' m) = if decide (k = k') then None else bt_get k m.
Proof.
  unfold bt_remove. induction m as [|[k1 v1] r IH]; simpl; [by case_decide|].
  rewrite filter_cons. simpl. destruct (decide (key k1 ≠ key k')) as [Hne|He].
  - simpl. destruct (Z.eqb_spec (key k) (key k1)) as [E|]; [|done].
    rewrite decide_False; [done|]. congruence.
  - rewrite IH. destruct (decide (k = k')) as [->|]; [done|].
    destruct (Z.eqb_spec (key k) (key k1)) as [E|]; [|done].
    destruct He. intros E'. assert (k = k') by (apply (inj key); congruence). done.
Qed.

Lemma bt_get_modify k k' f m :
  bt_get k (bt_modify k' f m) =
  if decide (k = k') then f <$> bt_get k m else bt_get k m.
Proof.
  induction m as [|[k1 v1] r IH]; simpl; [by case_decide|].
  destruct (Z.eqb_spec (key k1) (key k')) as [E1|Hne1]; simpl.
  - destruct (Z.eqb_spec (key k) (key k1)) as [E|]; [|done].
    rewrite decide_True; [done|]. apply (inj key). congruence.
  - destruct (Z.eqb_spec (key k) (key k1)) as [E|]; [|done].
    rewrite decide_False; [done|]. congruence.
Qed.

(** Updating every value. *)
Lemma bt_get_map_values k (f : V → V) m :
  bt_get k ((λ e, (fst e, f (snd e))) <$> m) = f <$> bt_get k m.
Proof.
  induction m as [|[k1 v1] r IH]; csimpl; [done|]. by destruct (key k =? key k1).
Qed.

Lemma bt_map_values_sorted (f : V → V) m :
  bt_sorted m → bt_sorted ((λ e, (fst e, f (snd e))) <$> m).
Proof.
  unfold bt_sorted. induction 1 as [|e r Hs IH Hall]; csimpl; [constructor|].
  constructor; [done|]. apply Forall_fmap. eapply Forall_impl; [exact Hall|]. done.
Qed.

Lemma bt_modify_sorted k f m : bt_sorted m → bt_sorted (bt_modify k f m).
Proof.
  unfold bt_sorted, bt_modify. induction 1 as [|e r Hs IH Hall]; simpl; [constructor|].
  constructor; [done|]. apply Forall_forall. intros x Hx.
  apply list_elem_of_fmap in Hx as (y & -> & Hy). rewrite Forall_forall in Hall.
  specialize (Hall _ Hy). by destruct (key e.1 =? _), (key y.1 =? _).
Qed.

Lemma bt_upsert_sorted k d f m : bt_sorted m → bt_sorted (bt_upsert k d f m).
Proof. apply bt_insert_sorted. Qed.

Lemma bt_get_upsert k k' d f m :
  bt_get k (bt_upsert k' d f m) =
  if decide (k = k') then Some (f (default d (bt_get k' m))) else bt_get k m.
Proof. apply bt_get_insert. Qed.

End btree.

#[export] Hint Resolve bt_insert_sorted bt_remove_sorted bt_modify_sorted bt_upsert_sorted : rustos.

(** Integer keys. *)
#[export] Instance Z_key_inj : Inj eq eq (λ k : Z, k).
Proof. by intros ? ?. Qed.
