(* ===== verification/Arrays.v ===== *)
(** * Fixed-size arrays and counted loops

    Rust's [[T; N]] as a list of length [N] whose indexing panics out of
    bounds, the loops [for i in lo..hi] with and without a [return] in their
    body, and the bubble sort on an index array that
    [src/init/alloc/handover.rs] writes out twice. *)

From Stdlib Require Import ZArith Lia.
From stdpp Require Import base option numbers sorting list.
From S2P Require Import Prelude.

(** ** Indexing *)

Definition arr_get {S A} (l : list A) (i : Z) : M S A :=
  if i <? 0 then panic
  else match l !! Z.to_nat i with Some a => mret a | None => panic end.

Definition arr_set {S A} (l : list A) (i : Z) (v : A) : M S (list A) :=
  if (i <? 0) || (Z.of_nat (length l) <=? i) then panic
  else mret (<[Z.to_nat i := v]> l).

(** ** Loops *)

(** [n] rounds from index [i], with the variables the body assigns in [acc]. *)
Fixpoint for_n {S A} (n : nat) (i : Z) (body : Z → A → M S A) (acc : A) : M S A :=
  match n with
  | O => mret acc
  | Datatypes.S n' => acc' ← body i acc; for_n n' (i + 1) body acc'
  end.

(** [for i in lo..hi { .. }] *)
Definition for_range {S A} (lo hi : Z) (body : Z → A → M S A) (acc : A) : M S A :=
  for_n (Z.to_nat (hi - lo)) lo body acc.

(** A loop whose body may [return]. *)
Fixpoint search_n {S R} (n : nat) (i : Z) (body : Z → M S (option R)) : M S (option R) :=
  match n with
  | O => mret None
  | Datatypes.S n' =>
      r ← body i;
      match r with Some _ => mret r | None => search_n n' (i + 1) body end
  end.
Definition search_range {S R} (lo hi : Z) (body : Z → M S (option R)) : M S (option R) :=
  search_n (Z.to_nat (hi - lo)) lo body.

(** ** Reasoning about them *)

Lemma arr_get_ok {S A} (l : list A) i a (s : S) :
  0 ≤ i → l !! Z.to_nat i = Some a → arr_get l i s = Ret (a, s).
Proof. intros Hi Hl. unfold arr_get. rewrite (proj2 (Z.ltb_ge i 0)) by lia. by rewrite Hl. Qed.

Lemma arr_set_ok {S A} (l : list A) i v (s : S) :
  0 ≤ i < Z.of_nat (length l) → arr_set l i v s = Ret (<[Z.to_nat i := v]> l, s).
Proof.
  intros Hi. unfold arr_set. rewrite (proj2 (Z.ltb_ge i 0)), (proj2 (Z.leb_gt _ i)) by lia. done.
Qed.

(** An invariant on the loop variables and the state, and the loop returns. *)
Lemma for_n_inv {S A} (I : Z → A → S → Prop) (body : Z → A → M S A) n i acc s :
  I i acc s →
  (∀ k a s, i ≤ k < i + Z.of_nat n → I k a s → ∃ a' s', body k a s = Ret (a', s') ∧ I (k + 1) a' s') →
  ∃ a' s', for_n n i body acc s = Ret (a', s') ∧ I (i + Z.of_nat n) a' s'.
Proof.
  revert i acc s. induction n as [|n IH]; intros i acc s H0 Hstep.
  { exists acc, s. rewrite Z.add_0_r. by split. }
  destruct (Hstep i acc s) as (a1 & s1 & E1 & H1); [lia|done|].
  destruct (IH (i + 1) a1 s1 H1) as (a' & s' & E & H).
  { intros k a s2 Hk. apply Hstep. lia. }
  exists a', s'. split; [cbn [for_n]; by mstep_with ltac:(exact E1)|].
  by replace (i + Z.of_nat (Datatypes.S n)) with (i + 1 + Z.of_nat n) by lia.
Qed.

Lemma for_range_inv {S A} (I : Z → A → S → Prop) (body : Z → A → M S A) lo hi acc s :
  lo ≤ hi → I lo acc s →
  (∀ k a s, lo ≤ k < hi → I k a s → ∃ a' s', body k a s = Ret (a', s') ∧ I (k + 1) a' s') →
  ∃ a' s', for_range lo hi body acc s = Ret (a', s') ∧ I hi a' s'.
Proof.
  intros Hle H0 Hstep. unfold for_range.
  destruct (for_n_inv I body (Z.to_nat (hi - lo)) lo acc s H0) as (a' & s' & E & H).
  { intros k a s' Hk. apply Hstep. lia. }
  exists a', s'. split; [done|]. by replace (lo + Z.of_nat (Z.to_nat (hi - lo))) with hi in H by lia.
Qed.

(** The same, for a loop that reads [l[k]] in round [k]: the invariant speaks of
    the elements read so far. *)
Lemma for_list_inv {S A B} (l : list B) (n : nat) (R : list B → A → S → Prop)
    (body : Z → A → M S A) acc s :
  (n ≤ length l)%nat → R [] acc s →
  (∀ pre x suf a s, take n l = pre ++ x :: suf → l !! length pre = Some x → R pre a s →
     ∃ a' s', body (Z.of_nat (length pre)) a s = Ret (a', s') ∧ R (pre ++ [x]) a' s') →
  ∃ a' s', for_range 0 (Z.of_nat n) body acc s = Ret (a', s') ∧ R (take n l) a' s'.
Proof.
  intros Hn H0 Hstep.
  destruct (for_range_inv (λ k a s, R (take (Z.to_nat k) l) a s) body 0 (Z.of_nat n) acc s)
    as (a' & s' & E & H); [lia|done| |].
  - intros k a s' Hk HR.
    destruct (lookup_lt_is_Some_2 l (Z.to_nat k)) as [x Hx]; [lia|].
    assert (length (take (Z.to_nat k) l) = Z.to_nat k) as Hlen by (rewrite length_take; lia).
    destruct (Hstep (take (Z.to_nat k) l) x (drop (Datatypes.S (Z.to_nat k)) (take n l)) a s')
      as (a1 & s1 & E1 & H1); [| |done|].
    + rewrite <- (take_drop_middle (take n l) (Z.to_nat k) x) at 1 by (by rewrite lookup_take_lt by lia).
      by rewrite take_take, Nat.min_l by lia.
    + by rewrite Hlen.
    + exists a1, s1. rewrite Hlen, Z2Nat.id in E1 by lia. split; [done|].
      replace (Z.to_nat (k + 1)) with (Datatypes.S (Z.to_nat k)) by lia. by rewrite (take_S_r _ _ x).
  - exists a', s'. rewrite Nat2Z.id in H. by split.
Qed.

(** A search whose rounds are a pure test returns the first hit. *)
Lemma search_n_spec {S R} (f : Z → option R) (body : Z → M S (option R)) n i s :
  (∀ k, i ≤ k < i + Z.of_nat n → (∀ j, i ≤ j < k → f j = None) → body k s = Ret (f k, s)) →
  ∃ r, search_n n i body s = Ret (r, s) ∧
    match r with
    | Some x => ∃ k, i ≤ k < i + Z.of_nat n ∧ f k = Some x ∧ ∀ j, i ≤ j < k → f j = None
    | None => ∀ k, i ≤ k < i + Z.of_nat n → f k = None
    end.
Proof.
  revert i. induction n as [|n IH]; intros i Hb.
  { exists None. split; [done|]. lia. }
  pose proof (Hb i ltac:(lia) ltac:(lia)) as E0. cbn [search_n].
  destruct (f i) as [x|] eqn:Ef.
  { exists (Some x). split; [by mstep_with ltac:(exact E0)|]. exists i. split_and!; [lia..|done|lia]. }
  destruct (IH (i + 1)) as (r & E & H).
  { intros k Hk Hj. apply Hb; [lia|]. intros j Hij.
    destruct (decide (j = i)) as [->|]; [done|]. apply Hj. lia. }
  exists r. split; [by mstep_with ltac:(exact E0)|].
  destruct r as [x|].
  - destruct H as (k & Hk & Hf & Hj). exists k. split_and!; [lia..|done|]. intros j Hij.
    destruct (decide (j = i)) as [->|]; [done|]. apply Hj. lia.
  - intros k Hk. destruct (decide (k = i)) as [->|]; [done|]. apply H. lia.
Qed.

Lemma search_range_spec {S R} (f : Z → option R) (body : Z → M S (option R)) lo hi s :
  lo ≤ hi →
  (∀ k, lo ≤ k < hi → (∀ j, lo ≤ j < k → f j = None) → body k s = Ret (f k, s)) →
  ∃ r, search_range lo hi body s = Ret (r, s) ∧
    match r with
    | Some x => ∃ k, lo ≤ k < hi ∧ f k = Some x ∧ ∀ j, lo ≤ j < k → f j = None
    | None => ∀ k, lo ≤ k < hi → f k = None
    end.
Proof.
  intros Hle Hb. unfold search_range.
  destruct (search_n_spec f body (Z.to_nat (hi - lo)) lo s) as (r & E & H).
  { intros k Hk. apply Hb. lia. }
  exists r. split; [done|]. replace (lo + Z.of_nat (Z.to_nat (hi - lo))) with hi in H by lia. done.
Qed.

(** A search that came back empty-handed saw nothing in any round. *)
Lemma search_range_None {S R} lo hi (body : Z → M S (option R)) s s' :
  search_range lo hi body s = Ret (None, s') →
  ∀ k, lo ≤ k < hi → ∃ s1 s2, body k s1 = Ret (None, s2).
Proof.
  unfold search_range. intros E k Hk.
  assert (lo ≤ k < lo + Z.of_nat (Z.to_nat (hi - lo))) as Hk' by lia. clear Hk.
  set (n := Z.to_nat (hi - lo)) in *. clearbody n. clear hi.
  revert lo s E Hk'. induction n as [|n IH]; intros lo s E Hk; [lia|].
  cbn [search_n] in E. apply bind_inv in E as (r & s1 & E1 & E). destruct r as [r|]; [done|].
  destruct (decide (k = lo)) as [->|]; [by exists s, s1|]. apply (IH (lo + 1) s1 E). lia.
Qed.

(** What a loop over the elements of [l] that came back has accumulated. *)
Lemma for_list_acc {S A B} (l : list B) (n : nat) (R : list B → A → Prop) (body : Z → A → M S A) acc s a s' :
  for_range 0 (Z.of_nat n) body acc s = Ret (a, s') →
  (n ≤ length l)%nat → R [] acc →
  (∀ pre x a s a' s', l !! length pre = Some x → R pre a →
     body (Z.of_nat (length pre)) a s = Ret (a', s') → R (pre ++ [x]) a') →
  R (take n l) a.
Proof.
  unfold for_range. rewrite Z.sub_0_r, Nat2Z.id. intros E Hn H0 Hstep.
  assert (∀ m i acc s, (i + m = n)%nat → R (take i l) acc →
    for_n m (Z.of_nat i) body acc s = Ret (a, s') → R (take n l) a) as Hgo; [|by apply (Hgo n 0%nat acc s)].
  clear E H0 acc s. induction m as [|m IH]; intros i acc s Hi HR E.
  { injection E as -> _. replace n with i by lia. done. }
  cbn [for_n] in E. apply bind_inv in E as (a1 & s1 & E1 & E).
  destruct (lookup_lt_is_Some_2 l i) as [x Hx]; [lia|].
  assert (length (take i l) = i) as Hlen by (rewrite length_take; lia).
  apply (IH (Datatypes.S i) a1 s1); [lia| |by replace (Z.of_nat (Datatypes.S i)) with (Z.of_nat i + 1) by lia].
  rewrite (take_S_r _ _ x) by done. apply (Hstep _ _ acc s a1 s1); rewrite ?Hlen; done.
Qed.

(** ** Bubble sort of an index array *)

Section bubble.
Context {P : Profile} {B : Type} (blocks : list B) (gt : B → B → bool).

(** One comparison: swap [indices[j]] and [indices[j + 1]] when out of order. *)
Definition bubble_step {S} (j : Z) (indices : list Z) : M S (list Z) :=
  ij ← arr_get indices j;
  bj ← arr_get blocks ij;
  ij1 ← arr_get indices (j + 1);
  bj1 ← arr_get blocks ij1;
  if gt bj bj1 then
    indices ← arr_set indices j ij1;
    arr_set indices (j + 1) ij
  else mret indices.

(** [for i in 0..count { for j in 0..count - 1 - i { .. } }] *)
Definition bubble_sort {S} (count : Z) (indices : list Z) : M S (list Z) :=
  for_range 0 count (λ i indices,
    last ← usize_sub count 1;
    last ← usize_sub last i;
    for_range 0 last bubble_step indices) indices.

(** [let mut indices = [0; N]; for i in 0..count { indices[i] = i; }] *)
Definition index_array {S} (N : nat) (count : Z) : M S (list Z) :=
  for_range 0 count (λ i indices, arr_set indices i i) (replicate N 0).

End bubble.

(** *** The pure reading *)

Section bubble_spec.
Context {P : Profile} {B : Type} (blocks : list B) (k : B → Z).

(** The key of index [i]. *)
Definition ikey (i : Z) : Z := from_option k 0 (blocks !! Z.to_nat i).
Definition kgt (a b : B) : bool := k b <? k a.

(** A valid index. *)
Definition idx_ok (i : Z) : Prop := 0 ≤ i < Z.of_nat (length blocks).

(** [m] comparisons from the front. *)
Fixpoint bub (m : nat) (l : list Z) : list Z :=
  match m, l with
  | S m', x :: y :: l' =>
      if ikey y <? ikey x then y :: bub m' (x :: l') else x :: bub m' (y :: l')
  | _, _ => l
  end.

Lemma bub_perm m l : bub m l ≡ₚ l.
Proof.
  revert l. induction m as [|m IH]; intros [|x [|y l]]; try done. cbn [bub].
  destruct (_ <? _); rewrite IH; [constructor|done].
Qed.

(** Equal keys keep their order. *)
Lemma bub_stable c m l :
  filter (λ i, ikey i = c) (bub m l) = filter (λ i, ikey i = c) l.
Proof.
  revert l. induction m as [|m IH]; intros [|x [|y l]]; try done. cbn [bub].
  destruct (ikey y <? ikey x) eqn:E; b2p; rewrite !filter_cons, IH, filter_cons; repeat case_decide;
    first [done|lia].
Qed.

(** A pass over the first part moves its maximum to the end of that part. *)
Lemma bub_max x l q :
  ∃ l' mx, bub (length l) ((x :: l) ++ q) = l' ++ mx :: q
    ∧ x :: l ≡ₚ mx :: l' ∧ ∀ y, y ∈ l' → ikey y ≤ ikey mx.
Proof.
  revert x. induction l as [|y l IH]; intros x.
  { exists [], x. split_and!; [done|done|]. intros y Hy. by apply elem_of_nil in Hy. }
  cbn [bub length app]. destruct (ikey y <? ikey x) eqn:E; b2p.
  - destruct (IH x) as (l' & mx & E' & Hp & Hm). exists (y :: l'), mx.
    split_and!; [cbn [app] in *; by rewrite E'| |].
    + rewrite (Permutation_swap y x l : x :: y :: l ≡ₚ _), Hp. constructor.
    + intros z Hz. apply elem_of_cons in Hz as [->|Hz]; [|auto].
      assert (x ∈ mx :: l') as Hx by (rewrite <- Hp; elem).
      apply elem_of_cons in Hx as [->|Hx]; [lia|]. specialize (Hm _ Hx). lia.
  - destruct (IH y) as (l' & mx & E' & Hp & Hm). exists (x :: l'), mx.
    split_and!; [cbn [app] in *; by rewrite E'| |].
    + rewrite Hp. constructor.
    + intros z Hz. apply elem_of_cons in Hz as [->|Hz]; [|auto].
      assert (y ∈ mx :: l') as Hx by (rewrite <- Hp; elem).
      apply elem_of_cons in Hx as [->|Hx]; [lia|]. specialize (Hm _ Hx). lia.
Qed.

(** The inner loop is [bub], behind the [p] that are already passed. *)
Lemma bubble_step_spec {S} p x y l rest (s : S) :
  idx_ok x → idx_ok y →
  bubble_step blocks kgt (Z.of_nat (length p)) (p ++ x :: y :: l ++ rest) s
  = Ret (p ++ (if ikey y <? ikey x then y :: x :: l else x :: y :: l) ++ rest, s).
Proof.
  intros [Hx1 Hx2] [Hy1 Hy2].
  destruct (lookup_lt_is_Some_2 blocks (Z.to_nat x)) as [bx Hbx]; [lia|].
  destruct (lookup_lt_is_Some_2 blocks (Z.to_nat y)) as [by_ Hby]; [lia|].
  unfold bubble_step.
  mstep_with ltac:(apply arr_get_ok; [lia|]; rewrite Nat2Z.id; by apply list_lookup_middle).
  mstep_with ltac:(apply arr_get_ok; [lia|exact Hbx]).
  mstep_with ltac:(apply (arr_get_ok _ _ y); [lia|];
    replace (Z.to_nat (Z.of_nat (length p) + 1)) with (length (p ++ [x])) by (rewrite length_app; simpl; lia);
    rewrite (app_assoc p [x] (y :: l ++ rest) : p ++ x :: y :: l ++ rest = _); by apply list_lookup_middle).
  mstep_with ltac:(apply arr_get_ok; [lia|exact Hby]).
  unfold ikey, kgt. rewrite Hbx, Hby. cbn [from_option].
  destruct (k by_ <? k bx); [|done].
  mstep_with ltac:(apply arr_set_ok; rewrite length_app; cbn [length]; lia).
  rewrite arr_set_ok by (rewrite length_insert, length_app; cbn [length]; lia).
  do 2 f_equal. rewrite Nat2Z.id, insert_app_r_alt by lia. rewrite Nat.sub_diag. cbn [insert list_insert].
  rewrite insert_app_r_alt by lia.
  by replace (Z.to_nat (Z.of_nat (length p) + 1) - length p)%nat with 1%nat by lia.
Qed.

Lemma bubble_pass_spec {S} m p l rest (s : S) :
  Forall idx_ok l → (m < length l)%nat →
  for_n m (Z.of_nat (length p)) (bubble_step blocks kgt) (p ++ l ++ rest) s
  = Ret (p ++ bub m l ++ rest, s).
Proof.
  revert p l. induction m as [|m IH]; intros p l Hl Hm; [done|].
  destruct l as [|x [|y l]]; cbn [length] in Hm; [lia..|].
  apply Forall_cons in Hl as [Hx Hl]. apply Forall_cons in Hl as [Hy Hl].
  cbn [for_n]. mstep_with ltac:(apply (bubble_step_spec p x y l rest); done).
  assert (∀ a b, idx_ok b → for_n m (Z.of_nat (length p) + 1) (bubble_step blocks kgt)
            (p ++ a :: (b :: l) ++ rest) s = Ret (p ++ a :: bub m (b :: l) ++ rest, s)) as Hrec.
  { intros a b Hb. specialize (IH (p ++ [a]) (b :: l)). rewrite length_app in IH. cbn [length] in IH.
    rewrite <- !app_assoc, Nat2Z.inj_add in IH. apply IH; [by constructor|]. lia. }
  cbn [bub]. destruct (ikey y <? ikey x); [exact (Hrec y x Hx)|exact (Hrec x y Hy)].
Qed.

(** *** Correctness *)

(** The first [n] indices after the sort: the same ones, by increasing key,
    equal keys in their old order. *)
Definition sorted_indices (l l' : list Z) : Prop :=
  l' ≡ₚ l ∧ StronglySorted (λ a b, ikey a ≤ ikey b) l'
  ∧ ∀ c, filter (λ i, ikey i = c) l' = filter (λ i, ikey i = c) l.

(** After [i] passes the last [i] indices are in place. *)
Definition in_place (l : list Z) (i : Z) (p q : list Z) : Prop :=
  Z.of_nat (length q) = i ∧ p ++ q ≡ₚ l ∧ StronglySorted (λ a b, ikey a ≤ ikey b) q
  ∧ (∀ a b, a ∈ p → b ∈ q → ikey a ≤ ikey b)
  ∧ ∀ c, filter (λ i, ikey i = c) (p ++ q) = filter (λ i, ikey i = c) l.

Lemma in_place_pass l i x p q :
  in_place l i (x :: p) q →
  ∃ p' q', bub (length p) ((x :: p) ++ q) = p' ++ q' ∧ in_place l (i + 1) p' q'.
Proof.
  intros (H1 & H2 & H3 & H4 & H5). destruct (bub_max x p q) as (l' & mx & E & Hp & Hm).
  exists l', (mx :: q). split; [done|].
  assert (mx ∈ x :: p) as Hmx by (rewrite Hp; elem).
  split_and!.
  - cbn [length]. lia.
  - rewrite <- E, bub_perm. exact H2.
  - constructor; [done|]. apply Forall_forall. intros b Hb. by apply H4.
  - intros a b Ha Hb. apply elem_of_cons in Hb as [->|Hb]; [by apply Hm|].
    apply H4; [|done]. rewrite Hp. by apply elem_of_cons; right.
  - intros c. rewrite <- E, bub_stable. apply H5.
Qed.

Lemma bubble_sort_spec {S} l rest (s : S) :
  Forall idx_ok l → Z.of_nat (length l) < 2 ^ 64 →
  ∃ l', bubble_sort blocks kgt (Z.of_nat (length l)) (l ++ rest) s = Ret (l' ++ rest, s)
    ∧ sorted_indices l l'.
Proof.
  intros Hl Hb. unfold bubble_sort.
  destruct (for_range_inv
    (λ i a s', s' = s ∧ ∃ p q, a = p ++ q ++ rest ∧ in_place l i p q)
    (λ i indices, last ← usize_sub (Z.of_nat (length l)) 1; last ← usize_sub last i;
       for_range 0 last (bubble_step blocks kgt) indices)
    0 (Z.of_nat (length l)) (l ++ rest) s) as (a' & s' & E & -> & p & q & -> & H).
  - lia.
  - split; [done|]. exists l, []. split; [done|]. split_and!; rewrite ?app_nil_r; try done; [constructor|].
    intros a b _ Hb'. by apply elem_of_nil in Hb'.
  - intros i a s' Hi (-> & p & q & -> & H). pose proof H as (H1 & H2 & _).
    assert (length (p ++ q) = length l) as Hlen by (by rewrite H2). rewrite length_app in Hlen.
    destruct p as [|x p]; [cbn [length] in Hlen; lia|]. cbn [length] in Hlen.
    destruct (in_place_pass l i x p q H) as (p' & q' & Ebub & H').
    exists ((p' ++ q') ++ rest), s. split.
    + mstep_arith. mstep_arith. unfold for_range.
      replace (Z.to_nat (Z.of_nat (length l) - 1 - i - 0)) with (length p) by lia.
      rewrite <- Ebub, app_assoc. apply (bubble_pass_spec (length p) [] ((x :: p) ++ q) rest).
      * rewrite H2. exact Hl.
      * rewrite length_app. cbn [length]. lia.
    + split; [done|]. exists p', q'. by rewrite <- app_assoc.
  - exists (p ++ q). split; [by rewrite <- app_assoc|].
    destruct H as (H1 & H2 & H3 & H4 & H5).
    assert (p = []) as ->.
    { apply nil_length_inv. assert (length (p ++ q) = length l) as Hlen by (by rewrite H2).
      rewrite length_app in Hlen. lia. }
    by split_and!.
Qed.

Lemma index_array_spec {S} (N : nat) (n : nat) (s : S) :
  (n ≤ N)%nat →
  index_array N (Z.of_nat n) s = Ret (seqZ 0 (Z.of_nat n) ++ replicate (N - n) 0, s).
Proof.
  intros Hn. unfold index_array.
  destruct (for_range_inv
    (λ i a (s' : S), s' = s ∧ a = seqZ 0 i ++ replicate (N - Z.to_nat i) 0)
    (λ i indices, arr_set indices i i) 0 (Z.of_nat n) (replicate N 0) s)
    as (a & s' & E & -> & ->).
  - lia.
  - split; [done|]. by rewrite Nat.sub_0_r.
  - intros i a s' Hi (-> & ->). eexists _, s. split.
    + apply arr_set_ok. rewrite length_app, length_seqZ, length_replicate. lia.
    + split; [done|].
      replace (seqZ 0 (i + 1)) with (seqZ 0 i ++ [i]).
      2:{ by rewrite seqZ_app by lia. }
      replace (N - Z.to_nat i)%nat with (Datatypes.S (N - Z.to_nat (i + 1))) by lia.
      cbn [replicate]. rewrite insert_app_r_alt by (rewrite length_seqZ; lia).
      rewrite length_seqZ, Nat.sub_diag. cbn [insert list_insert].
      by rewrite <- app_assoc.
  - rewrite E. by rewrite Nat2Z.id.
Qed.

End bubble_spec.
