(* ===== verification/Handover.v ===== *)
(** * Handover information

    Models [src/init/alloc/handover.rs]: the snapshot of the allocated blocks
    that the early allocator passes to the memory manager ([HandoverInfo]), its
    queries, leak detection, checksum and validation, and the helpers of
    [handover_utils] (memory map, searches, fragmentation analysis).  The state
    of the functions that read the time is the static [COUNTER] of the file. *)

From Stdlib Require Import ZArith Lia String.
From stdpp Require Import base option numbers sorting strings list.
From S2P Require Import Prelude Purpose Metadata Arrays.

Definition MAX_TRACKED_BLOCKS : Z := 512.
Definition HANDOVER_PROTOCOL_VERSION : Z := 1.
Definition HANDOVER_MAGIC : Z := 0x48414E444F564552.

(** [get_timestamp] of this file: [COUNTER.fetch_add(1, Relaxed)]. *)
Definition handover_timestamp_now : M Z Z := λ c, Ret (c, wrap64 (c + 1)).

(** ** [AllocatedBlock] *)

Module AllocatedBlock.

Record t : Type := mk {
  addr : Z;
  size : Z;
  purpose : AllocPurpose.t;
  alloc_id : Z;
  timestamp : Z;
  permissions : MemoryPermissions.t;
  alignment : Z;
  reserved : Z * Z;
}.

Definition new (a sz : Z) (p : AllocPurpose.t) (id : Z) : M Z t :=
  ts ← handover_timestamp_now;
  mret (mk a sz p id ts MemoryPermissions.READ_WRITE 8 (0, 0)).

Definition end_addr {P : Profile} {S} (self : t) : M S Z := usize_add (addr self) (size self).

Definition contains {P : Profile} {S} (self : t) (a : Z) : M S bool :=
  if addr self <=? a then e ← end_addr self; mret (a <? e) else mret false.

Definition overlaps_with {P : Profile} {S} (self other : t) : M S bool :=
  e ← end_addr other;
  if addr self <? e then e' ← end_addr self; mret (addr other <? e') else mret false.

Definition age (self : t) : M Z Z :=
  now ← handover_timestamp_now;
  mret (saturating_sub now (timestamp self)).

Definition is_old (self : t) (threshold : Z) : M Z bool :=
  a ← age self;
  mret (threshold <? a).

End AllocatedBlock.

(** ** [HandoverInfo] *)

Record PerformanceMetrics : Type := mkPerformanceMetrics {
  avg_alloc_time : Z;
  avg_dealloc_time : Z;
  cache_hit_rate : Z;
  defrag_count : Z;
  max_consecutive_failures : Z;
}.

Record AllocatorState : Type := mkAllocatorState {
  st_frozen : bool;
  integrity_ok : bool;
  health_status : Z;
  error_count : Z;
  performance_metrics : PerformanceMetrics;
}.

Record LeakDetectionResult : Type := mkLeakDetectionResult {
  suspicious_blocks : list Z;      (* [usize; 64] *)
  suspicious_count : Z;
  total_suspicious_size : Z;
  oldest_block_age : Z;
  leak_score : Z;
}.

Module HandoverInfo.

Record t : Type := mk {
  version : Z;
  magic : Z;
  heap_start : Z;
  heap_end : Z;
  allocated_blocks : list AllocatedBlock.t;   (* [AllocatedBlock; MAX_TRACKED_BLOCKS] *)
  allocated_count : Z;
  statistics : AllocStats.t;
  allocator_state : AllocatorState;
  handover_timestamp : Z;
  checksum : Z;
}.

Definition set_checksum (c : Z) (i : t) : t :=
  mk (version i) (magic i) (heap_start i) (heap_end i) (allocated_blocks i) (allocated_count i)
     (statistics i) (allocator_state i) (handover_timestamp i) c.
Definition set_blocks (l : list AllocatedBlock.t) (n : Z) (i : t) : t :=
  mk (version i) (magic i) (heap_start i) (heap_end i) l n
     (statistics i) (allocator_state i) (handover_timestamp i) (checksum i).

(** The filler of the block array. *)
Definition no_block : AllocatedBlock.t :=
  AllocatedBlock.mk 0 0 AllocPurpose.Unknown 0 0 MemoryPermissions.READ_WRITE 8 (0, 0).

(** [checksum.wrapping_add(v as u32)] *)
Definition add32 (c v : Z) : Z := wrap32 (c + wrap32 v).

Definition calculate_checksum {S} (i : t) : M S Z :=
  let c := add32 0 (version i) in
  let c := add32 c (magic i) in
  let c := add32 c (Z.shiftr (magic i) 32) in
  let c := add32 c (heap_start i) in
  let c := add32 c (heap_end i) in
  let c := add32 c (allocated_count i) in
  for_range 0 (Z.min (allocated_count i) 16) (λ k c,
    block ← arr_get (allocated_blocks i) k;
    let c := add32 c (AllocatedBlock.addr block) in
    let c := add32 c (AllocatedBlock.size block) in
    mret (add32 c (AllocatedBlock.alloc_id block))) c.

Definition update_checksum {S} (i : t) : M S t :=
  c ← calculate_checksum i;
  mret (set_checksum c i).

Definition new (hstart hend : Z) (stats : AllocStats.t) : M Z t :=
  ts ← handover_timestamp_now;
  update_checksum
    (mk HANDOVER_PROTOCOL_VERSION HANDOVER_MAGIC hstart hend
        (replicate (Z.to_nat MAX_TRACKED_BLOCKS) no_block) 0 stats
        (mkAllocatorState false true 0 0 (mkPerformanceMetrics 0 0 100 0 0)) ts 0).

Section queries.
Context {P : Profile} {S : Type}.

Definition heap_size (i : t) : M S Z := usize_sub (heap_end i) (heap_start i).

(** The four size queries are the same loop with a test on the purpose. *)
Definition size_where (test : AllocPurpose.t → bool) (i : t) : M S Z :=
  for_range 0 (allocated_count i) (λ k total,
    block ← arr_get (allocated_blocks i) k;
    if test (AllocatedBlock.purpose block) then usize_add total (AllocatedBlock.size block)
    else mret total) 0.

Definition allocated_size : t → M S Z := size_where (λ _, true).
Definition reclaimable_size : t → M S Z := size_where AllocPurpose.is_reclaimable.
Definition critical_size : t → M S Z := size_where AllocPurpose.is_critical.
Definition movable_size : t → M S Z := size_where AllocPurpose.is_movable.

(** The groups of [group_by_purpose], in the order of the source. *)
Definition group_purposes : list AllocPurpose.t :=
  [ AllocPurpose.Unknown; AllocPurpose.InterruptTable; AllocPurpose.ProcessControlBlock;
    AllocPurpose.PageTable; AllocPurpose.KernelStack; AllocPurpose.KernelHeap;
    AllocPurpose.DriverBuffer; AllocPurpose.FileSystemMeta; AllocPurpose.NetworkBuffer;
    AllocPurpose.TempBuffer; AllocPurpose.BootstrapData; AllocPurpose.DeviceTree;
    AllocPurpose.SymbolTable; AllocPurpose.ModuleCode; AllocPurpose.CacheBuffer;
    AllocPurpose.SharedMemory; AllocPurpose.UserData; AllocPurpose.SystemCall;
    AllocPurpose.Debugging; AllocPurpose.Testing ].

(** [for group in &mut groups { if .. { ..; break; } }] *)
Fixpoint bump_group (p : AllocPurpose.t) (sz : Z) (groups : list (AllocPurpose.t * Z * Z))
    : M S (list (AllocPurpose.t * Z * Z)) :=
  match groups with
  | [] => mret []
  | (q, n, total) :: rest =>
      if AllocPurpose.discriminant q =? AllocPurpose.discriminant p then
        n' ← usize_add n 1;
        total' ← usize_add total sz;
        mret ((q, n', total') :: rest)
      else
        rest' ← bump_group p sz rest;
        mret ((q, n, total) :: rest')
  end.

Definition group_by_purpose (i : t) : M S (list (AllocPurpose.t * Z * Z)) :=
  for_range 0 (allocated_count i) (λ k groups,
    block ← arr_get (allocated_blocks i) k;
    bump_group (AllocatedBlock.purpose block) (AllocatedBlock.size block) groups)
    (map (λ p, (p, 0, 0)) group_purposes).

Definition blocks_by_priority (i : t) : M S (list Z) :=
  indices ← index_array (Z.to_nat MAX_TRACKED_BLOCKS) (allocated_count i);
  bubble_sort (allocated_blocks i)
    (kgt (λ b, AllocPurpose.priority (AllocatedBlock.purpose b)))
    (allocated_count i) indices.

(** [validate], with the messages of the source. *)
Definition validate (i : t) : M S (result string unit) :=
  if negb (magic i =? HANDOVER_MAGIC) then mret (Err "Invalid handover magic")
  else if negb (version i =? HANDOVER_PROTOCOL_VERSION) then mret (Err "Unsupported protocol version")
  else if heap_end i <=? heap_start i then mret (Err "Invalid heap range")
  else if MAX_TRACKED_BLOCKS <? allocated_count i then mret (Err "Too many allocated blocks")
  else
    c ← calculate_checksum i;
    if negb (checksum i =? c) then mret (Err "Checksum validation failed")
    else
      outside ← search_range 0 (allocated_count i) (λ k,
        block ← arr_get (allocated_blocks i) k;
        if AllocatedBlock.addr block <? heap_start i then mret (Some tt)
        else
          e ← AllocatedBlock.end_addr block;
          mret (if heap_end i <? e then Some tt else None));
      match outside with
      | Some _ => mret (Err "Block outside heap range")
      | None =>
          overlap ← search_range 0 (allocated_count i) (λ k,
            search_range (k + 1) (allocated_count i) (λ j,
              block1 ← arr_get (allocated_blocks i) k;
              block2 ← arr_get (allocated_blocks i) j;
              o ← AllocatedBlock.overlaps_with block1 block2;
              mret (if (o : bool) then Some tt else None)));
          match overlap with
          | Some _ => mret (Err "Overlapping blocks detected")
          | None =>
              calculated_size ← allocated_size i;
              if negb (calculated_size =? AllocStats.used_size (statistics i))
              then mret (Err "Statistics mismatch")
              else mret (Ok tt)
          end
      end.

End queries.

(** *** Queries that read the time *)

Definition find_old_blocks {P : Profile} (i : t) (age_threshold : Z) : M Z (list Z) :=
  '(old_blocks, _) ← for_range 0 (allocated_count i) (λ k '(old_blocks, count),
    block ← arr_get (allocated_blocks i) k;
    old ← AllocatedBlock.is_old block age_threshold;
    if old && (count <? MAX_TRACKED_BLOCKS) then
      old_blocks ← arr_set old_blocks count k;
      count ← usize_add count 1;
      mret (old_blocks, count)
    else mret (old_blocks, count))
    (replicate (Z.to_nat MAX_TRACKED_BLOCKS) usize_MAX, 0);
  mret old_blocks.

(** One block of [detect_potential_leaks]. *)
Definition suspicious_block (block : AllocatedBlock.t) (oldest : Z) : M Z (bool * Z) :=
  old ← AllocatedBlock.is_old block 10000;
  oldest ← (if (old : bool) then a ← AllocatedBlock.age block; mret (Z.max oldest a) else mret oldest);
  let suspicious := old || (1024 * 1024 <? AllocatedBlock.size block) in
  let temporary := match AllocatedBlock.purpose block with
                   | AllocPurpose.TempBuffer | AllocPurpose.Testing => true
                   | _ => false
                   end in
  old' ← (if temporary : bool then AllocatedBlock.is_old block 1000 else mret false);
  mret (suspicious || old', oldest).

Definition detect_potential_leaks {P : Profile} (i : t) : M Z LeakDetectionResult :=
  r ← for_range 0 (allocated_count i) (λ k r,
    block ← arr_get (allocated_blocks i) k;
    '(suspicious, oldest) ← suspicious_block block (oldest_block_age r);
    if suspicious && (suspicious_count r <? 64) then
      bs ← arr_set (suspicious_blocks r) (suspicious_count r) k;
      n ← usize_add (suspicious_count r) 1;
      total ← usize_add (total_suspicious_size r) (AllocatedBlock.size block);
      mret (mkLeakDetectionResult bs n total oldest (leak_score r))
    else
      mret (mkLeakDetectionResult (suspicious_blocks r) (suspicious_count r)
              (total_suspicious_size r) oldest (leak_score r)))
    (mkLeakDetectionResult (replicate 64 usize_MAX) 0 0 0 0);
  mret (mkLeakDetectionResult (suspicious_blocks r) (suspicious_count r) (total_suspicious_size r)
          (oldest_block_age r)
          (F32.to_u8 (F32.mul (F32.div (F32.of_Z (suspicious_count r))
                                       (F32.of_Z (Z.max (allocated_count i) 1)))
                              (F32.of_Z 100)))).

End HandoverInfo.

(** ** [handover_utils] *)

Module handover_utils.

Inductive PageStatus : Type := Free | Occupied | Reserved.

Record MemoryMapEntry : Type := mkMemoryMapEntry {
  status : PageStatus;
  purpose : AllocPurpose.t;
  alloc_id : Z;
}.

Definition MemoryMapEntry_free : MemoryMapEntry := mkMemoryMapEntry Free AllocPurpose.Unknown 0.
Definition MemoryMapEntry_occupied (p : AllocPurpose.t) (id : Z) : MemoryMapEntry :=
  mkMemoryMapEntry Occupied p id.

Record FragmentationAnalysis : Type := mkFragmentationAnalysis {
  external_fragmentation : Z;
  internal_fragmentation : Z;
  largest_free_block : Z;
  free_block_count : Z;
  fragmentation_score : Z;
}.

Section utils.
Context {P : Profile} {S : Type}.

(** [start_page..end_page] of a block. *)
Definition block_pages (block : AllocatedBlock.t) (heap_start : Z) : M S (Z * Z) :=
  off ← usize_sub (AllocatedBlock.addr block) heap_start;
  e ← AllocatedBlock.end_addr block;
  eo ← usize_sub e heap_start;
  eo ← usize_add eo 4096;
  eo ← usize_sub eo 1;
  mret (off / 4096, eo / 4096).

Definition create_memory_map (blocks : list AllocatedBlock.t) (block_count heap_start heap_size : Z)
    : M S (list MemoryMapEntry) :=
  up ← usize_add heap_size 4096;
  up ← usize_sub up 1;
  let num_pages := up / 4096 in
  let max_pages := Z.min num_pages 512 in
  for_range 0 block_count (λ i map,
    block ← arr_get blocks i;
    '(start_page, end_page) ← block_pages block heap_start;
    for_range start_page (Z.min end_page max_pages) (λ page map,
      arr_set map page
        (MemoryMapEntry_occupied (AllocatedBlock.purpose block) (AllocatedBlock.alloc_id block))) map)
    (replicate 512 MemoryMapEntry_free).

Definition find_block_by_addr (blocks : list AllocatedBlock.t) (block_count addr : Z)
    : M S (option AllocatedBlock.t) :=
  search_range 0 block_count (λ i,
    block ← arr_get blocks i;
    c ← AllocatedBlock.contains block addr;
    mret (if (c : bool) then Some block else None)).

Definition find_blocks_by_purpose (blocks : list AllocatedBlock.t) (block_count : Z)
    (p : AllocPurpose.t) : M S (list Z) :=
  '(r, _) ← for_range 0 block_count (λ i '(r, count),
    block ← arr_get blocks i;
    if (AllocPurpose.discriminant (AllocatedBlock.purpose block) =? AllocPurpose.discriminant p)
       && (count <? MAX_TRACKED_BLOCKS) then
      r ← arr_set r count i;
      count ← usize_add count 1;
      mret (r, count)
    else mret (r, count))
    (replicate (Z.to_nat MAX_TRACKED_BLOCKS) usize_MAX, 0);
  mret r.

(** A gap of the heap is added to the analysis. *)
Definition add_gap (gap_size : Z) (a : FragmentationAnalysis) : M S FragmentationAnalysis :=
  ext ← usize_add (external_fragmentation a) gap_size;
  n ← usize_add (free_block_count a) 1;
  mret (mkFragmentationAnalysis ext (internal_fragmentation a) (Z.max (largest_free_block a) gap_size)
          n (fragmentation_score a)).

Definition calculate_advanced_fragmentation (blocks : list AllocatedBlock.t)
    (block_count heap_start heap_end : Z) : M S FragmentationAnalysis :=
  sorted_blocks ← index_array (Z.to_nat MAX_TRACKED_BLOCKS) block_count;
  sorted_blocks ← bubble_sort blocks (kgt AllocatedBlock.addr) block_count sorted_blocks;
  '(analysis, last_end) ← for_range 0 block_count (λ i '(analysis, last_end),
    ix ← arr_get sorted_blocks i;
    block ← arr_get blocks ix;
    analysis ← (if last_end <? AllocatedBlock.addr block then
                  gap_size ← usize_sub (AllocatedBlock.addr block) last_end;
                  add_gap gap_size analysis
                else mret analysis);
    last_end ← AllocatedBlock.end_addr block;
    mret (analysis, last_end))
    (mkFragmentationAnalysis 0 0 0 0 0, heap_start);
  analysis ← (if last_end <? heap_end then
                gap_size ← usize_sub heap_end last_end;
                add_gap gap_size analysis
              else mret analysis);
  let total_free := external_fragmentation analysis in
  let score :=
    if 0 <? total_free then
      F32.to_u8 (F32.mul (F32.div (F32.of_Z (free_block_count analysis)) (F32.of_Z (total_free / 4096)))
                         (F32.of_Z 100))
    else fragmentation_score analysis in
  mret (mkFragmentationAnalysis (external_fragmentation analysis) (internal_fragmentation analysis)
          (largest_free_block analysis) (free_block_count analysis) score).

End utils.

End handover_utils.
