(* ===== verification/HandoverThms.v ===== *)
(** * Correctness of the handover information

    The queries of [HandoverInfo] are exact, [validate] accepts exactly the
    consistent snapshots, and the helpers of [handover_utils] describe the heap
    faithfully. *)

From Stdlib Require Import ZArith Lia String.
From stdpp Require Import base option numbers sorting strings list.
From S2P Require Import Prelude Purpose Metadata Arrays Handover.

Abbreviation block := AllocatedBlock.t.

(** ** The tracked blocks *)

(** The entries of the array in use. *)
Definition live (i : HandoverInfo.t) : list block :=
  take (Z.to_nat (HandoverInfo.allocated_count i)) (HandoverInfo.allocated_blocks i).

(** Address and size of a block are words, and its end is one. *)
Definition block_ok (b : block) : Prop :=
  0 ≤ AllocatedBlock.addr b ∧ 0 ≤ AllocatedBlock.size b
  ∧ AllocatedBlock.addr b + AllocatedBlock.size b < 2 ^ 64.

Fixpoint sum_sizes (l : list block) : Z :=
  match l with [] => 0 | b :: l' => AllocatedBlock.size b + sum_sizes l' end.

(** A snapshot whose arithmetic stays in range. *)
Record info_ok (i : HandoverInfo.t) : Prop := {
  io_len : length (HandoverInfo.allocated_blocks i) = Z.to_nat MAX_TRACKED_BLOCKS;
  io_count : 0 ≤ HandoverInfo.allocated_count i ≤ MAX_TRACKED_BLOCKS;
  io_blocks : Forall block_ok (live i);
  io_sum : sum_sizes (live i) < 2 ^ 64;
}.

Lemma sum_sizes_app l1 l2 : sum_sizes (l1 ++ l2) = sum_sizes l1 + sum_sizes l2.
Proof. induction l1 as [|b l1 IH]; cbn [sum_sizes app]; lia. Qed.

#[global] Instance sum_sizes_proper : Proper ((≡ₚ) ==> (=)) sum_sizes.
Proof. intros l1 l2. induction 1; cbn [sum_sizes]; lia. Qed.

Lemma sum_sizes_nonneg l : Forall block_ok l → 0 ≤ sum_sizes l.
Proof. induction 1 as [|b l (_ & H & _) _ IH]; cbn [sum_sizes]; lia. Qed.

Lemma sum_sizes_filter (Q : block → Prop) `{!∀ b, Decision (Q b)} l :
  Forall block_ok l → 0 ≤ sum_sizes (filter Q l) ≤ sum_sizes l.
Proof.
  induction 1 as [|b l (_ & Hb & _) _ IH]; [done|].
  rewrite filter_cons. case_decide; cbn [sum_sizes]; lia.
Qed.

Lemma live_length i : info_ok i → length (live i) = Z.to_nat (HandoverInfo.allocated_count i).
Proof.
  intros [Hl Hc _ _]. unfold live, MAX_TRACKED_BLOCKS in *. rewrite length_take. lia.
Qed.

(** A loop over the tracked blocks. *)
Lemma for_live_inv {S A} i (R : list block → A → S → Prop) (body : Z → A → M S A) acc s :
  info_ok i → R [] acc s →
  (∀ pre x suf a s, live i = pre ++ x :: suf →
     HandoverInfo.allocated_blocks i !! length pre = Some x → R pre a s →
     ∃ a' s', body (Z.of_nat (length pre)) a s = Ret (a', s') ∧ R (pre ++ [x]) a' s') →
  ∃ a' s', for_range 0 (HandoverInfo.allocated_count i) body acc s = Ret (a', s') ∧ R (live i) a' s'.
Proof.
  intros [Hl Hc _ _] H0 Hstep.
  rewrite <- (Z2Nat.id (HandoverInfo.allocated_count i)) by lia. apply for_list_inv; [|done|done].
  unfold MAX_TRACKED_BLOCKS in *. lia.
Qed.

Lemma live_block i pre x suf : info_ok i → live i = pre ++ x :: suf → block_ok x.
Proof.
  intros [_ _ H _] E. rewrite E, Forall_app, Forall_cons in H. tauto.
Qed.

(** Reading entry [k] of the array. *)
Ltac read_block H :=
  mstep_with ltac:(apply arr_get_ok; [lia | rewrite Nat2Z.id; exact H]).

(** ** Sizes and groups *)

Section queries.
Context {P : Profile} {S : Type}.
Implicit Types (i : HandoverInfo.t) (s : S).

Lemma size_where_spec test i s :
  info_ok i →
  HandoverInfo.size_where test i s
  = Ret (sum_sizes (filter (λ b, test (AllocatedBlock.purpose b)) (live i)), s).
Proof.
  intros Hi. unfold HandoverInfo.size_where.
  destruct (for_live_inv i
    (λ pre a s', s' = s ∧ a = sum_sizes (filter (λ b, test (AllocatedBlock.purpose b)) pre))
    (λ k total, block ← arr_get (HandoverInfo.allocated_blocks i) k;
      if test (AllocatedBlock.purpose block) then usize_add total (AllocatedBlock.size block)
      else mret total) 0 s Hi) as (a & s' & E & -> & ->); [done| |exact E].
  intros pre x suf a s' Hlive Hx (-> & ->).
  rewrite filter_app, filter_cons, filter_nil, sum_sizes_app.
  pose proof (io_blocks i Hi) as Hb. pose proof (io_sum i Hi) as Hs. rewrite Hlive in Hb, Hs.
  rewrite sum_sizes_app in Hs. apply Forall_app in Hb as [Hb1 Hb2].
  apply Forall_cons in Hb2 as [(_ & Hx2 & _) Hb2]. cbn [sum_sizes] in Hs.
  pose proof (sum_sizes_nonneg _ Hb2).
  pose proof (sum_sizes_filter (λ b, test (AllocatedBlock.purpose b)) pre Hb1).
  destruct (test (AllocatedBlock.purpose x)) eqn:Et; eexists _, s; split.
  - read_block Hx. rewrite Et. apply usize_add_ok. lia.
  - split; [done|]. rewrite decide_True by done. cbn [sum_sizes]. lia.
  - read_block Hx. rewrite Et. reflexivity.
  - split; [done|]. rewrite decide_False by (by intros []). cbn [sum_sizes]. lia.
Qed.

Lemma allocated_size_spec i s :
  info_ok i → HandoverInfo.allocated_size i s = Ret (sum_sizes (live i), s).
Proof.
  intros Hi. unfold HandoverInfo.allocated_size. rewrite size_where_spec by done. do 3 f_equal.
  clear Hi. induction (live i) as [|b l IH]; [done|]. rewrite filter_cons, decide_True by done. by rewrite IH.
Qed.

(** The blocks with purpose [p], and the entry of [p] in the groups. *)
Definition with_purpose (p : AllocPurpose.t) (l : list block) : list block :=
  filter (λ b, AllocatedBlock.purpose b = p) l.
Definition group_of (l : list block) (p : AllocPurpose.t) : AllocPurpose.t * Z * Z :=
  (p, Z.of_nat (length (with_purpose p l)), sum_sizes (with_purpose p l)).

Lemma with_purpose_snoc p l x :
  with_purpose p (l ++ [x])
  = with_purpose p l ++ (if decide (AllocatedBlock.purpose x = p) then [x] else []).
Proof. unfold with_purpose. by rewrite filter_app, filter_cons, filter_nil. Qed.

Lemma bump_group_spec l x ps s :
  NoDup ps → Forall block_ok (l ++ [x]) → sum_sizes (l ++ [x]) < 2 ^ 64 →
  Z.of_nat (length l) + 1 < 2 ^ 64 →
  HandoverInfo.bump_group (AllocatedBlock.purpose x) (AllocatedBlock.size x) (map (group_of l) ps) s
  = Ret (map (group_of (l ++ [x])) ps, s).
Proof.
  intros Hnd Hb Hs Hl. apply Forall_app in Hb as [Hb Hbx].
  apply Forall_cons in Hbx as [(_ & Hx & _) _].
  rewrite sum_sizes_app in Hs. cbn [sum_sizes] in Hs.
  assert (∀ q, AllocatedBlock.purpose x ≠ q → group_of (l ++ [x]) q = group_of l q) as Hother.
  { intros q Hq. unfold group_of. by rewrite with_purpose_snoc, decide_False, app_nil_r. }
  induction Hnd as [|q ps Hq Hnd IH]; [done|]. cbn [map HandoverInfo.bump_group].
  unfold group_of at 1.
  destruct (Z.eqb_spec (AllocPurpose.discriminant q) (AllocPurpose.discriminant (AllocatedBlock.purpose x)))
    as [E|E].
  - apply (inj AllocPurpose.discriminant) in E as ->.
    pose proof (sum_sizes_filter (λ b, AllocatedBlock.purpose b = AllocatedBlock.purpose x) l Hb).
    pose proof (length_filter (λ b, AllocatedBlock.purpose b = AllocatedBlock.purpose x) l).
    unfold with_purpose at 1 2.
    mstep_arith. mstep_arith. cbn [mret M_ret]. unfold mret, M_ret. do 2 f_equal. f_equal.
    + unfold group_of. rewrite with_purpose_snoc, decide_True by done.
      rewrite length_app, sum_sizes_app. cbn [length sum_sizes]. f_equal; [f_equal|]; unfold with_purpose; lia.
    + apply map_ext_in. intros q' Hq'. symmetry. apply Hother. intros <-. by apply Hq, list_elem_of_In.
  - mstep_with ltac:(exact IH). unfold mret, M_ret. rewrite (Hother q); [done|]. by intros <-.
Qed.

Lemma group_purposes_nodup : NoDup (HandoverInfo.group_purposes).
Proof. apply (bool_decide_unpack _). by vm_compute. Qed.

Lemma group_purposes_complete p : p ∈ HandoverInfo.group_purposes.
Proof. apply (bool_decide_unpack _). by destruct p. Qed.

Lemma group_by_purpose_spec i s :
  info_ok i →
  HandoverInfo.group_by_purpose i s = Ret (map (group_of (live i)) HandoverInfo.group_purposes, s).
Proof.
  intros Hi. unfold HandoverInfo.group_by_purpose.
  destruct (for_live_inv i
    (λ pre a s', s' = s ∧ a = map (group_of pre) HandoverInfo.group_purposes)
    (λ k groups, block ← arr_get (HandoverInfo.allocated_blocks i) k;
      HandoverInfo.bump_group (AllocatedBlock.purpose block) (AllocatedBlock.size block) groups)
    (map (λ p, (p, 0, 0)) HandoverInfo.group_purposes) s Hi) as (a & s' & E & -> & ->);
    [done| |exact E].
  intros pre x suf a s' Hlive Hx (-> & ->).
  pose proof (io_blocks i Hi) as Hb. pose proof (io_sum i Hi) as Hs.
  pose proof (live_length i Hi) as Hlen. pose proof (io_count i Hi) as Hc. unfold MAX_TRACKED_BLOCKS in Hc.
  replace (pre ++ x :: suf) with ((pre ++ [x]) ++ suf) in Hlive by (by rewrite <- app_assoc).
  rewrite Hlive in Hb, Hs, Hlen. rewrite sum_sizes_app in Hs. apply Forall_app in Hb as [Hb1 Hb2].
  pose proof (sum_sizes_nonneg _ Hb2). rewrite !length_app in Hlen. cbn [length] in Hlen.
  eexists _, s. split; [|done]. read_block Hx.
  apply bump_group_spec; [apply group_purposes_nodup|done|lia|lia].
Qed.

End queries.

(** ** Checksum *)

Fixpoint sum_words (l : list block) : Z :=
  match l with
  | [] => 0
  | b :: l' => AllocatedBlock.addr b + AllocatedBlock.size b + AllocatedBlock.alloc_id b + sum_words l'
  end.

(** The sum, modulo 2^32, of the words that the checksum covers. *)
Definition checksum_of (i : HandoverInfo.t) : Z :=
  (HandoverInfo.version i + HandoverInfo.magic i + Z.shiftr (HandoverInfo.magic i) 32
   + HandoverInfo.heap_start i + HandoverInfo.heap_end i + HandoverInfo.allocated_count i
   + sum_words (take 16 (live i))) mod 2 ^ 32.

Lemma add32_mod a v : HandoverInfo.add32 (a mod 2 ^ 32) v = (a + v) mod 2 ^ 32.
Proof. unfold HandoverInfo.add32, wrap32. by rewrite <- Z.add_mod by lia. Qed.

Lemma sum_words_snoc l x :
  sum_words (l ++ [x])
  = sum_words l + AllocatedBlock.addr x + AllocatedBlock.size x + AllocatedBlock.alloc_id x.
Proof. induction l as [|b l IH]; cbn [sum_words app]; lia. Qed.

Lemma calculate_checksum_spec {S} i (s : S) :
  info_ok i → HandoverInfo.calculate_checksum i s = Ret (checksum_of i, s).
Proof.
  intros Hi. pose proof (io_len i Hi) as Hl. pose proof (io_count i Hi) as Hc.
  unfold HandoverInfo.calculate_checksum, MAX_TRACKED_BLOCKS in *.
  cbv zeta. rewrite <- (Z.mod_0_l (2 ^ 32)) at 2 by lia. rewrite !add32_mod.
  set (base := 0 + _ + _ + _ + _ + _ + _).
  set (n := Z.to_nat (Z.min (HandoverInfo.allocated_count i) 16)).
  replace (Z.min (HandoverInfo.allocated_count i) 16) with (Z.of_nat n) by lia.
  destruct (for_list_inv (HandoverInfo.allocated_blocks i) n
    (λ pre a s', s' = s ∧ a = (base + sum_words pre) mod 2 ^ 32)
    (λ k c, block ← arr_get (HandoverInfo.allocated_blocks i) k;
      mret (HandoverInfo.add32 (HandoverInfo.add32 (HandoverInfo.add32 c (AllocatedBlock.addr block))
              (AllocatedBlock.size block)) (AllocatedBlock.alloc_id block)))
    (base mod 2 ^ 32) s) as (a & s' & E & -> & ->).
  - lia.
  - cbn [sum_words]. by rewrite Z.add_0_r.
  - intros pre x suf a s' _ Hx (-> & ->). eexists _, s. split; [read_block Hx; cbv zeta; reflexivity|].
    split; [done|]. rewrite !add32_mod, sum_words_snoc. f_equal. lia.
  - rewrite E. unfold checksum_of, live. rewrite take_take.
    replace (16 `min` Z.to_nat (HandoverInfo.allocated_count i))%nat with n by lia.
    do 3 f_equal.
Qed.

(** ** Validation *)

Definition in_heap (i : HandoverInfo.t) (b : block) : Prop :=
  HandoverInfo.heap_start i ≤ AllocatedBlock.addr b
  ∧ AllocatedBlock.addr b + AllocatedBlock.size b ≤ HandoverInfo.heap_end i.

Definition apart (b1 b2 : block) : Prop :=
  AllocatedBlock.addr b1 + AllocatedBlock.size b1 ≤ AllocatedBlock.addr b2
  ∨ AllocatedBlock.addr b2 + AllocatedBlock.size b2 ≤ AllocatedBlock.addr b1.

(** A consistent snapshot. *)
Record valid (i : HandoverInfo.t) : Prop := {
  v_magic : HandoverInfo.magic i = HANDOVER_MAGIC;
  v_version : HandoverInfo.version i = HANDOVER_PROTOCOL_VERSION;
  v_range : HandoverInfo.heap_start i < HandoverInfo.heap_end i;
  v_count : HandoverInfo.allocated_count i ≤ MAX_TRACKED_BLOCKS;
  v_checksum : HandoverInfo.checksum i = checksum_of i;
  v_inside : ∀ k b, live i !! k = Some b → in_heap i b;
  v_apart : ∀ k j b1 b2, (k < j)%nat → live i !! k = Some b1 → live i !! j = Some b2 → apart b1 b2;
  v_total : sum_sizes (live i) = AllocStats.used_size (HandoverInfo.statistics i);
}.

Lemma end_addr_ok {P : Profile} {S} b (s : S) :
  block_ok b →
  AllocatedBlock.end_addr b s = Ret (AllocatedBlock.addr b + AllocatedBlock.size b, s).
Proof. intros (? & ? & ?). apply usize_add_ok. lia. Qed.

Lemma overlaps_with_ok {P : Profile} {S} b1 b2 (s : S) :
  block_ok b1 → block_ok b2 →
  ∃ o, AllocatedBlock.overlaps_with b1 b2 s = Ret (o, s) ∧ (o = false ↔ apart b1 b2).
Proof.
  intros H1 H2. unfold AllocatedBlock.overlaps_with, apart.
  destruct (AllocatedBlock.addr b1 <? AllocatedBlock.addr b2 + AllocatedBlock.size b2) eqn:E.
  - eexists. split; [mstep_with ltac:(by apply end_addr_ok); rewrite E;
      mstep_with ltac:(by apply end_addr_ok); reflexivity|].
    b2p. rewrite Z.ltb_ge. lia.
  - exists false. split; [mstep_with ltac:(by apply end_addr_ok); by rewrite E|]. b2p. lia.
Qed.

Section live_lookup.
Context (i : HandoverInfo.t) (Hi : info_ok i).

Lemma live_get k :
  0 ≤ k < HandoverInfo.allocated_count i →
  ∃ b, live i !! Z.to_nat k = Some b ∧ block_ok b
    ∧ ∀ S (s : S), arr_get (HandoverInfo.allocated_blocks i) k s = Ret (b, s).
Proof.
  intros Hk. destruct (lookup_lt_is_Some_2 (live i) (Z.to_nat k)) as [b Hb].
  { rewrite live_length by done. lia. }
  exists b. split_and!; [done| |].
  - exact (proj1 (Forall_lookup _ _) (io_blocks i Hi) _ _ Hb).
  - intros S s. apply arr_get_ok; [lia|]. unfold live in Hb. by apply lookup_take_Some in Hb as [? _].
Qed.

Lemma live_index k b : live i !! k = Some b → 0 ≤ Z.of_nat k < HandoverInfo.allocated_count i.
Proof. intros Hb%lookup_lt_Some. rewrite live_length in Hb by done. lia. Qed.

End live_lookup.

Section validation.
Context {P : Profile} {S : Type}.
Implicit Types s : S.

Lemma outside_spec i s :
  info_ok i →
  ∃ r, search_range 0 (HandoverInfo.allocated_count i) (λ k,
         block ← arr_get (HandoverInfo.allocated_blocks i) k;
         if AllocatedBlock.addr block <? HandoverInfo.heap_start i then mret (Some tt)
         else
           e ← AllocatedBlock.end_addr block;
           mret (if HandoverInfo.heap_end i <? e then Some tt else None)) s = Ret (r, s)
    ∧ (r = None ↔ ∀ k b, live i !! k = Some b → in_heap i b).
Proof.
  intros Hi. pose proof (io_count i Hi) as Hc.
  set (f k := match live i !! Z.to_nat k with
              | Some b => if bool_decide (in_heap i b) then None else Some tt
              | None => None end).
  match goal with |- context [search_range 0 _ ?b s] =>
    destruct (search_range_spec f b 0 (HandoverInfo.allocated_count i) s) as (r & E & H) end.
  - lia.
  - intros k Hk _. destruct (live_get i Hi k Hk) as (b & Hb & Hok & Hg).
    mstep_with ltac:(apply Hg). unfold f. rewrite Hb. unfold in_heap.
    destruct (Z.ltb_spec (AllocatedBlock.addr b) (HandoverInfo.heap_start i)).
    + rewrite bool_decide_false by lia. reflexivity.
    + mstep_with ltac:(by apply end_addr_ok).
      destruct (Z.ltb_spec (HandoverInfo.heap_end i) (AllocatedBlock.addr b + AllocatedBlock.size b));
        [rewrite bool_decide_false by lia|rewrite bool_decide_true by lia]; reflexivity.
  - exists r. split; [done|]. destruct r as [[]|].
    + destruct H as (k & Hk & Hf & _). split; [done|]. intros Hall. exfalso. unfold f in Hf.
      destruct (live i !! Z.to_nat k) as [b|] eqn:Eb; [|done].
      rewrite bool_decide_true in Hf; [done|]. by eapply Hall.
    + split; [|done]. intros _ k b Hb. specialize (H (Z.of_nat k) (live_index i Hi k b Hb)).
      unfold f in H. rewrite Nat2Z.id, Hb in H. by case_bool_decide.
Qed.

Lemma overlap_row_spec i k b1 s :
  info_ok i → live i !! Z.to_nat k = Some b1 → 0 ≤ k →
  ∃ r, search_range (k + 1) (HandoverInfo.allocated_count i) (λ j,
         block1 ← arr_get (HandoverInfo.allocated_blocks i) k;
         block2 ← arr_get (HandoverInfo.allocated_blocks i) j;
         o ← AllocatedBlock.overlaps_with block1 block2;
         mret (if (o : bool) then Some tt else None)) s = Ret (r, s)
    ∧ (r = None ↔ ∀ j b2, (Z.to_nat k < j)%nat → live i !! j = Some b2 → apart b1 b2).
Proof.
  intros Hi Hb1 Hk0. pose proof (io_count i Hi) as Hc.
  pose proof (live_index i Hi _ _ Hb1) as Hk. rewrite Z2Nat.id in Hk by lia.
  set (f j := match live i !! Z.to_nat j with
              | Some b2 => if bool_decide (apart b1 b2) then None else Some tt
              | None => None end).
  match goal with |- context [search_range (k + 1) _ ?b s] =>
    destruct (search_range_spec f b (k + 1) (HandoverInfo.allocated_count i) s) as (r & E & H) end.
  - lia.
  - intros j Hj _. destruct (live_get i Hi k Hk) as (b1' & Hb1' & Hok1 & Hg1).
    rewrite Hb1 in Hb1'. injection Hb1' as <-.
    destruct (live_get i Hi j) as (b2 & Hb2 & Hok2 & Hg2); [lia|].
    destruct (overlaps_with_ok b1 b2 s Hok1 Hok2) as (o & Eo & Ho).
    mstep_with ltac:(apply Hg1). mstep_with ltac:(apply Hg2). mstep_with ltac:(exact Eo).
    unfold f. rewrite Hb2. destruct o.
    + rewrite bool_decide_false; [reflexivity|]. intros Ha. by apply Ho in Ha.
    + rewrite bool_decide_true; [reflexivity|]. by apply Ho.
  - exists r. split; [done|]. destruct r as [[]|].
    + destruct H as (j & Hj & Hf & _). split; [done|]. intros Hall. exfalso. unfold f in Hf.
      destruct (live i !! Z.to_nat j) as [b|] eqn:Eb; [|done].
      rewrite bool_decide_true in Hf; [done|]. apply (Hall (Z.to_nat j)); [lia|done].
    + split; [|done]. intros _ j b2 Hj Hb2. pose proof (live_index i Hi j b2 Hb2).
      specialize (H (Z.of_nat j)). unfold f in H. rewrite Nat2Z.id, Hb2 in H.
      case_bool_decide; [done|]. by specialize (H ltac:(lia)).
Qed.

Lemma overlap_spec i s :
  info_ok i →
  ∃ r, search_range 0 (HandoverInfo.allocated_count i) (λ k,
         search_range (k + 1) (HandoverInfo.allocated_count i) (λ j,
           block1 ← arr_get (HandoverInfo.allocated_blocks i) k;
           block2 ← arr_get (HandoverInfo.allocated_blocks i) j;
           o ← AllocatedBlock.overlaps_with block1 block2;
           mret (if (o : bool) then Some tt else None))) s = Ret (r, s)
    ∧ (r = None ↔ ∀ k j b1 b2, (k < j)%nat → live i !! k = Some b1 → live i !! j = Some b2 → apart b1 b2).
Proof.
  intros Hi. pose proof (io_count i Hi) as Hc.
  match goal with |- context [search_range 0 _ ?b s] => set (body := b) end.
  set (f k := match body k s with Ret (r, _) => r | _ => None end).
  assert (∀ k b1, 0 ≤ k → live i !! Z.to_nat k = Some b1 →
            body k s = Ret (f k, s) ∧ (f k = None ↔
              ∀ j b2, (Z.to_nat k < j)%nat → live i !! j = Some b2 → apart b1 b2)) as Hrow.
  { intros k b1 Hk Hb1. destruct (overlap_row_spec i k b1 s Hi Hb1 Hk) as (r & E & H).
    unfold f, body. by rewrite E. }
  destruct (search_range_spec f body 0 (HandoverInfo.allocated_count i) s) as (r & E & H).
  - lia.
  - intros k Hk _. destruct (live_get i Hi k Hk) as (b & Hb & _). by apply (Hrow k b); [lia|].
  - exists r. split; [done|]. destruct r as [[]|].
    + destruct H as (k & Hk & Hf & _). split; [done|]. intros Hall. exfalso.
      destruct (live_get i Hi k Hk) as (b & Hb & _). destruct (Hrow k b) as [_ Hiff]; [lia|done|].
      rewrite Hf in Hiff. discriminate (proj2 Hiff (λ j b2 Hj, Hall _ j b b2 Hj Hb)).
    + split; [|done]. intros _ k j b1 b2 Hkj Hb1 Hb2. pose proof (live_index i Hi k b1 Hb1) as Hk.
      destruct (Hrow (Z.of_nat k) b1) as [_ Hiff]; [lia|by rewrite Nat2Z.id|].
      rewrite Nat2Z.id in Hiff. apply (proj1 Hiff (H _ Hk) j b2 Hkj Hb2).
Qed.

End validation.

(** ** The theorems on [HandoverInfo] *)

(** The fields of a snapshot are words, whatever their values. *)
Record info_words (i : HandoverInfo.t) : Prop := {
  iw_len : length (HandoverInfo.allocated_blocks i) = Z.to_nat MAX_TRACKED_BLOCKS;
  iw_count : 0 ≤ HandoverInfo.allocated_count i;
  iw_blocks : Forall (λ b, 0 ≤ AllocatedBlock.addr b ∧ 0 ≤ AllocatedBlock.size b)
                (HandoverInfo.allocated_blocks i);
  iw_end : HandoverInfo.heap_end i < 2 ^ 64;
  iw_used : AllocStats.used_size (HandoverInfo.statistics i) < 2 ^ 64;
}.

Lemma info_ok_words i : info_ok i → HandoverInfo.allocated_count i ≤ MAX_TRACKED_BLOCKS.
Proof. by intros [_ [_ ?] _ _]. Qed.

(** [validate] of a snapshot in range. *)
Lemma validate_spec {P : Profile} {S} i (s : S) :
  info_ok i → ∃ r, HandoverInfo.validate i s = Ret (r, s) ∧ (r = Ok tt ↔ valid i).
Proof.
  intros Hi. pose proof (io_count i Hi) as Hc. unfold HandoverInfo.validate.
  destruct (Z.eqb_spec (HandoverInfo.magic i) HANDOVER_MAGIC) as [Hm|Hm]; cbn [negb].
  2:{ eexists. split; [reflexivity|]. split; [done|by intros []]. }
  destruct (Z.eqb_spec (HandoverInfo.version i) HANDOVER_PROTOCOL_VERSION) as [Hv|Hv]; cbn [negb].
  2:{ eexists. split; [reflexivity|]. split; [done|by intros []]. }
  destruct (Z.leb_spec (HandoverInfo.heap_end i) (HandoverInfo.heap_start i)) as [Hr|Hr].
  { eexists. split; [reflexivity|]. split; [done|intros []; lia]. }
  rewrite (proj2 (Z.ltb_ge MAX_TRACKED_BLOCKS _)) by lia.
  destruct (outside_spec i s Hi) as (r1 & E1 & H1). destruct (overlap_spec i s Hi) as (r2 & E2 & H2).
  destruct (Z.eqb_spec (HandoverInfo.checksum i) (checksum_of i)) as [Hs|Hs].
  2:{ eexists. split; [mstep_with ltac:(by apply calculate_checksum_spec);
        rewrite (proj2 (Z.eqb_neq _ _) Hs); reflexivity|]. split; [done|by intros []]. }
  destruct r1 as [[]|].
  { eexists. split; [mstep_with ltac:(by apply calculate_checksum_spec); rewrite Hs, Z.eqb_refl;
      mstep_with ltac:(exact E1); reflexivity|].
    split; [done|]. intros V. pose proof (v_inside i V) as V'. by apply H1 in V'. }
  destruct r2 as [[]|].
  { eexists. split; [mstep_with ltac:(by apply calculate_checksum_spec); rewrite Hs, Z.eqb_refl;
      mstep_with ltac:(exact E1); mstep_with ltac:(exact E2); reflexivity|].
    split; [done|]. intros V. pose proof (v_apart i V) as V'. by apply H2 in V'. }
  exists (if sum_sizes (live i) =? AllocStats.used_size (HandoverInfo.statistics i)
          then Ok tt else Err "Statistics mismatch"). split.
  - mstep_with ltac:(by apply calculate_checksum_spec). rewrite Hs, Z.eqb_refl.
    mstep_with ltac:(exact E1). mstep_with ltac:(exact E2).
    mstep_with ltac:(by apply allocated_size_spec).
    by destruct (_ =? _).
  - destruct (Z.eqb_spec (sum_sizes (live i)) (AllocStats.used_size (HandoverInfo.statistics i))) as [Ht|Ht].
    + split; [|done]. intros _. split; try done; [by apply info_ok_words|by apply H1|by apply H2].
    + split; [done|by intros []].
Qed.

(** What the two loops of [validate] read when they come back in a build with
    overflow checks: ends and sums that do not overflow. *)
Lemma outside_Dev {S} i (s s' : S) :
  info_words i → HandoverInfo.allocated_count i ≤ MAX_TRACKED_BLOCKS →
  search_range 0 (HandoverInfo.allocated_count i) (λ k,
    block ← arr_get (HandoverInfo.allocated_blocks i) k;
    if AllocatedBlock.addr block <? HandoverInfo.heap_start i then mret (Some tt)
    else
      e ← @AllocatedBlock.end_addr Dev _ block;
      mret (if HandoverInfo.heap_end i <? e then Some tt else None)) s = Ret (None, s') →
  Forall block_ok (live i).
Proof.
  intros [Hl Hc Hw He _] Hm E. apply Forall_lookup. intros k b Hb.
  pose proof Hb as [Hb' Hk]%lookup_take_Some.
  destruct (search_range_None _ _ _ _ _ E (Z.of_nat k)) as (s1 & s2 & Ek); [lia|].
  apply bind_inv in Ek as (b' & s3 & Eg & Ek). unfold arr_get in Eg.
  rewrite (proj2 (Z.ltb_ge (Z.of_nat k) 0)), Nat2Z.id, Hb' in Eg by lia. injection Eg as <- <-.
  destruct (AllocatedBlock.addr b <? HandoverInfo.heap_start i); [done|].
  apply bind_inv in Ek as (e & s4 & [-> ->]%arith_Dev & [= Ek _]).
  destruct (Z.ltb_spec (HandoverInfo.heap_end i) (AllocatedBlock.addr b + AllocatedBlock.size b)); [done|].
  apply (proj1 (Forall_lookup _ _) Hw) in Hb' as [? ?]. unfold block_ok. lia.
Qed.

Lemma sum_Dev {S} i (s s' : S) v :
  info_words i → HandoverInfo.allocated_count i ≤ MAX_TRACKED_BLOCKS →
  @HandoverInfo.allocated_size Dev S i s = Ret (v, s') → sum_sizes (live i) < 2 ^ 64.
Proof.
  intros [Hl Hc Hw He _] Hm E. unfold HandoverInfo.allocated_size, HandoverInfo.size_where in E.
  rewrite <-(Z2Nat.id (HandoverInfo.allocated_count i)) in E by lia.
  apply (for_list_acc (HandoverInfo.allocated_blocks i) (Z.to_nat (HandoverInfo.allocated_count i))
           (λ pre total, total = sum_sizes pre ∧ total < 2 ^ 64)) in E; [|unfold MAX_TRACKED_BLOCKS in *; lia|done|].
  - fold (live i) in E. lia.
  - intros pre x a s1 a' s2 Hx [-> _] Ex. rewrite sum_sizes_app. cbn [sum_sizes].
    apply bind_inv in Ex as (b & s3 & Eg & Ex). unfold arr_get in Eg.
    rewrite (proj2 (Z.ltb_ge _ 0)), Nat2Z.id, Hx in Eg by lia. injection Eg as <- <-.
    unfold usize_add, arith in Ex. destruct (_ && _) eqn:Er; [|done]. injection Ex as <- <-.
    apply andb_prop in Er as [_ Er%Z.ltb_lt]. lia.
Qed.

Lemma valid_Dev {S} i (s s' : S) :
  info_words i → @HandoverInfo.validate Dev S i s = Ret (Ok tt, s') → info_ok i.
Proof.
  intros Hi E. unfold HandoverInfo.validate in E. repeat (case_match; [done|]).
  destruct (Z.ltb_spec MAX_TRACKED_BLOCKS (HandoverInfo.allocated_count i)); [done|].
  apply bind_inv in E as (c & s1 & _ & E). case_match; [done|].
  apply bind_inv in E as (o & s2 & E1 & E). destruct o; [done|].
  apply bind_inv in E as (o & s3 & _ & E). destruct o; [done|].
  apply bind_inv in E as (v & s4 & E2 & _).
  pose proof (iw_len i Hi). pose proof (iw_count i Hi).
  split; [done|lia|by eapply outside_Dev|by eapply sum_Dev].
Qed.

(** A consistent snapshot does not overflow. *)
Lemma valid_info_ok i : info_words i → valid i → info_ok i.
Proof.
  intros [Hl Hc Hw He Hu] V. pose proof (v_count i V). split; [done|lia| |rewrite (v_total i V); done].
  apply Forall_lookup. intros k b Hb. pose proof (v_inside i V k b Hb) as [_ Hend].
  apply lookup_take_Some in Hb as [Hb _]. apply (proj1 (Forall_lookup _ _) Hw) in Hb as [? ?].
  unfold block_ok. lia.
Qed.

(** C25: [validate] accepts exactly the consistent snapshots: right magic,
    version and checksum, a non-empty heap range, at most 512 tracked blocks,
    every one inside the heap, no two overlapping, and sizes that add up to the
    used bytes of the statistics.  In a build with overflow checks this holds of
    every snapshot; without them, of those whose block ends and sum of sizes fit
    a word, for which [validate] also returns in both builds and changes nothing.
    A count above 512 is answered by an error before any block is read. *)
Theorem validate_exact {P : Profile} {S} i (s : S) :
  info_words i →
  (info_ok i → ∃ r, HandoverInfo.validate i s = Ret (r, s) ∧ (r = Ok tt ↔ valid i))
  ∧ (@HandoverInfo.validate Dev S i s = Ret (Ok tt, s) ↔ valid i)
  ∧ (MAX_TRACKED_BLOCKS < HandoverInfo.allocated_count i →
     ¬ valid i ∧ ∃ e, HandoverInfo.validate i s = Ret (Err e, s)).
Proof.
  intros Hi. split_and!; [apply validate_spec| |].
  - split.
    + intros E. pose proof (valid_Dev i s s Hi E) as Hok.
      destruct (@validate_spec Dev S i s Hok) as (r & E' & Hr). rewrite E in E'. injection E' as <-.
      by apply Hr.
    + intros Hv. destruct (@validate_spec Dev S i s (valid_info_ok i Hi Hv)) as (r & E & Hr). by rewrite (proj2 Hr Hv) in E.
  - intros Hc. split; [intros []; lia|]. unfold HandoverInfo.validate.
    repeat (case_match; [by eexists|]). exfalso. lia.
Qed.

(** The size queries are exact: the allocated, reclaimable, critical and
    movable sizes are the sums over the tracked blocks with such a purpose, and
    [group_by_purpose] lists each of the twenty purposes exactly once with the
    number and total size of its blocks. *)
Theorem size_queries_exact {P : Profile} {S} i (s : S) :
  info_ok i →
  let total test := sum_sizes (filter (λ b, Is_true (test (AllocatedBlock.purpose b))) (live i)) in
  HandoverInfo.allocated_size i s = Ret (sum_sizes (live i), s)
  ∧ HandoverInfo.reclaimable_size i s = Ret (total AllocPurpose.is_reclaimable, s)
  ∧ HandoverInfo.critical_size i s = Ret (total AllocPurpose.is_critical, s)
  ∧ HandoverInfo.movable_size i s = Ret (total AllocPurpose.is_movable, s)
  ∧ HandoverInfo.group_by_purpose i s = Ret (map (group_of (live i)) HandoverInfo.group_purposes, s)
  ∧ NoDup HandoverInfo.group_purposes ∧ ∀ p, p ∈ HandoverInfo.group_purposes.
Proof.
  intros Hi total. split_and!; try (by apply size_where_spec).
  - by apply allocated_size_spec.
  - by apply group_by_purpose_spec.
  - apply group_purposes_nodup.
  - apply group_purposes_complete.
Qed.

(** The index array starts as the identity. *)
Lemma indices_in_range i : info_ok i →
  Forall (idx_ok (HandoverInfo.allocated_blocks i)) (seqZ 0 (HandoverInfo.allocated_count i)).
Proof.
  intros [Hl Hc _ _]. apply Forall_seqZ. unfold idx_ok, MAX_TRACKED_BLOCKS in *. lia.
Qed.

Lemma sort_indices {P : Profile} {S} i (k : block → Z) (s : S) :
  info_ok i →
  ∃ l rest, (indices ← index_array (Z.to_nat MAX_TRACKED_BLOCKS) (HandoverInfo.allocated_count i);
             bubble_sort (HandoverInfo.allocated_blocks i) (kgt k) (HandoverInfo.allocated_count i) indices) s
            = Ret (l ++ rest, s)
    ∧ sorted_indices (HandoverInfo.allocated_blocks i) k (seqZ 0 (HandoverInfo.allocated_count i)) l
    ∧ length (l ++ rest) = Z.to_nat MAX_TRACKED_BLOCKS.
Proof.
  intros Hi. pose proof (io_count i Hi) as Hc. unfold MAX_TRACKED_BLOCKS in Hc.
  set (n := Z.to_nat (HandoverInfo.allocated_count i)).
  assert (HandoverInfo.allocated_count i = Z.of_nat n) as En by lia.
  destruct (bubble_sort_spec (HandoverInfo.allocated_blocks i) k (seqZ 0 (Z.of_nat n))
              (replicate (Z.to_nat MAX_TRACKED_BLOCKS - n) 0) s) as (l & E & H).
  - rewrite <- En. by apply indices_in_range.
  - rewrite length_seqZ. lia.
  - exists l, (replicate (Z.to_nat MAX_TRACKED_BLOCKS - n) 0). rewrite En. split_and!; [|done|].
    + mstep_with ltac:(apply index_array_spec; unfold MAX_TRACKED_BLOCKS; lia).
      rewrite length_seqZ, Z2Nat.id in E by lia. exact E.
    + rewrite length_app, length_replicate. destruct H as (Hp & _). rewrite Hp, length_seqZ.
      unfold MAX_TRACKED_BLOCKS. lia.
Qed.

(** [blocks_by_priority] returns an array that starts with every tracked
    index exactly once, by priority, blocks of equal priority in their original
    order. *)
Theorem blocks_by_priority_sorted {P : Profile} {S} i (s : S) :
  info_ok i →
  let prio ix := ikey (HandoverInfo.allocated_blocks i)
                   (λ b, AllocPurpose.priority (AllocatedBlock.purpose b)) ix in
  let all := seqZ 0 (HandoverInfo.allocated_count i) in
  ∃ l rest, HandoverInfo.blocks_by_priority i s = Ret (l ++ rest, s)
    ∧ length (l ++ rest) = 512%nat ∧ l ≡ₚ all ∧ StronglySorted (λ a b, prio a ≤ prio b) l
    ∧ ∀ c, filter (λ ix, prio ix = c) l = filter (λ ix, prio ix = c) all.
Proof.
  intros Hi prio all.
  destruct (sort_indices i (λ b, AllocPurpose.priority (AllocatedBlock.purpose b)) s Hi)
    as (l & rest & E & (H1 & H2 & H3) & Hl).
  exists l, rest. by split_and!.
Qed.
