(* ===== verification/HandoverUtils.v ===== *)
(** * Correctness of [handover_utils]

    The memory map, the block searches and the fragmentation analysis of
    [src/init/alloc/handover.rs], and a concrete snapshot on which the theorems
    about the handover information are evaluated. *)

From Stdlib Require Import ZArith Lia String.
From stdpp Require Import base option numbers sorting strings list.
From S2P Require Import Prelude Purpose Metadata Arrays Handover HandoverThms.

Import handover_utils.

(** ** The memory map *)

(** Block [b] has bytes in page [p] of the heap at [hs]. *)
Definition touches (hs p : Z) (b : block) : Prop :=
  (AllocatedBlock.addr b - hs) / 4096 ≤ p
  < (AllocatedBlock.addr b + AllocatedBlock.size b - hs + 4096 - 1) / 4096.

#[global] Instance touches_dec hs p b : Decision (touches hs p b).
Proof. unfold touches. apply _. Defined.

(** What the map says of page [p]: the last block that touches it. *)
Definition page_entry (hs max_pages p : Z) (l : list block) : MemoryMapEntry :=
  if decide (p < max_pages) then
    match last (filter (touches hs p) l) with
    | Some b => MemoryMapEntry_occupied (AllocatedBlock.purpose b) (AllocatedBlock.alloc_id b)
    | None => MemoryMapEntry_free
    end
  else MemoryMapEntry_free.

Definition page_map (hs max_pages : Z) (l : list block) : list MemoryMapEntry :=
  map (λ p, page_entry hs max_pages p l) (seqZ 0 512).

Lemma page_entry_snoc hs mp p l b :
  page_entry hs mp p (l ++ [b])
  = if decide (p < mp ∧ touches hs p b)
    then MemoryMapEntry_occupied (AllocatedBlock.purpose b) (AllocatedBlock.alloc_id b)
    else page_entry hs mp p l.
Proof.
  unfold page_entry. rewrite filter_app, filter_cons, filter_nil.
  destruct (decide (p < mp)); [|by rewrite decide_False by tauto].
  destruct (decide (touches hs p b)).
  - by rewrite last_snoc, decide_True.
  - rewrite app_nil_r, decide_False; [done|tauto].
Qed.

(** The inner loop paints the pages [lo..hi]. *)
Lemma paint_spec {S} lo hi (e : MemoryMapEntry) (g : Z → MemoryMapEntry) (s : S) :
  0 ≤ lo → hi ≤ 512 →
  for_range lo hi (λ page map, arr_set map page e) (map g (seqZ 0 512)) s
  = Ret (map (λ p, if decide (lo ≤ p < hi) then e else g p) (seqZ 0 512), s).
Proof.
  intros Hlo Hhi. destruct (decide (lo ≤ hi)) as [Hle|Hle].
  - destruct (for_range_inv
      (λ k a (s' : S), s' = s ∧ a = map (λ p, if decide (lo ≤ p < k) then e else g p) (seqZ 0 512))
      (λ page map, arr_set map page e) lo hi (map g (seqZ 0 512)) s) as (a & s' & E & -> & ->);
      [done| | |exact E].
    + split; [done|]. apply map_ext. intros p. rewrite decide_False by lia. done.
    + intros k a s' Hk (-> & ->). eexists _, s. split.
      { apply arr_set_ok. rewrite length_map, length_seqZ. lia. }
      split; [done|]. apply list_eq. intros j.
      destruct (decide (j < 512)%nat) as [Hj|Hj].
      2:{ rewrite !lookup_ge_None_2; [done|rewrite length_map, length_seqZ; lia|].
          rewrite length_insert, length_map, length_seqZ. lia. }
      rewrite list_lookup_fmap, lookup_seqZ_lt by lia. cbn [fmap option_fmap option_map].
      destruct (decide (j = Z.to_nat k)) as [->|Hne].
      * rewrite list_lookup_insert_eq by (rewrite length_map, length_seqZ; lia).
        by rewrite decide_True by lia.
      * rewrite list_lookup_insert_ne by done. rewrite list_lookup_fmap, lookup_seqZ_lt by lia.
        cbn [fmap option_fmap option_map]. f_equal.
        destruct (decide (lo ≤ 0 + Z.of_nat j < k)); [rewrite decide_True by lia|rewrite decide_False by lia];
          done.
  - unfold for_range. replace (Z.to_nat (hi - lo)) with 0%nat by lia. cbn [for_n]. unfold mret, M_ret.
    do 2 f_equal. apply map_ext. intros p. by rewrite decide_False by lia.
Qed.

(** [create_memory_map] is exact: a page of the heap (among the first 512)
    is marked occupied exactly when a tracked block has bytes in it, with the
    purpose and id of the last such block; every other entry is free. *)
Theorem memory_map_exact {P : Profile} {S} i (s : S) :
  info_ok i → valid i →
  HandoverInfo.heap_end i + 8192 < 2 ^ 64 → 0 ≤ HandoverInfo.heap_start i →
  let size := HandoverInfo.heap_end i - HandoverInfo.heap_start i in
  create_memory_map (HandoverInfo.allocated_blocks i) (HandoverInfo.allocated_count i)
    (HandoverInfo.heap_start i) size s
  = Ret (page_map (HandoverInfo.heap_start i) (Z.min ((size + 4096 - 1) / 4096) 512) (live i), s).
Proof.
  intros Hi Hv He Hs0 size. pose proof (v_range i Hv) as Hr. unfold create_memory_map.
  mstep_arith. mstep_arith. cbv zeta.
  set (mp := Z.min ((size + 4096 - 1) / 4096) 512). set (hs := HandoverInfo.heap_start i).
  match goal with |- for_range _ _ ?b _ _ = _ =>
    destruct (for_live_inv i (λ pre a s', s' = s ∧ a = page_map hs mp pre) b
      (replicate 512 MemoryMapEntry_free) s Hi) as (a & s' & E & -> & ->) end; [| |exact E].
  - split; [done|]. unfold page_map.
    rewrite (map_ext _ (λ _, MemoryMapEntry_free)); [done|]. intros p. unfold page_entry.
    by destruct (decide _).
  - intros pre x suf a s' Hlive Hx (-> & ->). exists (page_map hs mp (pre ++ [x])), s.
    split; [|done].
    assert (live i !! length pre = Some x) as Hl by (rewrite Hlive; by apply list_lookup_middle).
    destruct (v_inside i Hv _ _ Hl) as [Hin1 Hin2]. destruct (live_block i pre x suf Hi Hlive) as (? & ? & ?).
    read_block Hx.
    mstep_with ltac:(unfold block_pages; mstep_arith; mstep_with ltac:(by apply end_addr_ok);
      mstep_arith; mstep_arith; mstep_arith; reflexivity).
    cbv beta iota. unfold page_map. rewrite paint_spec.
    + do 2 f_equal. apply map_ext. intros p. rewrite page_entry_snoc. unfold touches. fold hs.
      set (lo := (AllocatedBlock.addr x - hs) / 4096).
      set (hi := (AllocatedBlock.addr x + AllocatedBlock.size x - hs + 4096 - 1) / 4096).
      destruct (decide (lo ≤ p < hi `min` mp)); [rewrite decide_True by lia|rewrite decide_False by lia]; done.
    + apply Z.div_pos; lia.
    + unfold mp. lia.
Qed.

(** ** Searches *)

(** In a valid snapshot [find_block_by_addr] finds the tracked block that
    holds the address, there is only one, and it answers [None] exactly when no
    tracked block holds it. *)
Theorem find_block_by_addr_exact {P : Profile} {S} i a (s : S) :
  info_ok i → valid i →
  let holds b := AllocatedBlock.addr b ≤ a < AllocatedBlock.addr b + AllocatedBlock.size b in
  ∃ r, find_block_by_addr (HandoverInfo.allocated_blocks i) (HandoverInfo.allocated_count i) a s = Ret (r, s)
    ∧ match r with
      | Some b => b ∈ live i ∧ holds b ∧ ∀ k j b1 b2, live i !! k = Some b1 → live i !! j = Some b2 →
                    holds b1 → holds b2 → k = j
      | None => ∀ b, b ∈ live i → ¬ holds b
      end.
Proof.
  intros Hi Hv holds. unfold find_block_by_addr. pose proof (io_count i Hi) as Hc.
  set (f k := match live i !! Z.to_nat k with
              | Some b => if bool_decide (holds b) then Some b else None | None => None end).
  match goal with |- context [search_range 0 _ ?b s] =>
    destruct (search_range_spec f b 0 (HandoverInfo.allocated_count i) s) as (r & E & H) end.
  - lia.
  - intros k Hk _. destruct (live_get i Hi k Hk) as (b & Hb & Hok & Hg).
    mstep_with ltac:(apply Hg). unfold f. rewrite Hb. unfold AllocatedBlock.contains, holds.
    destruct (Z.leb_spec (AllocatedBlock.addr b) a).
    + mstep_with ltac:(mstep_with ltac:(by apply end_addr_ok); reflexivity).
      destruct (Z.ltb_spec a (AllocatedBlock.addr b + AllocatedBlock.size b));
        [rewrite bool_decide_true by lia|rewrite bool_decide_false by lia]; reflexivity.
    + mstep. rewrite bool_decide_false by lia. reflexivity.
  - exists r. split; [done|]. destruct r as [b|].
    + destruct H as (k & Hk & Hf & _). unfold f in Hf.
      destruct (live i !! Z.to_nat k) as [b'|] eqn:Eb; [|done].
      case_bool_decide as Hh; [|done]. injection Hf as ->.
      split_and!; [by eapply list_elem_of_lookup_2|done|]. clear Eb.
      intros k1 j b1 b2 H1 H2 Hh1 Hh2. unfold holds in *.
      destruct (lt_eq_lt_dec k1 j) as [[Hlt|?]|Hlt]; [|done|];
        destruct (v_apart i Hv _ _ _ _ Hlt ltac:(eassumption) ltac:(eassumption)); lia.
    + intros b Hb Hh. apply list_elem_of_lookup in Hb as [k Hb].
      specialize (H (Z.of_nat k) (live_index i Hi k b Hb)). unfold f in H.
      rewrite Nat2Z.id, Hb, bool_decide_true in H by done. done.
Qed.

(** ** Fragmentation *)

Definition ends_before (b1 b2 : block) : Prop :=
  AllocatedBlock.addr b1 + AllocatedBlock.size b1 ≤ AllocatedBlock.addr b2.

(** The block an index names. *)
Definition pick (bs : list block) (ix : Z) : block :=
  default HandoverInfo.no_block (bs !! Z.to_nat ix).

Lemma pick_live i :
  info_ok i → map (pick (HandoverInfo.allocated_blocks i)) (seqZ 0 (HandoverInfo.allocated_count i)) = live i.
Proof.
  intros Hi. pose proof (live_length i Hi) as Hl. apply list_eq. intros k.
  destruct (decide (Z.of_nat k < HandoverInfo.allocated_count i)) as [Hk|Hk].
  - rewrite list_lookup_fmap, lookup_seqZ_lt by done. cbn [fmap option_fmap option_map].
    destruct (live_get i Hi (Z.of_nat k)) as (b & Hb & _ & _); [lia|]. rewrite Nat2Z.id in Hb.
    rewrite Hb. unfold pick. rewrite Z.add_0_l, Nat2Z.id. unfold live in Hb.
    by apply lookup_take_Some in Hb as [-> _].
  - rewrite !lookup_ge_None_2; [done|lia|rewrite length_map, length_seqZ; lia].
Qed.

Lemma pick_get i k :
  info_ok i → 0 ≤ k < HandoverInfo.allocated_count i →
  live i !! Z.to_nat k = Some (pick (HandoverInfo.allocated_blocks i) k)
  ∧ block_ok (pick (HandoverInfo.allocated_blocks i) k)
  ∧ ∀ S (s : S), arr_get (HandoverInfo.allocated_blocks i) k s
                 = Ret (pick (HandoverInfo.allocated_blocks i) k, s).
Proof.
  intros Hi Hk. destruct (live_get i Hi k Hk) as (b & Hb & Hok & Hg).
  assert (pick (HandoverInfo.allocated_blocks i) k = b) as ->; [|done].
  unfold live in Hb. apply lookup_take_Some in Hb as [Hb _]. unfold pick. by rewrite Hb.
Qed.

(** A sorted list whose distinct members are related more strongly. *)
Lemma StronglySorted_strengthen {A} (R R' : A → A → Prop) l :
  StronglySorted R l → NoDup l → (∀ a b, a ∈ l → b ∈ l → a ≠ b → R a b → R' a b) → StronglySorted R' l.
Proof.
  induction 1 as [|a l Hl IH Ha]; intros Hnd HR; [constructor|].
  apply NoDup_cons in Hnd as [Hna Hnd]. constructor.
  - apply IH; [done|]. intros x y Hx Hy. apply HR; elem.
  - rewrite Forall_forall in Ha |- *. intros b Hb. apply HR; [elem|elem| |by apply Ha].
    by intros ->.
Qed.

(** In address order the blocks of a valid snapshot follow each other. *)
Lemma sorted_blocks_chain i l :
  info_ok i → valid i → Forall (λ b, 0 < AllocatedBlock.size b) (live i) →
  sorted_indices (HandoverInfo.allocated_blocks i) AllocatedBlock.addr
    (seqZ 0 (HandoverInfo.allocated_count i)) l →
  StronglySorted (λ a b, ends_before (pick (HandoverInfo.allocated_blocks i) a)
                                     (pick (HandoverInfo.allocated_blocks i) b)) l.
Proof.
  intros Hi Hv Hpos (Hp & Hs & _). apply (StronglySorted_strengthen _ _ _ Hs).
  { rewrite Hp. apply NoDup_seqZ. }
  intros a b Ha Hb Hne Hab. rewrite Hp, elem_of_seqZ in Ha, Hb.
  destruct (live_get i Hi a) as (ba & Ea & _ & _); [lia|].
  destruct (live_get i Hi b) as (bb & Eb & _ & _); [lia|].
  pose proof (proj1 (Forall_lookup _ _) Hpos _ _ Ea). pose proof (proj1 (Forall_lookup _ _) Hpos _ _ Eb).
  assert (apart ba bb ∨ apart bb ba) as Hap.
  { destruct (lt_eq_lt_dec (Z.to_nat a) (Z.to_nat b)) as [[Hlt|]|Hlt]; [|lia|].
    - left. by eapply (v_apart i Hv); [exact Hlt|..].
    - right. by eapply (v_apart i Hv); [exact Hlt|..]. }
  unfold live in Ea, Eb. apply lookup_take_Some in Ea as [Ea _], Eb as [Eb _].
  unfold ikey in Hab. unfold ends_before, pick. rewrite Ea, Eb in *. cbn [default from_option] in *.
  unfold apart in Hap. simpl. lia.
Qed.

(** The gaps seen so far and the blocks passed add up to the position. *)
Record frag_inv (hs : Z) (pre : list block) (a : FragmentationAnalysis) (last_end : Z) : Prop := {
  fi_sum : external_fragmentation a + sum_sizes pre = last_end - hs;
  fi_largest : 0 ≤ largest_free_block a ≤ external_fragmentation a;
  fi_count : 0 ≤ free_block_count a ≤ Z.of_nat (length pre);
  fi_none : 0 < external_fragmentation a ↔ 0 < free_block_count a;
}.

Lemma add_gap_spec {P : Profile} {S} gap a (s : S) :
  0 < gap → 0 ≤ largest_free_block a ≤ external_fragmentation a →
  external_fragmentation a + gap < 2 ^ 64 → 0 ≤ free_block_count a < 2 ^ 32 →
  ∃ a', add_gap gap a s = Ret (a', s)
    ∧ external_fragmentation a' = external_fragmentation a + gap
    ∧ free_block_count a' = free_block_count a + 1
    ∧ 0 ≤ largest_free_block a' ≤ external_fragmentation a'
    ∧ gap ≤ largest_free_block a'.
Proof.
  intros Hg Hl He Hc. eexists. split; [unfold add_gap; mstep_arith; mstep_arith; reflexivity|].
  cbn [external_fragmentation free_block_count largest_free_block]. split_and!; lia.
Qed.

(** One round of the sweep. *)
Lemma sweep_step {P : Profile} {S} hs he pre x a last_end (s : S) :
  frag_inv hs pre a last_end → 0 ≤ hs → Forall block_ok pre → block_ok x → last_end ≤ AllocatedBlock.addr x →
  AllocatedBlock.addr x + AllocatedBlock.size x ≤ he → he < 2 ^ 64 → (length pre < 1024)%nat →
  ∃ a', (analysis ← (if last_end <? AllocatedBlock.addr x then
                  gap_size ← usize_sub (AllocatedBlock.addr x) last_end;
                  add_gap gap_size a
                else mret a);
         last_end ← AllocatedBlock.end_addr x;
         mret (analysis, last_end)) s = Ret ((a', AllocatedBlock.addr x + AllocatedBlock.size x), s)
    ∧ frag_inv hs (pre ++ [x]) a' (AllocatedBlock.addr x + AllocatedBlock.size x).
Proof.
  intros [F1 F2 F3 F4] Hhs Hpre Hx Hle Hend He Hlen. pose proof (sum_sizes_nonneg _ Hpre).
  pose proof Hx as (? & ? & ?).
  destruct (Z.ltb_spec last_end (AllocatedBlock.addr x)) as [Hlt|Hge].
  - destruct (add_gap_spec (AllocatedBlock.addr x - last_end) a s) as (a' & E & E1 & E2 & E3 & E4); [lia..|].
    exists a'. split.
    + mstep_with ltac:(mstep_arith; exact E). mstep_with ltac:(by apply end_addr_ok). reflexivity.
    + split; rewrite ?sum_sizes_app, ?length_app; cbn [sum_sizes length]; lia.
  - exists a. split.
    + mstep. mstep_with ltac:(by apply end_addr_ok). reflexivity.
    + split; rewrite ?sum_sizes_app, ?length_app; cbn [sum_sizes length]; lia.
Qed.

(** The score of a heap with less than one page free. *)
Lemma score_saturates n :
  1 ≤ n ≤ 513 → F32.to_u8 (F32.mul (F32.div (F32.of_Z n) (F32.of_Z 0)) (F32.of_Z 100)) = 255.
Proof.
  intros Hn.
  assert (Forall (λ n, F32.to_u8 (F32.mul (F32.div (F32.of_Z n) (F32.of_Z 0)) (F32.of_Z 100)) = 255)
            (seqZ 1 513)) as H by (apply (bool_decide_unpack _); by vm_compute).
  rewrite Forall_seqZ in H. apply H. lia.
Qed.

Lemma sweep_spec {P : Profile} {S} i l rest (s : S) :
  info_ok i → valid i → 0 ≤ HandoverInfo.heap_start i → HandoverInfo.heap_end i < 2 ^ 64 →
  Forall (λ b, 0 < AllocatedBlock.size b) (live i) →
  sorted_indices (HandoverInfo.allocated_blocks i) AllocatedBlock.addr
    (seqZ 0 (HandoverInfo.allocated_count i)) l →
  ∃ a last_end,
    for_range 0 (HandoverInfo.allocated_count i) (λ k '(analysis, last_end),
      ix ← arr_get (l ++ rest) k;
      block ← arr_get (HandoverInfo.allocated_blocks i) ix;
      analysis ← (if last_end <? AllocatedBlock.addr block then
                    gap_size ← usize_sub (AllocatedBlock.addr block) last_end;
                    add_gap gap_size analysis
                  else mret analysis);
      last_end ← AllocatedBlock.end_addr block;
      mret (analysis, last_end))
      (mkFragmentationAnalysis 0 0 0 0 0, HandoverInfo.heap_start i) s = Ret ((a, last_end), s)
    ∧ frag_inv (HandoverInfo.heap_start i) (map (pick (HandoverInfo.allocated_blocks i)) l) a last_end
    ∧ last_end ≤ HandoverInfo.heap_end i.
Proof.
  intros Hi Hv Hs0 He Hpos Hsort. pose proof (io_count i Hi) as Hc. unfold MAX_TRACKED_BLOCKS in Hc.
  pose proof (sorted_blocks_chain i l Hi Hv Hpos Hsort) as Hchain.
  set (bs := HandoverInfo.allocated_blocks i) in *. destruct Hsort as (Hperm & _ & _).
  assert (length l = Z.to_nat (HandoverInfo.allocated_count i)) as Hl by (by rewrite Hperm, length_seqZ).
  rewrite <- (Z2Nat.id (HandoverInfo.allocated_count i)) by lia.
  match goal with |- context [for_range 0 _ ?b _ s] =>
    destruct (for_list_inv (l ++ rest) (Z.to_nat (HandoverInfo.allocated_count i))
      (λ pre '(a, last_end) s', s' = s ∧ frag_inv (HandoverInfo.heap_start i) (map (pick bs) pre) a last_end
        ∧ last_end ≤ HandoverInfo.heap_end i
        ∧ ∀ q, HandoverInfo.heap_start i ≤ AllocatedBlock.addr q →
            (∀ y, y ∈ pre → ends_before (pick bs y) q) → last_end ≤ AllocatedBlock.addr q) b
      (mkFragmentationAnalysis 0 0 0 0 0, HandoverInfo.heap_start i) s) as ([a e] & s' & E & H) end.
  - rewrite length_app. lia.
  - pose proof (v_range i Hv). split_and!; [done| |lia|auto]. split; cbn; lia.
  - rewrite <- Hl, take_app_length. intros pre x suf [a e] s' Hsplit Hx (-> & Hf & Hle & Hnext).
    assert (∀ y, y ∈ pre ++ x :: suf → 0 ≤ y < HandoverInfo.allocated_count i) as Hin.
    { intros y Hy. rewrite <- Hsplit, Hperm, elem_of_seqZ in Hy. lia. }
    destruct (pick_get i x Hi) as (Hb & Hok & Hg); [apply Hin; elem|]. fold bs in Hb, Hok, Hg.
    destruct (v_inside i Hv _ _ Hb) as [Hin1 Hin2].
    rewrite Hsplit, StronglySorted_app in Hchain. destruct Hchain as (Hbefore & _ & _).
    destruct (sweep_step (HandoverInfo.heap_start i) (HandoverInfo.heap_end i) (map (pick bs) pre)
                (pick bs x) a e s) as (a' & E' & Hf'); try done.
    + apply Forall_fmap, Forall_forall. intros y Hy. apply (pick_get i y Hi). apply Hin. elem.
    + apply Hnext; [done|]. intros y Hy. apply Hbefore; elem.
    + rewrite length_map. assert (length pre < length l)%nat; [|lia].
      rewrite Hsplit, length_app. cbn [length]. lia.
    + eexists (a', _), s. split.
      * mstep_with ltac:(apply arr_get_ok; [lia|rewrite Nat2Z.id; exact Hx]).
        mstep_with ltac:(apply Hg). exact E'.
      * split; [done|]. rewrite map_app. cbn [map]. split_and!; [done|lia|].
        intros q Hq Hall. apply (Hall x). elem.
  - rewrite <- Hl, take_app_length in H. destruct H as (-> & Hf & Hle & _).
    exists a, e. by split_and!.
Qed.

(** The fragmentation analysis of a valid snapshot without empty blocks
    conserves bytes: free bytes and tracked bytes make up the whole heap range.
    The largest gap is one of the free bytes, there is at most one gap more than
    there are blocks, and none exactly when nothing is free; but the score of a
    heap with less than a page free is 255, not a percentage. *)
Theorem fragmentation_conserves_bytes {P : Profile} {S} i (s : S) :
  info_ok i → valid i → 0 ≤ HandoverInfo.heap_start i → HandoverInfo.heap_end i < 2 ^ 64 →
  Forall (λ b, 0 < AllocatedBlock.size b) (live i) →
  ∃ a, calculate_advanced_fragmentation (HandoverInfo.allocated_blocks i) (HandoverInfo.allocated_count i)
         (HandoverInfo.heap_start i) (HandoverInfo.heap_end i) s = Ret (a, s)
    ∧ external_fragmentation a + sum_sizes (live i)
      = HandoverInfo.heap_end i - HandoverInfo.heap_start i
    ∧ 0 ≤ largest_free_block a ≤ external_fragmentation a
    ∧ 0 ≤ free_block_count a ≤ HandoverInfo.allocated_count i + 1
    ∧ (0 < external_fragmentation a ↔ 0 < free_block_count a)
    ∧ (0 < external_fragmentation a < 4096 → fragmentation_score a = 255).
Proof.
  intros Hi Hv Hs0 He Hpos. unfold calculate_advanced_fragmentation.
  destruct (sort_indices i AllocatedBlock.addr s Hi) as (l & rest & E1 & Hsort & _).
  destruct (sweep_spec i l rest s Hi Hv Hs0 He Hpos Hsort) as (a & e & E2 & Hf & Hle).
  pose proof (io_count i Hi) as Hc. unfold MAX_TRACKED_BLOCKS in Hc.
  pose proof (sum_sizes_nonneg _ (io_blocks i Hi)) as Hnn.
  assert (map (pick (HandoverInfo.allocated_blocks i)) l ≡ₚ live i) as Hperm.
  { destruct Hsort as (Hp & _). rewrite <- (pick_live i Hi). by apply Permutation_map. }
  destruct Hf as [F1 F2 F3 F4]. rewrite Hperm, live_length in F3 by done.
  rewrite Hperm in F1.
  apply bind_inv in E1 as (ix & s1 & E1a & E1b).
  assert (∃ a', (if e <? HandoverInfo.heap_end i then
                   gap_size ← usize_sub (HandoverInfo.heap_end i) e; add_gap gap_size a
                 else mret a) s = Ret (a', s)
    ∧ external_fragmentation a' + sum_sizes (live i)
      = HandoverInfo.heap_end i - HandoverInfo.heap_start i
    ∧ 0 ≤ largest_free_block a' ≤ external_fragmentation a'
    ∧ 0 ≤ free_block_count a' ≤ HandoverInfo.allocated_count i + 1
    ∧ (0 < external_fragmentation a' ↔ 0 < free_block_count a')) as (a' & E3 & G1 & G2 & G3 & G4).
  { destruct (Z.ltb_spec e (HandoverInfo.heap_end i)).
    - destruct (add_gap_spec (HandoverInfo.heap_end i - e) a s) as (a' & E & ? & ? & ? & ?); [lia..|].
      exists a'. split; [mstep_arith; exact E|]. lia.
    - exists a. split; [done|]. lia. }
  eexists. split; [|split_and!].
  - mstep_with ltac:(exact E1a). mstep_with ltac:(exact E1b). mstep_with ltac:(exact E2). cbv beta iota.
    mstep_with ltac:(exact E3). reflexivity.
  - exact G1.
  - exact (proj1 G2).
  - exact (proj2 G2).
  - exact (proj1 G3).
  - exact (proj2 G3).
  - exact G4.
  - cbn [external_fragmentation fragmentation_score]. intros Hext.
    rewrite (proj2 (Z.ltb_lt 0 _)) by lia. rewrite (Z.div_small (external_fragmentation a')) by lia.
    apply score_saturates. lia.
Qed.

(** ** A concrete snapshot *)

Module Snapshot.

Definition blk (a sz : Z) (p : AllocPurpose.t) (id : Z) : block :=
  AllocatedBlock.mk a sz p id 0 MemoryPermissions.READ_WRITE 8 (0, 0).

(** Three blocks, not in address order, in a heap of four pages at 4096. *)
Definition blocks : list block :=
  [blk 12288 4096 AllocPurpose.PageTable 3; blk 4144 100 AllocPurpose.TempBuffer 1;
   blk 5000 3000 AllocPurpose.Unknown 2].

Definition unsigned_info : HandoverInfo.t :=
  HandoverInfo.mk HANDOVER_PROTOCOL_VERSION HANDOVER_MAGIC 4096 20480
    (blocks ++ replicate 509 HandoverInfo.no_block) 3
    (AllocStats.mk 16384 7196 0 3 0 3 0 0 0 0 0 0 0 0 0 0 0 0 0)
    (mkAllocatorState false true 0 0 (mkPerformanceMetrics 0 0 100 0 0)) 0 0.

Definition info : HandoverInfo.t :=
  HandoverInfo.set_checksum (checksum_of unsigned_info) unsigned_info.

Lemma live_info : live info = blocks.
Proof. reflexivity. Qed.

Lemma info_is_ok : info_ok info.
Proof.
  split; rewrite ?live_info; [reflexivity|by vm_compute| |by vm_compute].
  repeat constructor; by vm_compute.
Qed.

Lemma info_has_words : info_words info.
Proof.
  split; [reflexivity|done| |done|by vm_compute]. apply (bool_decide_unpack _). by vm_compute.
Qed.

Lemma info_is_valid : valid info.
Proof.
  split; rewrite ?live_info; try reflexivity.
  - by vm_compute.
  - intros k b Hb. destruct k as [|[|[|k]]]; try done; injection Hb as <-; by vm_compute.
  - intros k j b1 b2 Hkj H1 H2.
    destruct k as [|[|[|k]]]; try done; destruct j as [|[|[|j]]]; try done; try lia;
      injection H1 as <-; injection H2 as <-; unfold apart; cbn; lia.
Qed.

End Snapshot.

(** A snapshot that claims 513 blocks. *)
Definition overfull : HandoverInfo.t :=
  HandoverInfo.mk HANDOVER_PROTOCOL_VERSION HANDOVER_MAGIC 4096 20480
    (Snapshot.blocks ++ replicate 509 HandoverInfo.no_block) 513
    (AllocStats.mk 16384 7196 0 3 0 3 0 0 0 0 0 0 0 0 0 0 0 0 0)
    (mkAllocatorState false true 0 0 (mkPerformanceMetrics 0 0 100 0 0)) 0 0.

Lemma overfull_words : info_words overfull.
Proof.
  split; [reflexivity|done| |done|by vm_compute]. apply (bool_decide_unpack _). by vm_compute.
Qed.

Lemma validate_exact_witness :
  HandoverInfo.validate (P := Dev) (S := unit) Snapshot.info tt = Ret (Ok tt, tt)
  ∧ ∃ e, HandoverInfo.validate (P := Release) (S := unit) overfull tt = Ret (Err e, tt).
Proof.
  destruct (validate_exact (P := Dev) Snapshot.info tt Snapshot.info_has_words) as (_ & H & _).
  destruct (validate_exact (P := Release) overfull tt overfull_words) as (_ & _ & H').
  split.
  - apply H. exact Snapshot.info_is_valid.
  - apply H'. reflexivity.
Defined.

Lemma size_queries_exact_witness :
  HandoverInfo.allocated_size (P := Dev) Snapshot.info tt = Ret (7196, tt)
  ∧ HandoverInfo.reclaimable_size (P := Dev) Snapshot.info tt = Ret (3100, tt).
Proof.
  destruct (size_queries_exact (P := Dev) Snapshot.info tt Snapshot.info_is_ok) as (H1 & H2 & _).
  split; [exact H1|exact H2].
Defined.

Lemma blocks_by_priority_sorted_witness :
  ∃ l rest, HandoverInfo.blocks_by_priority (P := Dev) Snapshot.info tt = Ret (l ++ rest, tt)
    ∧ l ≡ₚ [0; 1; 2].
Proof.
  destruct (blocks_by_priority_sorted (P := Dev) Snapshot.info tt Snapshot.info_is_ok)
    as (l & rest & E & _ & H & _).
  exists l, rest. split; [exact E|exact H].
Defined.

Lemma memory_map_exact_witness :
  ∃ m, create_memory_map (P := Dev) (HandoverInfo.allocated_blocks Snapshot.info) 3 4096 16384 tt
       = Ret (m, tt)
    ∧ take 5 m = [MemoryMapEntry_occupied AllocPurpose.Unknown 2; MemoryMapEntry_free;
                  MemoryMapEntry_occupied AllocPurpose.PageTable 3; MemoryMapEntry_free;
                  MemoryMapEntry_free].
Proof.
  eexists. split.
  - exact (memory_map_exact (P := Dev) Snapshot.info tt Snapshot.info_is_ok Snapshot.info_is_valid
             ltac:(by vm_compute) ltac:(by vm_compute)).
  - vm_compute. reflexivity.
Defined.

Lemma find_block_by_addr_exact_witness :
  ∃ b, find_block_by_addr (P := Dev) (HandoverInfo.allocated_blocks Snapshot.info) 3 5100 tt
       = Ret (Some b, tt) ∧ b ∈ Snapshot.blocks.
Proof.
  destruct (find_block_by_addr_exact (P := Dev) Snapshot.info 5100 tt Snapshot.info_is_ok
              Snapshot.info_is_valid) as ([b|] & E & H).
  - exists b. split; [exact E|exact (proj1 H)].
  - exfalso. apply (H (Snapshot.blk 5000 3000 AllocPurpose.Unknown 2)); [|by vm_compute].
    rewrite Snapshot.live_info. unfold Snapshot.blocks. elem.
Defined.

Lemma fragmentation_conserves_bytes_witness :
  ∃ a, calculate_advanced_fragmentation (P := Dev) (HandoverInfo.allocated_blocks Snapshot.info) 3
         4096 20480 tt = Ret (a, tt) ∧ external_fragmentation a = 9188.
Proof.
  destruct (fragmentation_conserves_bytes (P := Dev) Snapshot.info tt Snapshot.info_is_ok
              Snapshot.info_is_valid ltac:(by vm_compute) ltac:(by vm_compute)
              ltac:(rewrite Snapshot.live_info; repeat constructor; by vm_compute))
    as (a & E & H & _).
  exists a. split; [exact E|]. rewrite Snapshot.live_info in H. cbn in H. lia.
Defined.
