(* ===== verification/GlobalAlloc.v ===== *)
(** * The global allocator and the allocator's module interface

    Models the layers above [EarlyAllocator]: the spin-locked
    [ThreadSafeEarlyAllocator] ([src/init/alloc/allocator.rs]), the
    [GlobalAlloc] implementation, [EarlyBox] ([src/init/alloc/global.rs]), and
    the functions of [src/init/alloc/mod.rs] with their two flags.  A [lock] of
    the mutex by a caller that already holds it does not return. *)

From Stdlib Require Import ZArith Lia String.
From stdpp Require Import base option numbers sorting strings gmap list.
From S2P Require Import Prelude Memory Purpose Metadata Allocator Arrays Handover.

(** ** State *)

Record GState : Type := mkG {
  locked : bool;                     (* the mutex of ALLOCATOR_INSTANCE is held *)
  instance : option EarlyAllocator;  (* its contents *)
  initialized : bool;                (* INITIALIZED *)
  enabled : bool;                    (* ENABLED *)
  machine : Machine;                 (* memory, and the COUNTER of metadata.rs *)
  snap_clock : Z;                    (* the COUNTER of mod.rs *)
  hand_clock : Z;                    (* the COUNTER of handover.rs *)
}.

Definition set_locked (b : bool) (g : GState) : GState :=
  mkG b (instance g) (initialized g) (enabled g) (machine g) (snap_clock g) (hand_clock g).
Definition set_instance (i : option EarlyAllocator) (g : GState) : GState :=
  mkG (locked g) i (initialized g) (enabled g) (machine g) (snap_clock g) (hand_clock g).
Definition set_initialized (b : bool) (g : GState) : GState :=
  mkG (locked g) (instance g) b (enabled g) (machine g) (snap_clock g) (hand_clock g).
Definition set_enabled (b : bool) (g : GState) : GState :=
  mkG (locked g) (instance g) (initialized g) b (machine g) (snap_clock g) (hand_clock g).
Definition set_machine (ms : Machine) (g : GState) : GState :=
  mkG (locked g) (instance g) (initialized g) (enabled g) ms (snap_clock g) (hand_clock g).
Definition set_snap_clock (c : Z) (g : GState) : GState :=
  mkG (locked g) (instance g) (initialized g) (enabled g) (machine g) c (hand_clock g).
Definition set_hand_clock (c : Z) (g : GState) : GState :=
  mkG (locked g) (instance g) (initialized g) (enabled g) (machine g) (snap_clock g) c.

Definition on_machine {A} (m : M Machine A) : M GState A := zoom machine set_machine m.
Definition on_hand_clock {A} (m : M Z A) : M GState A := zoom hand_clock set_hand_clock m.

(** A method of the allocator [al] inside the mutex. *)
Definition on_allocator {A} (al : EarlyAllocator) (m : M AState A) : M GState A :=
  zoom (λ g, mkAState al (machine g))
       (λ s g, set_machine (mach s) (set_instance (Some (self s)) g)) m.

(** [let guard = self.allocator.lock(); ..] *)
Definition under_lock {A} (f : M GState A) : M GState A :=
  g ← gets (λ g, g);
  if locked g then hang
  else
    modify (set_locked true);;
    r ← f;
    modify (set_locked false);;
    mret r.

(** [match lock().as_mut() { Some(a) => .., None => none }] *)
Definition with_allocator {A} (none : A) (m : EarlyAllocator → M GState A) : M GState A :=
  under_lock (
    i ← gets instance;
    match i with
    | Some al => m al
    | None => mret none
    end).

(** ** Bytes *)

(** [ptr::write_bytes(p, v, n)] *)
Fixpoint write_bytes (n : nat) (m : memory) (p v : Z) : memory :=
  match n with
  | O => m
  | S n' => write_bytes n' (<[p := v mod 256]> m) (p + 1) v
  end.

(** [ptr::copy_nonoverlapping(src, dst, n)] *)
Fixpoint copy_bytes (n : nat) (m : memory) (src dst : Z) : memory :=
  match n with
  | O => m
  | S n' => copy_bytes n' (<[dst := byte_at m src]> m) (src + 1) (dst + 1)
  end.

(** [ptr::write(p, value)], for a value with the bytes [l]. *)
Fixpoint put_bytes (l : list Z) (m : memory) (p : Z) : memory :=
  match l with
  | [] => m
  | b :: l' => put_bytes l' (<[p := b mod 256]> m) (p + 1)
  end.

(** [core::alloc::Layout] *)
Record Layout : Type := mkLayout { lsize : Z; lalign : Z }.

Definition Layout_from_size_align (sz align : Z) : option Layout :=
  if is_power_of_two align && (sz <=? isize_MAX + 1 - align) then Some (mkLayout sz align) else None.

(** ** [EarlyAllocator::prepare_handover], up to the box *)

Definition rd_alloc_id (a : Z) : M Machine Z := rd 8 (a + OFF_alloc_id).
Definition rd_timestamp (a : Z) : M Machine Z := rd 8 (a + OFF_timestamp).

Section handover.
Context {P : Profile}.

(** The entry for the block whose header is at [header]. *)
Definition tracked_block (header : Z) : M Machine AllocatedBlock.t :=
  a ← user_data_addr header;
  sz ← rd_size header;
  p ← rd_purpose header;
  id ← rd_alloc_id header;
  ts ← rd_timestamp header;
  mret (AllocatedBlock.mk a sz p id ts MemoryPermissions.READ_WRITE 8 (0, 0)).

(** The loop over the headers; it stops early when the array is full. *)
Fixpoint collect_loop (fuel : nat) (current_addr hend : Z) (blocks : list AllocatedBlock.t) (count : Z)
    : M Machine (list AllocatedBlock.t * Z) :=
  match fuel with
  | O => hang
  | S fuel' =>
      if current_addr <? hend then
        st ← rd_status current_addr;
        match st with
        | Allocated =>
            if count <? MAX_TRACKED_BLOCKS then
              block ← tracked_block current_addr;
              blocks ← arr_set blocks count block;
              count ← usize_add count 1;
              t ← total_size_at current_addr;
              next ← usize_add current_addr t;
              collect_loop fuel' next hend blocks count
            else mret (blocks, count)
        | Free =>
            t ← total_size_at current_addr;
            next ← usize_add current_addr t;
            collect_loop fuel' next hend blocks count
        end
      else mret (blocks, count)
  end.

(** The [HandoverInfo] of the allocator.  The second argument of
    [HandoverInfo::new] is [self.heap_end - self.heap_start]. *)
Definition build_handover (al : EarlyAllocator) : M GState HandoverInfo.t :=
  size ← usize_sub (heap_end al) (heap_start al);
  info ← on_hand_clock (HandoverInfo.new (heap_start al) size (stats al));
  '(blocks, count) ← on_machine (collect_loop (walk_fuel al) (heap_start al) (heap_end al)
                        (HandoverInfo.allocated_blocks info) (HandoverInfo.allocated_count info));
  HandoverInfo.update_checksum (HandoverInfo.set_blocks blocks count info).

End handover.

(** ** The allocators *)

Section layers.
Context {P : Profile}.
(** The layout and the bytes of a [HandoverInfo] value are the compiler's. *)
Context (info_layout : Layout) (info_bytes : HandoverInfo.t → list Z).

(** *** [ThreadSafeEarlyAllocator] *)

Definition TS_init (hstart hsize : Z) : M GState (result AllocError unit) :=
  under_lock (
    i ← gets instance;
    match i with
    | Some _ => mret (Err AlreadyInitialized)
    | None =>
        r ← on_machine (EarlyAllocator_new hstart hsize);
        match r with
        | Ok al => modify (set_instance (Some al));; mret (Ok tt)
        | Err e => mret (Err e)
        end
    end).

Definition TS_alloc (sz : Z) : M GState (option Z) :=
  with_allocator None (λ al, on_allocator al (Allocator.alloc sz)).
Definition TS_alloc_aligned (sz align : Z) : M GState (option Z) :=
  with_allocator None (λ al, on_allocator al (Allocator.alloc_aligned sz align)).
Definition TS_dealloc (p : Z) : M GState (result AllocError unit) :=
  with_allocator (Err NotInitialized) (λ al, on_allocator al (Allocator.dealloc p)).
Definition TS_stats : M GState (option AllocStats.t) :=
  with_allocator None (λ al, st ← on_allocator al get_stats; mret (Some st)).
Definition TS_freeze : M GState (result AllocError unit) :=
  with_allocator (Err NotInitialized) (λ al, on_allocator al Allocator.freeze;; mret (Ok tt)).
Definition TS_integrity_check : M GState (result AllocError unit) :=
  with_allocator (Err NotInitialized) (λ al, on_allocator al Allocator.integrity_check).
Definition TS_set_purpose (p : Z) (pu : AllocPurpose.t) : M GState (result AllocError unit) :=
  with_allocator (Err NotInitialized) (λ al, on_allocator al (Allocator.set_purpose p pu)).

(** *** [EarlyGlobalAllocator]; 0 is the null pointer *)

Definition Global_set_purpose (p : Z) (pu : AllocPurpose.t) : M GState (result AllocError unit) :=
  match NonNull_new p with
  | Some q => TS_set_purpose q pu
  | None => mret (Err NullPointer)
  end.

Definition safe_alloc (l : Layout) : M GState (result AllocError Z) :=
  if lsize l =? 0 then mret (Err InvalidParameter)
  else if negb (is_power_of_two (lalign l)) || (4096 <? lalign l) then mret (Err InvalidAlignment)
  else
    room ← usize_sub isize_MAX (lalign l);
    if room <? lsize l then mret (Err InvalidParameter)
    else
      r ← TS_alloc_aligned (lsize l) (lalign l);
      match r with
      | Some p => mret (Ok p)
      | None => mret (Err OutOfMemory)
      end.

Definition safe_dealloc (p : Z) (l : Layout) : M GState (result AllocError unit) :=
  match NonNull_new p with
  | Some q => TS_dealloc q
  | None => mret (Err NullPointer)
  end.

(** [GlobalAlloc::alloc] and [GlobalAlloc::dealloc] *)
Definition Global_alloc (l : Layout) : M GState Z :=
  r ← TS_alloc_aligned (lsize l) (lalign l);
  mret (default 0 r).

Definition Global_dealloc (p : Z) (l : Layout) : M GState unit :=
  match NonNull_new p with
  | Some q => TS_dealloc q;; mret tt
  | None => mret tt
  end.

Definition Global_alloc_zeroed (l : Layout) : M GState Z :=
  p ← Global_alloc l;
  (if negb (p =? 0)
   then on_machine (modify (with_mem (λ m, write_bytes (Z.to_nat (lsize l)) m p 0)))
   else mret tt);;
  mret p.

Definition Global_realloc (p : Z) (l : Layout) (new_size : Z) : M GState Z :=
  if p =? 0 then Global_alloc (default l (Layout_from_size_align new_size (lalign l)))
  else if new_size =? 0 then Global_dealloc p l;; mret 0
  else
    match Layout_from_size_align new_size (lalign l) with
    | None => mret 0
    | Some new_layout =>
        new_ptr ← Global_alloc new_layout;
        if new_ptr =? 0 then mret 0
        else
          let copy_size := Z.min (lsize l) new_size in
          on_machine (modify (with_mem (λ m, copy_bytes (Z.to_nat copy_size) m p new_ptr)));;
          Global_dealloc p l;;
          mret new_ptr
    end.

(** *** [advanced]: a value [v] of layout [l] is given by its bytes *)

Definition alloc_type (l : Layout) : M GState (option Z) :=
  r ← safe_alloc l;
  mret (match r with Ok p => Some p | Err _ => None end).

Definition alloc_init (l : Layout) (v : list Z) : M GState (option Z) :=
  r ← alloc_type l;
  match r with
  | Some p => on_machine (modify (with_mem (λ m, put_bytes v m p)));; mret (Some p)
  | None => mret None
  end.

Definition EarlyBox_new : Layout → list Z → M GState (option Z) := alloc_init.
Definition EarlyBox_drop (p : Z) (l : Layout) : M GState unit := Global_dealloc p l.

(** [ThreadSafeEarlyAllocator::prepare_handover]: the box is made while the
    mutex is held.  A box is its pointer with the value it owns. *)
Definition TS_prepare_handover : M GState (option (Z * HandoverInfo.t)) :=
  with_allocator None (λ al,
    info ← build_handover al;
    b ← EarlyBox_new info_layout (info_bytes info);
    mret ((λ p, (p, info)) <$> b)).

(** *** The methods of [EarlyGlobalAllocator] that pass a call on *)

Definition Global_init (hstart hsize : Z) : M GState (result AllocError unit) := TS_init hstart hsize.
Definition Global_stats : M GState (option AllocStats.t) := TS_stats.
Definition Global_prepare_handover : M GState (option (Z * HandoverInfo.t)) := TS_prepare_handover.
Definition Global_freeze : M GState (result AllocError unit) := TS_freeze.
Definition Global_integrity_check : M GState (result AllocError unit) := TS_integrity_check.
Definition Global_alloc_raw (sz : Z) : M GState (option Z) := TS_alloc sz.
Definition Global_alloc_aligned_raw (sz align : Z) : M GState (option Z) := TS_alloc_aligned sz align.
Definition Global_dealloc_raw (p : Z) : M GState (result AllocError unit) := TS_dealloc p.

(** *** The other operations of [EarlyBox] *)

Definition EarlyBox_set_purpose (p : Z) (pu : AllocPurpose.t) : M GState (result AllocError unit) :=
  Global_set_purpose p pu.

(** [leak]: the pointer, without running [drop]. *)
Definition EarlyBox_leak (p : Z) : M GState Z := mret p.

(** [early_box!]: [expect] *)
Definition early_box (l : Layout) (v : list Z) : M GState Z :=
  b ← EarlyBox_new l v;
  match b with Some p => mret p | None => panic end.

End layers.
