(* ===== verification/AllocApi.v ===== *)
(** * The allocator's module interface

    Models the functions of [src/init/alloc/mod.rs] on the state of
    [GlobalAlloc.v].  Their [println!]-like macros write to the console and are
    left out; the arithmetic in their arguments is kept where it can panic. *)

From Stdlib Require Import ZArith Lia String.
From stdpp Require Import base option numbers sorting strings gmap list.
From S2P Require Import Prelude Memory Purpose Metadata Allocator Arrays Handover GlobalAlloc.

(** [checked_add] on [usize] *)
Definition checked_add (a b : Z) : option Z :=
  if a + b <? 2 ^ 64 then Some (a + b) else None.

(** [x as i64], and [i64] subtraction *)
Definition as_i64 (z : Z) : Z := if z <? 2 ^ 63 then z else z - 2 ^ 64.
Definition i64_sub {P : Profile} {S} (a b : Z) : M S Z :=
  if (- 2 ^ 63 <=? a - b) && (a - b <? 2 ^ 63) then mret (a - b)
  else match build_profile with
       | Dev => panic
       | Release => mret (as_i64 ((a - b) mod 2 ^ 64))
       end.

(** What [HandoverInfo::print_summary] computes for its report. *)
Definition print_summary {P : Profile} {S} (self : HandoverInfo.t) : M S unit :=
  HandoverInfo.heap_size self;;
  HandoverInfo.allocated_size self;;
  HandoverInfo.critical_size self;;
  HandoverInfo.reclaimable_size self;;
  HandoverInfo.movable_size self;;
  HandoverInfo.group_by_purpose self;;
  mret tt.

Module Api.

Section api.
Context {P : Profile} (info_layout : Layout) (info_bytes : HandoverInfo.t → list Z).

Definition is_initialized : M GState bool := gets initialized.
Definition is_enabled : M GState bool := gets enabled.
Definition enable : M GState unit := modify (set_enabled true).
Definition disable : M GState unit := modify (set_enabled false).

Definition init (hstart hsize : Z) : M GState (result AllocError unit) :=
  i ← is_initialized;
  if i : bool then mret (Err AlreadyInitialized)
  else if hstart =? 0 then mret (Err InvalidParameter)
  else if hsize <? 64 * 1024 then mret (Err InvalidParameter)
  else if 1024 * 1024 * 1024 <? hsize then mret (Err InvalidParameter)
  else if negb (Z.land hstart 0xF =? 0) then mret (Err InvalidAlignment)
  else
    match checked_add hstart hsize with
    | None => mret (Err InvalidParameter)
    | Some hend =>
        if hend <=? hstart then mret (Err InvalidParameter)
        else
          r ← TS_init hstart hsize;
          match r with
          | Err e => mret (Err e)
          | Ok _ =>
              modify (set_initialized true);;
              c ← TS_integrity_check;
              match c with
              | Err e => mret (Err e)
              | Ok _ =>
                  st ← TS_stats;
                  match st with
                  | Some st =>
                      _ ← usize_sub (AllocStats.total_size st) (AllocStats.free_size st);
                      mret (Ok tt)
                  | None => mret (Ok tt)
                  end
              end
          end
    end.

Definition alloc (sz : Z) : M GState (option Z) :=
  i ← is_initialized;
  if negb i then mret None
  else
    e ← is_enabled;
    if negb e then mret None
    else if sz =? 0 then mret None
    else TS_alloc_aligned sz 8.

Definition alloc_aligned (sz align : Z) : M GState (option Z) :=
  i ← is_initialized;
  if negb i then mret None
  else
    e ← is_enabled;
    if negb e then mret None
    else if (sz =? 0) || negb (is_power_of_two align) then mret None
    else TS_alloc_aligned sz align.

Definition alloc_zeroed (sz : Z) : M GState (option Z) :=
  r ← alloc sz;
  match r with
  | Some p =>
      on_machine (modify (with_mem (λ m, write_bytes (Z.to_nat sz) m p 0)));;
      mret (Some p)
  | None => mret None
  end.

Definition dealloc (p : Z) : M GState unit :=
  i ← is_initialized;
  if negb i then mret tt
  else
    match NonNull_new p with
    | Some q => TS_dealloc q;; mret tt
    | None => mret tt
    end.

Definition dealloc_safe (p sz : Z) : M GState (result AllocError unit) :=
  i ← is_initialized;
  if negb i then mret (Err NotInitialized)
  else
    match NonNull_new p with
    | Some q => TS_dealloc q
    | None => mret (Err NullPointer)
    end.

Definition set_purpose (p : Z) (pu : AllocPurpose.t) : M GState (result AllocError unit) :=
  i ← is_initialized;
  if negb i then mret (Err NotInitialized) else mret (Ok tt).

Definition stats : M GState (option AllocStats.t) :=
  i ← is_initialized;
  if negb i then mret None else TS_stats.

Definition integrity_check : M GState (result AllocError unit) :=
  i ← is_initialized;
  if negb i then mret (Err NotInitialized) else TS_integrity_check.

Definition health_check : M GState (option HealthIssues.t) :=
  st ← stats;
  match st with
  | Some st => h ← check_health st; mret (Some h)
  | None => mret None
  end.

(** The report goes to the console; what remains is what it reads. *)
Definition print_status : M GState unit :=
  i ← is_initialized;
  if negb i then mret tt
  else
    st ← stats;
    (match st with Some st => check_health st;; mret tt | None => mret tt end);;
    integrity_check;;
    mret tt.

Definition prepare_handover : M GState (option (Z * HandoverInfo.t)) :=
  i ← is_initialized;
  if negb i then mret None
  else
    integrity_check;;
    health_check;;
    b ← TS_prepare_handover info_layout info_bytes;
    match b with
    | Some (p, info) =>
        v ← HandoverInfo.validate info;
        match v with
        | Ok _ => print_summary info;; mret (Some (p, info))
        | Err _ => EarlyBox_drop p info_layout;; mret None
        end
    | None => mret None
    end.

Definition freeze : M GState (result AllocError unit) :=
  i ← is_initialized;
  if negb i then mret (Err NotInitialized)
  else
    print_status;;
    r ← TS_freeze;
    match r with
    | Ok _ => disable;; mret (Ok tt)
    | Err e => mret (Err e)
    end.

Definition usage_summary : M GState (option (Z * Z * Z)) :=
  st ← stats;
  mret ((λ st, (AllocStats.total_size st, AllocStats.used_size st, AllocStats.free_size st)) <$> st).

Definition emergency_reclaim : M GState Z :=
  i ← is_initialized;
  if negb i then mret 0
  else
    stats;;
    b ← TS_prepare_handover info_layout info_bytes;
    match b with
    | Some (p, info) =>
        r ← HandoverInfo.reclaimable_size info;
        EarlyBox_drop p info_layout;;
        mret (if 0 <? r then r else 0)
    | None => mret 0
    end.

Definition maintenance : M GState (result AllocError unit) :=
  i ← is_initialized;
  if negb i then mret (Err NotInitialized)
  else
    c ← integrity_check;
    match c with
    | Err e => mret (Err e)
    | Ok _ => health_check;; mret (Ok tt)
    end.

(** [COUNTER] of this file *)
Definition get_timestamp : M GState Z := λ g,
  Ret (snap_clock g, set_snap_clock (wrap64 (snap_clock g + 1)) g).

Record MemorySnapshot : Type := mkMemorySnapshot {
  timestamp : Z;
  statistics : AllocStats.t;
  handover_info : Z * HandoverInfo.t;
}.

Definition create_snapshot : M GState (option MemorySnapshot) :=
  i ← is_initialized;
  if negb i then mret None
  else
    st ← stats;
    match st with
    | None => mret None
    | Some st =>
        b ← TS_prepare_handover info_layout info_bytes;
        match b with
        | None => mret None
        | Some handover =>
            ts ← get_timestamp;
            mret (Some (mkMemorySnapshot ts st handover))
        end
    end.

Record SnapshotComparison : Type := mkSnapshotComparison {
  time_delta : Z;
  alloc_delta : Z;
  dealloc_delta : Z;
  size_delta : Z;
  block_count_delta : Z;
}.

Definition compare {S} (self other : MemorySnapshot) : M S SnapshotComparison :=
  ad ← arith 64 (AllocStats.total_allocs (statistics other) - AllocStats.total_allocs (statistics self));
  dd ← arith 64 (AllocStats.total_frees (statistics other) - AllocStats.total_frees (statistics self));
  sd ← i64_sub (as_i64 (AllocStats.used_size (statistics other)))
               (as_i64 (AllocStats.used_size (statistics self)));
  bd ← i64_sub (as_i64 (HandoverInfo.allocated_count (snd (handover_info other))))
               (as_i64 (HandoverInfo.allocated_count (snd (handover_info self))));
  mret (mkSnapshotComparison (saturating_sub (timestamp other) (timestamp self)) ad dd sd bd).

(** The two macros; the warning about a purpose that could not be set goes to the
    console. *)
Definition alloc_with_purpose (sz : Z) (pu : AllocPurpose.t) : M GState (option Z) :=
  r ← alloc sz;
  match r with
  | Some p => set_purpose p pu;; mret (Some p)
  | None => mret None
  end.

Definition alloc_zeroed_with_purpose (sz : Z) (pu : AllocPurpose.t) : M GState (option Z) :=
  r ← alloc_zeroed sz;
  match r with
  | Some p => set_purpose p pu;; mret (Some p)
  | None => mret None
  end.

End api.

End Api.

(** The purpose given to the macros has no effect. *)
Lemma alloc_with_purpose_is_alloc {P : Profile} sz pu g :
  Api.alloc_with_purpose sz pu g = Api.alloc sz g
  ∧ Api.alloc_zeroed_with_purpose sz pu g = Api.alloc_zeroed sz g.
Proof.
  assert (∀ m : M GState (option Z), (r ← m; match r with
    | Some p => Api.set_purpose p pu;; mret (Some p) | None => mret None end) g = m g) as H; [|split; apply H].
  intros m. unfold mbind, M_bind. destruct (m g) as [[[p|] g']| | |]; [|done..].
  unfold Api.set_purpose, Api.is_initialized, mbind, M_bind, gets. cbn. by destruct (initialized g').
Qed.
