(* ===== verification/GlobalThms.v ===== *)
(** * Correctness of the layers above the early allocator

    [realloc] and [alloc_zeroed], initialisation and freezing through the
    module interface, and the handover snapshot.  The proofs use what the early
    allocator guarantees its clients ([AllocClient.v]). *)

From Stdlib Require Import ZArith Lia String.
From stdpp Require Import base option numbers sorting strings gmap list.
From S2P Require Import Prelude Memory Purpose Metadata HeaderSpec Allocator FreeList HeapInv AllocSteps AllocSpec DeallocSpec AllocOps AllocRefine AllocClient Arrays Handover HandoverThms GlobalAlloc AllocApi Examples.

(** ** The lock *)

(** The mutex of [g] is free and holds the allocator of [s]. *)
Record holds (g : GState) (s : AState) : Prop := {
  ho_free : locked g = false;
  ho_instance : instance g = Some (self s);
  ho_machine : machine g = mach s;
}.

Definition put (s : AState) (g : GState) : GState :=
  set_machine (mach s) (set_instance (Some (self s)) g).

Lemma put_holds g s s' : holds g s → holds (put s' g) s'.
Proof. by intros [H _ _]. Qed.

Lemma put_id g s : holds g s → put s g = g.
Proof. destruct g. intros [H1 H2 H3]. cbn in *. by subst. Qed.

Lemma under_lock_run {A} (f : M GState A) g g' a :
  locked g = false → f (set_locked true g) = Ret (a, g') →
  under_lock f g = Ret (a, set_locked false g').
Proof.
  intros Hl E. unfold under_lock. mstep. rewrite Hl. mstep. mstep_with ltac:(exact E). mstep. reflexivity.
Qed.

(** A call through the lock. *)
Lemma locked_run {A} (none : A) (m : EarlyAllocator → M GState A) g s g' a :
  holds g s → locked g' = false → m (self s) (set_locked true g) = Ret (a, set_locked true g') →
  with_allocator none m g = Ret (a, g').
Proof.
  intros [H1 H2 H3] H' E. unfold with_allocator.
  rewrite (under_lock_run _ _ (set_locked true g') a); [by destruct g'; cbn in *; subst|done|].
  mstep. cbn [instance set_locked]. by rewrite H2.
Qed.

Lemma call_run {A} (none : A) (m : M AState A) g s s' a :
  holds g s → m s = Ret (a, s') →
  with_allocator none (λ al, on_allocator al m) g = Ret (a, put s' g).
Proof.
  intros Hh E. eapply locked_run; [exact Hh|by destruct Hh|]. destruct Hh as [H1 H2 H3].
  unfold on_allocator. erewrite zoom_Ret; [reflexivity|]. cbn [machine set_locked].
  rewrite H3. by destruct s.
Qed.

Lemma TS_stats_run g s : holds g s → TS_stats g = Ret (Some (stats (self s)), g).
Proof.
  intros Hh. eapply locked_run; [exact Hh|by destruct Hh|]. mstep.
  destruct Hh. destruct g. cbn in *. by subst.
Qed.

Lemma TS_freeze_run g s :
  holds g s →
  TS_freeze g = Ret (Ok tt, put (mkAState (set_frozen true (self s)) (mach s)) g).
Proof.
  intros Hh. eapply locked_run; [exact Hh|by destruct Hh|]. mstep.
  destruct Hh. destruct g. cbn in *. by subst.
Qed.

(** A method call from inside the lock never returns. *)
Lemma call_locked {A} (none : A) m g : locked g = true → with_allocator none m g = Hang.
Proof. intros H. unfold with_allocator, under_lock, mbind, M_bind, gets. by rewrite H. Qed.

Lemma set_machine_holds g s ms : holds g s → holds (set_machine ms g) (mkAState (self s) ms).
Proof. intros [H1 H2 H3]. by split. Qed.

(** ** Bytes *)

Lemma write_bytes_out n m p v x : x < p ∨ p + Z.of_nat n ≤ x → write_bytes n m p v !! x = m !! x.
Proof.
  revert m p. induction n as [|n IH]; intros m p Hx; [done|]. cbn [write_bytes].
  rewrite IH by lia. apply lookup_insert_ne. lia.
Qed.

Lemma write_bytes_in n m p v x :
  p ≤ x < p + Z.of_nat n → write_bytes n m p v !! x = Some (v mod 256).
Proof.
  revert m p. induction n as [|n IH]; intros m p Hx; [lia|]. cbn [write_bytes].
  destruct (decide (x = p)) as [->|Hne]; [|apply IH; lia].
  rewrite write_bytes_out by lia. apply lookup_insert_eq.
Qed.

Lemma copy_bytes_out n m src dst x :
  x < dst ∨ dst + Z.of_nat n ≤ x → copy_bytes n m src dst !! x = m !! x.
Proof.
  revert m src dst. induction n as [|n IH]; intros m src dst Hx; [done|]. cbn [copy_bytes].
  rewrite IH by lia. apply lookup_insert_ne. lia.
Qed.

Lemma byte_at_eq m m' x : m' !! x = m !! x → byte_at m' x = byte_at m x.
Proof. unfold byte_at. by intros ->. Qed.

Lemma copy_bytes_in n m src dst k :
  src + Z.of_nat n ≤ dst ∨ dst + Z.of_nat n ≤ src → 0 ≤ k < Z.of_nat n →
  byte_at (copy_bytes n m src dst) (dst + k) = byte_at m (src + k).
Proof.
  revert m src dst k. induction n as [|n IH]; intros m src dst k Hd Hk; [lia|]. cbn [copy_bytes].
  destruct (decide (k = 0)) as [->|Hne].
  - rewrite !Z.add_0_r. erewrite byte_at_eq by (apply copy_bytes_out; lia).
    unfold byte_at at 1. rewrite lookup_insert_eq. cbn [default from_option].
    apply Z.mod_small, byte_at_range.
  - replace (dst + k) with (dst + 1 + (k - 1)) by lia. rewrite IH by lia.
    replace (src + 1 + (k - 1)) with (src + k) by lia. apply byte_at_eq, lookup_insert_ne. lia.
Qed.

(** ** [realloc] and [alloc_zeroed] *)

Section global.
Context {P : Profile}.

(** A state of the global allocator over a well-formed heap. *)
Definition heap_ready (N : Z) (g : GState) (s : AState) (bs : list header) : Prop :=
  holds g s ∧ heap_inv s bs ∧ counters_below N (self s).

(** What a layout has to satisfy for the address computations to be in range. *)
Definition request_ok (s : AState) (sz align : Z) : Prop :=
  0 < sz ∧ is_power_of_two align = true ∧ HEADER_SIZE + align + Z.max sz FREE_BLOCK_SIZE ≤ 2 ^ 64
  ∧ heap_end (self s) + align + min_block_size ≤ 2 ^ 64.

Lemma Global_alloc_run g s s' l r :
  holds g s → Allocator.alloc_aligned (lsize l) (lalign l) s = Ret (r, s') →
  Global_alloc l g = Ret (default 0 r, put s' g).
Proof.
  intros Hh E. unfold Global_alloc. mstep_with ltac:(eapply call_run; [exact Hh|exact E]). reflexivity.
Qed.

Lemma Global_dealloc_run g s s' l p r :
  holds g s → p ≠ 0 → Allocator.dealloc p s = Ret (r, s') → Global_dealloc p l g = Ret (tt, put s' g).
Proof.
  intros Hh Hp E. unfold Global_dealloc, NonNull_new. rewrite (proj2 (Z.eqb_neq p 0)) by done.
  mstep_with ltac:(eapply call_run; [exact Hh|exact E]). reflexivity.
Qed.

(** A client writes to bytes it owns. *)
Lemma write_owned g s bs (f : memory → memory) :
  holds g s → heap_inv s bs →
  (∀ x, ¬ in_user (heap_start (self s)) bs x → f (mem (mach s)) !! x = mem (mach s) !! x) →
  let s' := mkAState (self s) (mkMachine (f (mem (mach s))) (clock (mach s))) in
  on_machine (modify (with_mem f)) g = Ret (tt, put s' g) ∧ heap_inv s' bs.
Proof.
  intros [H1 H2 H3] I Hm s'. split; [|by apply client_write_inv].
  unfold on_machine, put. erewrite zoom_Ret; [|unfold modify; reflexivity].
  unfold with_mem, s'. cbn [self mach mem clock]. do 2 f_equal. rewrite H3.
  destruct g. cbn in *. by subst.
Qed.

Lemma in_block a bs1 h bs2 x :
  is_free h = false → a + span bs1 + HEADER_SIZE ≤ x < a + span bs1 + total h →
  in_user a (bs1 ++ h :: bs2) x.
Proof. intros Hf Hx. rewrite in_user_app. cbn [in_user]. rewrite Hf. auto. Qed.

(** The last two steps of [realloc]: the bytes are copied from the old block
    at [p] to the new pointer [q], then the old block is freed. *)
Lemma move_block N g s bs1 h bs2 l q c :
  heap_ready N g s (bs1 ++ h :: bs2) → N + 8 < 2 ^ 64 → frozen (self s) = false → is_free h = false →
  0 ≤ c ≤ BlockHeader.size h →
  let a := heap_start (self s) in
  let p := a + span bs1 + HEADER_SIZE in
  (∀ x, q ≤ x < q + c → in_user a (bs1 ++ h :: bs2) x) →
  p + BlockHeader.size h ≤ q ∨ q + c ≤ p →
  ∃ g' s' bs', (on_machine (modify (with_mem (λ m, copy_bytes (Z.to_nat c) m p q)));;
                Global_dealloc p l;; mret q) g = Ret (q, g')
    ∧ heap_ready (N + 4) g' s' bs' ∧ heap_start (self s') = a
    ∧ (∀ x, in_user a bs' x ↔ in_user a (bs1 ++ h :: bs2) x ∧ ¬ (p ≤ x < p + BlockHeader.size h))
    ∧ (∀ k, 0 ≤ k < c → byte_at (mem (mach s')) (q + k) = byte_at (mem (mach s)) (p + k))
    ∧ (∀ x, in_user a bs' x → ¬ (q ≤ x < q + c) → mem (mach s') !! x = mem (mach s) !! x).
Proof.
  intros (Hh & I & Hc) HN Hfr Hf Hcs a p Hq Hap.
  destruct (write_owned g s _ (λ m, copy_bytes (Z.to_nat c) m p q) Hh I) as [E1 I1].
  { intros x Hx. apply copy_bytes_out. rewrite Z2Nat.id by lia.
    destruct (decide (q ≤ x < q + c)) as [Hin|]; [|lia]. by apply Hq in Hin. }
  set (s1 := mkAState (self s) _) in E1, I1.
  assert (BlockHeader.status h = Allocated) as Hst.
  { unfold is_free in Hf. by destruct (BlockHeader.status h). }
  destruct (dealloc_client N s1 bs1 h bs2 I1 Hc HN Hfr Hst)
    as (s2 & bs' & E2 & I2 & (Es & _ & _ & Hc2) & Hu & Hm & _).
  change (heap_start (self s1)) with a in *. fold p in E2.
  pose proof (wf_start _ _ (proj1 I)) as Hpos. fold a in Hpos.
  pose proof (heap_wf_split _ _ _ _ (proj1 I)) as (_ & _ & _ & _ & _ & _ & Hsp & _).
  assert (∀ x, in_user a bs' x ↔ in_user a (bs1 ++ h :: bs2) x ∧ ¬ (p ≤ x < p + BlockHeader.size h)) as Hu'.
  { intros x. rewrite Hu. unfold p, total.
    by replace (a + span bs1 + (BlockHeader.size h + HEADER_SIZE))
      with (a + span bs1 + HEADER_SIZE + BlockHeader.size h) by lia. }
  exists (put s2 (put s1 g)), s2, bs'. split_and!; try done.
  - mstep_with ltac:(exact E1).
    mstep_with ltac:(eapply Global_dealloc_run; [apply (put_holds g s), Hh|unfold p, HEADER_SIZE; lia|exact E2]).
    reflexivity.
  - split_and!; [by eapply put_holds, put_holds|done|done].
  - intros k Hk. erewrite byte_at_eq by (apply Hm, Hu'; split; [apply Hq; lia|lia]).
    apply copy_bytes_in; rewrite Z2Nat.id by lia; lia.
  - intros x Hx Hnx. rewrite Hm by done. apply copy_bytes_out. rewrite Z2Nat.id by lia. lia.
Qed.

(** [realloc] of a live pointer to a valid size, after the allocation. *)
Lemma realloc_step g g' p l n t :
  p ≠ 0 → 0 < n → is_power_of_two (lalign l) = true → n ≤ isize_MAX + 1 - lalign l →
  Global_alloc (mkLayout n (lalign l)) g = Ret (t, g') →
  Global_realloc p l n g =
  (if t =? 0 then mret 0
   else on_machine (modify (with_mem (λ m, copy_bytes (Z.to_nat (Z.min (lsize l) n)) m p t)));;
        Global_dealloc p l;; mret t) g'.
Proof.
  intros Hp Hn Hal Hni E. unfold Global_realloc. rewrite (proj2 (Z.eqb_neq p 0)) by done.
  rewrite (proj2 (Z.eqb_neq n 0)) by lia. unfold Layout_from_size_align. rewrite Hal.
  rewrite (proj2 (Z.leb_le n _)) by lia. cbn [andb]. by mstep_with ltac:(exact E).
Qed.

(** C17: [realloc] to a non-zero size of the pointer right behind the header of a
    live block (one that needed no padding) returns.  When the new
    allocation fails it answers null and the heap and memory are what they
    were.  Otherwise the new pointer is aligned, owns the requested bytes, and
    starts with the old contents (as many bytes as both sizes have); the old
    block is no longer owned, and the bytes of every other block are unchanged. *)
Theorem realloc_preserves_contents N g s bs1 h bs2 l n :
  heap_ready N g s (bs1 ++ h :: bs2) → N + 16 < 2 ^ 64 → frozen (self s) = false → is_free h = false →
  0 ≤ lsize l ≤ BlockHeader.size h → n ≤ isize_MAX + 1 - lalign l → request_ok s n (lalign l) →
  let a := heap_start (self s) in
  let p := a + span bs1 + HEADER_SIZE in
  let bs := bs1 ++ h :: bs2 in
  ∃ q g' s' bs', Global_realloc p l n g = Ret (q, g') ∧ heap_ready (N + 8) g' s' bs'
    ∧ (q = 0 → bs' = bs ∧ mach s' = mach s)
    ∧ (q ≠ 0 →
       q mod lalign l = 0
       ∧ (∀ k, 0 ≤ k < Z.min (lsize l) n → byte_at (mem (mach s')) (q + k) = byte_at (mem (mach s)) (p + k))
       ∧ (∀ x, q ≤ x < q + n → in_user a bs' x)
       ∧ (∀ x, p ≤ x < p + BlockHeader.size h → ¬ in_user a bs' x)
       ∧ (∀ x, in_user a bs x → ¬ (p ≤ x < p + BlockHeader.size h) →
            in_user a bs' x ∧ mem (mach s') !! x = mem (mach s) !! x)).
Proof.
  intros (Hh & I & Hc) HN Hfr Hf Hls Hni (Rn & Ral & R1 & R2) a p bs.
  destruct (alloc_client N s bs n (lalign l) I Hc ltac:(lia) Hfr Rn Ral R1 R2)
    as (r & s1 & bsa & E1 & I1 & (Es & Ee & Ef & Hc1) & H).
  fold a in H. pose proof (wf_start _ _ (proj1 I)) as Hpos. fold a in Hpos.
  pose proof (heap_wf_split _ _ _ _ (proj1 I)) as (_ & _ & _ & _ & _ & _ & Hsp & _).
  assert (p ≠ 0) as Hp0 by (unfold p, HEADER_SIZE; lia).
  pose proof (Global_alloc_run g s s1 (mkLayout n (lalign l)) r Hh E1) as E1'.
  rewrite (realloc_step _ _ _ _ _ _ Hp0 Rn Ral Hni E1'). destruct r as [q|]; cbn [from_option id].
  2:{ destruct H as (-> & Em & _). exists 0, (put s1 g), s1, bs. split_and!; try done.
      split_and!; [by eapply put_holds|done|eapply counters_mono; [exact Hc1|lia]]. }
  destruct H as (Hmod & Hlo & Hhi & Hnew & Hold & Hkeep).
  destruct (Hkeep bs1 h bs2 eq_refl Hf) as (c1 & c2 & -> & Hspan).
  unfold HEADER_SIZE in Hlo. rewrite (proj2 (Z.eqb_neq q 0)) by lia.
  assert (∀ x, p ≤ x < p + BlockHeader.size h → in_user a bs x) as Hown.
  { intros x Hx. apply in_block; [done|]. unfold p, total in *. lia. }
  destruct (move_block (N + 4) (put s1 g) s1 c1 h c2 l q (Z.min (lsize l) n))
    as (g' & s' & bs' & E2 & (Hh' & I' & Hc') & _ & Hu & Hk & Hm); try done; try lia.
  - split_and!; [by eapply put_holds|done|done].
  - by rewrite Ef.
  - intros x Hx. rewrite Es. apply Hnew. lia.
  - rewrite Es, Hspan. fold a p.
    destruct (decide (p + BlockHeader.size h ≤ q ∨ q + Z.min (lsize l) n ≤ p)) as [|Hno]; [done|]. exfalso.
    apply (Hnew (Z.max p q)); [lia|]. apply Hown. lia.
  - rewrite Es in Hm. rewrite Es, Hspan in E2, Hu, Hk. fold a p in E2, Hu, Hk, Hm.
    exists q, g', s', bs'. split_and!; try done.
    + split_and!; [done|done|]. by replace (N + 8) with (N + 4 + 4) by lia.
    + lia.
    + intros _. split_and!; try done.
      * intros k Hk'. rewrite Hk by lia. apply byte_at_eq, Hold, Hown. lia.
      * intros x Hx. apply Hu. split; [by apply Hnew|]. intros Hx'. apply (Hnew x Hx). by apply Hown.
      * intros x Hx Hin. apply Hu in Hin as [_ Hin]. done.
      * intros x Hx Hnx. destruct (Hold x Hx) as [Ho1 Ho2]. assert (in_user a bs' x) as Hin by (by apply Hu).
        split; [done|]. rewrite Hm, Ho2; [done|done|]. intros Hq. apply (Hnew x); [lia|done].
Qed.

(** [alloc_zeroed] through the module interface returns: either [None],
    with the heap and memory as they were, or a pointer aligned to eight bytes
    whose requested bytes are new, owned and all zero, while the bytes of every
    other block are unchanged. *)
Theorem alloc_zeroed_correct N g s bs sz :
  heap_ready N g s bs → N + 8 < 2 ^ 64 → frozen (self s) = false →
  initialized g = true → enabled g = true → request_ok s sz 8 →
  let a := heap_start (self s) in
  ∃ r g' s' bs', Api.alloc_zeroed sz g = Ret (r, g') ∧ heap_ready (N + 4) g' s' bs'
    ∧ match r with
      | Some p =>
          p mod 8 = 0
          ∧ (∀ x, p ≤ x < p + sz → in_user a bs' x ∧ ¬ in_user a bs x ∧ byte_at (mem (mach s')) x = 0)
          ∧ (∀ x, in_user a bs x → in_user a bs' x ∧ mem (mach s') !! x = mem (mach s) !! x)
      | None => bs' = bs ∧ mach s' = mach s
      end.
Proof.
  intros (Hh & I & Hc) HN Hfr Hin Hen (Rn & Ral & R1 & R2) a.
  destruct (alloc_client N s bs sz 8 I Hc HN Hfr Rn Ral R1 R2)
    as (r & s1 & bs' & E1 & I1 & (Es & Ee & Ef & Hc1) & H). fold a in H.
  assert (Api.alloc sz g = Ret (r, put s1 g)) as E.
  { unfold Api.alloc, Api.is_initialized, Api.is_enabled. mstep. rewrite Hin. cbn [negb]. mstep.
    rewrite Hen. cbn [negb]. rewrite (proj2 (Z.eqb_neq sz 0)) by lia.
    by eapply call_run. }
  destruct r as [p|].
  - destruct H as (Hmod & Hlo & Hhi & Hnew & Hold & _).
    destruct (write_owned (put s1 g) s1 bs' (λ m, write_bytes (Z.to_nat sz) m p 0)) as [E2 I2];
      [by eapply put_holds|done| |].
    { intros x Hx. rewrite Es in Hx. apply write_bytes_out. rewrite Z2Nat.id by lia.
      destruct (decide (p ≤ x < p + sz)) as [Hp|]; [|lia]. by apply Hnew in Hp as [Hp _]. }
    eexists (Some p), _, _, bs'. split_and!; [| |done|..].
    + unfold Api.alloc_zeroed. mstep_with ltac:(exact E). mstep_with ltac:(exact E2). reflexivity.
    + split_and!; [by eapply put_holds, put_holds|exact I2|exact Hc1].
    + intros x Hx. destruct (Hnew x Hx) as [Hx1 Hx2]. split_and!; [done|done|].
      cbn [mach mem]. unfold byte_at. rewrite write_bytes_in by lia. done.
    + intros x Hx. destruct (Hold x Hx) as [Hx1 Hx2]. split; [done|]. cbn [mach mem].
      rewrite write_bytes_out; [done|]. rewrite Z2Nat.id by lia.
      destruct (decide (p ≤ x < p + sz)) as [Hp|]; [|lia]. by apply Hnew in Hp as [_ Hp].
  - destruct H as (-> & Em & _). eexists None, _, s1, bs. split_and!; try done.
    + unfold Api.alloc_zeroed. mstep_with ltac:(exact E). reflexivity.
    + split_and!; [by eapply put_holds|done|done].
Qed.

(** ** Initialisation and freezing *)

Lemma TS_init_run g start sz ms' al :
  locked g = false → instance g = None →
  EarlyAllocator_new start sz (machine g) = Ret (Ok al, ms') →
  TS_init start sz g = Ret (Ok tt, put (mkAState al ms') g).
Proof.
  intros Hl Hi E. unfold TS_init.
  rewrite (under_lock_run _ _ (set_locked true (put (mkAState al ms') g)) (Ok tt));
    [by destruct g; cbn in *; subst|done|].
  mstep. cbn [instance set_locked]. rewrite Hi.
  mstep_with ltac:(apply zoom_Ret; exact E). mstep. by destruct g.
Qed.

Lemma new_stats start sz ms al ms' :
  EarlyAllocator_new start sz ms = Ret (Ok al, ms') → AllocStats.total_size (stats al) = sz.
Proof.
  unfold EarlyAllocator_new. destruct (_ || _); [done|]. intros H.
  repeat (apply bind_inv in H as (? & ? & _ & H)). by injection H as <- _.
Qed.

(** The parameters [init] accepts. *)
Definition init_accepts (start sz : Z) : Prop :=
  start ≠ 0 ∧ 64 * 1024 ≤ sz ≤ 1024 * 1024 * 1024 ∧ Z.land start 15 = 0 ∧ start + sz < 2 ^ 64.

Lemma init_run g start sz :
  locked g = false → instance g = None → initialized g = false → in_u64 (clock (machine g)) →
  0 ≤ start → init_accepts start sz →
  ∃ g' s h, Api.init start sz g = Ret (Ok tt, g') ∧ heap_ready 1 g' s [h]
    ∧ is_free h = true ∧ heap_start (self s) = start ∧ heap_end (self s) = start + sz
    ∧ frozen (self s) = false ∧ initialized g' = true ∧ enabled g' = enabled g
    ∧ AllocStats.total_size (stats (self s)) = sz ∧ AllocStats.free_size (stats (self s)) = sz.
Proof.
  intros Hl Hi Hn Hck Hs0 (H1 & H2 & H3 & H4). unfold Api.init, Api.is_initialized.
  destruct (new_ok start sz (machine g)) as (al & ms' & h & E & I & Hf & _ & Hs & He & Hfr & _ & Hc & _);
    [lia|unfold min_heap_size, min_block_size; change HEADER_SIZE with 48; change FREE_BLOCK_SIZE with 16; lia|done|done|].
  set (s := mkAState al ms'). set (g1 := set_initialized true (put s g)).
  assert (holds g1 s) as Hg1 by (by split).
  pose proof (wf_stats _ _ (proj1 I)) as [_ Sf _ _]. cbn [self] in Sf.
  pose proof (new_stats _ _ _ _ _ E) as St.
  pose proof (wf_end _ _ (proj1 I)) as We. cbn [self] in We.
  assert (free_bytes [h] = sz) as Ez.
  { unfold free_bytes, span in *. cbn [sumZ] in *. rewrite Hf. lia. }
  exists g1, s, h. split_and!; try done; [|cbn [self s]; lia].
  - mstep. rewrite Hn. rewrite (proj2 (Z.eqb_neq start 0)), (proj2 (Z.ltb_ge sz _)), (proj2 (Z.ltb_ge _ sz)) by lia.
    rewrite H3. cbn [Z.eqb negb]. unfold checked_add. rewrite (proj2 (Z.ltb_lt _ _)) by lia.
    rewrite (proj2 (Z.leb_gt _ start)) by lia.
    mstep_with ltac:(eapply TS_init_run; [done|done|exact E]). mstep. fold s g1.
    mstep_with ltac:(eapply call_run; [exact Hg1|apply (AllocOps.integrity_ok s [h]), I]).
    rewrite put_id by done.
    mstep_with ltac:(apply (TS_stats_run g1 s); done). cbn [self s].
    mstep_with ltac:(apply usize_sub_ok; lia). reflexivity.
Qed.

(** C34: Before initialisation [init] accepts exactly a non-null, 16-aligned
    start, a size from 64 KiB to 1 GiB and a range that does not wrap; it then
    leaves an unfrozen heap that is one free block over the whole range, and a
    second [init] is refused.  Any other parameters are refused and change
    nothing. *)
Theorem init_correct g start sz :
  locked g = false → instance g = None → initialized g = false → in_u64 (clock (machine g)) →
  0 ≤ start →
  (init_accepts start sz →
   ∃ g' s h, Api.init start sz g = Ret (Ok tt, g') ∧ heap_ready 1 g' s [h]
     ∧ is_free h = true ∧ heap_start (self s) = start ∧ heap_end (self s) = start + sz
     ∧ frozen (self s) = false ∧ initialized g' = true ∧ enabled g' = enabled g
     ∧ ∀ start' sz', Api.init start' sz' g' = Ret (Err AlreadyInitialized, g'))
  ∧ (¬ init_accepts start sz → ∃ e, Api.init start sz g = Ret (Err e, g)).
Proof.
  intros Hl Hi Hn Hck Hs0. split.
  - intros Hok. destruct (init_run g start sz Hl Hi Hn Hck Hs0 Hok)
      as (g' & s & h & E & R & Hf & Hs & He & Hfr & Hi' & He' & _).
    exists g', s, h. split_and!; try done. intros start' sz'.
    unfold Api.init, Api.is_initialized. mstep. by rewrite Hi'.
  - intros Hno. unfold init_accepts in Hno. unfold Api.init, Api.is_initialized.
    assert (∀ e (k : M GState (result AllocError unit)), k = mret (Err e) →
      ∃ e, (i ← gets initialized; if i : bool then mret (Err AlreadyInitialized) else k) g = Ret (Err e, g))
      as Hrefuse by (intros e k ->; exists e; mstep; by rewrite Hn).
    destruct (Z.eqb_spec start 0); [by eapply Hrefuse|].
    destruct (Z.ltb_spec sz (64 * 1024)); [by eapply Hrefuse|].
    destruct (Z.ltb_spec (1024 * 1024 * 1024) sz); [by eapply Hrefuse|].
    destruct (Z.eqb_spec (Z.land start 15) 0); cbn [negb]; [|by eapply Hrefuse].
    unfold checked_add. destruct (Z.ltb_spec (start + sz) (2 ^ 64)); [|by eapply Hrefuse].
    exfalso. apply Hno. lia.
Qed.

End global.
