(* ===== verification/HandoverSnapshot.v ===== *)
(** * Freezing and handing over

    What [freeze] leaves behind, and what the handover snapshot that
    [EarlyAllocator::prepare_handover] builds says of the heap; then why the
    functions that box that snapshot never return. *)

From Stdlib Require Import ZArith Lia String.
From stdpp Require Import base option numbers sorting strings gmap list.
From S2P Require Import Prelude Memory Purpose Metadata HeaderSpec Allocator FreeList HeapInv AllocSteps AllocSpec DeallocSpec AllocOps AllocRefine AllocClient Arrays Handover HandoverThms GlobalAlloc AllocApi GlobalThms Examples.

(** ** Reports *)

Section reports.
Context {P : Profile}.

Lemma check_health_run {S} N al (s : S) :
  counters_below N al → 2 * N < 2 ^ 64 → ∃ h, check_health (stats al) s = Ret (h, s).
Proof.
  intros [H1 _ H3 _ _ _ _ _ _] HN.
  assert (∃ r, AllocStats.success_rate (stats al) s = Ret (r, s)) as [r E].
  { unfold AllocStats.success_rate.
    destruct (AllocStats.total_allocs (stats al) + AllocStats.failed_allocs (stats al) =? 0) eqn:Z0;
      eexists; (mstep_with ltac:(apply u64_add_ok; lia)); rewrite Z0; reflexivity. }
  eexists. unfold check_health. cbv zeta. mstep_with ltac:(exact E). reflexivity.
Qed.

Lemma api_stats_run g s : holds g s → initialized g = true → Api.stats g = Ret (Some (stats (self s)), g).
Proof. intros Hh Hi. unfold Api.stats, Api.is_initialized. mstep. rewrite Hi. by apply TS_stats_run. Qed.

Lemma api_integrity_run g s bs :
  holds g s → heap_inv s bs → initialized g = true → Api.integrity_check g = Ret (Ok tt, g).
Proof.
  intros Hh I Hi. unfold Api.integrity_check, Api.is_initialized. mstep. rewrite Hi. cbn [negb].
  unfold TS_integrity_check. erewrite call_run; [|exact Hh|apply (AllocOps.integrity_ok s bs), I].
  by rewrite put_id.
Qed.

Lemma health_check_run N g s :
  holds g s → counters_below N (self s) → 2 * N < 2 ^ 64 → initialized g = true →
  ∃ h, Api.health_check g = Ret (Some h, g).
Proof.
  intros Hh Hc HN Hi. destruct (check_health_run (S := GState) N (self s) g Hc HN) as [h E].
  exists h. unfold Api.health_check. mstep_with ltac:(by apply (api_stats_run g s)).
  mstep_with ltac:(exact E). reflexivity.
Qed.

Lemma print_status_run N g s bs :
  heap_ready N g s bs → 2 * N < 2 ^ 64 → initialized g = true → Api.print_status g = Ret (tt, g).
Proof.
  intros (Hh & I & Hc) HN Hi. destruct (check_health_run (S := GState) N (self s) g Hc HN) as [h E].
  unfold Api.print_status, Api.is_initialized. mstep. rewrite Hi. cbn [negb].
  mstep_with ltac:(by apply (api_stats_run g s)).
  mstep_with ltac:(mstep_with ltac:(exact E); reflexivity).
  mstep_with ltac:(by apply (api_integrity_run g s bs)). reflexivity.
Qed.

(** ** Freezing *)

Lemma frozen_inv s bs :
  heap_inv s bs → heap_inv (mkAState (set_frozen true (self s)) (mach s)) bs.
Proof. intros [[] ?]. by split. Qed.

(** The system right after [freeze]. *)
Definition frozen_state (s : AState) : AState := mkAState (set_frozen true (self s)) (mach s).
Definition frozen_system (s : AState) (g : GState) : GState := set_enabled false (put (frozen_state s) g).

Lemma freeze_run N g s bs :
  heap_ready N g s bs → 2 * N < 2 ^ 64 → initialized g = true →
  Api.freeze g = Ret (Ok tt, frozen_system s g)
  ∧ heap_ready N (frozen_system s g) (frozen_state s) bs.
Proof.
  intros (Hh & I & Hc) HN Hi. split.
  - unfold Api.freeze, Api.is_initialized. mstep. rewrite Hi. cbn [negb].
    mstep_with ltac:(eapply (print_status_run N g s bs); [by split_and!|lia|done]).
    mstep_with ltac:(by apply (TS_freeze_run g s)).
    mstep. reflexivity.
  - split_and!; [|by apply frozen_inv|by destruct Hc; split].
    destruct (put_holds g s (frozen_state s) Hh). by split.
Qed.


End reports.

(** ** The snapshot *)

Section snapshot.
Context {P : Profile}.

(** The entry of an allocated block whose header is at [a]. *)
Definition entry_of (a : Z) (h : header) : block :=
  AllocatedBlock.mk (a + HEADER_SIZE) (BlockHeader.size h) (BlockHeader.purpose h)
    (BlockHeader.alloc_id h) (BlockHeader.timestamp h) MemoryPermissions.READ_WRITE 8 (0, 0).

(** The allocated blocks of a heap at [a], in address order. *)
Fixpoint tracked (a : Z) (bs : list header) : list block :=
  match bs with
  | [] => []
  | h :: bs' => (if is_free h then [] else [entry_of a h]) ++ tracked (a + total h) bs'
  end.

Lemma tracked_block_spec ms a h :
  hdr_at (mem ms) a h → 0 ≤ a → a + HEADER_SIZE < 2 ^ 64 →
  tracked_block a ms = Ret (entry_of a h, ms).
Proof.
  intros Hh Ha Hb. unfold tracked_block, user_data_addr.
  mstep_with ltac:(apply usize_add_ok; unfold HEADER_SIZE in *; lia).
  mstep_with ltac:(by apply rd_size_spec). mstep_with ltac:(by apply rd_purpose_spec).
  unfold rd_alloc_id, rd_timestamp, rd. mstep. mstep. rewrite (at_alloc_id _ _ _ Hh), (at_timestamp _ _ _ Hh).
  reflexivity.
Qed.

(** Appending to the part of the array in use. *)
Lemma take_insert_snoc {A} (l : list A) n x :
  (n < length l)%nat → take (S n) (<[n := x]> l) = take n l ++ [x].
Proof.
  intros Hn. rewrite (take_S_r _ _ x) by (by apply list_lookup_insert_eq).
  by rewrite take_insert_ge.
Qed.

(** The loop appends the allocated blocks until the array is full. *)
Lemma collect_loop_spec fuel a bs ms blocks count :
  tiles (mem ms) a bs → Forall blk_ok bs → 0 < a → a + span bs < 2 ^ 64 → (length bs < fuel)%nat →
  length blocks = 512%nat → 0 ≤ count ≤ 512 →
  ∃ blocks' count', collect_loop fuel a (a + span bs) blocks count ms = Ret ((blocks', count'), ms)
    ∧ length blocks' = 512%nat ∧ 0 ≤ count' ≤ 512
    ∧ take (Z.to_nat count') blocks' = take 512 (take (Z.to_nat count) blocks ++ tracked a bs).
Proof.
  revert a bs blocks count. induction fuel as [|fuel IH]; intros a bs blocks count Ht Hok Ha Hb Hf Hl Hc; [lia|].
  assert (length (take (Z.to_nat count) blocks) = Z.to_nat count) as Hlen by (rewrite length_take; lia).
  destruct bs as [|h bs]; cbn [collect_loop].
  { change (span []) with 0. rewrite Z.add_0_r, Z.ltb_irrefl. exists blocks, count. split_and!; try done; try lia.
    cbn [tracked]. rewrite app_nil_r. symmetry. apply take_ge. lia. }
  apply Forall_cons in Hok as [Hh Hok]. destruct Ht as [Hd Ht]. rewrite span_cons in *.
  pose proof (blk_total _ Hh) as Htot. pose proof (proj2 Hh) as Hsz. pose proof (span_nonneg _ Hok) as Hsp. cbn [length] in Hf.
  rewrite (proj2 (Z.ltb_lt a _)) by lia. unfold total in *.
  assert (∀ blocks1 count1, length blocks1 = 512%nat → 0 ≤ count1 ≤ 512 →
    ∃ blocks' count', (t ← total_size_at a; next ← usize_add a t;
        collect_loop fuel next (a + (BlockHeader.size h + HEADER_SIZE + span bs)) blocks1 count1) ms
      = Ret ((blocks', count'), ms) ∧ length blocks' = 512%nat ∧ 0 ≤ count' ≤ 512
      ∧ take (Z.to_nat count') blocks'
        = take 512 (take (Z.to_nat count1) blocks1 ++ tracked (a + total h) bs)) as Hnext.
  { intros blocks1 count1 H1 H2. fold (total h) in *. 
    destruct (IH (a + total h) bs blocks1 count1) as (b' & c' & E & ?); try done; try lia.
    exists b', c'. split; [|done].
    mstep_with ltac:(apply total_size_at_spec; [exact Hd|unfold total in *; lia]). fold (total h).
    mstep_arith. by rewrite Z.add_assoc. }
  cbn [tracked]. unfold is_free.
  destruct (BlockHeader.status h) eqn:Est.
  - destruct (Hnext blocks count Hl Hc) as (b' & c' & E & H'). exists b', c'. split; [|exact H'].
    mstep_with ltac:(apply rd_status_spec; exact Hd). rewrite Est. exact E.
  - rewrite bool_decide_false by done. unfold MAX_TRACKED_BLOCKS in *. destruct (Z.ltb_spec count 512) as [Hlt|Hge].
    + destruct (Hnext (<[Z.to_nat count := entry_of a h]> blocks) (count + 1)) as (b' & c' & E & H1 & H2 & H3);
        [by rewrite length_insert|lia|]. exists b', c'. split_and!; try done; try lia.
      * mstep_with ltac:(apply rd_status_spec; exact Hd). rewrite Est.
        mstep_with ltac:(apply tracked_block_spec; [exact Hd|lia|lia]).
        mstep_with ltac:(apply arr_set_ok; lia). mstep_arith. exact E.
      * rewrite H3. replace (Z.to_nat (count + 1)) with (S (Z.to_nat count)) by lia.
        rewrite take_insert_snoc by lia. by rewrite <- app_assoc.
    + exists blocks, count. split_and!; try done; try lia.
      * mstep_with ltac:(apply rd_status_spec; exact Hd). rewrite Est. reflexivity.
      * replace count with 512 by lia. rewrite take_app_le by (rewrite length_take; lia).
        symmetry. apply take_ge. rewrite length_take. lia.
Qed.

(** Where the tracked blocks are, and how large. *)
Lemma tracked_inside a bs :
  Forall blk_ok bs → 
  Forall (λ b, a + HEADER_SIZE ≤ AllocatedBlock.addr b ∧ 16 ≤ AllocatedBlock.size b
               ∧ AllocatedBlock.addr b + AllocatedBlock.size b ≤ a + span bs) (tracked a bs).
Proof.
  intros Hok. revert a. induction Hok as [|h bs Hh Hok IH]; intros a; [constructor|]. cbn [tracked].
  pose proof (blk_total _ Hh). pose proof (span_nonneg _ Hok). pose proof (proj2 Hh).
  rewrite span_cons. unfold total in *. apply Forall_app. split.
  - destruct (is_free h); [constructor|]. constructor; [|constructor].
    unfold entry_of. cbn [AllocatedBlock.addr AllocatedBlock.size]. lia.
  - eapply Forall_impl; [apply IH|]. intros b. unfold total, HEADER_SIZE in *. lia.
Qed.

Lemma tracked_sorted a bs :
  Forall blk_ok bs →
  StronglySorted (λ b1 b2, AllocatedBlock.addr b1 + AllocatedBlock.size b1 ≤ AllocatedBlock.addr b2)
    (tracked a bs).
Proof.
  intros Hok. revert a. induction Hok as [|h bs Hh Hok IH]; intros a; [constructor|]. cbn [tracked].
  destruct (is_free h); [apply IH|]. constructor; [apply IH|].
  eapply Forall_impl; [apply (tracked_inside (a + total h) bs Hok)|].
  intros b (Hb & _). unfold entry_of, total, HEADER_SIZE in *. cbn [AllocatedBlock.addr AllocatedBlock.size]. lia.
Qed.

Lemma tracked_sum a bs : sum_sizes (tracked a bs) = used_bytes bs.
Proof.
  revert a. induction bs as [|h bs IH]; intros a; [done|]. cbn [tracked]. rewrite sum_sizes_app, IH.
  unfold used_bytes. cbn [sumZ]. by destruct (is_free h); cbn [sum_sizes entry_of AllocatedBlock.size]; lia.
Qed.

Lemma used_bytes_span bs : Forall blk_ok bs → used_bytes bs ≤ span bs.
Proof.
  induction 1 as [|h bs Hh Hok IH]; [done|]. rewrite span_cons. unfold used_bytes in *. cbn [sumZ].
  pose proof (proj2 Hh). unfold total, HEADER_SIZE. destruct (is_free h); lia.
Qed.

(** The parts of a snapshot of the heap [s], [bs]. *)
Record snapshot_of (s : AState) (bs : list header) (i : HandoverInfo.t) : Prop := {
  sn_live : live i = take 512 (tracked (heap_start (self s)) bs);
  sn_start : HandoverInfo.heap_start i = heap_start (self s);
  sn_end : HandoverInfo.heap_end i = heap_end (self s) - heap_start (self s);
  sn_magic : HandoverInfo.magic i = HANDOVER_MAGIC;
  sn_version : HandoverInfo.version i = HANDOVER_PROTOCOL_VERSION;
  sn_checksum : HandoverInfo.checksum i = checksum_of i;
  sn_stats : HandoverInfo.statistics i = stats (self s);
}.

Lemma live_set_checksum c i : live (HandoverInfo.set_checksum c i) = live i.
Proof. done. Qed.

Lemma heap_tracked_ok s bs :
  heap_inv s bs →
  Forall block_ok (take 512 (tracked (heap_start (self s)) bs))
  ∧ sum_sizes (take 512 (tracked (heap_start (self s)) bs)) < 2 ^ 64.
Proof.
  intros [W _]. pose proof (tracked_inside (heap_start (self s)) bs (wf_ok _ _ W)) as Hin.
  pose proof (wf_start _ _ W). pose proof (wf_end _ _ W). pose proof (wf_bound _ _ W).
  assert (Forall block_ok (tracked (heap_start (self s)) bs)) as Hok.
  { eapply Forall_impl; [exact Hin|]. intros b. unfold block_ok, HEADER_SIZE. lia. }
  split; [by apply Forall_take|].
  pose proof (tracked_sum (heap_start (self s)) bs) as Hs.
  rewrite <- (take_drop 512 (tracked (heap_start (self s)) bs)), sum_sizes_app in Hs.
  pose proof (sum_sizes_nonneg _ (Forall_drop _ 512 _ Hok)).
  pose proof (used_bytes_span bs (wf_ok _ _ W)). lia.
Qed.

Lemma build_handover_spec g s bs :
  machine g = mach s → heap_inv s bs →
  ∃ info c, build_handover (self s) g = Ret (info, set_hand_clock c g)
    ∧ snapshot_of s bs info ∧ info_ok info.
Proof.
  intros Hm I. pose proof I as [W _].
  pose proof (wf_start _ _ W) as Hs. pose proof (wf_end _ _ W) as He. pose proof (wf_bound _ _ W) as Hb.
  pose proof (span_nonneg _ (wf_ok _ _ W)) as Hsp. destruct (heap_tracked_ok s bs I) as [Hto Hts].
  set (size := heap_end (self s) - heap_start (self s)).
  set (i0 := HandoverInfo.mk HANDOVER_PROTOCOL_VERSION HANDOVER_MAGIC (heap_start (self s)) size
        (replicate (Z.to_nat MAX_TRACKED_BLOCKS) HandoverInfo.no_block) 0 (stats (self s))
        (mkAllocatorState false true 0 0 (mkPerformanceMetrics 0 0 100 0 0)) (hand_clock g) 0).
  assert (info_ok i0) as Hi0.
  { split; [apply length_replicate|unfold i0, MAX_TRACKED_BLOCKS; cbn; lia|constructor|done]. }
  destruct (collect_loop_spec (walk_fuel (self s)) (heap_start (self s)) bs (mach s)
              (HandoverInfo.allocated_blocks i0) 0) as (blocks & count & E & Hl & Hc & Hlive);
    [apply W|apply W|done|lia|by apply walk_fuel_enough|apply length_replicate|lia|].
  cbn [app take Z.to_nat] in Hlive.
  set (i1 := HandoverInfo.set_blocks blocks count (HandoverInfo.set_checksum (checksum_of i0) i0)).
  assert (live i1 = take 512 (tracked (heap_start (self s)) bs)) as Hl1 by exact Hlive.
  assert (info_ok i1) as Hi1.
  { split; [exact Hl|exact Hc|by rewrite Hl1|by rewrite Hl1]. }
  exists (HandoverInfo.set_checksum (checksum_of i1) i1), (wrap64 (hand_clock g + 1)). split_and!.
  - unfold build_handover. mstep_arith. fold size.
    mstep_with ltac:(unfold on_hand_clock; apply zoom_Ret; unfold HandoverInfo.new; mstep;
      unfold HandoverInfo.update_checksum; fold i0;
      mstep_with ltac:(by apply (calculate_checksum_spec i0)); reflexivity).
    mstep_with ltac:(unfold on_machine; apply zoom_Ret; cbn [machine set_hand_clock]; rewrite Hm, <- He; exact E).
    cbv beta iota. fold i1. unfold HandoverInfo.update_checksum.
    mstep_with ltac:(by apply (calculate_checksum_spec i1)).
    unfold mret, M_ret. do 2 f_equal. rewrite <- Hm. by destruct g.
  - split; try done.
  - by destruct Hi1; split.
Qed.

End snapshot.

(** ** The theorems *)

(** C30: The snapshot that [prepare_handover] builds of a well-formed heap lists
    exactly its first 512 allocated blocks, in address order: all of them inside
    the heap and none overlapping another, and when there are no more than 512
    their sizes add up to the used bytes of the statistics.  But its [heap_end]
    field holds the size of the heap, not its end, so that [validate] rejects
    the snapshot of every heap whose size does not exceed its start address. *)
Theorem handover_snapshot_exact {P : Profile} N g s bs :
  heap_ready N g s bs →
  let a := heap_start (self s) in
  let size := heap_end (self s) - a in
  ∃ info g', build_handover (self s) g = Ret (info, g')
    ∧ live info = take 512 (tracked a bs)
    ∧ Forall (λ b, a + HEADER_SIZE ≤ AllocatedBlock.addr b
                   ∧ AllocatedBlock.addr b + AllocatedBlock.size b ≤ heap_end (self s)) (live info)
    ∧ StronglySorted (λ b1 b2, AllocatedBlock.addr b1 + AllocatedBlock.size b1 ≤ AllocatedBlock.addr b2)
        (live info)
    ∧ ((length (tracked a bs) ≤ 512)%nat → sum_sizes (live info) = AllocStats.used_size (stats (self s)))
    ∧ HandoverInfo.heap_end info = size
    ∧ (size ≤ a → HandoverInfo.validate info g' = Ret (Err "Invalid heap range", g')).
Proof.
  intros (Hh & I & Hc) a size. pose proof (proj1 I) as W.
  destruct (build_handover_spec g s bs (ho_machine _ _ Hh) I) as (info & c & E & [Sl Ss Se Sm Sv _ _] & _).
  fold a size in Sl, Ss, Se. exists info, (set_hand_clock c g). split_and!; try done.
  - rewrite Sl. apply Forall_take. eapply Forall_impl; [apply (tracked_inside a bs), W|].
    intros b (H1 & _ & H3). rewrite (wf_end _ _ W : a + span bs = _) in H3. by split.
  - rewrite Sl. pose proof (tracked_sorted a bs (wf_ok _ _ W)) as Hs.
    rewrite <- (take_drop 512 (tracked a bs)) in Hs. by apply StronglySorted_app_1_l in Hs.
  - intros Hle. rewrite Sl, take_ge, tracked_sum by lia. symmetry. apply (wf_stats _ _ W).
  - intros Hle. unfold HandoverInfo.validate. rewrite Sm, Sv, Se, Ss, !Z.eqb_refl. cbn [negb].
    by rewrite (proj2 (Z.leb_le size a)) by done.
Qed.

Lemma bind_Hang {S A B} (m : M S A) (k : A → M S B) s : m s = Hang → (m ≫= k) s = Hang.
Proof. unfold mbind, M_bind. by intros ->. Qed.

(** What the compiler guarantees of a non-empty type's layout. *)
Definition layout_ok (l : Layout) : Prop :=
  0 < lsize l ∧ is_power_of_two (lalign l) = true ∧ lalign l ≤ 4096 ∧ lsize l ≤ isize_MAX - lalign l.

(** A box cannot be made while the lock is held. *)
Lemma EarlyBox_new_locked {P : Profile} g l v :
  locked g = true → layout_ok l → EarlyBox_new l v g = Hang.
Proof.
  intros Hl (H1 & H2 & H3 & H4). unfold EarlyBox_new, alloc_init, alloc_type, safe_alloc.
  do 2 apply bind_Hang. rewrite (proj2 (Z.eqb_neq (lsize l) 0)) by lia.
  rewrite H2, (proj2 (Z.ltb_ge 4096 _)) by lia. cbn [negb orb].
  assert (0 < lalign l) by (apply is_power_of_two_spec in H2 as (k & ? & ->); by apply Z.pow_pos_nonneg).
  mstep_with ltac:(apply usize_sub_ok; unfold isize_MAX in *; lia).
  rewrite (proj2 (Z.ltb_ge (isize_MAX - lalign l) _)) by lia. apply bind_Hang. by apply call_locked.
Qed.

Lemma TS_prepare_handover_hangs {P : Profile} g s bs l bytes :
  holds g s → heap_inv s bs → layout_ok l → TS_prepare_handover l bytes g = Hang.
Proof.
  intros [H1 H2 H3] I Hl. unfold TS_prepare_handover, with_allocator, under_lock.
  mstep. rewrite H1. mstep. apply bind_Hang. mstep. cbn [instance set_locked]. rewrite H2.
  destruct (build_handover_spec (set_locked true g) s bs H3 I) as (info & c & E & _).
  mstep_with ltac:(exact E). apply bind_Hang. by apply EarlyBox_new_locked.
Qed.

Lemma prepare_handover_hangs {P : Profile} N g s bs l bytes :
  heap_ready N g s bs → 2 * N < 2 ^ 64 → initialized g = true → layout_ok l →
  Api.prepare_handover l bytes g = Hang.
Proof.
  intros (Hh & I & Hc) HN Hi Hl. destruct (health_check_run N g s Hh Hc HN Hi) as [h Eh].
  unfold Api.prepare_handover, Api.is_initialized. mstep. rewrite Hi. cbn [negb].
  mstep_with ltac:(by apply (api_integrity_run g s bs)). mstep_with ltac:(exact Eh).
  apply bind_Hang. by eapply TS_prepare_handover_hangs.
Qed.

Lemma create_snapshot_hangs {P : Profile} g s bs l bytes :
  holds g s → heap_inv s bs → initialized g = true → layout_ok l → Api.create_snapshot l bytes g = Hang.
Proof.
  intros Hh I Hi Hl. unfold Api.create_snapshot, Api.is_initialized. mstep. rewrite Hi. cbn [negb].
  mstep_with ltac:(by apply (api_stats_run g s)). by eapply bind_Hang, TS_prepare_handover_hangs.
Qed.

(** Once the allocator is initialised, [prepare_handover],
    [emergency_reclaim] and [create_snapshot] never return: the snapshot is
    boxed while the allocator's spin lock is held, and the box allocates. *)
Theorem handover_self_deadlock {P : Profile} N g s bs l bytes :
  heap_ready N g s bs → 2 * N < 2 ^ 64 → initialized g = true → layout_ok l →
  Api.prepare_handover l bytes g = Hang
  ∧ Api.emergency_reclaim l bytes g = Hang
  ∧ Api.create_snapshot l bytes g = Hang.
Proof.
  intros R HN Hi Hl. split; [by eapply prepare_handover_hangs|]. destruct R as (Hh & I & Hc).
  split; [|by eapply create_snapshot_hangs].
  unfold Api.emergency_reclaim, Api.is_initialized. mstep. rewrite Hi. cbn [negb].
  mstep_with ltac:(by apply (api_stats_run g s)). by eapply bind_Hang, TS_prepare_handover_hangs.
Qed.

(** ** A concrete global allocator *)

Module GlobalDemo.

(** Over the heap with three live blocks. *)
Definition g3 : GState := mkG false (Some (self heap3)) true true (mach heap3) 0 0.

Lemma g3_holds : holds g3 heap3.
Proof. by split. Qed.

Lemma g3_ready : heap_ready 10 g3 heap3 blocks3.
Proof. split_and!; [apply g3_holds|apply heap3_inv|apply heap3_counters]. Qed.

(** Power-on. *)
Definition g_boot : GState := mkG false None false true (mkMachine ∅ 0) 0 0.

Definition box_layout : Layout := mkLayout 4096 8.

End GlobalDemo.

Lemma realloc_preserves_contents_witness :
  ∃ q g', Global_realloc 4256 (mkLayout 128 8) 200 GlobalDemo.g3 = Ret (q, g')
    ∧ (q ≠ 0 → ∀ k, 0 ≤ k < 128 →
         byte_at (mem (machine g')) (q + k) = byte_at (mem (mach heap3)) (4256 + k)).
Proof.
  destruct (realloc_preserves_contents 10 GlobalDemo.g3 heap3 (take 1 blocks3) (blocks3 !!! 1%nat)
              (drop 2 blocks3) (mkLayout 128 8) 200 GlobalDemo.g3_ready)
    as (q & g' & s' & bs' & E & (Hh & _) & _ & H); [by_eval|by_eval|by_eval| |by_eval| |].
  - split; by_eval.
  - split_and!; by_eval.
  - exists q, g'. split; [exact E|]. intros Hq k Hk. rewrite (ho_machine _ _ Hh).
    exact (proj1 (proj2 (H Hq)) k Hk).
Defined.

Lemma alloc_zeroed_correct_witness :
  ∃ r g', Api.alloc_zeroed 40 GlobalDemo.g3 = Ret (r, g')
    ∧ match r with
      | Some p => ∀ x, p ≤ x < p + 40 → byte_at (mem (machine g')) x = 0
      | None => True
      end.
Proof.
  destruct (alloc_zeroed_correct 10 GlobalDemo.g3 heap3 blocks3 40 GlobalDemo.g3_ready)
    as (r & g' & s' & bs' & E & (Hh & _) & H); [by_eval|by_eval|by_eval|by_eval|split_and!; by_eval|].
  exists r, g'. split; [exact E|]. destruct r as [p|]; [|exact I].
  intros x Hx. rewrite (ho_machine _ _ Hh). exact (proj2 (proj2 (proj1 (proj2 H) x Hx))).
Defined.

Lemma init_correct_witness :
  ∃ g', Api.init 2151677952 65536 GlobalDemo.g_boot = Ret (Ok tt, g') ∧ initialized g' = true
    ∧ Api.init 2151677952 65536 g' = Ret (Err AlreadyInitialized, g').
Proof.
  destruct (init_correct GlobalDemo.g_boot 2151677952 65536) as [H _];
    [by_eval|by_eval|by_eval|split; by_eval|by_eval|].
  destruct H as (g' & s & h & E & _ & _ & _ & _ & _ & Hi & _ & H2); [split_and!; by_eval|].
  exists g'. split; [exact E|]. split; [exact Hi|exact (H2 2151677952 65536)].
Defined.


Lemma handover_snapshot_exact_witness :
  ∃ info g', build_handover (self heap3) GlobalDemo.g3 = Ret (info, g')
    ∧ map AllocatedBlock.addr (live info) = [4144; 4256; 4432]
    ∧ HandoverInfo.validate info g' = Ret (Err "Invalid heap range", g').
Proof.
  destruct (handover_snapshot_exact 10 GlobalDemo.g3 heap3 blocks3 GlobalDemo.g3_ready)
    as (info & g' & E & Hl & _ & _ & _ & _ & Hv).
  exists info, g'. split; [exact E|]. split; [rewrite Hl; by_eval|]. apply Hv. by_eval.
Defined.

Lemma handover_self_deadlock_witness :
  Api.prepare_handover GlobalDemo.box_layout (λ _, []) GlobalDemo.g3 = Hang.
Proof.
  apply (handover_self_deadlock 10 GlobalDemo.g3 heap3 blocks3 GlobalDemo.box_layout (λ _, [])
           GlobalDemo.g3_ready); [by_eval|by_eval|split_and!; by_eval].
Defined.
