(* ===== verification/TypeSafety.v ===== *)
(** * Machine integers keep their width

    The model computes on unbounded integers.  This file gives every type of
    the allocator the range of its Rust counterpart ([u64] for [usize], bytes
    for memory cells) and shows that no call leaves it, on any memory, valid
    heap or not, in both build profiles.  The judgement [well_typed m] is
    compositional: [keep] follows the code of [m], with the lemmas of the
    database [typed] for the calls it makes. *)

From Stdlib Require Import ZArith Lia String.
From stdpp Require Import base option numbers sorting strings gmap list.
From S2P Require Import Prelude Memory Purpose Metadata HeaderSpec Allocator Arrays Handover Examples GlobalAlloc AllocApi GlobalThms HandoverSnapshot.

(** ** Ranges *)

Class Typed (A : Type) : Type := typed : A → Prop.

#[global] Instance Typed_usize : Typed Z := in_u64.
#[global] Instance Typed_unit : Typed unit := λ _, True.
#[global] Instance Typed_bool : Typed bool := λ _, True.
#[global] Instance Typed_string : Typed string := λ s, Z.of_nat (String.length s) < 2 ^ 63.
#[global] Instance Typed_status : Typed BlockStatus := λ _, True.
#[global] Instance Typed_purpose : Typed AllocPurpose.t := λ _, True.
#[global] Instance Typed_error : Typed AllocError := λ _, True.
#[global] Instance Typed_option `{Typed A} : Typed (option A) := λ o,
  match o with Some a => typed a | None => True end.
#[global] Instance Typed_prod `{Typed A, Typed B} : Typed (A * B) := λ p, typed p.1 ∧ typed p.2.
#[global] Instance Typed_result `{Typed E, Typed A} : Typed (result E A) := λ r,
  match r with Ok a => typed a | Err e => typed e end.
#[global] Instance Typed_list `{Typed A} : Typed (list A) := Forall typed.

#[global] Instance Typed_header : Typed BlockHeader.t := λ h,
  in_u64 (BlockHeader.size h) ∧ in_u32 (BlockHeader.magic h) ∧ in_u64 (BlockHeader.alloc_id h)
  ∧ in_u64 (BlockHeader.timestamp h) ∧ in_u32 (BlockHeader.checksum h).

#[global] Instance Typed_stats : Typed AllocStats.t := λ s,
  Forall in_u64 [AllocStats.total_size s; AllocStats.used_size s; AllocStats.free_size s;
    AllocStats.alloc_count s; AllocStats.free_count s; AllocStats.total_allocs s;
    AllocStats.total_frees s; AllocStats.failed_allocs s; AllocStats.double_free_attempts s;
    AllocStats.corrupted_blocks s; AllocStats.max_alloc_size s; AllocStats.min_alloc_size s;
    AllocStats.avg_alloc_size s; AllocStats.merge_count s; AllocStats.split_count s;
    AllocStats.coalesce_count s; AllocStats.peak_used_size s; AllocStats.max_free_block_size s]
  ∧ in_u8 (AllocStats.fragmentation_percent s).

#[global] Instance Typed_machine : Typed Machine := λ ms,
  map_Forall (λ _ b, in_u8 b) (mem ms) ∧ in_u64 (clock ms).

#[global] Instance Typed_allocator : Typed EarlyAllocator := λ a,
  in_u64 (heap_start a) ∧ in_u64 (heap_end a) ∧ in_u64 (free_list_head a)
  ∧ typed (stats a) ∧ in_u64 (next_alloc_id a).

#[global] Instance Typed_astate : Typed AState := λ s, typed (self s) ∧ typed (mach s).

#[global] Instance Typed_block : Typed AllocatedBlock.t := λ b,
  in_u64 (AllocatedBlock.addr b) ∧ in_u64 (AllocatedBlock.size b) ∧ in_u64 (AllocatedBlock.alloc_id b)
  ∧ in_u64 (AllocatedBlock.timestamp b).

#[global] Instance Typed_allocator_state : Typed AllocatorState := λ s,
  in_u8 (health_status s) ∧ in_u32 (error_count s)
  ∧ in_u32 (avg_alloc_time (performance_metrics s)) ∧ in_u32 (avg_dealloc_time (performance_metrics s))
  ∧ in_u8 (cache_hit_rate (performance_metrics s)) ∧ in_u32 (defrag_count (performance_metrics s))
  ∧ in_u32 (max_consecutive_failures (performance_metrics s)).

#[global] Instance Typed_info : Typed HandoverInfo.t := λ i,
  in_u64 (HandoverInfo.heap_start i) ∧ in_u64 (HandoverInfo.heap_end i)
  ∧ typed (HandoverInfo.allocated_blocks i) ∧ in_u64 (HandoverInfo.allocated_count i)
  ∧ typed (HandoverInfo.statistics i) ∧ in_u32 (HandoverInfo.checksum i)
  ∧ in_u32 (HandoverInfo.version i) ∧ in_u64 (HandoverInfo.magic i)
  ∧ typed (HandoverInfo.allocator_state i) ∧ in_u64 (HandoverInfo.handover_timestamp i).

#[global] Instance Typed_gstate : Typed GState := λ g,
  typed (instance g) ∧ typed (machine g) ∧ in_u64 (snap_clock g) ∧ in_u64 (hand_clock g).

(** ** Computations *)

Definition well_typed {S} `{!Typed S} {A} `{!Typed A} (m : M S A) : Prop :=
  ∀ s a s', typed s → m s = Ret (a, s') → typed s' ∧ typed a.

Section logic.
Context {P : Profile} {S : Type} `{!Typed S}.

Lemma wt_ret `{Typed A} (a : A) : typed a → well_typed (S := S) (mret a).
Proof. by intros Ha s ? ? Hs [= <- <-]. Qed.

Lemma wt_bind `{Typed A, Typed B} (m : M S A) (k : A → M S B) :
  well_typed m → (∀ a, typed a → well_typed (k a)) → well_typed (m ≫= k).
Proof.
  intros Hm Hk s b s' Hs (a & s1 & E1 & E2)%bind_inv. destruct (Hm _ _ _ Hs E1) as [Hs1 Ha].
  by apply (Hk a Ha s1).
Qed.

Lemma wt_panic `{Typed A} : well_typed (panic : M S A).
Proof. by intros s a s'. Qed.
Lemma wt_hang `{Typed A} : well_typed (hang : M S A).
Proof. by intros s a s'. Qed.
Lemma wt_undef `{Typed A} : well_typed (undef : M S A).
Proof. by intros s a s'. Qed.

Lemma wt_gets `{Typed A} (f : S → A) : (∀ s, typed s → typed (f s)) → well_typed (gets f).
Proof. intros Hf s a s' Hs [= <- <-]. split; [done|by apply Hf]. Qed.

Lemma wt_modify (f : S → S) : (∀ s, typed s → typed (f s)) → well_typed (modify f).
Proof. intros Hf s a s' Hs [= <- <-]. split; [by apply Hf|done]. Qed.

Lemma wt_zoom `{Typed T, Typed A} (get : S → T) put (m : M T A) :
  (∀ s, typed s → typed (get s)) → (∀ s t, typed s → typed t → typed (put t s)) →
  well_typed m → well_typed (zoom get put m).
Proof.
  intros Hg Hp Hm s a s' Hs. unfold zoom. destruct (m (get s)) as [[a' t]| | |] eqn:E; try done.
  intros [= <- <-]. destruct (Hm _ _ _ (Hg s Hs) E) as [Ht Ha]. split; [by apply Hp|done].
Qed.

Lemma wt_arith z : well_typed (S := S) (arith 64 z).
Proof.
  intros s a s' Hs E. destruct (arith_cases z) as [[Ea _]|(_ & _ & Ea)]; rewrite Ea in E; [|done].
  injection E as <- <-. split; [done|]. by apply Z.mod_pos_bound.
Qed.

Lemma wt_for_n `{Typed A} n i (body : Z → A → M S A) acc :
  (∀ k a, typed a → well_typed (body k a)) → typed acc → well_typed (for_n n i body acc).
Proof.
  intros Hb. revert i acc. induction n as [|n IH]; intros i acc Ha; cbn [for_n]; [by apply wt_ret|].
  apply wt_bind; [by apply Hb|]. intros a' Ha'. by apply IH.
Qed.
Lemma wt_for_range `{Typed A} lo hi (body : Z → A → M S A) acc :
  (∀ k a, typed a → well_typed (body k a)) → typed acc → well_typed (for_range lo hi body acc).
Proof. apply wt_for_n. Qed.

Lemma wt_search_n `{Typed R} n i (body : Z → M S (option R)) :
  (∀ k, well_typed (body k)) → well_typed (search_n n i body).
Proof.
  intros Hb. revert i. induction n as [|n IH]; intros i; cbn [search_n]; [by apply wt_ret|].
  apply wt_bind; [apply Hb|]. intros [r|] Hr; [by apply wt_ret|apply IH].
Qed.
Lemma wt_search_range `{Typed R} lo hi (body : Z → M S (option R)) :
  (∀ k, well_typed (body k)) → well_typed (search_range lo hi body).
Proof. apply wt_search_n. Qed.

Lemma wt_arr_get `{Typed A} (l : list A) i : typed l → well_typed (S := S) (arr_get l i).
Proof.
  intros Hl. unfold arr_get. destruct (i <? 0); [apply wt_panic|].
  destruct (l !! Z.to_nat i) as [a|] eqn:E; [|apply wt_panic].
  apply wt_ret. exact (Forall_lookup_1 _ _ _ _ Hl E).
Qed.
Lemma wt_arr_set `{Typed A} (l : list A) i v :
  typed l → typed v → well_typed (S := S) (arr_set l i v).
Proof.
  intros Hl Hv. unfold arr_set. case_match; [apply wt_panic|]. apply wt_ret. by apply Forall_insert.
Qed.

End logic.

Create HintDb typed.
#[export] Hint Resolve wt_panic wt_hang wt_undef wt_arr_get wt_arr_set : typed.
#[export] Hint Extern 1 (well_typed (usize_add _ _)) => apply wt_arith : typed.
#[export] Hint Extern 1 (well_typed (usize_sub _ _)) => apply wt_arith : typed.
#[export] Hint Extern 1 (well_typed (u64_add _ _)) => apply wt_arith : typed.

(** Facts about values: ranges follow from the components'. *)
Ltac values := solve [ done | lia | unfold typed, Typed_usize in *; tauto || lia ].

(** Follow the code: binds, branches, returns and known calls. *)
Ltac keep :=
  lazymatch goal with
  | |- ∀ _, _ => intro; keep
  | |- well_typed (_ ≫= _) => apply wt_bind; keep
  | |- well_typed (mret _) => apply wt_ret; try values
  | |- well_typed (gets _) => first [ solve [ auto with typed ] | apply wt_gets; try values ]
  | |- well_typed (for_range _ _ _ _) => apply wt_for_range; keep
  | |- well_typed (search_range _ _ _) => apply wt_search_range; keep
  | |- well_typed (match ?x with _ => _ end) => destruct x eqn:?; keep
  | |- well_typed _ => try solve [ auto with typed ]
  | |- _ => try values
  end.

(** ** Memory and headers *)

Lemma store_bytes n m a v :
  map_Forall (λ _ b, in_u8 b) m → map_Forall (λ _ b, in_u8 b) (store n m a v).
Proof.
  revert m a v. induction n as [|n IH]; intros m a v Hm; [done|]. apply IH.
  apply map_Forall_insert_2; [|done]. by apply Z.mod_pos_bound.
Qed.

Lemma wt_rd n a : (n ≤ 8)%nat → well_typed (rd n a).
Proof.
  intros Hn. apply wt_gets. intros s _. pose proof (load_range n (mem s) a).
  pose proof (Z.pow_le_mono_r 256 (Z.of_nat n) 8). unfold typed, Typed_usize, in_u64. lia.
Qed.
Lemma wt_wr n a v : well_typed (wr n a v).
Proof. apply wt_modify. intros s [Hm Hc]. split; [by apply store_bytes|done]. Qed.
Lemma wt_timestamp : well_typed Memory.get_timestamp.
Proof. intros s a s' [Hm Hc] [= <- <-]. split; [split; [done|by apply Z.mod_pos_bound]|done]. Qed.
#[export] Hint Resolve wt_wr wt_timestamp : typed.
#[export] Hint Extern 1 (well_typed (rd _ _)) => apply wt_rd; lia : typed.

Lemma wt_read_header a : well_typed (read_header a).
Proof.
  intros s h s' Hs. unfold read_header, rd_size, rd_status, rd_magic, rd_purpose, rd, gets, mbind, M_bind.
  destruct (status_of_byte _); [|done]. cbn [mret M_ret]. destruct (AllocPurpose.of_byte _); [|done].
  intros [= <- <-]. split; [done|].
  unfold typed, Typed_header; cbn -[load in_u64 in_u32].
  repeat match goal with |- _ ∧ _ => split end; [apply (load_range 8)|apply (load_range 4)|..];
    first [apply (load_range 8)|apply (load_range 4)].
Qed.

Lemma wt_header_new sz st : in_u64 sz → well_typed (BlockHeader.new sz st).
Proof.
  intros Hsz. unfold BlockHeader.new. apply wt_bind; [apply wt_timestamp|]. intros ts Hts. apply wt_ret.
  unfold typed, Typed_header. split_and!; try done. apply calculate_checksum_range.
Qed.
#[export] Hint Resolve wt_read_header wt_header_new : typed.

Section headers.
Context {P : Profile}.

Lemma wt_rd_status a : well_typed (rd_status a).
Proof. unfold rd_status. keep. Qed.
Lemma wt_rd_purpose a : well_typed (rd_purpose a).
Proof. unfold rd_purpose. keep. Qed.
Lemma wt_write_header a h : well_typed (write_header a h).
Proof. unfold write_header, wr_size, wr_status, wr_alloc_id, wr_purpose, wr_timestamp, wr_checksum. keep. Qed.
Lemma wt_validate_at a : well_typed (validate_at a).
Proof. unfold validate_at, rd_magic. keep. Qed.
Lemma wt_update_checksum_at a : well_typed (update_checksum_at a).
Proof. unfold update_checksum_at, wr_checksum. keep. Qed.
#[local] Hint Resolve wt_update_checksum_at : typed.
Lemma wt_update_timestamp_at a : well_typed (update_timestamp_at a).
Proof. unfold update_timestamp_at, wr_timestamp. keep. Qed.
Lemma wt_total_size_at a : well_typed (total_size_at a).
Proof. unfold total_size_at, rd_size. keep. Qed.

End headers.
#[export] Hint Resolve wt_rd_status wt_rd_purpose wt_write_header wt_validate_at wt_update_checksum_at
  wt_update_timestamp_at wt_total_size_at : typed.
#[export] Hint Extern 1 (well_typed (rd_size _)) => unfold rd_size : typed.
#[export] Hint Extern 1 (well_typed (rd_next _)) => unfold rd_next : typed.
#[export] Hint Extern 1 (well_typed (rd_prev _)) => unfold rd_prev : typed.
#[export] Hint Extern 1 (well_typed (wr_next _ _)) => unfold wr_next : typed.
#[export] Hint Extern 1 (well_typed (wr_prev _ _)) => unfold wr_prev : typed.
#[export] Hint Extern 1 (well_typed (wr_size _ _)) => unfold wr_size : typed.
#[export] Hint Extern 1 (well_typed (wr_status _ _)) => unfold wr_status : typed.
#[export] Hint Extern 1 (well_typed (wr_alloc_id _ _)) => unfold wr_alloc_id : typed.
#[export] Hint Extern 1 (well_typed (wr_purpose _ _)) => unfold wr_purpose : typed.

(** ** Statistics *)

Section stats.
Context {P : Profile}.

Lemma wt_hw {A} `{!Typed A} (m : M Machine A) : well_typed m → well_typed (hw m).
Proof. apply wt_zoom; [by intros s []|]. by intros s t [? _] ?. Qed.

Lemma wt_on_stats {A} `{!Typed A} (m : M AllocStats.t A) : well_typed m → well_typed (on_stats m).
Proof. apply wt_zoom; [by intros s [(_ & _ & _ & ? & _) _]|]. by intros s t [(? & ? & ? & _ & ?) ?] ?. Qed.

(** A [record_..] method: read the fields, compute, write them back. *)
Ltac record :=
  apply wt_bind; [by apply wt_gets|]; intros s Hs;
  repeat (apply wt_bind; [apply wt_arith|]; let H := fresh "Hv" in intros ? H; unfold typed, Typed_usize in H);
  apply wt_modify; intros _ _; destruct Hs as [Hs Hf];
  repeat match goal with H : Forall _ (_ :: _) |- _ => inversion_clear H end;
  split; [|done]; repeat constructor; cbn; try done; unfold in_u64, saturating_sub in *; try lia.

Lemma wt_record_alloc sz : in_u64 sz → well_typed (AllocStats.record_alloc sz).
Proof.
  intros Hsz. unfold AllocStats.record_alloc. record.
  - case_match; [|lia]. b2p. apply Z.div_pos; lia.
  - case_match; [|lia]. b2p. apply Z.div_lt_upper_bound; nia.
Qed.
Lemma wt_record_dealloc sz : well_typed (AllocStats.record_dealloc sz).
Proof. unfold AllocStats.record_dealloc. record. Qed.
Lemma wt_record_merge : well_typed AllocStats.record_merge.
Proof. unfold AllocStats.record_merge. record. Qed.
Lemma wt_record_split sz : well_typed (AllocStats.record_split sz).
Proof. unfold AllocStats.record_split. record. Qed.
Lemma wt_record_alloc_failure : well_typed AllocStats.record_alloc_failure.
Proof. unfold AllocStats.record_alloc_failure. record. Qed.
Lemma wt_record_double_free : well_typed AllocStats.record_double_free.
Proof. unfold AllocStats.record_double_free. record. Qed.
Lemma wt_record_corruption : well_typed AllocStats.record_corruption.
Proof. unfold AllocStats.record_corruption. record. Qed.

Lemma wt_upd_self f : (∀ a : EarlyAllocator, typed a → typed (f a)) → well_typed (upd_self f).
Proof. intros Hf. apply wt_modify. intros s [Ha Hm]. split; [by apply Hf|done]. Qed.

Lemma wt_set_head v : in_u64 v → well_typed (upd_self (set_free_list_head v)).
Proof. intros Hv. apply wt_upd_self. by intros a (? & ? & ? & ? & ?). Qed.
Lemma wt_set_id v : in_u64 v → well_typed (upd_self (set_next_alloc_id v)).
Proof. intros Hv. apply wt_upd_self. by intros a (? & ? & ? & ? & ?). Qed.
Lemma wt_set_frozen b : well_typed (upd_self (set_frozen b)).
Proof. apply wt_upd_self. by intros a (? & ? & ? & ? & ?). Qed.
Lemma wt_set_stats st : typed st → well_typed (upd_self (set_stats st)).
Proof. intros Hv. apply wt_upd_self. by intros a (? & ? & ? & ? & ?). Qed.

Lemma stats_set_free_size v st : in_u64 v → typed st → typed (AllocStats.set_free_size v st).
Proof.
  intros Hv [H Hf]. repeat match goal with H : Forall _ (_ :: _) |- _ => inversion_clear H end.
  split; [|done]. repeat apply Forall_cons_2; by try apply Forall_nil_2.
Qed.
Lemma stats_set_free_count v st : in_u64 v → typed st → typed (AllocStats.set_free_count v st).
Proof.
  intros Hv [H Hf]. repeat match goal with H : Forall _ (_ :: _) |- _ => inversion_clear H end.
  split; [|done]. repeat apply Forall_cons_2; by try apply Forall_nil_2.
Qed.

Lemma typed_self s : typed (s : AState) → typed (self s).
Proof. by intros [? _]. Qed.
Lemma typed_stats s : typed (s : AState) → typed (stats (self s)).
Proof. by intros [(_ & _ & _ & ? & _) _]. Qed.

End stats.
#[export] Hint Resolve wt_hw wt_on_stats wt_record_alloc wt_record_dealloc wt_record_merge wt_record_split
  wt_record_alloc_failure wt_record_double_free wt_record_corruption wt_set_head wt_set_id wt_set_frozen
  wt_set_stats stats_set_free_size stats_set_free_count : typed.

(** ** The allocator *)

Section allocator.
Context {P : Profile}.

Lemma wt_self : well_typed (gets self).
Proof. apply wt_gets, typed_self. Qed.
Lemma wt_stats : well_typed (gets (λ s, stats (self s))).
Proof. apply wt_gets, typed_stats. Qed.
#[local] Hint Resolve wt_self wt_stats : typed.

Lemma typed_heap_start a : typed (a : EarlyAllocator) → in_u64 (heap_start a).
Proof. by intros (? & _). Qed.
Lemma typed_heap_end a : typed (a : EarlyAllocator) → in_u64 (heap_end a).
Proof. by intros (_ & ? & _). Qed.
Lemma typed_head a : typed (a : EarlyAllocator) → in_u64 (free_list_head a).
Proof. by intros (_ & _ & ? & _). Qed.
#[local] Hint Resolve typed_heap_start typed_heap_end typed_head : typed.

Lemma wt_header_of {S} `{!Typed S} p : well_typed (S := S) (get_header_from_free_block p).
Proof. apply wt_arith. Qed.

Lemma land_range x y : in_u64 x → in_u64 (Z.land x y).
Proof.
  intros Hx. rewrite <-(Z.mod_small x (2 ^ 64)), <-(Z.land_ones x 64) by done.
  rewrite <-Z.land_assoc, (Z.land_comm (Z.ones 64)), Z.land_assoc, Z.land_ones by done.
  by apply Z.mod_pos_bound.
Qed.

Lemma wt_calculate_aligned_addr {S} `{!Typed S} a align :
  well_typed (S := S) (calculate_aligned_addr a align).
Proof.
  unfold calculate_aligned_addr. keep. by apply land_range.
Qed.
#[local] Hint Resolve wt_header_of wt_calculate_aligned_addr : typed.

Lemma wt_find_free_loop fuel current sz align : well_typed (find_free_loop fuel current sz align).
Proof. revert current. induction fuel as [|fuel IH]; intros current; cbn [find_free_loop]; keep. Qed.
#[local] Hint Resolve wt_find_free_loop : typed.

Lemma wt_remove_from_free_list block : well_typed (remove_from_free_list block).
Proof. unfold remove_from_free_list. keep. Qed.

Lemma wt_insert_scan fuel current a : in_u64 current → well_typed (insert_scan fuel current a).
Proof. revert current. induction fuel as [|fuel IH]; intros current Hc; cbn [insert_scan]; keep. Qed.
#[local] Hint Resolve wt_insert_scan : typed.

Lemma wt_insert_into_free_list block : in_u64 block → well_typed (insert_into_free_list block).
Proof. intros Hb. unfold insert_into_free_list. keep. Qed.

Lemma wt_free_totals d :
  well_typed (add_free_size d) ∧ well_typed (sub_free_size d)
  ∧ well_typed (add_free_count d) ∧ well_typed (sub_free_count d).
Proof. split_and!; unfold add_free_size, sub_free_size, add_free_count, sub_free_count; keep. Qed.
Lemma wt_add_free_size d : well_typed (add_free_size d). Proof. apply wt_free_totals. Qed.
Lemma wt_sub_free_size d : well_typed (sub_free_size d). Proof. apply wt_free_totals. Qed.
Lemma wt_add_free_count d : well_typed (add_free_count d). Proof. apply wt_free_totals. Qed.
Lemma wt_sub_free_count d : well_typed (sub_free_count d). Proof. apply wt_free_totals. Qed.
#[local] Hint Resolve wt_remove_from_free_list wt_insert_into_free_list wt_add_free_size wt_sub_free_size
  wt_add_free_count wt_sub_free_count : typed.

Lemma wt_absorb header other other_free : well_typed (absorb header other other_free).
Proof. unfold absorb. keep. Qed.
#[local] Hint Resolve wt_absorb : typed.
Lemma wt_coalesce block : well_typed (coalesce block).
Proof. unfold coalesce, coalesce_next, coalesce_prev. keep. Qed.
Lemma wt_mark_allocated header : well_typed (mark_allocated header).
Proof. unfold mark_allocated. keep. Qed.
Lemma wt_mark_free header : well_typed (mark_free header).
Proof. unfold mark_free. keep. Qed.
Lemma wt_alloc_fail : well_typed alloc_fail.
Proof. unfold alloc_fail. keep. Qed.
Lemma wt_take_block a sz : well_typed (take_block a sz).
Proof. unfold take_block. keep. Qed.
#[local] Hint Resolve wt_coalesce wt_mark_allocated wt_mark_free wt_alloc_fail wt_take_block : typed.
Lemma wt_split_block header sz required : well_typed (split_block header sz required).
Proof. unfold split_block. keep. Qed.
#[local] Hint Resolve wt_split_block : typed.

Lemma typed_NonNull p : in_u64 p → typed (NonNull_new p).
Proof. intros Hp. unfold NonNull_new. by destruct (p =? 0). Qed.

Lemma wt_alloc_aligned sz align : well_typed (alloc_aligned sz align).
Proof.
  unfold alloc_aligned, find_free_block. keep.
  apply typed_NonNull. by match goal with H : typed (Some (_, _)) |- _ => destruct H end.
Qed.
Lemma wt_dealloc p : well_typed (dealloc p).
Proof. unfold dealloc. keep. Qed.

Lemma wt_integrity_loop fuel current hend : in_u64 current → well_typed (integrity_loop fuel current hend).
Proof. revert current. induction fuel as [|fuel IH]; intros current Hc; cbn [integrity_loop]; keep. Qed.
#[local] Hint Resolve wt_integrity_loop : typed.
Lemma wt_integrity_check : well_typed integrity_check.
Proof. unfold integrity_check. keep. Qed.
Lemma wt_freeze : well_typed freeze.
Proof. apply wt_set_frozen. Qed.
Lemma wt_set_purpose p purpose : well_typed (set_purpose p purpose).
Proof. unfold set_purpose. keep. Qed.

Lemma wt_new start sz : in_u64 start → in_u64 sz → well_typed (EarlyAllocator_new start sz).
Proof.
  intros Hst Hsz. unfold EarlyAllocator_new. keep.
  unfold typed, Typed_result, typed, Typed_allocator. split_and!; try done.
  split; [|done]. repeat apply Forall_cons_2; by try apply Forall_nil_2.
Qed.

End allocator.
#[export] Hint Resolve wt_alloc_aligned wt_dealloc wt_integrity_check wt_freeze wt_set_purpose wt_new : typed.

(** ** The global allocator and its interface *)

Section global.
Context {P : Profile} (info_layout : Layout) (info_bytes : HandoverInfo.t → list Z).

Lemma wt_set_locked b : well_typed (modify (set_locked b)).
Proof. apply wt_modify. by intros g (? & ? & ? & ?). Qed.
Lemma wt_set_initialized b : well_typed (modify (set_initialized b)).
Proof. apply wt_modify. by intros g (? & ? & ? & ?). Qed.
Lemma wt_set_enabled b : well_typed (modify (set_enabled b)).
Proof. apply wt_modify. by intros g (? & ? & ? & ?). Qed.
Lemma wt_set_instance al : typed al → well_typed (modify (set_instance (Some al))).
Proof. intros Hal. apply wt_modify. by intros g (? & ? & ? & ?). Qed.
Lemma wt_on_machine {A} `{!Typed A} (m : M Machine A) : well_typed m → well_typed (on_machine m).
Proof. apply wt_zoom; [by intros g (? & ? & ?)|]. by intros g ms (? & ? & ?) ?. Qed.
Lemma wt_on_hand_clock {A} `{!Typed A} (m : M Z A) : well_typed m → well_typed (on_hand_clock m).
Proof. apply wt_zoom; [by intros g (? & ? & ? & ?)|]. by intros g ms (? & ? & ? & ?) ?. Qed.
Lemma wt_on_allocator {A} `{!Typed A} al (m : M AState A) :
  typed al → well_typed m → well_typed (on_allocator al m).
Proof. intros Hal. apply wt_zoom; [by intros g (? & ? & ?)|]. by intros g s (? & ? & ?) [? ?]. Qed.
Lemma wt_instance : well_typed (gets instance).
Proof. apply wt_gets. by intros g (? & _). Qed.
Lemma wt_flag (f : GState → bool) : well_typed (gets f).
Proof. by apply wt_gets. Qed.
#[local] Hint Resolve wt_set_locked wt_set_initialized wt_set_enabled wt_set_instance wt_on_machine
  wt_on_hand_clock wt_on_allocator wt_instance wt_flag : typed.

Lemma wt_under_lock {A} `{!Typed A} (f : M GState A) : well_typed f → well_typed (under_lock f).
Proof. intros Hf. unfold under_lock. apply wt_bind; [by apply wt_gets|]. keep. Qed.
Lemma wt_with_allocator {A} `{!Typed A} (none : A) (m : EarlyAllocator → M GState A) :
  typed none → (∀ al, typed al → well_typed (m al)) → well_typed (with_allocator none m).
Proof. intros Hn Hm. apply wt_under_lock. keep. Qed.

Lemma wt_TS_init start sz : in_u64 start → in_u64 sz → well_typed (TS_init start sz).
Proof. intros ? ?. apply wt_under_lock. keep. Qed.
Lemma wt_TS_alloc_aligned sz align : well_typed (TS_alloc_aligned sz align).
Proof. apply wt_with_allocator; keep. Qed.
Lemma wt_TS_dealloc p : well_typed (TS_dealloc p).
Proof. apply wt_with_allocator; keep. Qed.
Lemma wt_TS_stats : well_typed TS_stats.
Proof. apply wt_with_allocator; [done|]. intros al Hal. apply wt_bind; [|keep].
  apply wt_on_allocator; [done|]. apply wt_stats. Qed.
Lemma wt_TS_freeze : well_typed TS_freeze.
Proof. apply wt_with_allocator; keep. Qed.
Lemma wt_TS_integrity_check : well_typed TS_integrity_check.
Proof. apply wt_with_allocator; keep. Qed.
Lemma wt_TS_set_purpose p pu : well_typed (TS_set_purpose p pu).
Proof. apply wt_with_allocator; keep. Qed.
#[local] Hint Resolve wt_TS_init wt_TS_alloc_aligned wt_TS_dealloc wt_TS_stats wt_TS_freeze
  wt_TS_integrity_check wt_TS_set_purpose : typed.

(** *** Bulk writes *)

Lemma wt_bytes (f : memory → memory) :
  (∀ m, map_Forall (λ _ b, in_u8 b) m → map_Forall (λ _ b, in_u8 b) (f m)) →
  well_typed (modify (with_mem f)).
Proof. intros Hf. apply wt_modify. intros ms [Hm Hc]. split; [by apply Hf|done]. Qed.

Lemma wt_write_bytes n p v : well_typed (modify (with_mem (λ m, write_bytes n m p v))).
Proof.
  apply wt_bytes. revert p. induction n as [|n IH]; intros p m Hm; [done|]. apply IH.
  apply map_Forall_insert_2; [|done]. by apply Z.mod_pos_bound.
Qed.
Lemma wt_copy_bytes n src dst : well_typed (modify (with_mem (λ m, copy_bytes n m src dst))).
Proof.
  apply wt_bytes. revert src dst. induction n as [|n IH]; intros src dst m Hm; [done|]. apply IH.
  apply map_Forall_insert_2; [|done]. apply byte_at_range.
Qed.
Lemma wt_put_bytes l p : well_typed (modify (with_mem (λ m, put_bytes l m p))).
Proof.
  apply wt_bytes. revert p. induction l as [|b l IH]; intros p m Hm; [done|]. apply IH.
  apply map_Forall_insert_2; [|done]. by apply Z.mod_pos_bound.
Qed.
#[local] Hint Resolve wt_write_bytes wt_copy_bytes wt_put_bytes : typed.

(** *** [global.rs] *)

Lemma wt_safe_alloc l : well_typed (safe_alloc l).
Proof. unfold safe_alloc. keep. Qed.
Lemma wt_Global_alloc l : well_typed (Global_alloc l).
Proof. unfold Global_alloc. keep. by destruct a. Qed.
Lemma wt_Global_dealloc p l : well_typed (Global_dealloc p l).
Proof. unfold Global_dealloc. keep. Qed.
#[local] Hint Resolve wt_safe_alloc wt_Global_alloc wt_Global_dealloc : typed.
Lemma wt_Global_alloc_zeroed l : well_typed (Global_alloc_zeroed l).
Proof. unfold Global_alloc_zeroed. keep. Qed.
Lemma wt_Global_realloc p l n : well_typed (Global_realloc p l n).
Proof. unfold Global_realloc. keep. Qed.
Lemma wt_alloc_type l : well_typed (alloc_type l).
Proof. unfold alloc_type. keep. by destruct a. Qed.
#[local] Hint Resolve wt_alloc_type : typed.
Lemma wt_EarlyBox_new l v : well_typed (EarlyBox_new l v).
Proof. unfold EarlyBox_new, alloc_init. keep. Qed.
Lemma wt_EarlyBox_drop p l : well_typed (EarlyBox_drop p l).
Proof. apply wt_Global_dealloc. Qed.
#[local] Hint Resolve wt_EarlyBox_new wt_EarlyBox_drop : typed.

(** *** The handover snapshot *)

Lemma wt_tracked_block a : well_typed (tracked_block a).
Proof. unfold tracked_block, user_data_addr, rd_alloc_id, rd_timestamp. keep. Qed.
#[local] Hint Resolve wt_tracked_block : typed.

Lemma wt_collect_loop fuel a hend blocks count :
  typed blocks → in_u64 count → well_typed (collect_loop fuel a hend blocks count).
Proof.
  revert a blocks count. induction fuel as [|fuel IH]; intros a blocks count Hb Hc; cbn [collect_loop]; keep.
Qed.
#[local] Hint Resolve wt_collect_loop : typed.

(** The checksum is a [u32]. *)
Lemma wt_calculate_checksum {S} `{!Typed S} i :
  typed (i : HandoverInfo.t) → @well_typed S _ Z in_u32 (HandoverInfo.calculate_checksum i).
Proof.
  intros (_ & _ & Hb & _). assert (∀ c v, in_u32 (HandoverInfo.add32 c v)) as Hadd.
  { intros c v. by apply Z.mod_pos_bound. }
  unfold HandoverInfo.calculate_checksum. apply (wt_for_range (H := in_u32)); [|apply Hadd].
  intros k c Hc. apply wt_bind; [by apply wt_arr_get|]. intros b _. apply (wt_ret (H := in_u32)), Hadd.
Qed.

Lemma wt_update_checksum {S} `{!Typed S} i :
  typed (i : HandoverInfo.t) → well_typed (S := S) (HandoverInfo.update_checksum i).
Proof.
  intros Hi. unfold HandoverInfo.update_checksum.
  apply (wt_bind (H := in_u32)); [by apply wt_calculate_checksum|]. intros c Hc. apply wt_ret.
  destruct Hi as (? & ? & ? & ? & ? & ? & ?). unfold typed, Typed_info. split_and!; try done; tauto.
Qed.

Lemma wt_info_new start hend st :
  in_u64 start → in_u64 hend → typed st → well_typed (HandoverInfo.new start hend st).
Proof.
  intros ? ? ?. unfold HandoverInfo.new. apply wt_bind.
  { intros c a c' Hc [= <- <-]. split; [|done]. by apply Z.mod_pos_bound. }
  intros ts Hts. apply wt_update_checksum. unfold typed, Typed_info. split_and!; try done.
  apply Forall_replicate. by unfold typed, Typed_block.
Qed.

Lemma wt_build_handover al : typed al → well_typed (build_handover al).
Proof.
  intros Hal. pose proof Hal as (? & ? & ? & ? & ?). unfold build_handover. keep.
  - apply wt_on_hand_clock. by apply wt_info_new.
  - apply wt_on_machine. match goal with H : @typed HandoverInfo.t _ _ |- _ => destruct H as (? & ? & ? & ? & ?) end.
    by apply wt_collect_loop.
  - apply wt_update_checksum. match goal with H : typed (_, _) |- _ => destruct H end.
    match goal with H : @typed HandoverInfo.t _ _ |- _ => destruct H as (? & ? & ? & ? & ? & ? & ?) end.
    unfold typed, Typed_info. split_and!; try done; tauto.
Qed.
#[local] Hint Resolve wt_build_handover : typed.

Lemma wt_TS_prepare_handover : well_typed (TS_prepare_handover info_layout info_bytes).
Proof. apply wt_with_allocator; keep. by destruct a0. Qed.
#[local] Hint Resolve wt_TS_prepare_handover : typed.

Lemma wt_reclaimable_size {S} `{!Typed S} i :
  typed (i : HandoverInfo.t) → well_typed (S := S) (HandoverInfo.reclaimable_size i).
Proof. intros (_ & _ & ? & _). unfold HandoverInfo.reclaimable_size, HandoverInfo.size_where. keep. Qed.

Lemma wt_validate {S} `{!Typed S} i :
  typed (i : HandoverInfo.t) → well_typed (S := S) (HandoverInfo.validate i).
Proof.
  intros Hi. pose proof Hi as (_ & _ & ? & _).
  assert (well_typed (S := S) (HandoverInfo.calculate_checksum i)).
  { intros s c s' Hs E. destruct (wt_calculate_checksum i Hi s c s' Hs E) as [? Hc]. split; [done|].
    unfold in_u32, typed, Typed_usize, in_u64 in *. lia. }
  unfold HandoverInfo.validate, AllocatedBlock.overlaps_with, HandoverInfo.allocated_size,
    HandoverInfo.size_where, AllocatedBlock.end_addr. keep; by case_match.
Qed.

(** *** [mod.rs] *)

Ltac api := unfold Api.is_initialized, Api.is_enabled, Api.enable, Api.disable; keep.

Lemma wt_api_init start sz : in_u64 start → in_u64 sz → well_typed (Api.init start sz).
Proof. intros ? ?. unfold Api.init. api. Qed.
Lemma wt_api_alloc sz : well_typed (Api.alloc sz).
Proof. unfold Api.alloc. api. Qed.
Lemma wt_api_alloc_aligned sz align : well_typed (Api.alloc_aligned sz align).
Proof. unfold Api.alloc_aligned. api. Qed.
#[local] Hint Resolve wt_api_alloc : typed.
Lemma wt_api_alloc_zeroed sz : well_typed (Api.alloc_zeroed sz).
Proof. unfold Api.alloc_zeroed. api. Qed.
Lemma wt_api_dealloc p : well_typed (Api.dealloc p).
Proof. unfold Api.dealloc. api. Qed.
Lemma wt_api_dealloc_safe p sz : well_typed (Api.dealloc_safe p sz).
Proof. unfold Api.dealloc_safe. api. Qed.
Lemma wt_api_stats : well_typed Api.stats.
Proof. unfold Api.stats. api. Qed.
Lemma wt_api_integrity_check : well_typed Api.integrity_check.
Proof. unfold Api.integrity_check. api. Qed.
#[local] Hint Resolve wt_api_stats wt_api_integrity_check : typed.

Lemma to_u8_range f : in_u8 (F32.to_u8 f).
Proof.
  unfold F32.to_u8, in_u8. destruct f as [|[]| |[] m e]; try lia.
  case_match; [pose proof (Z.pow_nonneg 2 e); nia|].
  assert (0 ≤ Z.pos m / 2 ^ (- e)) by (apply Z.div_pos; [lia|b2p; apply Z.pow_pos_nonneg; lia]). lia.
Qed.

#[local] Instance Typed_health : Typed HealthIssues.t := λ _, True.
Lemma wt_check_health {S} `{!Typed S} st : well_typed (S := S) (check_health st).
Proof. unfold check_health, AllocStats.success_rate. keep.
  unfold typed, Typed_usize. pose proof (to_u8_range (F32.mul (F32.div (F32.of_Z (AllocStats.total_allocs st)) (F32.of_Z a)) (F32.of_Z 100))).
  unfold in_u8, in_u64 in *. lia.
Qed.
#[local] Hint Resolve wt_check_health : typed.
Lemma wt_health_check : well_typed Api.health_check.
Proof. unfold Api.health_check. api. Qed.
Lemma wt_print_status : well_typed Api.print_status.
Proof. unfold Api.print_status. api. Qed.
#[local] Hint Resolve wt_health_check wt_print_status wt_validate wt_reclaimable_size : typed.
Lemma wt_api_freeze : well_typed Api.freeze.
Proof. unfold Api.freeze. api. Qed.
Lemma wt_maintenance : well_typed Api.maintenance.
Proof. unfold Api.maintenance. api. Qed.
Lemma wt_size_where {S} `{!Typed S} test i :
  typed (i : HandoverInfo.t) → well_typed (S := S) (HandoverInfo.size_where test i).
Proof. intros (_ & _ & ? & _). unfold HandoverInfo.size_where. keep. Qed.

Lemma wt_group_by_purpose {S} `{!Typed S} i :
  typed (i : HandoverInfo.t) → well_typed (S := S) (HandoverInfo.group_by_purpose i).
Proof.
  intros (_ & _ & ? & _). apply wt_for_range.
  - intros k groups Hg. apply wt_bind; [by apply wt_arr_get|]. intros b _.
    induction Hg as [|[[q n] t] groups [[? ?] ?] Hg IH]; cbn [HandoverInfo.bump_group]; keep.
    + by constructor.
    + by constructor.
    + by constructor.
  - apply Forall_map, Forall_forall. by intros p _.
Qed.
Lemma wt_heap_size {S} `{!Typed S} i : typed (i : HandoverInfo.t) → well_typed (S := S) (HandoverInfo.heap_size i).
Proof. intros _. apply wt_arith. Qed.
Lemma wt_print_summary {S} `{!Typed S} i : typed (i : HandoverInfo.t) → well_typed (S := S) (print_summary i).
Proof.
  intros Hi. unfold print_summary.
  apply wt_bind; [by apply wt_heap_size|intros _ _].
  do 4 (apply wt_bind; [by apply wt_size_where|intros _ _]).
  apply wt_bind; [by apply wt_group_by_purpose|intros _ _]. by apply wt_ret.
Qed.

Lemma wt_prepare_handover : well_typed (Api.prepare_handover info_layout info_bytes).
Proof.
  unfold Api.prepare_handover. api.
  - apply wt_validate. by match goal with H : typed (Some (_, _)) |- _ => destruct H end.
  - apply wt_print_summary. by match goal with H : typed (Some (_, _)) |- _ => destruct H end.
Qed.
Lemma wt_emergency_reclaim : well_typed (Api.emergency_reclaim info_layout info_bytes).
Proof.
  unfold Api.emergency_reclaim. api.
  - apply wt_reclaimable_size. by match goal with H : typed (Some (_, _)) |- _ => destruct H end.
  - by case_match.
Qed.

(** ** Calls of the interface *)

(** What a caller of the allocator can ask for, the [GlobalAlloc] and
    [EarlyBox] entries included. *)
Inductive call : Type :=
| Init (start size : Z)
| Alloc (size : Z)
| AllocAligned (size align : Z)
| AllocZeroed (size : Z)
| Dealloc (p : Z)
| DeallocSafe (p size : Z)
| SetPurpose (p : Z) (purpose : AllocPurpose.t)
| IntegrityCheck
| Freeze
| Enable
| Disable
| Maintenance
| PrepareHandover
| EmergencyReclaim
| GlobalAllocCall (l : Layout)
| GlobalDealloc (p : Z) (l : Layout)
| GlobalAllocZeroed (l : Layout)
| GlobalRealloc (p : Z) (l : Layout) (new_size : Z)
| GlobalSetPurpose (p : Z) (purpose : AllocPurpose.t)
| BoxNew (l : Layout) (v : list Z)
| BoxDrop (p : Z) (l : Layout).

(** The call, with the pointer or the number of bytes it returns. *)
Definition run_call (c : call) : M GState (option Z) :=
  match c with
  | Init start size => Api.init start size;; mret None
  | Alloc size => Api.alloc size
  | AllocAligned size align => Api.alloc_aligned size align
  | AllocZeroed size => Api.alloc_zeroed size
  | Dealloc p => Api.dealloc p;; mret None
  | DeallocSafe p size => Api.dealloc_safe p size;; mret None
  | SetPurpose p purpose => Api.set_purpose p purpose;; mret None
  | IntegrityCheck => Api.integrity_check;; mret None
  | Freeze => Api.freeze;; mret None
  | Enable => Api.enable;; mret None
  | Disable => Api.disable;; mret None
  | Maintenance => Api.maintenance;; mret None
  | PrepareHandover => r ← Api.prepare_handover info_layout info_bytes; mret (fst <$> r)
  | EmergencyReclaim => n ← Api.emergency_reclaim info_layout info_bytes; mret (Some n)
  | GlobalAllocCall l => p ← Global_alloc l; mret (Some p)
  | GlobalDealloc p l => Global_dealloc p l;; mret None
  | GlobalAllocZeroed l => p ← Global_alloc_zeroed l; mret (Some p)
  | GlobalRealloc p l n => q ← Global_realloc p l n; mret (Some q)
  | GlobalSetPurpose p purpose => Global_set_purpose p purpose;; mret None
  | BoxNew l v => EarlyBox_new l v
  | BoxDrop p l => EarlyBox_drop p l;; mret None
  end.

Fixpoint run_calls (cs : list call) : M GState (list (option Z)) :=
  match cs with
  | [] => mret []
  | c :: cs => r ← run_call c; rs ← run_calls cs; mret (r :: rs)
  end.

(** The arguments of [init] are stored as they are. *)
Definition call_typed (c : call) : Prop :=
  match c with Init start size => in_u64 start ∧ in_u64 size | _ => True end.

#[local] Hint Resolve wt_api_init wt_api_alloc wt_api_alloc_aligned wt_api_alloc_zeroed wt_api_dealloc
  wt_api_dealloc_safe wt_api_freeze wt_maintenance wt_prepare_handover wt_emergency_reclaim
  wt_Global_alloc_zeroed wt_Global_realloc : typed.

Lemma wt_run_call c : call_typed c → well_typed (run_call c).
Proof.
  destruct c; cbn [call_typed run_call]; first [intros [? ?]|intros _];
    unfold Api.set_purpose, Global_set_purpose; api.
  all: match goal with r : option (_ * _) |- _ => destruct r as [[? ?]|]; [|done] end.
  all: by match goal with H : typed (Some (_, _)) |- _ => destruct H end.
Qed.

(** Machine integers stay in their widths.  From a state in which every field
    of the allocator, every counter of its statistics and every clock is a 64-bit
    number and every memory cell a byte, any sequence of calls of the allocator's
    interface that returns leaves such a state and hands out 64-bit numbers, in
    both build profiles and whatever the memory holds. *)
Theorem machine_integers_stay_in_width cs g rs g' :
  typed g → Forall call_typed cs → run_calls cs g = Ret (rs, g') → typed g' ∧ typed rs.
Proof.
  intros Hg Hcs E. revert g rs g' Hg E. induction Hcs as [|c cs Hc Hcs IH]; intros g rs g' Hg E.
  { injection E as <- <-. split; [done|constructor]. }
  cbn [run_calls] in E. apply bind_inv in E as (r & g1 & E1 & E). apply bind_inv in E as (rs' & g2 & E2 & E).
  injection E as <- <-. destruct (wt_run_call c Hc g r g1 Hg E1) as [Hg1 Hr].
  destruct (IH g1 rs' g2 Hg1 E2) as [Hg2 Hrs]. split; [done|]. by constructor.
Qed.

End global.

Definition demo_calls : list call :=
  [Init 2151677952 65536; Alloc 100; GlobalAllocCall (mkLayout 24 8); BoxNew (mkLayout 4 4) [42; 0; 0; 0];
   GlobalRealloc 2151678192 (mkLayout 24 8) 64; IntegrityCheck; Dealloc 7].

Lemma demo_calls_return :
  match run_calls (P := Dev) GlobalDemo.box_layout (λ _, []) demo_calls GlobalDemo.g_boot with
  | Ret (_, g') => initialized g'
  | _ => false
  end = true.
Proof. vm_compute. reflexivity. Qed.

Lemma machine_integers_stay_in_width_witness :
  ∃ rs g', run_calls (P := Dev) GlobalDemo.box_layout (λ _, []) demo_calls GlobalDemo.g_boot = Ret (rs, g')
    ∧ initialized g' = true ∧ typed g' ∧ typed rs.
Proof.
  pose proof demo_calls_return as H.
  destruct (run_calls (P := Dev) GlobalDemo.box_layout (λ _, []) demo_calls GlobalDemo.g_boot)
    as [[rs g']| | |] eqn:E; [|discriminate H..].
  exists rs, g'. split; [reflexivity|]. split; [exact H|].
  refine (machine_integers_stay_in_width (P := Dev) GlobalDemo.box_layout (λ _, []) demo_calls
            GlobalDemo.g_boot rs g' _ _ E).
  - split; [exact I|]. split; [|split; split; by_eval]. split; [|split; by_eval].
    apply map_Forall_empty.
  - repeat constructor; by_eval.
Defined.
