(* ===== verification/ByteHeap.v ===== *)
(** * The global allocator as a heap of byte arrays

    What a client sees: a finite map from pointers to the bytes they own.
    [byte_heap K m g] relates it to the state of the global allocator, with [K]
    credits: a free block of [K] bytes, and room for [K] more events in the
    counters.  [alloc], [dealloc] and [realloc] of [src/init/alloc/global.rs] and
    writes through owned pointers act on the map, for requests that keep the
    blocks multiples of eight bytes long. *)

From Stdlib Require Import ZArith Lia String.
From stdpp Require Import base option numbers sorting strings gmap list fin_sets fin_map_dom.
From S2P Require Import Prelude Memory Purpose Metadata HeaderSpec Allocator FreeList HeapInv AllocSteps AllocSpec DeallocSpec AllocOps AllocRefine AllocClient AllocThms Arrays Handover GlobalAlloc AllocApi GlobalThms Examples.

(** ** Allocated blocks with their pointers *)

Fixpoint used_ptrs (a : Z) (bs : list header) : list (Z * Z) :=
  match bs with
  | [] => []
  | h :: r => (if is_free h then [] else [(a + HEADER_SIZE, BlockHeader.size h)]) ++ used_ptrs (a + total h) r
  end.

Lemma used_ptrs_app a bs1 bs2 : used_ptrs a (bs1 ++ bs2) = used_ptrs a bs1 ++ used_ptrs (a + span bs1) bs2.
Proof.
  revert a. induction bs1 as [|h bs1 IH]; intros a; cbn [app used_ptrs].
  - by rewrite Z.add_0_r.
  - rewrite IH, <-app_assoc, span_cons. by rewrite Z.add_assoc.
Qed.

Lemma used_ptrs_bounds a bs p n :
  Forall blk_ok bs → (p, n) ∈ used_ptrs a bs → a + HEADER_SIZE ≤ p ∧ p + n ≤ a + span bs ∧ 16 ≤ n.
Proof.
  intros H. revert a. induction H as [|h bs Hh Hbs IH]; intros a; cbn [used_ptrs]; [by intros ?%elem_of_nil|].
  rewrite elem_of_app, span_cons. pose proof (blk_total _ Hh). pose proof (span_nonneg _ Hbs).
  destruct Hh as [_ Hz]. unfold total, HEADER_SIZE in *. intros [Hp|Hp].
  - destruct (is_free h); [by apply elem_of_nil in Hp|]. apply list_elem_of_singleton in Hp as [= -> ->]. lia.
  - apply IH in Hp. lia.
Qed.

Lemma used_ptrs_user a bs p n x : (p, n) ∈ used_ptrs a bs → p ≤ x < p + n → in_user a bs x.
Proof.
  revert a. induction bs as [|h bs IH]; intros a; cbn [used_ptrs in_user]; [by intros ?%elem_of_nil|].
  rewrite elem_of_app. intros [Hp|Hp] Hx; [|right; by eapply IH].
  destruct (is_free h) eqn:E; [by apply elem_of_nil in Hp|]. apply list_elem_of_singleton in Hp as [= -> ->].
  left. unfold total. split; [done|lia].
Qed.

(** Two blocks are the same or lie apart. *)
Lemma used_ptrs_apart a bs p n q k :
  Forall blk_ok bs → (p, n) ∈ used_ptrs a bs → (q, k) ∈ used_ptrs a bs →
  (p = q ∧ n = k) ∨ p + n < q ∨ q + k < p.
Proof.
  intros H. revert a. induction H as [|h bs Hh Hbs IH]; intros a; cbn [used_ptrs]; [by intros ?%elem_of_nil|].
  rewrite !elem_of_app. intros [Hp|Hp] [Hq|Hq].
  - destruct (is_free h); [by apply elem_of_nil in Hp|].
    apply list_elem_of_singleton in Hp as [= -> ->]. apply list_elem_of_singleton in Hq as [= -> ->]. by left.
  - destruct (is_free h); [by apply elem_of_nil in Hp|]. apply list_elem_of_singleton in Hp as [= -> ->].
    apply used_ptrs_bounds in Hq; [|done]. unfold total, HEADER_SIZE in *. lia.
  - destruct (is_free h); [by apply elem_of_nil in Hq|]. apply list_elem_of_singleton in Hq as [= -> ->].
    apply used_ptrs_bounds in Hp; [|done]. unfold total, HEADER_SIZE in *. lia.
  - by eapply IH.
Qed.

Lemma used_ptrs_split a bs p n :
  (p, n) ∈ used_ptrs a bs →
  ∃ bs1 h bs2, bs = bs1 ++ h :: bs2 ∧ is_free h = false ∧ n = BlockHeader.size h ∧ p = a + span bs1 + HEADER_SIZE.
Proof.
  revert a. induction bs as [|h bs IH]; intros a; cbn [used_ptrs]; [by intros ?%elem_of_nil|].
  rewrite elem_of_app. intros [Hp|Hp].
  - destruct (is_free h) eqn:E; [by apply elem_of_nil in Hp|]. apply list_elem_of_singleton in Hp as [= -> ->].
    exists [], h, bs. split_and!; try done. change (span []) with 0. lia.
  - apply IH in Hp as (bs1 & g & bs2 & -> & ? & ? & ->). exists (h :: bs1), g, bs2.
    split_and!; try done. rewrite span_cons. lia.
Qed.

Lemma size_merged h g : BlockHeader.size (merged h g) = BlockHeader.size h + total g.
Proof. done. Qed.

Lemma total_merged h g : total (merged h g) = total h + total g.
Proof. unfold total. rewrite size_merged. unfold total. lia. Qed.

Lemma used_ptrs_freed a bs1 h bs2 :
  is_free h = true → used_ptrs a (freed bs1 h bs2) = used_ptrs a bs1 ++ used_ptrs (a + span bs1 + total h) bs2.
Proof.
  intros Hf. unfold freed.
  assert (∃ h' r, merge_next h bs2 = (h', r) ∧ is_free h' = true
            ∧ ∀ b, used_ptrs (b + total h') r = used_ptrs (b + total h) bs2) as (h' & r & -> & Hf' & Hr).
  { destruct bs2 as [|g r]; [by exists h, []|]. cbn [merge_next]. destruct (is_free g) eqn:Eg.
    - exists (merged h g), r. split_and!; try done. intros b. cbn [used_ptrs]. rewrite Eg, total_merged. cbn [app]. f_equal. lia.
    - by exists h, (g :: r). }
  rewrite <-Hr. destruct bs1 as [|k cs _] using rev_ind.
  - cbn [merge_prev used_ptrs]. rewrite Hf'. cbn [app]. f_equal. change (span []) with 0. lia.
  - rewrite merge_prev_snoc, span_app, span_cons. change (span []) with 0.
    destruct (is_free k) eqn:Ek; cbn [app]; rewrite !used_ptrs_app, <-app_assoc; f_equal;
      cbn [used_ptrs]; rewrite ?is_free_merged, Ek, ?Hf'; cbn [app].
    + rewrite total_merged. f_equal. lia.
    + f_equal. f_equal. lia.
Qed.

(** ** Room *)

Definition room (K : Z) (bs : list header) : Prop :=
  ∃ h, h ∈ bs ∧ is_free h = true ∧ K ≤ BlockHeader.size h.

Lemma room_mono K K' bs : room K bs → K' ≤ K → room K' bs.
Proof. intros (h & ? & ? & ?) Hle. exists h. split_and!; try done. lia. Qed.

Lemma room_freed K bs1 h bs2 :
  Forall blk_ok bs1 → Forall blk_ok bs2 → 0 ≤ BlockHeader.size h → is_free h = true →
  room K (bs1 ++ bs2) → room K (freed bs1 h bs2).
Proof.
  intros Ok1 Ok2 Hz Hf (g & Hg & Hgf & HK). unfold freed.
  assert (∃ h' r, merge_next h bs2 = (h', r) ∧ is_free h' = true ∧ 0 ≤ BlockHeader.size h'
            ∧ (g ∈ bs2 → g ∈ r ∨ K ≤ BlockHeader.size h')) as (h' & r & -> & Hf' & Hz' & Hr).
  { destruct bs2 as [|k r]; [by exists h, []; split_and!; try done; auto|]. cbn [merge_next].
    apply Forall_cons in Ok2 as [[_ Hk] _].
    destruct (is_free k) eqn:Ek; [|by exists h, (k :: r); split_and!; auto].
    exists (merged h k), r. split_and!; try done; rewrite size_merged; unfold total, HEADER_SIZE; [lia|].
    rewrite elem_of_cons. intros [->|?]; [right; lia|by left]. }
  destruct bs1 as [|k cs _] using rev_ind.
  - destruct (Hr Hg) as [?|?]; [exists g|exists h']; split_and!; try done; cbn [merge_prev]; elem.
  - rewrite merge_prev_snoc. apply Forall_app in Ok1 as [_ Ok1]. apply Forall_cons in Ok1 as [[_ Hk] _].
    rewrite !elem_of_app, list_elem_of_singleton in Hg.
    assert (∀ x, x ∈ cs ∨ x ∈ (if is_free k then [merged k h'] else [k; h']) ∨ x ∈ r → is_free x = true → K ≤ BlockHeader.size x →
      room K (cs ++ (if is_free k then [merged k h'] else [k; h']) ++ r)) as Hin.
    { intros x Hx ? ?. exists x. split_and!; try done. rewrite !elem_of_app. tauto. }
    assert (K ≤ BlockHeader.size h' → room K (cs ++ (if is_free k then [merged k h'] else [k; h']) ++ r)) as Hh.
    { intros ?. destruct (is_free k) eqn:Ek.
      - apply (Hin (merged k h')); [right; left; elem|by rewrite is_free_merged|].
        rewrite size_merged. unfold total, HEADER_SIZE. lia.
      - apply (Hin h'); [right; left; elem|done|done]. }
    destruct Hg as [[Hg| ->]|Hg].
    + by apply (Hin g); [left|..].
    + apply (Hin (merged k h')); [rewrite Hgf; right; left; elem|by rewrite is_free_merged|].
      rewrite size_merged. unfold total, HEADER_SIZE. lia.
    + destruct (Hr Hg) as [?|?]; [apply (Hin g); auto|by apply Hh].
Qed.

Lemma words_freed bs1 h bs2 :
  words bs1 → words bs2 → BlockHeader.size h mod 8 = 0 → words (freed bs1 h bs2).
Proof.
  intros H1 H2 Hh. unfold freed, words in *.
  assert (∀ x y, BlockHeader.size x mod 8 = 0 → BlockHeader.size y mod 8 = 0 →
            BlockHeader.size (merged x y) mod 8 = 0) as Hm.
  { intros x y Hx Hy. rewrite size_merged. unfold total, HEADER_SIZE.
    rewrite Z.add_mod, (Z.add_mod _ 48), Hx, Hy by done. done. }
  destruct (merge_next h bs2) as [h' r] eqn:E.
  assert (BlockHeader.size h' mod 8 = 0 ∧ Forall (λ h, BlockHeader.size h mod 8 = 0) r) as [Hh' Hr].
  { destruct bs2 as [|g r']; cbn [merge_next] in E; [by injection E as <- <-|].
    apply Forall_cons in H2 as [Hg H2]. destruct (is_free g); injection E as <- <-; split; auto. }
  destruct bs1 as [|k cs _] using rev_ind; [by constructor|]. rewrite merge_prev_snoc.
  apply Forall_app in H1 as [Hcs Hk]. apply Forall_cons in Hk as [Hk _].
  rewrite !Forall_app. split_and!; try done. destruct (is_free k); repeat constructor; auto.
Qed.

(** ** The relation *)

(** The bytes from [p] on are [l]. *)
Definition bytes_at (m : memory) (p : Z) (l : list Z) : Prop :=
  ∀ k b, l !! k = Some b → byte_at m (p + Z.of_nat k) = b.

Record byte_heap_of (K : Z) (m : gmap Z (list Z)) (s : AState) (bs : list header) : Prop := {
  bh_open : frozen (self s) = false;
  bh_aligned : heap_start (self s) mod 8 = 0;
  (* whole words: kept by the requests below, not by requests of other sizes *)
  bh_words : words bs;
  bh_room : room K bs;
  bh_limit : heap_end (self s) + 72 ≤ 2 ^ 64 ∧ heap_end (self s) - heap_start (self s) ≤ 2 ^ 56;
  bh_owned : ∀ p l, m !! p = Some l →
    ∃ n, (p, n) ∈ used_ptrs (heap_start (self s)) bs ∧ Z.of_nat (length l) ≤ n
         ∧ bytes_at (mem (mach s)) p l;
  bh_all : ∀ p n, (p, n) ∈ used_ptrs (heap_start (self s)) bs → is_Some (m !! p);
}.

Definition byte_heap (K : Z) (m : gmap Z (list Z)) (g : GState) : Prop :=
  ∃ N s bs, heap_ready N g s bs ∧ 0 ≤ K ∧ 2 * (N + K) < 2 ^ 64
    ∧ initialized g = true ∧ enabled g = true ∧ byte_heap_of K m s bs.

(** The requests: at most word-aligned, and in blocks of whole words. *)
Definition word_layout (l : Layout) : Prop :=
  0 < lsize l ∧ Z.max (lsize l) 16 mod 8 = 0 ∧ (lalign l = 1 ∨ lalign l = 2 ∨ lalign l = 4 ∨ lalign l = 8).

Lemma bytes_at_ext m m' p l :
  bytes_at m p l → (∀ x, p ≤ x < p + Z.of_nat (length l) → m' !! x = m !! x) → bytes_at m' p l.
Proof.
  intros H Hm k b Hk. rewrite <-(H k b Hk). apply byte_at_eq, Hm. apply lookup_lt_Some in Hk. lia.
Qed.

(** The bytes that happen to be there. *)
Lemma bytes_at_exists m p n : ∃ l, length l = n ∧ bytes_at m p l.
Proof.
  exists ((λ k, byte_at m (p + Z.of_nat k)) <$> seq 0 n). split; [by rewrite length_fmap, length_seq|].
  intros k b. rewrite list_lookup_fmap. intros (j & Hj & ->)%fmap_Some.
  apply lookup_seq in Hj as [-> _]. done.
Qed.

Section heap.
Context {P : Profile}.

(** Carving up a word-sized block for a word-sized request. *)
Lemma carve_blocks sz align b h h1 rest :
  (b + 48) mod 8 = 0 → (align = 1 ∨ align = 2 ∨ align = 4 ∨ align = 8) → sz mod 8 = 0 →
  BlockHeader.size h mod 8 = 0 → carve sz align b h h1 rest →
  user_addr_of b align = b + HEADER_SIZE ∧ words (h1 :: rest) ∧ is_free h1 = false
  ∧ (∀ a, used_ptrs a rest = [])
  ∧ (∀ K, K ≤ BlockHeader.size h - sz - 48 → sz + 112 ≤ BlockHeader.size h → room K rest).
Proof.
  intros Hb Hal Hsz Hh (Ha & _ & K).
  assert (user_addr_of b align = b + HEADER_SIZE) as Eu.
  { apply user_addr_of_aligned; [lia|]. unfold HEADER_SIZE.
    pose proof (Z.div_mod (b + 48) 8 ltac:(done)) as E. rewrite Hb in E.
    destruct Hal as [Ea|[Ea|[Ea|Ea]]]; rewrite Ea; [apply Z.mod_1_r| | |done];
      (apply Z.mod_divide; [done|]); [exists ((b + 48) / 8 * 4)|exists ((b + 48) / 8 * 2)]; lia. }
  rewrite Eu in K. unfold HEADER_SIZE in K. change min_block_size with 64 in K.
  replace (b + 48 - b + sz) with (48 + sz) in K by lia.
  assert (is_free h1 = false) as Hf1 by (unfold is_free; by rewrite Ha).
  destruct (Z.leb_spec (48 + sz + 64) (BlockHeader.size h)).
  - destruct K as (h2 & -> & Hf2 & Z1 & Z2). split_and!; try done.
    + repeat constructor; rewrite ?Z1, ?Z2.
      * by replace (48 + sz - 48) with sz by lia.
      * rewrite Zminus_mod, (Z.add_mod 48), Hsz, Hh by done. done.
    + intros a. cbn [used_ptrs]. by rewrite Hf2.
    + intros K HK _. exists h2. split_and!; [elem|done|lia].
  - destruct K as [-> Z1]. split_and!; try done.
    + repeat constructor. by rewrite Z1.
    + intros K' _ ?. lia.
Qed.

(** A block with room is found. *)
Lemma room_first_fit K a bs sz align :
  room K bs → 0 < align → sz + HEADER_SIZE + align ≤ K → ∃ x, first_fit sz align a bs = Some x.
Proof.
  intros (h & Hin & Hf & Hz) Ha HK. destruct (first_fit sz align a bs) as [x|] eqn:F; [by exists x|]. exfalso.
  apply list_elem_of_split in Hin as (bs1 & bs2 & E).
  apply (proj1 (first_fit_None _ _ _ _)) with (i := length bs1) (g := h) in F;
    [|by rewrite E, lookup_app_r, Nat.sub_diag by lia].
  unfold block_fits in F. rewrite Hf in F. cbn [andb] in F. apply Z.leb_gt in F.
  pose proof (user_addr_of_spec (a + span (take (length bs1) bs)) align ltac:(lia)) as [Hu _].
  unfold HEADER_SIZE in *. lia.
Qed.

(** A free block and what it is carved into. *)
Lemma used_ptrs_free a bs1 h bs2 :
  is_free h = true →
  used_ptrs a (bs1 ++ h :: bs2) = used_ptrs a bs1 ++ used_ptrs (a + span bs1 + total h) bs2.
Proof. intros Hf. rewrite used_ptrs_app. cbn [used_ptrs]. by rewrite Hf. Qed.

Lemma free_block_unused a bs1 h bs2 n :
  Forall blk_ok bs1 → Forall blk_ok bs2 → blk_ok h → is_free h = true →
  (a + span bs1 + HEADER_SIZE, n) ∉ used_ptrs a (bs1 ++ h :: bs2).
Proof.
  intros Ok1 Ok2 Hok Hf. pose proof (blk_total _ Hok) as Ht. rewrite used_ptrs_free, elem_of_app by done.
  intros [Hin|Hin]; apply used_ptrs_bounds in Hin; try done; unfold HEADER_SIZE in *; lia.
Qed.

(** What is left of the room when [h] is carved up. *)
Lemma room_carve K K' bs1 h h1 rest bs2 :
  room K (bs1 ++ h :: bs2) → K' ≤ K → (K ≤ BlockHeader.size h → room K' rest) →
  room K' (bs1 ++ (h1 :: rest) ++ bs2).
Proof.
  intros (h0 & Hin & Hf0 & Hz0) HK Hr. rewrite elem_of_app, elem_of_cons in Hin.
  destruct Hin as [Hin|[->|Hin]].
  - exists h0. split_and!; [|done|lia]. rewrite elem_of_app. by left.
  - destruct (Hr Hz0) as (h2 & ? & ? & ?). exists h2. split_and!; try done.
    rewrite !elem_of_app, elem_of_cons. tauto.
  - exists h0. split_and!; [|done|lia]. rewrite !elem_of_app. tauto.
Qed.

Lemma words_before a bs1 bs2 : a mod 8 = 0 → words (bs1 ++ bs2) → (a + span bs1 + 48) mod 8 = 0.
Proof.
  intros Ha [Hw _]%Forall_app. rewrite (Z.add_mod _ 48), (Z.add_mod a), Ha, words_span by done. done.
Qed.

Lemma alloc_byte_heap K m g l :
  byte_heap K m g → word_layout l → lsize l + 144 ≤ K →
  ∃ p v g', Global_alloc l g = Ret (p, g') ∧ p ≠ 0 ∧ m !! p = None
    ∧ Z.of_nat (length v) = lsize l ∧ byte_heap (K - lsize l - 144) (<[p := v]> m) g'.
Proof.
  intros (N & s & bs & (Hh & I & Hc) & HK & HN & Hi & He & [B1 B2 B3 B4 B5 B6 B7]) (Hsz & Hmax & Hal) Hroom.
  set (a := heap_start (self s)) in *. pose proof (cb_allocs _ _ Hc) as Hc0.
  assert (is_power_of_two (lalign l) = true) as Hpow by (destruct Hal as [E|[E|[E|E]]]; by rewrite E).
  destruct (room_first_fit K a bs (Z.max (lsize l) 16) (lalign l)) as [[[bs1 h] bs2] F];
    [done|lia|unfold HEADER_SIZE; lia|].
  edestruct alloc_some as (s' & h1 & rest & E & C & _ & Esp & I' & Hu & (Es & Ee & Ef & Hc') & _);
    [exact I|exact Hc|..|exact F|]; try done; try lia. fold a in E, C, Hu.
  destruct (first_fit_Some _ _ _ _ _ _ _ F) as [Ebs Hfit].
  assert (is_free h = true) as Hf by (unfold block_fits in Hfit; b2p; done).
  rewrite Ebs in B3, B4, B6, B7. pose proof (words_before _ _ _ B2 B3) as Hmod.
  apply Forall_app in B3 as [Hw1 [Hwh Hw2]%Forall_cons].
  destruct (carve_blocks _ _ _ _ _ _ Hmod Hal Hmax Hwh C) as (Eu & Hwc & Hf1 & Hrest & Hr).
  rewrite Eu in E. set (p := a + span bs1 + HEADER_SIZE) in *.
  pose proof (carve_room _ (lalign l) _ _ _ _ ltac:(lia) Hfit C) as Hsize. rewrite Eu in Hsize.
  pose proof (used_ptrs_free a bs1 h bs2 Hf) as Eold.
  assert (used_ptrs a (bs1 ++ (h1 :: rest) ++ bs2)
          = used_ptrs a bs1 ++ (p, BlockHeader.size h1) :: used_ptrs (a + span bs1 + total h) bs2) as Enew.
  { rewrite !used_ptrs_app, Esp. cbn [used_ptrs]. by rewrite Hf1, Hrest. }
  pose proof (proj1 I) as W. rewrite Ebs in W.
  pose proof (heap_wf_split _ _ _ _ W) as (_ & Hok & Ok1 & Ok2 & Hb & _). fold a in Hb.
  assert (m !! p = None) as Hfresh.
  { destruct (m !! p) as [l0|] eqn:Ep; [|done]. destruct (B6 p l0 Ep) as (n & Hin & _).
    by apply free_block_unused in Hin. }
  destruct (bytes_at_exists (mem (mach s')) p (Z.to_nat (lsize l))) as (v & Hv & Hbv).
  exists p, v, (put s' g). split_and!; [exact (Global_alloc_run g s s' l (Some p) Hh E)|unfold p, HEADER_SIZE; lia|done|lia|].
  exists (N + 4), s', (bs1 ++ (h1 :: rest) ++ bs2).
  split_and!; [split_and!; [by eapply put_holds|done|done]|lia|lia|done|done|].
  split; rewrite ?Es, ?Ee, ?Ef; try done.
  - unfold words. by rewrite !Forall_app.
  - apply (room_carve K _ _ h); [done|lia|]. intros Hz. apply Hr; lia.
  - intros q l0. destruct (decide (q = p)) as [->|Hne].
    + rewrite lookup_insert_eq. intros [= <-]. exists (BlockHeader.size h1). fold a. rewrite Enew.
      split_and!; [elem| |done]. unfold total, p in *. lia.
    + rewrite lookup_insert_ne by done. intros (n & Hin & Hl & Hb0)%B6. exists n. fold a. fold a in Hin.
      rewrite Eold, elem_of_app in Hin. split_and!; [rewrite Enew, elem_of_app, elem_of_cons; tauto|done|].
      eapply bytes_at_ext; [exact Hb0|]. intros x Hx. apply Hu.
      destruct Hin as [Hin|Hin]; [left|right]; (eapply used_ptrs_user; [exact Hin|lia]).
  - intros q n. fold a. rewrite Enew, elem_of_app, elem_of_cons. intros Hin.
    destruct (decide (q = p)) as [->|Hne]; [by rewrite lookup_insert_eq|].
    rewrite lookup_insert_ne by done. apply (B7 q n). fold a. rewrite Eold, elem_of_app.
    destruct Hin as [?|[[= -> _]|?]]; [by left|done|by right].
Qed.

Lemma TS_dealloc_byte_heap K m g p :
  byte_heap K m g → is_Some (m !! p) → 8 ≤ K →
  ∃ g', p ≠ 0 ∧ TS_dealloc p g = Ret (Ok tt, g') ∧ byte_heap (K - 8) (delete p m) g'.
Proof.
  intros (N & s & bs & (Hh & I & Hc) & HK & HN & Hi & He & [B1 B2 B3 B4 B5 B6 B7]) [v Hv] HK8.
  set (a := heap_start (self s)) in *. pose proof (cb_allocs _ _ Hc) as Hc0.
  destruct (B6 p v Hv) as (n & Hin & _ & _). pose proof Hin as Hin'.
  apply used_ptrs_split in Hin as (bs1 & h & bs2 & Ebs & Hf & Hn & Hp).
  rewrite Ebs in I. destruct (dealloc_ok N s bs1 h bs2 I Hc ltac:(lia) B1 Hf)
    as (s' & h' & E & Hf' & Ez & I' & Hu & (Es & Ee & Ef & Hc')). fold a in E, Hu. rewrite <-Hp in E.
  pose proof (heap_wf_split _ _ _ _ (proj1 I)) as (_ & Hok & Ok1 & Ok2 & Hb & _). fold a in Hb.
  pose proof (blk_total _ Hok) as Ht.
  assert (used_ptrs a bs = used_ptrs a bs1 ++ (p, n) :: used_ptrs (a + span bs1 + total h) bs2) as Eold.
  { rewrite Ebs, used_ptrs_app. cbn [used_ptrs]. rewrite Hf, Hn, Hp. done. }
  assert (used_ptrs a (freed bs1 h' bs2) = used_ptrs a bs1 ++ used_ptrs (a + span bs1 + total h) bs2) as Enew.
  { rewrite used_ptrs_freed by done. unfold total. by rewrite Ez. }
  assert (∀ q k, (q, k) ∈ used_ptrs a bs → q ≠ p → (q, k) ∈ used_ptrs a (freed bs1 h' bs2)) as Hkeep.
  { intros q k. rewrite Eold, Enew, !elem_of_app, elem_of_cons. intros [?|[[= -> _]|?]] ?; [by left|done|by right]. }
  exists (put s' g). split; [rewrite Hp; unfold HEADER_SIZE; lia|]. split; [by eapply call_run|].
  exists (N + 4), s', (freed bs1 h' bs2).
  split_and!; [split_and!; [by eapply put_holds|done|done]|lia|lia|done|done|].
  split; rewrite ?Es, ?Ee, ?Ef; try done.
  - rewrite Ebs in B3. apply Forall_app in B3 as [Hw1 Hw2]. apply Forall_cons in Hw2 as [Hwh Hw2].
    apply words_freed; [done|done|by rewrite Ez].
  - apply room_freed; try done; [destruct Hok; lia|]. destruct B4 as (h0 & Hin & Hf0 & Hz0).
    rewrite Ebs, elem_of_app, elem_of_cons in Hin. exists h0. split_and!; [|done|lia]. rewrite elem_of_app.
    destruct Hin as [?|[->|?]]; [by left|congruence|by right].
  - intros q l0. destruct (decide (q = p)) as [->|Hne]; [by rewrite lookup_delete_eq|].
    rewrite lookup_delete_ne by done. intros (k & Hin & Hl & Hb0)%B6. exists k. fold a. fold a in Hin.
    pose proof (Hkeep q k Hin Hne) as Hin2. split_and!; [done|done|]. eapply bytes_at_ext; [exact Hb0|].
    intros x Hx. apply Hu. rewrite Enew, elem_of_app in Hin2.
    destruct Hin2 as [?|?]; [left|right]; (eapply used_ptrs_user; [eassumption|lia]).
  - intros q k Hin. fold a in Hin. rewrite Enew, elem_of_app in Hin.
    assert (q ≠ p) as Hne.
    { intros ->. unfold HEADER_SIZE in Hp.
      destruct Hin as [Hin|Hin]; apply used_ptrs_bounds in Hin; try done; unfold HEADER_SIZE in *; lia. }
    rewrite lookup_delete_ne by done. apply (B7 q k). fold a. rewrite Eold, elem_of_app, elem_of_cons. tauto.
Qed.

Lemma dealloc_byte_heap K m g p l :
  byte_heap K m g → is_Some (m !! p) → 8 ≤ K →
  ∃ g', Global_dealloc p l g = Ret (tt, g') ∧ byte_heap (K - 8) (delete p m) g'.
Proof.
  intros Hg Hp HK. destruct (TS_dealloc_byte_heap K m g p Hg Hp HK) as (g' & H0 & E & Hg'). exists g'.
  split; [|done]. unfold Global_dealloc, NonNull_new. rewrite (proj2 (Z.eqb_neq p 0)) by done.
  by mstep_with ltac:(exact E).
Qed.

(** [data] written over [l] from index [off] on. *)
Definition overwrite (l : list Z) (off : nat) (data : list Z) : list Z :=
  take off l ++ data ++ drop (off + length data) l.

Lemma overwrite_length l off data :
  (off + length data ≤ length l)%nat → length (overwrite l off data) = length l.
Proof. intros H. unfold overwrite. rewrite !length_app, length_take, length_drop. lia. Qed.

Lemma overwrite_bytes mm mm' p l off data :
  (off + length data ≤ length l)%nat → bytes_at mm p l → bytes_at mm' (p + Z.of_nat off) data →
  (∀ x, ¬ (p + Z.of_nat off ≤ x < p + Z.of_nat off + Z.of_nat (length data)) → mm' !! x = mm !! x) →
  bytes_at mm' p (overwrite l off data).
Proof.
  intros Hl Hb Hd Hm k b Hk. unfold overwrite in Hk.
  destruct (decide (k < off)%nat) as [H1|H1].
  { rewrite lookup_app_l in Hk by (rewrite length_take; lia). rewrite lookup_take_lt in Hk by done.
    rewrite <-(Hb k b Hk). apply byte_at_eq, Hm. lia. }
  rewrite lookup_app_r in Hk by (rewrite length_take; lia). rewrite length_take, Nat.min_l in Hk by lia.
  destruct (decide (k - off < length data)%nat) as [H2|H2].
  - rewrite lookup_app_l in Hk by done. rewrite <-(Hd _ b Hk). f_equal. lia.
  - rewrite lookup_app_r, lookup_drop in Hk by lia.
    replace (off + length data + (k - off - length data))%nat with k in Hk by lia.
    rewrite <-(Hb k b Hk). apply byte_at_eq, Hm. lia.
Qed.

(** A client changes bytes of a block it owns. *)
Lemma update_byte_heap K m g p l off data (f : memory → memory) :
  byte_heap K m g → m !! p = Some l → (off + length data ≤ length l)%nat →
  (∀ mm, (∀ q v, m !! q = Some v → bytes_at mm q v) →
     bytes_at (f mm) (p + Z.of_nat off) data
     ∧ ∀ x, ¬ (p + Z.of_nat off ≤ x < p + Z.of_nat off + Z.of_nat (length data)) → f mm !! x = mm !! x) →
  ∃ g', on_machine (modify (with_mem f)) g = Ret (tt, g') ∧ byte_heap K (<[p := overwrite l off data]> m) g'.
Proof.
  intros (N & s & bs & (Hh & I & Hc) & HK & HN & Hi & He & [B1 B2 B3 B4 B5 B6 B7]) Hp Hl Hf.
  destruct (Hf (mem (mach s))) as [Hd Hm]; [by intros q v (n & _ & _ & ?)%B6|].
  destruct (B6 p l Hp) as (n & Hin & Hn & Hb).
  destruct (write_owned g s bs f Hh I) as [E I'].
  { intros x Hx. apply Hm. intros Hx'. apply Hx. eapply used_ptrs_user; [exact Hin|lia]. }
  eexists. split; [exact E|]. exists N. eexists _, bs.
  split_and!; [split_and!; [by eapply put_holds|exact I'|exact Hc]|done..|].
  split; cbn [self mach mem]; try done.
  - intros q v. destruct (decide (q = p)) as [->|Hne].
    + rewrite lookup_insert_eq. intros [= <-]. exists n. split_and!; [done|by rewrite overwrite_length|].
      by eapply overwrite_bytes.
    + rewrite lookup_insert_ne by done. intros (k & Hin' & Hk & Hb')%B6. exists k. split_and!; [done|done|].
      eapply bytes_at_ext; [exact Hb'|]. intros x Hx. apply Hm. intros Hx'.
      pose proof (wf_ok _ _ (proj1 I)) as Hok.
      destruct (used_ptrs_apart _ _ _ _ _ _ Hok Hin Hin') as [[? _]|?]; [done|lia].
  - intros q k Hin'. destruct (decide (q = p)) as [->|Hne]; [by rewrite lookup_insert_eq|].
    rewrite lookup_insert_ne by done. by eapply B7.
Qed.

Lemma put_bytes_out data mm p x :
  ¬ (p ≤ x < p + Z.of_nat (length data)) → put_bytes data mm p !! x = mm !! x.
Proof.
  revert mm p. induction data as [|b data IH]; intros mm p Hx; [done|]. cbn [put_bytes length] in *.
  rewrite IH by lia. apply lookup_insert_ne. lia.
Qed.

Lemma put_bytes_in data mm p : Forall in_u8 data → bytes_at (put_bytes data mm p) p data.
Proof.
  intros H. revert mm p. induction H as [|b data Hb H IH]; intros mm p k c Hk; [done|]. cbn [put_bytes].
  destruct k as [|k]; cbn in Hk.
  - injection Hk as <-. unfold byte_at. rewrite Z.add_0_r, put_bytes_out by lia.
    rewrite lookup_insert_eq. cbn. rewrite Z.mod_mod by done. by apply Z.mod_small.
  - rewrite <-(IH (<[p:=b mod 256]> mm) (p + 1) k c Hk). f_equal. lia.
Qed.

Lemma write_byte_heap K m g p l off data :
  byte_heap K m g → m !! p = Some l → (off + length data ≤ length l)%nat → Forall in_u8 data →
  ∃ g', on_machine (modify (with_mem (λ mm, put_bytes data mm (p + Z.of_nat off)))) g = Ret (tt, g')
    ∧ byte_heap K (<[p := overwrite l off data]> m) g'.
Proof.
  intros Hg Hp Hl Hd. apply (update_byte_heap K m g p l off data); [done..|].
  intros mm _. split; [by apply put_bytes_in|]. intros x Hx. by apply put_bytes_out.
Qed.

(** [ptr::write_bytes] over a whole array. *)
Lemma fill_byte_heap K m g p v n c :
  byte_heap K m g → m !! p = Some v → length v = n → in_u8 c →
  ∃ g', on_machine (modify (with_mem (λ mm, write_bytes n mm p c))) g = Ret (tt, g')
    ∧ byte_heap K (<[p := replicate n c]> m) g'.
Proof.
  intros Hg Hp Hn Hc. unfold in_u8 in Hc.
  assert (overwrite v 0 (replicate n c) = replicate n c) as <-.
  { unfold overwrite. rewrite drop_ge by (rewrite length_replicate; lia). by rewrite app_nil_r. }
  apply update_byte_heap; [done|done|rewrite length_replicate; lia|].
  intros mm _. rewrite length_replicate, Z.add_0_r. split.
  - intros k b [-> Hk]%lookup_replicate. unfold byte_at. rewrite write_bytes_in by lia. cbn.
    by rewrite Z.mod_mod, Z.mod_small by lia.
  - intros x Hx. apply write_bytes_out. lia.
Qed.

Lemma alloc_zeroed_byte_heap K m g l :
  byte_heap K m g → word_layout l → lsize l + 144 ≤ K →
  ∃ p g', Global_alloc_zeroed l g = Ret (p, g') ∧ p ≠ 0 ∧ m !! p = None
    ∧ byte_heap (K - lsize l - 144) (<[p := replicate (Z.to_nat (lsize l)) 0]> m) g'.
Proof.
  intros Hg Hl HK. destruct (alloc_byte_heap K m g l Hg Hl HK) as (p & v & g1 & E1 & Hp & Hfr & Hv & Hg1).
  destruct (fill_byte_heap _ _ g1 p v (Z.to_nat (lsize l)) 0 Hg1) as (g2 & E2 & Hg2); [apply lookup_insert_eq|lia|done|].
  rewrite insert_insert_eq in Hg2. exists p, g2. split_and!; [|done|done|exact Hg2].
  unfold Global_alloc_zeroed. mstep_with ltac:(exact E1). rewrite (proj2 (Z.eqb_neq p 0)) by done. cbn [negb].
  mstep_with ltac:(exact E2). reflexivity.
Qed.

Lemma realloc_byte_heap K m g p v l n :
  byte_heap K m g → m !! p = Some v → Z.of_nat (length v) = lsize l →
  word_layout (mkLayout n (lalign l)) → n < 2 ^ 62 → n + 152 ≤ K →
  ∃ q w g', Global_realloc p l n g = Ret (q, g') ∧ q ≠ 0 ∧ m !! q = None ∧ Z.of_nat (length w) = n
    ∧ (∀ k, (k < length v)%nat → (k < length w)%nat → w !! k = v !! k)
    ∧ byte_heap (K - n - 152) (<[q := w]> (delete p m)) g'.
Proof.
  intros Hg Hp Hv Hw Hn HK. pose proof Hg as (N & s & bs & (Hh & I & _) & _ & _ & _ & _ & B).
  assert (p ≠ 0) as Hp0.
  { destruct (bh_owned _ _ _ _ B p v Hp) as (k & Hin & _). apply used_ptrs_bounds in Hin; [|apply I].
    pose proof (wf_start _ _ (proj1 I)). unfold HEADER_SIZE in *. lia. }
  destruct (alloc_byte_heap K m g (mkLayout n (lalign l)) Hg Hw ltac:(cbn; lia))
    as (q & w0 & g1 & E1 & Hq0 & Hfresh & Hw0 & Hg1). cbn [lsize] in *.
  destruct Hw as (Hn0 & _ & Hal). cbn [lsize lalign] in *.
  set (c := Z.to_nat (Z.min (lsize l) n)). assert (p ≠ q) as Hpq by congruence.
  destruct (update_byte_heap _ _ g1 q w0 0 (take c v) (λ mm, copy_bytes c mm p q) Hg1) as (g2 & E2 & Hg2).
  { by rewrite lookup_insert_eq. }
  { rewrite length_take. unfold c. lia. }
  { assert (p + Z.of_nat c ≤ q ∨ q + Z.of_nat c ≤ p) as Hapart.
    { destruct Hg1 as (N1 & s1 & bs1 & (_ & I1 & _) & _ & _ & _ & _ & B1).
      destruct (bh_owned _ _ _ _ B1 p v) as (k1 & Hin1 & Hk1 & _); [by rewrite lookup_insert_ne|].
      destruct (bh_owned _ _ _ _ B1 q w0) as (k2 & Hin2 & Hk2 & _); [by rewrite lookup_insert_eq|].
      destruct (used_ptrs_apart _ _ _ _ _ _ (wf_ok _ _ (proj1 I1)) Hin1 Hin2) as [[? _]|?]; [done|unfold c; lia]. }
    intros mm Hmm. assert (length (take c v) = c) as Hlen by (rewrite length_take; unfold c; lia).
    rewrite Hlen, Z.add_0_r. split; [|intros x Hx; apply copy_bytes_out; lia].
    intros k b Hk. pose proof (lookup_lt_Some _ _ _ Hk) as Hlt. rewrite Hlen in Hlt.
    rewrite copy_bytes_in by lia. rewrite lookup_take_lt in Hk by done.
    apply (Hmm p v); [by rewrite lookup_insert_ne|done]. }
  assert (is_Some ((<[q:=overwrite w0 0 (take c v)]> (<[q:=w0]> m)) !! p)) as Hsp.
  { rewrite !lookup_insert_ne by done. by rewrite Hp. }
  destruct (dealloc_byte_heap _ _ g2 p l Hg2 Hsp ltac:(lia)) as (g3 & E3 & Hg3).
  exists q, (overwrite w0 0 (take c v)), g3. split_and!.
  - rewrite (realloc_step g g1 p l n q Hp0); [|lia|by destruct Hal as [E|[E|[E|E]]]; rewrite E| |exact E1].
    + rewrite (proj2 (Z.eqb_neq q 0)) by done. mstep_with ltac:(exact E2). mstep_with ltac:(exact E3). reflexivity.
    + unfold isize_MAX. lia.
  - done.
  - done.
  - rewrite overwrite_length; [done|]. rewrite length_take. unfold c. lia.
  - intros k Hk Hk'. rewrite overwrite_length in Hk' by (rewrite length_take; unfold c; lia). unfold overwrite.
    rewrite take_0, app_nil_l. rewrite lookup_app_l by (rewrite length_take; unfold c; lia). apply lookup_take_lt. unfold c; lia.
  - rewrite insert_insert_eq in Hg3. rewrite delete_insert_ne in Hg3 by done.
    by replace (K - n - 152) with (K - n - 144 - 8) by lia.
Qed.

(** Reading an owned value: little endian. *)
Fixpoint le_value (l : list Z) : Z := match l with [] => 0 | b :: l => b + 256 * le_value l end.

Lemma load_bytes mm p l : bytes_at mm p l → load (length l) mm p = le_value l.
Proof.
  revert p. induction l as [|b l IH]; intros p H; [done|]. cbn [length le_value]. unfold load; fold load.
  rewrite (IH (p + 1)).
  - rewrite <-(H 0%nat b eq_refl), Z.add_0_r. done.
  - intros k c Hk. rewrite <-(H (S k) c Hk). f_equal. lia.
Qed.

Lemma read_byte_heap K m g p l off n :
  byte_heap K m g → m !! p = Some l → (off + n ≤ length l)%nat →
  load n (mem (machine g)) (p + Z.of_nat off) = le_value (take n (drop off l)).
Proof.
  intros (N & s & bs & (Hh & I & _) & _ & _ & _ & _ & B) Hp Hl.
  destruct (bh_owned _ _ _ _ B p l Hp) as (k & _ & _ & Hb). rewrite (ho_machine _ _ Hh).
  assert (length (take n (drop off l)) = n) as Hlen by (rewrite length_take, length_drop; lia).
  rewrite <-Hlen at 1. apply load_bytes. intros j b Hj. pose proof (lookup_lt_Some _ _ _ Hj).
  rewrite lookup_take_lt, lookup_drop in Hj by lia. rewrite <-(Hb _ b Hj). f_equal. lia.
Qed.

(** When nothing is owned the heap is one free block. *)
Lemma empty_byte_heap K g :
  byte_heap K ∅ g →
  ∃ N s h, heap_ready N g s [h] ∧ is_free h = true ∧ AllocStats.used_size (stats (self s)) = 0.
Proof.
  intros (N & s & bs & R & _ & _ & _ & _ & B). pose proof R as (_ & [W C] & _).
  assert (used_ptrs (heap_start (self s)) bs = []) as Hu.
  { destruct (used_ptrs _ bs) as [|[p n] r] eqn:E; [done|].
    destruct (bh_all _ _ _ _ B p n) as [v Hv]; [rewrite E; elem|]. by rewrite lookup_empty in Hv. }
  assert (Forall (λ h, is_free h = true) bs) as Hf.
  { revert Hu. generalize (heap_start (self s)). clear. induction bs as [|h bs IH]; intros a Hu; [done|].
    cbn [used_ptrs] in Hu. apply app_nil in Hu as [H1 H2]. constructor; [by destruct (is_free h)|by eapply IH]. }
  destruct (bh_room _ _ _ _ B) as (h0 & Hin & _). destruct bs as [|h [|h' bs]].
  - by apply elem_of_nil in Hin.
  - apply Forall_cons in Hf as [Hf _]. exists N, s, h. split_and!; [done|done|].
    rewrite (so_used _ _ (wf_stats _ _ W)). pose proof (sums_cons h []) as (-> & _). by rewrite Hf.
  - apply Forall_cons in Hf as [Hf1 Hf]. apply Forall_cons in Hf as [Hf2 _].
    destruct C as [C _]. by rewrite Hf1, Hf2 in C.
Qed.

End heap.

(** ** The initial heap *)

Lemma init_byte_heap {P : Profile} g start sz :
  locked g = false → instance g = None → initialized g = false → enabled g = true →
  in_u64 (clock (machine g)) → 0 ≤ start → init_accepts start sz → sz mod 8 = 0 → start + sz + 72 ≤ 2 ^ 64 → sz ≤ 2 ^ 56 →
  ∃ g', Api.init start sz g = Ret (Ok tt, g') ∧ byte_heap (sz - HEADER_SIZE) ∅ g'.
Proof.
  intros Hl Hin Hi He Hck H0 Ha Hm Hlim Hbig. pose proof Ha as (_ & Hsz & H16 & _).
  destruct (init_run g start sz Hl Hin Hi Hck H0 Ha)
    as (g' & s & h & E & R & Hf & Hs & Hen & Hfr & Hi' & Hena & _).
  pose proof (wf_end _ _ (proj1 (proj1 (proj2 R)))) as W. rewrite span_cons in W. change (span []) with 0 in W.
  exists g'. split; [exact E|]. exists 1, s, [h]. rewrite Hena. unfold HEADER_SIZE in *.
  assert (BlockHeader.size h = sz - 48) as Hz by (unfold total, HEADER_SIZE in W; lia).
  split_and!; [done|lia|lia|done|done|]. split; try done.
  - rewrite Hs. change 15 with (Z.ones 4) in H16. rewrite Z.land_ones in H16 by lia. change (2 ^ 4) with 16 in H16.
    rewrite (Z.div_mod start 16), H16 by lia. replace (16 * (start / 16) + 0) with (start / 16 * 2 * 8) by lia.
    by apply Z.mod_mul.
  - constructor; [|done]. rewrite Hz, Zminus_mod, Hm. done.
  - exists h. split_and!; [elem|done|lia].
  - split; lia.
  - intros p n. cbn [used_ptrs]. rewrite Hf. by intros ?%elem_of_nil.
Qed.

(** C2: To a client whose requests are for whole words (sizes that are, rounded up
    to the minimum of 16, multiples of eight, alignments up to eight) the global
    allocator is a map from pointers to byte arrays.  On a heap that only such
    clients use, and while enough credits are left, [alloc] adds a fresh non-null pointer that owns
    as many bytes as asked for and leaves every other array alone, [alloc_zeroed]
    one whose bytes are zero, [dealloc]
    removes exactly the array it is given, [realloc] moves an array to a fresh
    pointer with the common prefix of its contents kept, and a write or a read
    through an owned pointer changes or returns the bytes of its own array only. *)
Theorem global_allocator_refines_byte_heap {P : Profile} K m g :
  byte_heap K m g →
  (∀ l, word_layout l → lsize l + 144 ≤ K →
     ∃ p v g', Global_alloc l g = Ret (p, g') ∧ p ≠ 0 ∧ m !! p = None
       ∧ Z.of_nat (length v) = lsize l ∧ byte_heap (K - lsize l - 144) (<[p := v]> m) g')
  ∧ (∀ l, word_layout l → lsize l + 144 ≤ K →
       ∃ p g', Global_alloc_zeroed l g = Ret (p, g') ∧ p ≠ 0 ∧ m !! p = None
         ∧ byte_heap (K - lsize l - 144) (<[p := replicate (Z.to_nat (lsize l)) 0]> m) g')
  ∧ (∀ p l, is_Some (m !! p) → 8 ≤ K →
       ∃ g', Global_dealloc p l g = Ret (tt, g') ∧ byte_heap (K - 8) (delete p m) g')
  ∧ (∀ p v l n, m !! p = Some v → Z.of_nat (length v) = lsize l →
       word_layout (mkLayout n (lalign l)) → n < 2 ^ 62 → n + 152 ≤ K →
       ∃ q w g', Global_realloc p l n g = Ret (q, g') ∧ q ≠ 0 ∧ m !! q = None ∧ Z.of_nat (length w) = n
         ∧ (∀ k, (k < length v)%nat → (k < length w)%nat → w !! k = v !! k)
         ∧ byte_heap (K - n - 152) (<[q := w]> (delete p m)) g')
  ∧ (∀ p v off data, m !! p = Some v → (off + length data ≤ length v)%nat → Forall in_u8 data →
       ∃ g', on_machine (modify (with_mem (λ mm, put_bytes data mm (p + Z.of_nat off)))) g = Ret (tt, g')
         ∧ byte_heap K (<[p := overwrite v off data]> m) g')
  ∧ (∀ p v off n, m !! p = Some v → (off + n ≤ length v)%nat →
       load n (mem (machine g)) (p + Z.of_nat off) = le_value (take n (drop off v))).
Proof.
  intros H. split_and!; intros.
  - by apply alloc_byte_heap.
  - by apply alloc_zeroed_byte_heap.
  - by apply dealloc_byte_heap.
  - by apply realloc_byte_heap.
  - by apply write_byte_heap.
  - by eapply read_byte_heap.
Qed.

(** Right after [init]. *)
Lemma global_allocator_refines_byte_heap_witness :
  ∃ g' p v, byte_heap 65488 ∅ g' ∧ Global_alloc (P := Dev) (mkLayout 16 4) g' = Ret (p, v) ∧ p ≠ 0.
Proof.
  destruct (init_byte_heap (P := Dev) (mkG false None false true (mkMachine ∅ 0) 0 0) 2151677952 65536)
    as (g' & _ & H); [reflexivity..|split; by_eval|by_eval|split_and!; by_eval|by_eval|by_eval|by_eval|].
  destruct (global_allocator_refines_byte_heap (P := Dev) 65488 ∅ g' H) as (Ha & _).
  destruct (Ha (mkLayout 16 4)) as (p & v & g2 & E & Hp & _); [split_and!; [by_eval|by_eval|cbn; lia]|by_eval|].
  exists g', p, g2. split; [exact H|]. split; [exact E|exact Hp].
Defined.
