(* ===== verification/LentBlock.v ===== *)
(** * A block that is taken and given back

    The map of [ByteHeap.v] describes heaps whose blocks are whole words.  A request
    of any other size breaks this only for as long as its block is allocated: after
    [dealloc] the blocks are those of before.  [lent] is the state in between.  It
    also shows what a second [dealloc] of the same pointer finds. *)

From Stdlib Require Import ZArith Lia.
From stdpp Require Import base option numbers gmap list fin_sets fin_map_dom.
From S2P Require Import Prelude Memory Purpose Metadata HeaderSpec Allocator FreeList HeapInv AllocSteps AllocSpec DeallocSpec AllocOps AllocRefine AllocClient AllocThms Arrays Handover GlobalAlloc AllocApi GlobalThms Examples ByteHeap.

(** ** What depends on sizes and flags only *)

Abbreviation shape bs := (abs_block <$> bs).

Lemma abs_block_eq h k : abs_block h = abs_block k → BlockHeader.size h = BlockHeader.size k ∧ is_free h = is_free k.
Proof. unfold abs_block. intros [= H1 H2]. split; [done|]. by destruct (is_free h), (is_free k). Qed.

Lemma shape_cons h bs k bs' :
  shape (h :: bs) = shape (k :: bs') → BlockHeader.size h = BlockHeader.size k ∧ is_free h = is_free k ∧ shape bs = shape bs'.
Proof.
  rewrite !fmap_cons. intros E.
  assert (abs_block h = abs_block k ∧ shape bs = shape bs') as [[H1 H2]%abs_block_eq H3] by (split; congruence). done.
Qed.

Lemma span_shape bs bs' : shape bs = shape bs' → span bs = span bs'.
Proof.
  revert bs'. induction bs as [|h bs IH]; intros [|k bs']; try done. intros (Hz & _ & E)%shape_cons.
  rewrite !span_cons. unfold total. by rewrite (IH bs' E), Hz.
Qed.

Lemma used_ptrs_shape a bs bs' : shape bs = shape bs' → used_ptrs a bs = used_ptrs a bs'.
Proof.
  revert a bs'. induction bs as [|h bs IH]; intros a [|k bs']; try done. intros (Hz & Hf & E)%shape_cons.
  cbn [used_ptrs]. unfold total. rewrite Hz, Hf. by rewrite (IH _ bs').
Qed.

Lemma words_shape bs bs' : shape bs = shape bs' → words bs' → words bs.
Proof.
  unfold words. intros E H. apply Forall_lookup. intros i h Hi.
  assert (shape bs' !! i = Some (abs_block h)) as Hk by (rewrite <-E, list_lookup_fmap, Hi; done).
  rewrite list_lookup_fmap in Hk. destruct (bs' !! i) as [k|] eqn:Ek; [|done].
  assert (abs_block k = abs_block h) as [H1 _]%abs_block_eq by (cbn in Hk; congruence). rewrite <-H1. by apply (Forall_lookup_1 _ _ _ _ H Ek).
Qed.

Lemma room_shape K bs bs' : shape bs = shape bs' → room K bs' → room K bs.
Proof.
  intros E (k & Hin & Hf & Hz). apply list_elem_of_lookup_1 in Hin as [i Hi].
  assert (shape bs !! i = Some (abs_block k)) as Hk by (rewrite E, list_lookup_fmap, Hi; done).
  rewrite list_lookup_fmap in Hk. destruct (bs !! i) as [h|] eqn:Eh; [|done].
  assert (abs_block h = abs_block k) as [Hz' Hf']%abs_block_eq by (cbn in Hk; congruence).
  exists h. split_and!; [by eapply list_elem_of_lookup_2|congruence|lia].
Qed.

Lemma byte_heap_of_shape K K' m s s' bs bs' :
  byte_heap_of K m s bs → shape bs' = shape bs → K' ≤ K →
  heap_start (self s') = heap_start (self s) → heap_end (self s') = heap_end (self s) → frozen (self s') = frozen (self s) →
  (∀ q n x, (q, n) ∈ used_ptrs (heap_start (self s)) bs → q ≤ x < q + n → mem (mach s') !! x = mem (mach s) !! x) →
  byte_heap_of K' m s' bs'.
Proof.
  intros [B1 B2 B3 B4 B5 B6 B7] E HK Es Ee Ef Hm. split; rewrite ?Es, ?Ee, ?Ef, ?(used_ptrs_shape (heap_start (self s)) _ _ E); try done.
  - by eapply words_shape.
  - eapply room_mono; [by eapply room_shape|done].
  - intros p l Hp. destruct (B6 p l Hp) as (n & Hin & Hn & Hb). exists n.
    split_and!; [done|done|].
    eapply bytes_at_ext; [exact Hb|]. intros x Hx. apply (Hm p n); [done|lia].
Qed.

(** ** Taking and giving back *)

Section lent.
Context {P : Profile}.

(** The block at [p] comes out of the free block [h] of a heap of words. *)
Definition lent (K : Z) (m : gmap Z (list Z)) (p sz : Z) (g : GState) : Prop :=
  ∃ N s bs1 h h1 rest bs2 n,
    heap_ready N g s (bs1 ++ (h1 :: rest) ++ bs2) ∧ 0 ≤ K ∧ 2 * (N + K) < 2 ^ 64
    ∧ initialized g = true ∧ enabled g = true ∧ byte_heap_of K m s (bs1 ++ h :: bs2)
    ∧ coalesced (bs1 ++ h :: bs2) ∧ is_free h = true ∧ is_free h1 = false
    ∧ carve n 8 (heap_start (self s) + span bs1) h h1 rest ∧ span (h1 :: rest) = total h
    ∧ p = heap_start (self s) + span bs1 + HEADER_SIZE ∧ 0 < sz ≤ BlockHeader.size h1.

Lemma lend K m g sz :
  byte_heap K m g → 0 < sz → sz + 144 ≤ K →
  ∃ p g', TS_alloc_aligned sz 8 g = Ret (Some p, g') ∧ lent (K - 8) m p sz g'.
Proof.
  intros (N & s & bs & (Hh & I & Hc) & HK & HN & Hi & He & B) Hsz Hroom. pose proof B as [B1 B2 B3 B4 B5 B6 B7].
  set (a := heap_start (self s)) in *. pose proof (cb_allocs _ _ Hc) as Hc0.
  destruct (room_first_fit K a bs (Z.max sz 16) 8) as [[[bs1 h] bs2] F]; [done|lia|unfold HEADER_SIZE; lia|].
  edestruct alloc_some as (s' & h1 & rest & E & C & _ & Esp & I' & Hu & (Es & Ee & Ef & Hc') & _);
    [exact I|exact Hc|..|exact F|]; try done; try lia. fold a in E, C, Hu.
  destruct (first_fit_Some _ _ _ _ _ _ _ F) as [Ebs Hfit].
  assert (is_free h = true) as Hf by (unfold block_fits in Hfit; b2p; done).
  rewrite Ebs in B3. pose proof (words_before _ _ _ B2 B3) as Hmod.
  rewrite user_addr_of_aligned in E by (unfold HEADER_SIZE; done || lia).
  assert (is_free h1 = false) as Hf1 by (unfold is_free; by rewrite (proj1 C)).
  pose proof (carve_room _ 8 _ _ _ _ ltac:(lia) Hfit C) as Hsize.
  rewrite user_addr_of_aligned in Hsize by (unfold HEADER_SIZE; done || lia).
  exists (a + span bs1 + HEADER_SIZE), (put s' g). split; [by eapply call_run|].
  exists (N + 4), s', bs1, h, h1, rest, bs2, (Z.max sz 16). rewrite Es. fold a.
  split_and!; try done; try lia.
  - split; [by eapply put_holds|done].
  - rewrite <-Ebs. eapply byte_heap_of_shape; [exact B|done|lia|done..|]. fold a. intros q n x Hin Hx. apply Hu.
    rewrite Ebs, used_ptrs_free, elem_of_app in Hin by done.
    destruct Hin as [Hin|Hin]; [left|right]; by eapply used_ptrs_user.
  - rewrite <-Ebs. apply I.
  - unfold total in Hsize. lia.
Qed.

(** A write into the block leaves everything else alone. *)
Lemma lent_write K m p sz g f :
  lent K m p sz g → (∀ mm x, ¬ (p ≤ x < p + sz) → f mm !! x = mm !! x) →
  ∃ g', on_machine (modify (with_mem f)) g = Ret (tt, g') ∧ lent K m p sz g'
    ∧ mem (machine g') = f (mem (machine g)).
Proof.
  intros (N & s & bs1 & h & h1 & rest & bs2 & n & (Hh & I & Hc) & HK & HN & Hi & He & B & Co & Hf & Hf1 & C & Esp & Hp & Hsz) Hm.
  set (a := heap_start (self s)) in *.
  pose proof (heap_wf_split _ _ _ _ (proj1 I)) as (_ & Hok & Ok1 & Ok2 & Hb & _).
  destruct (write_owned g s _ f Hh I) as [E I'].
  { intros x Hx. apply Hm. intros Hx'. apply Hx. fold a.
    eapply (used_ptrs_user a _ p (BlockHeader.size h1)); [|lia].
    rewrite used_ptrs_app, elem_of_app. right. cbn [app used_ptrs]. rewrite Hf1. rewrite Hp. elem. }
  eexists. split; [exact E|]. split; [|cbn; by rewrite (ho_machine _ _ Hh)].
  set (s' := mkAState (self s) _) in *. exists N, s', bs1, h, h1, rest, bs2, n.
  split_and!; try done; try lia; [split; [by eapply put_holds|done]|].
  eapply byte_heap_of_shape; [exact B|done|lia|done..|]. intros q k x Hin Hx. apply Hm. intros Hx'. fold a in Hin.
  rewrite used_ptrs_free, elem_of_app in Hin by done. rewrite span_cons in Esp.
  apply Forall_app in Ok2 as [Okr Ok2]. pose proof (span_nonneg _ Okr). unfold total, HEADER_SIZE in *.
  destruct Hin as [Hin|Hin]; apply used_ptrs_bounds in Hin; try done; unfold HEADER_SIZE in *; lia.
Qed.

(** [dealloc] of the block gives the heap back as it was; a second one is refused. *)
Lemma give_back K m p sz g :
  lent K m p sz g → 16 ≤ K →
  ∃ g', p ≠ 0 ∧ TS_dealloc p g = Ret (Ok tt, g') ∧ byte_heap (K - 8) m g'
    ∧ ∃ g2, TS_dealloc p g' = Ret (Err DoubleFree, g2) ∧ byte_heap (K - 16) m g2.
Proof.
  intros (N & s & bs1 & h & h1 & rest & bs2 & n & (Hh & I & Hc) & HK & HN & Hi & He & B & Co & Hf & Hf1 & C & Esp & Hp & Hsz) HK16.
  pose proof B as [B1 B2 B3 B4 B5 B6 B7]. set (a := heap_start (self s)) in *. pose proof (cb_allocs _ _ Hc) as Hc0.
  cbn [app] in I. destruct (dealloc_ok N s bs1 h1 (rest ++ bs2) I Hc ltac:(lia) B1 Hf1)
    as (s' & h1' & E & Hf' & Ez & I' & Hu & (Es & Ee & Ef & Hc')). fold a in E, Hu. rewrite <-Hp in E.
  pose proof (carve_freed bs1 h bs2 n 8 _ h1 rest h1' Co Hf C Ez Hf') as Esh.
  pose proof (heap_wf_split _ _ _ _ (proj1 I)) as (_ & _ & _ & _ & Hb & _). fold a in Hb.
  assert (byte_heap_of K m s' (freed bs1 h1' (rest ++ bs2))) as B'.
  { eapply byte_heap_of_shape; [exact B|done|lia|done..|]. fold a. intros q k x Hin Hx. apply Hu.
    rewrite used_ptrs_free, elem_of_app in Hin by done. destruct Hin as [Hin|Hin]; [left; by eapply used_ptrs_user|].
    right. apply (used_ptrs_user _ _ q k); [|done]. rewrite <-Esp, span_cons in Hin.
    rewrite used_ptrs_app, elem_of_app. right. by rewrite <-Z.add_assoc. }
  exists (put s' g). split; [rewrite Hp; unfold HEADER_SIZE; lia|]. split; [by eapply call_run|]. split.
  { exists (N + 4), s', (freed bs1 h1' (rest ++ bs2)).
    split_and!; [split; [by eapply put_holds|done]|lia|lia|done|done|]. eapply byte_heap_of_shape; [exact B'|done|lia|done..]. }
  rewrite fmap_app, fmap_cons in Esh. apply fmap_app_inv in Esh as (cs1 & cs2 & E1 & E2 & Efr).
  symmetry in E2. apply fmap_cons_inv in E2 as (k & cs2' & [_ Hk]%abs_block_eq & _ & ->). rewrite Efr in *.
  destruct (dealloc_double (N + 4) s' cs1 k cs2' (proj1 I') Hc' ltac:(lia)) as (s2 & E3 & W2 & Em & _ & (Es2 & Ee2 & Ef2 & Hc2));
    [congruence|congruence|]. rewrite Es, <-(span_shape bs1 cs1 E1) in E3. fold a in E3. rewrite <-Hp in E3.
  exists (put s2 (put s' g)). split; [eapply call_run; [by eapply put_holds|exact E3]|].
  exists (N + 4 + 4), s2, (cs1 ++ k :: cs2'). split_and!; [split_and!|lia|lia|done|done|].
  - by eapply put_holds, put_holds.
  - split; [done|apply I'].
  - done.
  - eapply byte_heap_of_shape; [exact B'|done|lia|done..|]. intros. by rewrite Em.
Qed.

End lent.
