(* ===== verification/Collections.v ===== *)
(** * Growing collections over the global allocator

    The kernel's [Vec]s and [String]s are those of the [alloc] crate and reach
    the heap through [core::alloc::GlobalAlloc], which [EarlyGlobalAllocator] of
    [src/init/alloc/global.rs] implements.  The class [GlobalAlloc] is that trait,
    with the reads and writes a collection makes through its pointer;
    [GlobalAllocLaws] is what the collections rely on, stated over a map from
    pointers to byte arrays; the kernel's allocator satisfies it
    ([ByteHeap.v]).  The growth policy is that of [RawVec]: twice the capacity,
    at least what is needed, at least eight bytes or four elements. *)

From Stdlib Require Import ZArith Lia String.
From stdpp Require Import base option numbers sorting strings gmap list.
From S2P Require Import Prelude Memory Metadata Allocator Arrays Handover GlobalAlloc AllocApi ByteHeap.

(** The [n] low bytes of a number, lowest first. *)
Fixpoint le_bytes (n : nat) (z : Z) : list Z :=
  match n with O => [] | S n' => z mod 256 :: le_bytes n' (z / 256) end.

Lemma le_bytes_length n z : length (le_bytes n z) = n.
Proof. revert z. induction n as [|n IH]; intros z; [done|]. cbn. by rewrite IH. Qed.

Lemma le_bytes_ok n z : Forall in_u8 (le_bytes n z).
Proof. revert z. induction n as [|n IH]; intros z; [constructor|]. constructor; [by apply Z.mod_pos_bound|apply IH]. Qed.

Lemma le_bytes_value x : Forall in_u8 x → le_bytes (length x) (le_value x) = x.
Proof.
  unfold in_u8. induction 1 as [|b x Hb H IH]; [done|]. cbn [length le_bytes le_value].
  rewrite (Z.mul_comm 256), Z.mod_add, Z.div_add, (Z.mod_small b), (Z.div_small b) by lia.
  by rewrite Z.add_0_l, IH.
Qed.

Lemma le_value_bytes n z : 0 ≤ z < 256 ^ Z.of_nat n → le_value (le_bytes n z) = z.
Proof.
  revert z. induction n as [|n IH]; intros z Hz; [cbn in *; lia|]. cbn [le_bytes le_value].
  rewrite Nat2Z.inj_succ, Z.pow_succ_r in Hz by lia. rewrite IH.
  - pose proof (Z.div_mod z 256 ltac:(done)). lia.
  - split; [apply Z.div_pos; lia|apply Z.div_lt_upper_bound; lia].
Qed.

(** ** The trait *)

Class GlobalAlloc (S : Type) : Type := {
  ga_alloc : Layout → M S Z;
  ga_alloc_zeroed : Layout → M S Z;
  ga_dealloc : Z → Layout → M S unit;
  ga_realloc : Z → Layout → Z → M S Z;
  ga_write : Z → list Z → M S unit;     (* [ptr::write] of a value with these bytes *)
  ga_read : Z → nat → M S Z;            (* [ptr::read] of an integer of this many bytes *)
  ga_error : Layout → M S unit;         (* [handle_alloc_error] *)
}.

(** What it promises: while there are credits, requests for whole words are
    served, and the state represents a map from pointers to byte arrays. *)
Class GlobalAllocLaws (S : Type) `{!GlobalAlloc S} : Type := {
  owns : Z → gmap Z (list Z) → S → Prop;
  owns_mono K K' m s : owns K m s → 0 ≤ K' ≤ K → owns K' m s;
  ga_alloc_law K m s l : owns K m s → word_layout l → lsize l + 144 ≤ K →
    ∃ p v s', ga_alloc l s = Ret (p, s') ∧ p ≠ 0 ∧ m !! p = None
      ∧ Z.of_nat (length v) = lsize l ∧ owns (K - lsize l - 144) (<[p := v]> m) s';
  ga_alloc_zeroed_law K m s l : owns K m s → word_layout l → lsize l + 144 ≤ K →
    ∃ p s', ga_alloc_zeroed l s = Ret (p, s') ∧ p ≠ 0 ∧ m !! p = None
      ∧ owns (K - lsize l - 144) (<[p := replicate (Z.to_nat (lsize l)) 0]> m) s';
  ga_dealloc_law K m s p l : owns K m s → is_Some (m !! p) → 8 ≤ K →
    ∃ s', ga_dealloc p l s = Ret (tt, s') ∧ owns (K - 8) (delete p m) s';
  ga_realloc_law K m s p v l n : owns K m s → m !! p = Some v → Z.of_nat (length v) = lsize l →
    word_layout (mkLayout n (lalign l)) → n < 2 ^ 62 → n + 152 ≤ K →
    ∃ q w s', ga_realloc p l n s = Ret (q, s') ∧ q ≠ 0 ∧ (m !! q = None) ∧ Z.of_nat (length w) = n
      ∧ (∀ k, (k < length v)%nat → (k < length w)%nat → w !! k = v !! k)
      ∧ owns (K - n - 152) (<[q := w]> (delete p m)) s';
  ga_write_law K m s p v off data : owns K m s → m !! p = Some v →
    (off + length data ≤ length v)%nat → Forall in_u8 data →
    ∃ s', ga_write (p + Z.of_nat off) data s = Ret (tt, s') ∧ owns K (<[p := overwrite v off data]> m) s';
  ga_read_law K m s p v off n : owns K m s → m !! p = Some v → (off + n ≤ length v)%nat →
    ga_read (p + Z.of_nat off) n s = Ret (le_value (take n (drop off v)), s);
}.

(** ** [RawVec] and [Vec] *)

Module Vec.

(** Elements of [es] bytes with alignment [ea]. *)
Record t : Type := mk { ptr : Z; cap : Z; len : Z }.

Section ops.
Context {S : Type} `{!GlobalAlloc S} (es ea : Z).

Definition layout (cap : Z) : Layout := mkLayout (cap * es) ea.

(** [Vec::new]: a dangling pointer, no allocation. *)
Definition new : t := mk ea 0 0.

(** [RawVec::MIN_NON_ZERO_CAP] *)
Definition MIN_NON_ZERO_CAP : Z := if es =? 1 then 8 else if es <=? 1024 then 4 else 1.

(** [RawVec::grow_amortized] with [finish_grow]; both overflow checks panic
    with "capacity overflow". *)
Definition grow_amortized (v : t) (additional : Z) : M S t :=
  let required_cap := len v + additional in
  if 2 ^ 64 <=? required_cap then panic
  else
    let cap' := Z.max MIN_NON_ZERO_CAP (Z.max (cap v * 2) required_cap) in
    if isize_MAX + 1 - ea <? cap' * es then panic
    else
      p ← (if cap v =? 0 then ga_alloc (layout cap')
           else ga_realloc (ptr v) (layout (cap v)) (cap' * es));
      if p =? 0 then ga_error (layout cap');; panic
      else mret (mk p cap' (len v)).

(** [Vec::push] of an element given by its bytes. *)
Definition push (v : t) (x : list Z) : M S t :=
  v ← (if len v =? cap v then grow_amortized v 1 else mret v);
  ga_write (ptr v + len v * es) x;;
  mret (mk (ptr v) (cap v) (len v + 1)).

(** [v[i]]: panics out of bounds. *)
Definition index (v : t) (i : Z) : M S Z :=
  if (0 <=? i) && (i <? len v) then ga_read (ptr v + i * es) (Z.to_nat es) else panic.

(** [Vec::with_capacity] and [Vec::extend_from_slice], for bytes. *)
Definition with_capacity (n : Z) : M S t :=
  if n =? 0 then mret new
  else
    p ← ga_alloc (layout n);
    if p =? 0 then ga_error (layout n);; panic else mret (mk p n 0).

Definition extend_from_slice (v : t) (n : Z) (x : list Z) : M S t :=
  v ← (if cap v - len v <? n then grow_amortized v n else mret v);
  ga_write (ptr v + len v * es) x;;
  mret (mk (ptr v) (cap v) (len v + n)).

Definition drop (v : t) : M S unit :=
  if cap v =? 0 then mret tt else ga_dealloc (ptr v) (layout (cap v)).

(** [Vec::pop]: the value of the last element. *)
Definition pop (v : t) : M S (option Z * t) :=
  if len v =? 0 then mret (None, v)
  else
    x ← ga_read (ptr v + (len v - 1) * es) (Z.to_nat es);
    mret (Some x, mk (ptr v) (cap v) (len v - 1)).

(** [ptr::copy] of [n] elements from [src] to a lower address: from the lowest one
    on. *)
Fixpoint copy_down (n : nat) (src dst : Z) : M S unit :=
  match n with
  | O => mret tt
  | Datatypes.S n' =>
      x ← ga_read src (Z.to_nat es);
      ga_write dst (le_bytes (Z.to_nat es) x);;
      copy_down n' (src + es) (dst + es)
  end.

(** [Vec::remove]: panics out of bounds, moves the elements behind the removed one
    down. *)
Definition remove (v : t) (i : Z) : M S (Z * t) :=
  if (0 <=? i) && (i <? len v) then
    x ← ga_read (ptr v + i * es) (Z.to_nat es);
    copy_down (Z.to_nat (len v - i - 1)) (ptr v + (i + 1) * es) (ptr v + i * es);;
    mret (x, mk (ptr v) (cap v) (len v - 1))
  else panic.

(** [for x in xs { v.push(x) }] *)
Fixpoint push_all (v : t) (xs : list (list Z)) : M S t :=
  match xs with
  | [] => mret v
  | x :: xs => v ← push v x; push_all v xs
  end.

End ops.

(** *** What a vector owns *)

(** The vector holds the elements [xs] in the array [f]. *)
Definition holds (es : Z) (v : t) (xs : list (list Z)) (f : gmap Z (list Z)) : Prop :=
  len v = Z.of_nat (length xs) ∧ Forall (λ x, Z.of_nat (length x) = es) xs
  ∧ (cap v = 0 ∧ xs = [] ∧ f = ∅
     ∨ ∃ bytes, f = {[ptr v := bytes]} ∧ Z.of_nat (length bytes) = cap v * es ∧ len v ≤ cap v ∧ 0 < cap v
         ∧ take (length (mjoin xs)) bytes = mjoin xs).

Lemma mjoin_length es (xs : list (list Z)) :
  Forall (λ x, Z.of_nat (length x) = es) xs → Z.of_nat (length (mjoin xs)) = Z.of_nat (length xs) * es.
Proof.
  induction 1 as [|x xs Hx H IH]; [done|]. change (mjoin (x :: xs)) with (x ++ mjoin xs).
  rewrite length_app, Nat2Z.inj_add, IH, Hx. cbn [length]. rewrite Nat2Z.inj_succ, Z.mul_succ_l. lia.
Qed.

Lemma take_same_prefix (w v : list Z) n :
  (n ≤ length v)%nat → (n ≤ length w)%nat →
  (∀ k, (k < length v)%nat → (k < length w)%nat → w !! k = v !! k) → take n w = take n v.
Proof.
  intros Hv Hw H. apply list_eq. intros k. destruct (decide (k < n)%nat) as [Hk|Hk].
  - rewrite !lookup_take_lt by done. apply H; lia.
  - rewrite !lookup_take_ge by lia. done.
Qed.

Section growth.
Context {S : Type} `{!GlobalAlloc S, !GlobalAllocLaws S} (es ea : Z) (Hes : 0 < es).

(** The capacity [grow_amortized] chooses. *)
Definition grown (v : t) (additional : Z) : Z :=
  Z.max (MIN_NON_ZERO_CAP es) (Z.max (cap v * 2) (len v + additional)).

(** Growing moves the elements to an array of the chosen capacity. *)
Lemma grow_law K F f v xs additional s :
  owns K (f ∪ F) s → f ##ₘ F → holds es v xs f → 0 ≤ cap v → 0 ≤ additional → len v + additional < 2 ^ 62 →
  let c := grown v additional in
  0 < c → ea ≤ 8 → word_layout (layout es ea c) → c * es < 2 ^ 62 → c * es + 152 ≤ K →
  ∃ p f' s', grow_amortized es ea v additional s = Ret (mk p c (len v), s')
    ∧ owns (K - c * es - 152) (f' ∪ F) s' ∧ f' ##ₘ F ∧ holds es (mk p c (len v)) xs f'.
Proof.
  intros Ho Hd (Hlen & Hxs & Hcase) Hc0 Hadd Hreq c Hc Hea8 Hw Hces HK.
  assert (len v ≤ c ∧ cap v ≤ c) as [Hlc Hcc] by (unfold c, grown; lia).
  unfold grow_amortized. rewrite (proj2 (Z.leb_gt _ _)) by lia. cbv zeta. fold (grown v additional). fold c.
  rewrite (proj2 (Z.ltb_ge _ _)) by (unfold isize_MAX; lia).
  assert (∀ p v0, Z.of_nat (length v0) = c * es → take (length (mjoin xs)) v0 = mjoin xs →
    holds es (mk p c (len v)) xs {[p := v0]}) as Hnew.
  { intros p v0 Hv0 Ht. split_and!; [done|done|]. right. exists v0. cbn [ptr cap len].
    split_and!; [done|done|lia|lia|done]. }
  destruct (Z.eqb_spec (cap v) 0) as [H0|H0].
  - destruct Hcase as [(_ & -> & ->)|(b & _ & _ & _ & ? & _)]; [|lia]. rewrite map_empty_union in Ho.
    destruct (ga_alloc_law K F s (layout es ea c) Ho Hw) as (p & v0 & s' & E & Hp & Hfr & Hv0 & Ho');
      [cbn [layout lsize]; lia|].
    cbn [layout lsize] in Hv0, Ho'. exists p, {[p := v0]}, s'. split_and!.
    + mstep_with ltac:(exact E). by rewrite (proj2 (Z.eqb_neq p 0)).
    + rewrite <-insert_union_singleton_l. eapply owns_mono; [exact Ho'|lia].
    + by apply map_disjoint_singleton_l_2.
    + by apply Hnew.
  - destruct Hcase as [(? & _)|(b & -> & Hb & Hle & _ & Ht)]; [lia|].
    apply map_disjoint_singleton_l in Hd.
    destruct (ga_realloc_law K ({[ptr v := b]} ∪ F) s (ptr v) b (layout es ea (cap v)) (c * es) Ho)
      as (q & w & s' & E & Hq & Hfr & Hwl & Hpre & Ho'); [|done|done|done|lia|].
    { rewrite lookup_union_l' by (by rewrite lookup_singleton_eq). apply lookup_singleton_eq. }
    pose proof (mjoin_length es xs Hxs) as Hj. apply lookup_union_None in Hfr as [_ Hfr].
    exists q, {[q := w]}, s'. split_and!.
    + mstep_with ltac:(exact E). by rewrite (proj2 (Z.eqb_neq q 0)).
    + rewrite delete_union, delete_singleton_eq, map_empty_union, delete_id, insert_union_singleton_l in Ho'; done.
    + by apply map_disjoint_singleton_l_2.
    + apply Hnew; [done|]. rewrite (take_same_prefix w b); [done|nia|nia|done].
Qed.

(** Writing [n] elements behind the last one, when there is room. *)
Lemma write_law K F f v xs ys s :
  owns K (f ∪ F) s → f ##ₘ F → holds es v xs f → ys ≠ [] → len v + Z.of_nat (length ys) ≤ cap v →
  Forall (λ x, Z.of_nat (length x) = es ∧ Forall in_u8 x) ys →
  ∃ f' s', ga_write (ptr v + len v * es) (mjoin ys) s = Ret (tt, s') ∧ owns K (f' ∪ F) s' ∧ f' ##ₘ F
    ∧ holds es (mk (ptr v) (cap v) (len v + Z.of_nat (length ys))) (xs ++ ys) f'.
Proof.
  intros Ho Hd (Hlen & Hxs & Hcase) Hne Hlt Hys.
  assert (0 < length ys)%nat by (destruct ys; [done|cbn; lia]).
  destruct Hcase as [(? & -> & _)|(b & -> & Hb & Hle & Hc & Ht)]; [cbn in *; lia|].
  assert (Forall (λ x, Z.of_nat (length x) = es) ys) as Hys1 by (eapply Forall_impl; [exact Hys|by intros x [? _]]).
  pose proof (mjoin_length es xs Hxs) as Hj. pose proof (mjoin_length es ys Hys1) as Hjy.
  apply map_disjoint_singleton_l in Hd.
  assert (length (mjoin xs) + length (mjoin ys) ≤ length b)%nat as Hroom by nia.
  destruct (ga_write_law K ({[ptr v := b]} ∪ F) s (ptr v) b (length (mjoin xs)) (mjoin ys) Ho) as (s' & E & Ho').
  { rewrite lookup_union_l' by (by rewrite lookup_singleton_eq). apply lookup_singleton_eq. }
  { done. }
  { clear -Hys. induction Hys as [|y ys [_ Hy] _ IH]; [by constructor|].
    change (mjoin (y :: ys)) with (y ++ mjoin ys). by apply Forall_app. }
  rewrite Hj, <-Hlen in E. exists {[ptr v := overwrite b (length (mjoin xs)) (mjoin ys)]}, s'.
  split_and!; [done| | |].
  - by rewrite insert_union_l, insert_singleton_eq in Ho'.
  - by apply map_disjoint_singleton_l_2.
  - split_and!; cbn [len cap ptr].
    + rewrite length_app. lia.
    + by apply Forall_app.
    + right. eexists. split_and!; [done|by rewrite overwrite_length|lia|lia|].
      rewrite join_app. unfold overwrite. rewrite Ht, app_assoc. by rewrite take_app_length.
Qed.

End growth.

Section laws.
Context {S : Type} `{!GlobalAlloc S, !GlobalAllocLaws S} (es ea : Z).
Context (Hes : 0 < es ≤ 1024) (Hwords : MIN_NON_ZERO_CAP es * es mod 8 = 0).
Context (Hea : ea = 1 ∨ ea = 2 ∨ ea = 4 ∨ ea = 8).

(** The smallest array of a vector that is pushed to. *)
Abbreviation least := (MIN_NON_ZERO_CAP es).
Lemma least_bounds : 4 ≤ least ≤ 8.
Proof using Hes. unfold MIN_NON_ZERO_CAP. destruct (es =? 1); [lia|]. rewrite (proj2 (Z.leb_le es 1024)); lia. Qed.

(** Capacities reached by pushing: multiples of the smallest, so that the arrays
    are whole words. *)
Definition pushed (v : t) : Prop := 0 ≤ cap v ∧ cap v mod least = 0 ∧ 0 ≤ len v ≤ cap v.

Lemma pushed_layout c : 0 < c → c mod least = 0 → word_layout (layout es ea c).
Proof.
  intros Hc Hm. unfold word_layout, layout. cbn [lsize lalign]. pose proof least_bounds.
  pose proof (Z.div_mod c least ltac:(lia)) as E1. pose proof (Z.div_mod (least * es) 8 ltac:(done)) as E2.
  rewrite Hm in E1. rewrite Hwords in E2.
  assert (c * es = c / least * (least * es / 8) * 8) as E by nia.
  split_and!; [nia| |done]. destruct (Z.max_spec (c * es) 16) as [[_ ->]|[_ ->]]; [done|].
  rewrite E. by apply Z.mod_mul.
Qed.

(** A full vector grows to twice its capacity, or to the smallest one. *)
Lemma grow_one v :
  pushed v → len v = cap v → cap v ≤ 2 ^ 48 →
  let c := Z.max least (2 * cap v) in
  grown es v 1 = c ∧ c mod least = 0 ∧ 4 ≤ c ∧ cap v < c ∧ c * es < 2 ^ 62 ∧ word_layout (layout es ea c).
Proof.
  intros (Hc0 & Hc4 & _) Hfull Hbig c. pose proof least_bounds.
  assert (grown es v 1 = c) as Ec by (unfold grown, c; lia).
  assert (c mod least = 0) as Hcm.
  { unfold c. destruct (Z.max_spec least (2 * cap v)) as [[? ->]|[? ->]]; [|apply Z.mod_same; lia].
    rewrite Z.mul_mod, Hc4, Z.mul_0_r by lia. apply Z.mod_0_l. lia. }
  assert (c * es < 2 ^ 62) as Hces by (unfold c; nia).
  split_and!; try done; try (unfold c; lia). apply pushed_layout; [unfold c; lia|done].
Qed.

(** Credits a push takes. *)
Definition push_cost (v : t) : Z := if len v =? cap v then Z.max least (2 * cap v) * es + 152 else 0.

Lemma push_law K F f v xs x s :
  owns K (f ∪ F) s → f ##ₘ F → holds es v xs f → pushed v → cap v ≤ 2 ^ 48 →
  Z.of_nat (length x) = es → Forall in_u8 x → push_cost v ≤ K →
  ∃ v' f' s', push es ea v x s = Ret (v', s') ∧ owns (K - push_cost v) (f' ∪ F) s' ∧ f' ##ₘ F
    ∧ holds es v' (xs ++ [x]) f' ∧ pushed v'
    ∧ cap v' = (if len v =? cap v then Z.max least (2 * cap v) else cap v).
Proof.
  intros Ho Hd Hh Hp Hbig Hx Hin HK. pose proof Hp as (Hp1 & Hp2 & Hp3). unfold push, push_cost in *.
  assert (Forall (λ x, Z.of_nat (length x) = es ∧ Forall in_u8 x) [x]) as Hfx by (by constructor).
  assert (mjoin [x] = x) as Ex by (cbn; apply app_nil_r).
  destruct (Z.eqb_spec (len v) (cap v)) as [Hfull|Hfull].
  - destruct (grow_one v Hp Hfull Hbig) as (Ec & Hcm & Hc & Hcc & Hces & Hw).
    destruct (grow_law es ea ltac:(lia) K F f v xs 1 s Ho Hd Hh) as (p & f1 & s1 & E1 & Ho1 & Hd1 & Hh1);
      rewrite ?Ec; try done; try lia. rewrite Ec in E1, Ho1, Hh1. set (c := Z.max least (2 * cap v)) in *.
    destruct (write_law es ltac:(lia) _ F f1 _ xs [x] s1 Ho1 Hd1 Hh1) as (f2 & s2 & E2 & Ho2 & Hd2 & Hh2);
      [done|cbn; lia|done|]. cbn [ptr cap len] in E2, Hh2. rewrite Ex in E2.
    eexists _, f2, s2. split_and!; [|by replace (K - (c * es + 152)) with (K - c * es - 152) by lia|done|exact Hh2| |done].
    + mstep_with ltac:(exact E1). cbn [ptr cap len]. mstep_with ltac:(exact E2). reflexivity.
    + unfold pushed. cbn. split_and!; lia.
  - destruct (write_law es ltac:(lia) K F f v xs [x] s Ho Hd Hh) as (f2 & s2 & E2 & Ho2 & Hd2 & Hh2);
      [done|cbn; lia|done|]. rewrite Ex in E2.
    eexists _, f2, s2. rewrite Z.sub_0_r. split_and!; [|exact Ho2|done|exact Hh2| |done].
    + mstep. mstep_with ltac:(exact E2). reflexivity.
    + unfold pushed. cbn. split_and!; lia.
Qed.

(** Credits for a vector of [n] elements built by pushing: the capacities double,
    so the arrays add up to less than twice the last one. *)
Definition vec_credits (n : Z) : Z := (2 * n + least) * (2 * es + 38).

Lemma push_all_law n K F f v xs ys s :
  owns (K - cap v * (2 * es + 38)) (f ∪ F) s → f ##ₘ F → holds es v xs f → pushed v → cap v ≤ 2 * n + least →
  Z.of_nat (length xs + length ys) ≤ n → n ≤ 2 ^ 46 → vec_credits n ≤ K →
  Forall (λ x, Z.of_nat (length x) = es ∧ Forall in_u8 x) ys →
  ∃ v' f' s', push_all es ea v ys s = Ret (v', s') ∧ owns (K - vec_credits n) (f' ∪ F) s' ∧ f' ##ₘ F
    ∧ holds es v' (xs ++ ys) f' ∧ pushed v' ∧ cap v' ≤ 2 * n + least.
Proof.
  intros Ho Hd Hh Hp Hcn Hn Hbig HK Hys. unfold vec_credits in *. pose proof least_bounds.
  revert v xs f s Ho Hd Hh Hp Hcn Hn. induction Hys as [|y ys [Hy1 Hy2] Hys IH]; intros v xs f s Ho Hd Hh Hp Hcn Hn.
  { exists v, f, s. rewrite app_nil_r. split_and!; try done. eapply owns_mono; [exact Ho|].
    destruct Hp. nia. }
  cbn [push_all length] in *. pose proof Hp as (Hp1 & Hp2 & Hp3). pose proof (proj1 Hh) as Hlen.
  assert (cap v = 0 ∨ least ≤ cap v) as Hcap.
  { destruct (decide (cap v < least)); [left|right; lia]. rewrite Z.mod_small in Hp2; lia. }
  set (c := if len v =? cap v then Z.max least (2 * cap v) else cap v).
  assert (c ≤ 2 * n + least ∧ push_cost v ≤ (c - cap v) * (2 * es + 38)) as [Hc Hcost].
  { unfold c, push_cost. destruct (Z.eqb_spec (len v) (cap v)); [|lia].
    destruct Hcap as [->|Hcap]; [cbn [Z.mul Z.max]; nia|]. rewrite Z.max_r by lia. nia. }
  destruct (push_law _ F f v xs y s Ho Hd Hh Hp ltac:(lia) Hy1 Hy2) as (v1 & f1 & s1 & E1 & Ho1 & Hd1 & Hh1 & Hpu & Ec);
    [nia|]. fold c in Ec.
  destruct (IH v1 (xs ++ [y]) f1 s1) as (v2 & f2 & s2 & E2 & Ho2 & Hd2 & Hh2 & Hp2' & Hc2); try done; try lia.
  - eapply owns_mono; [exact Ho1|]. rewrite Ec. nia.
  - rewrite length_app. cbn [length]. lia.
  - exists v2, f2, s2. rewrite <-app_assoc in Hh2. split_and!; try done.
    mstep_with ltac:(exact E1). exact E2.
Qed.

(** The elements of a new vector. *)
Lemma build_law n K F ys s :
  owns K F s → Z.of_nat (length ys) ≤ n → n ≤ 2 ^ 46 → vec_credits n ≤ K →
  Forall (λ x, Z.of_nat (length x) = es ∧ Forall in_u8 x) ys →
  ∃ v f s', push_all es ea (new ea) ys s = Ret (v, s') ∧ owns (K - vec_credits n) (f ∪ F) s' ∧ f ##ₘ F
    ∧ holds es v ys f ∧ pushed v ∧ cap v ≤ 2 * n + least.
Proof.
  intros Ho Hn Hbig HK Hys. pose proof least_bounds. apply (push_all_law n K F ∅ (new ea) [] ys s); try done.
  - rewrite map_empty_union. cbn [cap new]. by rewrite Z.mul_0_l, Z.sub_0_r.
  - apply map_disjoint_empty_l.
  - split_and!; [done|constructor|by left].
  - cbn [cap new]. lia.
Qed.

Lemma slice_mjoin (xs : list (list Z)) (i e : nat) x :
  Forall (λ x, length x = e) xs → xs !! i = Some x → take e (List.skipn (i * e) (mjoin xs)) = x.
Proof.
  intros H. revert i. induction H as [|y xs Hy H IH]; intros [|i] Hi; [done|done| |].
  - injection Hi as ->. change (mjoin (x :: xs)) with (x ++ mjoin xs). cbn. rewrite <-Hy. apply take_app_length.
  - change (mjoin (y :: xs)) with (y ++ mjoin xs). cbn [Nat.mul].
    rewrite <-Hy at 2. rewrite skipn_app, skipn_all2, app_nil_l by lia.
    replace (length y + i * e - length y)%nat with (i * e)%nat by lia. by apply IH.
Qed.

Lemma index_law K F f v xs i x s :
  owns K (f ∪ F) s → holds es v xs f → xs !! i = Some x →
  index es v (Z.of_nat i) s = Ret (le_value x, s).
Proof.
  intros Ho (Hlen & Hxs & [(_ & -> & _)|(b & -> & Hb & Hle & Hc & Ht)]) Hi; [done|].
  pose proof (lookup_lt_Some _ _ _ Hi) as Hlt. pose proof (mjoin_length es xs Hxs) as Hj.
  unfold index. rewrite (proj2 (Z.leb_le 0 _)), (proj2 (Z.ltb_lt _ _)) by lia. cbn [andb].
  set (e := Z.to_nat es). replace (Z.of_nat i * es) with (Z.of_nat (i * e)) by nia.
  rewrite (ga_read_law K ({[ptr v := b]} ∪ F) s (ptr v) b (i * e) e Ho).
  - do 3 f_equal. rewrite <-(slice_mjoin xs i e x), <-Ht; [|eapply Forall_impl; [exact Hxs|cbn; lia]|done].
    rewrite skipn_firstn_comm, take_take. f_equal. nia.
  - rewrite lookup_union_l' by (by rewrite lookup_singleton_eq). apply lookup_singleton_eq.
  - nia.
Qed.

(** The array without the last element. *)
Lemma holds_last v xs x f :
  holds es v (xs ++ [x]) f → holds es (mk (ptr v) (cap v) (len v - 1)) xs f.
Proof.
  intros (Hlen & Hxs & Hcase). rewrite length_app in Hlen. cbn in Hlen. apply Forall_app in Hxs as [Hxs _].
  split_and!; [cbn; lia|done|]. right.
  destruct Hcase as [(_ & E & _)|(b & -> & Hb & Hle & Hc & Ht)]; [by destruct xs|].
  exists b. cbn [ptr cap len]. split_and!; [done|done|lia|done|].
  rewrite join_app, length_app in Ht. apply (f_equal (take (length (mjoin xs)))) in Ht.
  rewrite take_take, Nat.min_l, take_app_length in Ht by lia. done.
Qed.

Lemma pop_law K F f v xs x s :
  owns K (f ∪ F) s → holds es v (xs ++ [x]) f →
  pop es v s = Ret ((Some (le_value x), mk (ptr v) (cap v) (len v - 1)), s)
  ∧ holds es (mk (ptr v) (cap v) (len v - 1)) xs f.
Proof.
  intros Ho Hh. pose proof (proj1 Hh) as Hlen. rewrite length_app in Hlen. cbn in Hlen.
  split; [|by eapply holds_last]. unfold pop. rewrite (proj2 (Z.eqb_neq _ 0)) by lia.
  pose proof (index_law K F f v (xs ++ [x]) (length xs) x s Ho Hh) as E.
  unfold index in E. rewrite (proj2 (Z.leb_le 0 _)), (proj2 (Z.ltb_lt _ _)) in E by lia. cbn [andb] in E.
  replace (len v - 1) with (Z.of_nat (length xs)) by lia.
  mstep_with ltac:(apply E; rewrite lookup_app_r, Nat.sub_diag by lia; done). reflexivity.
Qed.

(** Writing an element of the vector. *)
Lemma set_law K F f v xs1 y xs2 x s :
  owns K (f ∪ F) s → f ##ₘ F → holds es v (xs1 ++ y :: xs2) f →
  Z.of_nat (length x) = es → Forall in_u8 x →
  ∃ f' s', ga_write (ptr v + Z.of_nat (length xs1) * es) x s = Ret (tt, s') ∧ owns K (f' ∪ F) s' ∧ f' ##ₘ F
    ∧ holds es v (xs1 ++ x :: xs2) f'.
Proof.
  intros Ho Hd (Hlen & Hxs & [(_ & E & _)|(b & -> & Hb & Hle & Hc & Ht)]) Hx Hu8; [by destruct xs1|].
  pose proof Hxs as [Hx1 [Hy Hx2]%Forall_cons]%Forall_app.
  pose proof (mjoin_length es xs1 Hx1) as Hj. apply map_disjoint_singleton_l in Hd.
  change (xs1 ++ y :: xs2) with (xs1 ++ ([y] ++ xs2)) in Ht. rewrite !join_app in Ht.
  change (mjoin [y]) with (y ++ []) in Ht. rewrite app_nil_r in Ht.
  assert (∃ r, b = (mjoin xs1 ++ y ++ mjoin xs2) ++ r) as [r ->].
  { eexists. rewrite <-Ht at 1. symmetry. apply take_drop. }
  rewrite !length_app in Hb.
  destruct (ga_write_law K ({[ptr v := (mjoin xs1 ++ y ++ mjoin xs2) ++ r]} ∪ F) s (ptr v)
    ((mjoin xs1 ++ y ++ mjoin xs2) ++ r) (length (mjoin xs1)) x Ho) as (s' & E & Ho').
  { rewrite lookup_union_l' by (by rewrite lookup_singleton_eq). apply lookup_singleton_eq. }
  { rewrite !length_app. lia. }
  { done. }
  rewrite Hj in E.
  assert (overwrite ((mjoin xs1 ++ y ++ mjoin xs2) ++ r) (length (mjoin xs1)) x = (mjoin xs1 ++ x ++ mjoin xs2) ++ r) as Eo.
  { unfold overwrite. replace (length x) with (length y) by lia.
    rewrite <-!app_assoc, take_app_length. do 2 f_equal.
    rewrite (app_assoc (mjoin xs1)), <-length_app. apply drop_app_length. }
  rewrite Eo, insert_union_l, insert_singleton_eq in Ho'.
  eexists _, s'. split_and!; [exact E|exact Ho'|by apply map_disjoint_singleton_l_2|].
  split_and!.
  - rewrite Hlen, !length_app. done.
  - apply Forall_app. by split; [|constructor].
  - right. eexists. split_and!; [done|rewrite !length_app; lia|done|done|].
    change (xs1 ++ x :: xs2) with (xs1 ++ ([x] ++ xs2)). rewrite !join_app. change (mjoin [x]) with (x ++ []).
    rewrite app_nil_r. apply take_app_length.
Qed.

(** Moving elements down by one. *)
Lemma copy_down_law K F f v xs1 y ys s :
  owns K (f ∪ F) s → f ##ₘ F → holds es v (xs1 ++ y :: ys) f → Forall (Forall in_u8) ys →
  ∃ z f' s', copy_down es (length ys) (ptr v + Z.of_nat (length xs1 + 1) * es) (ptr v + Z.of_nat (length xs1) * es) s
      = Ret (tt, s') ∧ owns K (f' ∪ F) s' ∧ f' ##ₘ F ∧ holds es v (xs1 ++ ys ++ [z]) f'.
Proof.
  intros Ho Hd Hh H. revert f xs1 y s Ho Hd Hh. induction H as [|x ys Hx H IH]; intros f xs1 y s Ho Hd Hh.
  { by exists y, f, s. }
  pose proof (index_law K F f v _ (length xs1 + 1) x s Ho Hh) as E.
  unfold index in E. pose proof (proj1 Hh) as Hlen. rewrite length_app in Hlen. cbn [length] in Hlen.
  rewrite (proj2 (Z.leb_le 0 _)), (proj2 (Z.ltb_lt _ _)) in E by lia. cbn [andb] in E.
  assert (Z.of_nat (length x) = es) as Hxl.
  { destruct Hh as (_ & [_ [_ [? _]%Forall_cons]%Forall_cons]%Forall_app & _). done. }
  destruct (set_law K F f v xs1 y (x :: ys) x s Ho Hd Hh Hxl Hx) as (f1 & s1 & E1 & Ho1 & Hd1 & Hh1).
  destruct (IH f1 (xs1 ++ [x]) x s1 Ho1 Hd1) as (z & f2 & s2 & E2 & Ho2 & Hd2 & Hh2); [by rewrite <-app_assoc|].
  rewrite <-app_assoc in Hh2. exists z, f2, s2. split_and!; try done. cbn [length copy_down].
  mstep_with ltac:(apply E; rewrite lookup_app_r by lia; by replace (length xs1 + 1 - length xs1)%nat with 1%nat by lia).
  replace (Z.to_nat es) with (length x) by lia. rewrite le_bytes_value by done. mstep_with ltac:(exact E1).
  rewrite <-E2. rewrite !length_app. cbn [length]. f_equal; lia.
Qed.

Lemma remove_law K F f v xs1 x xs2 s :
  owns K (f ∪ F) s → f ##ₘ F → holds es v (xs1 ++ x :: xs2) f → Forall (Forall in_u8) xs2 →
  ∃ f' s', remove es v (Z.of_nat (length xs1)) s
      = Ret ((le_value x, mk (ptr v) (cap v) (len v - 1)), s')
    ∧ owns K (f' ∪ F) s' ∧ f' ##ₘ F ∧ holds es (mk (ptr v) (cap v) (len v - 1)) (xs1 ++ xs2) f'.
Proof.
  intros Ho Hd Hh H. pose proof (index_law K F f v _ (length xs1) x s Ho Hh) as E.
  unfold index in E. pose proof (proj1 Hh) as Hlen. rewrite length_app in Hlen. cbn [length] in Hlen.
  rewrite (proj2 (Z.leb_le 0 _)), (proj2 (Z.ltb_lt _ _)) in E by lia. cbn [andb] in E.
  destruct (copy_down_law K F f v xs1 x xs2 s Ho Hd Hh H) as (z & f1 & s1 & E1 & Ho1 & Hd1 & Hh1).
  rewrite app_assoc in Hh1. exists f1, s1. split_and!; [|done|done|by eapply holds_last].
  unfold remove. rewrite (proj2 (Z.leb_le 0 _)), (proj2 (Z.ltb_lt _ _)) by lia. cbn [andb].
  mstep_with ltac:(apply E; rewrite lookup_app_r, Nat.sub_diag by lia; done).
  replace (Z.to_nat (len v - Z.of_nat (length xs1) - 1)) with (length xs2) by lia.
  replace (Z.of_nat (length xs1) + 1) with (Z.of_nat (length xs1 + 1)) by lia.
  mstep_with ltac:(exact E1). reflexivity.
Qed.

Lemma drop_law K F f v xs s :
  owns K (f ∪ F) s → f ##ₘ F → holds es v xs f → 8 ≤ K →
  ∃ s', drop es ea v s = Ret (tt, s') ∧ owns (K - 8) F s'.
Proof.
  intros Ho Hd (Hlen & Hxs & Hcase) HK. unfold drop. destruct (Z.eqb_spec (cap v) 0).
  - destruct Hcase as [(_ & _ & ->)|(b & _ & _ & _ & ? & _)]; [|lia]. rewrite map_empty_union in Ho.
    exists s. split; [done|]. eapply owns_mono; [exact Ho|lia].
  - destruct Hcase as [(? & _)|(b & -> & _)]; [lia|]. apply map_disjoint_singleton_l in Hd.
    destruct (ga_dealloc_law K ({[ptr v := b]} ∪ F) s (ptr v) (layout es ea (cap v)) Ho) as (s' & E & Ho').
    { rewrite lookup_union_l' by (by rewrite lookup_singleton_eq). by rewrite lookup_singleton_eq. }
    { done. }
    exists s'. split; [done|]. by rewrite delete_union, delete_singleton_eq, map_empty_union, delete_id in Ho'.
Qed.

End laws.
End Vec.

(** ** [String]: a vector of bytes *)

Module Str.

Definition singles (t : list Z) : list (list Z) := (λ b, [b]) <$> t.

Lemma mjoin_singles t : mjoin (singles t) = t.
Proof. induction t as [|b t IH]; [done|]. cbn. f_equal. exact IH. Qed.
Lemma length_singles t : length (singles t) = length t.
Proof. apply length_fmap. Qed.

Section ops.
Context {S : Type} `{!GlobalAlloc S}.

(** [String::from(&str)]: exactly the bytes of the literal. *)
Definition from (t : list Z) : M S Vec.t :=
  v ← Vec.with_capacity 1 1 (Z.of_nat (length t));
  Vec.extend_from_slice 1 1 v (Z.of_nat (length t)) t.

Definition push_str (v : Vec.t) (t : list Z) : M S Vec.t :=
  Vec.extend_from_slice 1 1 v (Z.of_nat (length t)) t.

(** [String::push] of an ASCII character. *)
Definition push (v : Vec.t) (c : Z) : M S Vec.t := Vec.push 1 1 v [c].

(** [self == "..."]: lengths first, then the bytes. *)
Fixpoint same_bytes (p : Z) (t : list Z) : M S bool :=
  match t with
  | [] => mret true
  | b :: t => c ← ga_read p 1; if c =? b then same_bytes (p + 1) t else mret false
  end.
Definition eq_str (v : Vec.t) (t : list Z) : M S bool :=
  if Vec.len v =? Z.of_nat (length t) then same_bytes (Vec.ptr v) t else mret false.

Definition drop (v : Vec.t) : M S unit := Vec.drop 1 1 v.

End ops.

(** Texts a string can hold without breaking the word structure of the heap. *)
Definition short_text (n : Z) : Prop := 0 < n ≤ 16.

Lemma short_layout n : short_text n → word_layout (Vec.layout 1 1 n).
Proof.
  intros H. unfold word_layout, Vec.layout. cbn [lsize lalign]. rewrite Z.mul_1_r. unfold short_text in H.
  split_and!; [lia| |by left]. by rewrite Z.max_r by lia.
Qed.

Section laws.
Context {S : Type} `{!GlobalAlloc S, !GlobalAllocLaws S}.

Definition holds (v : Vec.t) (t : list Z) : gmap Z (list Z) → Prop := Vec.holds 1 v (singles t).

Lemma singles_bytes t : Forall in_u8 t → Forall (λ x, Z.of_nat (length x) = 1 ∧ Forall in_u8 x) (singles t).
Proof. intros H. apply Forall_fmap. eapply Forall_impl; [exact H|]. intros b Hb. split; [done|by constructor]. Qed.

Lemma from_law K F t s :
  owns K F s → short_text (Z.of_nat (length t)) → Forall in_u8 t → Z.of_nat (length t) + 144 ≤ K →
  ∃ v f s', from t s = Ret (v, s') ∧ owns (K - Z.of_nat (length t) - 144) (f ∪ F) s' ∧ f ##ₘ F ∧ holds v t f
    ∧ Vec.cap v = Z.of_nat (length t) ∧ Vec.len v = Z.of_nat (length t).
Proof.
  intros Ho Hn Ht HK. set (n := Z.of_nat (length t)) in *. assert (0 < n) by (unfold short_text in Hn; lia).
  destruct (ga_alloc_law K F s (Vec.layout 1 1 n) Ho (short_layout n Hn)) as (p & v0 & s1 & E1 & Hp & Hfr & Hv0 & Ho1);
    [cbn; lia|]. cbn [lsize Vec.layout] in Hv0, Ho1. rewrite Z.mul_1_r in Hv0, Ho1.
  rewrite insert_union_singleton_l in Ho1.
  assert (Vec.holds 1 (Vec.mk p n 0) [] {[p := v0]}) as Hh.
  { split_and!; [done|done|]. right. exists v0. cbn. split_and!; [done|lia|lia|lia|done]. }
  assert ({[p := v0]} ##ₘ F) as Hd by (by apply map_disjoint_singleton_l_2).
  destruct (Vec.write_law 1 ltac:(lia) _ F _ _ [] (singles t) s1 Ho1 Hd Hh) as (f2 & s2 & E2 & Ho2 & Hd2 & Hh2).
  { intros E. apply (f_equal length) in E. rewrite length_singles in E. unfold n in *. cbn in E. lia. }
  { rewrite length_singles. cbn. fold n. lia. }
  { by apply singles_bytes. }
  rewrite mjoin_singles, length_singles in *. cbn [Vec.ptr Vec.cap Vec.len app] in *. fold n in Hh2.
  eexists _, f2, s2. split_and!; [|exact Ho2|exact Hd2|exact Hh2|done|done].
  unfold from, Vec.with_capacity. fold n. rewrite (proj2 (Z.eqb_neq n 0)) by lia.
  mstep_with ltac:(mstep_with ltac:(exact E1); rewrite (proj2 (Z.eqb_neq p 0)) by done; reflexivity).
  unfold Vec.extend_from_slice. cbn [Vec.cap Vec.len Vec.ptr]. rewrite (proj2 (Z.ltb_ge _ _)) by lia. mstep.
  mstep_with ltac:(exact E2). reflexivity.
Qed.

(** Appending bytes: in place when there is room. *)
Lemma extend_law K F f v t u s :
  owns K (f ∪ F) s → f ##ₘ F → holds v t f → 0 ≤ Vec.cap v → u ≠ [] → Forall in_u8 u →
  let n := Z.of_nat (length u) in
  let c := if Vec.cap v - Vec.len v <? n then Vec.grown 1 v n else Vec.cap v in
  word_layout (Vec.layout 1 1 c) → c < 2 ^ 62 → c + 152 ≤ K →
  ∃ v' f' s', push_str v u s = Ret (v', s') ∧ owns (K - c - 152) (f' ∪ F) s' ∧ f' ##ₘ F ∧ holds v' (t ++ u) f'
    ∧ Vec.cap v' = c ∧ Vec.len v' = Vec.len v + n.
Proof.
  intros Ho Hd Hh Hc0 Hne Hu n c Hw Hc HK. assert (0 < n) by (unfold n; destruct u; [done|cbn; lia]).
  pose proof (proj1 Hh) as Hlen. unfold word_layout in Hw. cbn [lsize Vec.layout] in Hw. rewrite Z.mul_1_r in Hw.
  assert (∃ p f1 s1, (if Vec.cap v - Vec.len v <? n then Vec.grow_amortized 1 1 v n else mret v) s
      = Ret (Vec.mk p c (Vec.len v), s1) ∧ owns (K - c - 152) (f1 ∪ F) s1 ∧ f1 ##ₘ F
      ∧ holds (Vec.mk p c (Vec.len v)) t f1) as (p & f1 & s1 & E1 & Ho1 & Hd1 & Hh1).
  { unfold c in *. destruct (Z.ltb_spec (Vec.cap v - Vec.len v) n).
    - assert (Vec.len v + n ≤ Vec.grown 1 v n) by (unfold Vec.grown; lia).
      destruct (Vec.grow_law 1 1 ltac:(lia) K F f v (singles t) n s Ho Hd Hh)
        as (p & f1 & s1 & E1 & Ho1 & Hd1 & Hh1); try done; try lia.
      + unfold word_layout. cbn [lsize Vec.layout]. by rewrite Z.mul_1_r.
      + exists p, f1, s1. by rewrite Z.mul_1_r in Ho1.
    - exists (Vec.ptr v), f, s. replace (Vec.mk (Vec.ptr v) (Vec.cap v) (Vec.len v)) with v by (by destruct v).
      split_and!; [done|eapply owns_mono; [exact Ho|lia]|done|done]. }
  destruct (Vec.write_law 1 ltac:(lia) _ F f1 _ (singles t) (singles u) s1 Ho1 Hd1 Hh1)
    as (f2 & s2 & E2 & Ho2 & Hd2 & Hh2).
  { intros E. apply (f_equal length) in E. rewrite length_singles in E. unfold n in *. cbn in E. lia. }
  { rewrite length_singles. fold n. cbn [Vec.len Vec.cap]. unfold c. destruct (Z.ltb_spec (Vec.cap v - Vec.len v) n); [|lia].
    unfold Vec.grown. lia. }
  { by apply singles_bytes. }
  rewrite mjoin_singles, length_singles in *. cbn [Vec.ptr Vec.cap Vec.len] in *. fold n in Hh2.
  exists (Vec.mk p c (Vec.len v + n)), f2, s2. split_and!; [|exact Ho2|exact Hd2| |done|done].
  - unfold push_str, Vec.extend_from_slice. fold n. mstep_with ltac:(exact E1).
    cbn [Vec.ptr Vec.cap Vec.len]. rewrite Z.mul_1_r in *. mstep_with ltac:(exact E2). reflexivity.
  - unfold holds, singles. by rewrite fmap_app.
Qed.

Lemma push_str_law K F f v t u s :
  owns K (f ∪ F) s → f ##ₘ F → holds v t f → t ≠ [] → u ≠ [] → Vec.cap v = Z.of_nat (length t) →
  let n := Z.max 8 (Z.max (2 * Z.of_nat (length t)) (Z.of_nat (length t + length u))) in
  short_text n → Forall in_u8 u → n + 152 ≤ K →
  ∃ v' f' s', push_str v u s = Ret (v', s') ∧ owns (K - n - 152) (f' ∪ F) s' ∧ f' ##ₘ F ∧ holds v' (t ++ u) f'.
Proof.
  intros Ho Hd Hh Hne Hnu Hcap n Hn Hu HK. pose proof (proj1 Hh) as Hlen. rewrite length_singles in Hlen.
  assert (0 < length u)%nat by (destruct u; [done|cbn; lia]).
  assert (n = if Vec.cap v - Vec.len v <? Z.of_nat (length u) then Vec.grown 1 v (Z.of_nat (length u)) else Vec.cap v) as En.
  { rewrite (proj2 (Z.ltb_lt _ _)) by lia. unfold Vec.grown, Vec.MIN_NON_ZERO_CAP, n. cbn [Z.eqb Pos.eqb]. lia. }
  destruct (extend_law K F f v t u s Ho Hd Hh) as (v' & f' & s' & E & Ho' & Hd' & Hh' & _); rewrite <-?En; try done; try lia.
  - by apply short_layout.
  - unfold short_text in Hn. lia.
  - rewrite <-En in Ho'. by exists v', f', s'.
Qed.

Lemma same_bytes_law K F f v t s :
  owns K (f ∪ F) s → holds v t f → t ≠ [] → eq_str v t s = Ret (true, s).
Proof.
  intros Ho (Hlen & _ & [(_ & E & _)|(b & -> & Hb & Hle & Hc & Ht)]) Hne.
  { apply (f_equal length) in E. rewrite length_singles in E. destruct t; [done|cbn in E; lia]. }
  rewrite length_singles in Hlen. rewrite mjoin_singles in Ht. unfold eq_str. rewrite Hlen, Z.eqb_refl.
  assert (∀ u pre, t = pre ++ u → same_bytes (Vec.ptr v + Z.of_nat (length pre)) u s = Ret (true, s)) as H.
  { induction u as [|c u IH]; intros pre E; cbn [same_bytes]; [done|].
    assert (b !! length pre = Some c) as Hb'.
    { assert (take (length t) b !! length pre = Some c) as H0.
      { rewrite Ht, E, lookup_app_r, Nat.sub_diag by lia. done. }
      by apply lookup_take_Some in H0 as [H0 _]. }
    pose proof (lookup_lt_Some _ _ _ Hb').
    mstep_with ltac:(apply (ga_read_law K ({[Vec.ptr v := b]} ∪ F) s (Vec.ptr v) b (length pre) 1 Ho); [|lia]);
      [rewrite lookup_union_l' by (by rewrite lookup_singleton_eq); apply lookup_singleton_eq|].
    rewrite (drop_S b c _ Hb'). cbn [take le_value]. rewrite Z.mul_0_r, Z.add_0_r, Z.eqb_refl.
    rewrite <-(IH (pre ++ [c])); [f_equal; rewrite length_app; cbn; lia|]. by rewrite <-app_assoc. }
  rewrite <-(H t []); [f_equal; cbn; lia|done].
Qed.

End laws.
End Str.
