(* ===== verification/ErrorManager.v ===== *)
(** * The error manager

    Models [src/trap/infrastructure/error_manager.rs]: error handlers by
    priority, a bounded log of what happened to each error, and the panic mode
    that a fatal error turns on for good.  The log is used through the
    [BoundedLog] interface; handlers are functions of the error and of the rest
    of the kernel's state [W]. *)

From Stdlib Require Import ZArith Lia String.
From stdpp Require Import base option numbers sorting gmap list.
From S2P Require Import Prelude RingBuffer TrapTypes BTree.

Definition ERROR_LOG_CAPACITY : Z := 256.

Section error_manager.
Context {W L : Type} `{BL : BoundedLog ErrorLogEntry L}.

(** [fn(&SystemError) -> ErrorResult] *)
Definition ErrorHandlerFn : Type := SystemError.t → W → ErrorResult * W.

Record ErrorHandlerEntry : Type := mkErrorHandlerEntry {
  priority : Z;
  source : option ErrorSource.t;
  level : option ErrorLevel.t;
  handler : ErrorHandlerFn;
}.

Record HeapErrorManager : Type := mkHeapErrorManager {
  handlers : BTreeMap Z (list ErrorHandlerEntry);
  log : L;
  panic_mode : bool;
}.

(** The manager next to the state its handlers act on. *)
Record EState : Type := mkEState { mgr : HeapErrorManager; world : W }.

Definition matches (entry : ErrorHandlerEntry) (error : SystemError.t) : bool :=
  let wrong_source :=
    match source entry with
    | Some src => negb (bool_decide (src = ErrorCode.source (SystemError.code error)))
    | None => false
    end in
  let wrong_level :=
    match level entry with
    | Some lvl => negb (bool_decide (lvl = ErrorCode.level (SystemError.code error)))
    | None => false
    end in
  if wrong_source then false else if wrong_level then false else true.

Definition register_handler (p : Z) (src : option ErrorSource.t) (lvl : option ErrorLevel.t)
    (h : ErrorHandlerFn) : M EState (result unit unit) :=
  let entry := mkErrorHandlerEntry p src lvl h in
  modify (λ s, mkEState (mkHeapErrorManager
    (bt_upsert (λ k, k) p [] (λ es, es ++ [entry]) (handlers (mgr s)))
    (log (mgr s)) (panic_mode (mgr s))) (world s));;
  mret (Ok tt).

Definition log_error (error : SystemError.t) (r : ErrorResult) : M EState unit :=
  zoom (λ s, log (mgr s))
    (λ l s, mkEState (mkHeapErrorManager (handlers (mgr s)) l (panic_mode (mgr s))) (world s))
    (log_push (mkErrorLogEntry error r)).

Definition is_panic_mode : M EState bool := gets (λ s, panic_mode (mgr s)).
Definition enter_panic_mode : M EState unit :=
  modify (λ s, mkEState (mkHeapErrorManager (handlers (mgr s)) (log (mgr s)) true) (world s)).

(** [(entry.handler)(&error)] *)
Definition call_handler (h : ErrorHandlerFn) (error : SystemError.t) : M EState ErrorResult :=
  λ s, let '(r, w) := h error (world s) in Ret (r, mkEState (mgr s) w).

(** The two nested loops; [inl] is the early return. *)
Fixpoint entries_loop (entries : list ErrorHandlerEntry) (error : SystemError.t)
    (final_result : ErrorResult) : M EState (ErrorResult + ErrorResult) :=
  match entries with
  | [] => mret (inr final_result)
  | entry :: rest =>
      if matches entry error then
        r ← call_handler (handler entry) error;
        match r with
        | Handled => log_error error Handled;; mret (inl Handled)
        | Partial => entries_loop rest error Partial
        | Unhandled => entries_loop rest error final_result
        end
      else entries_loop rest error final_result
  end.

Fixpoint priorities_loop (m : BTreeMap Z (list ErrorHandlerEntry)) (error : SystemError.t)
    (final_result : ErrorResult) : M EState (ErrorResult + ErrorResult) :=
  match m with
  | [] => mret (inr final_result)
  | (_, entries) :: rest =>
      r ← entries_loop entries error final_result;
      match r with
      | inl early => mret (inl early)
      | inr final => priorities_loop rest error final
      end
  end.

Definition handle_error (error : SystemError.t) : M EState ErrorResult :=
  panicking ← is_panic_mode;
  if panicking && negb (ErrorCode.is_fatal (SystemError.code error)) then
    log_error error Unhandled;; mret Unhandled
  else
    (if ErrorCode.is_fatal (SystemError.code error) then enter_panic_mode else mret tt);;
    s ← gets (λ s, s);
    r ← priorities_loop (handlers (mgr s)) error Unhandled;
    match r with
    | inl early => mret early
    | inr final_result => log_error error final_result;; mret final_result
    end.

(** ** What handling an error amounts to *)

(** All handlers in the order they are tried. *)
Definition in_order (m : BTreeMap Z (list ErrorHandlerEntry)) : list ErrorHandlerEntry :=
  concat (snd <$> m).

(** Try the matching handlers in turn, up to the first that handles it. *)
Fixpoint try_all (entries : list ErrorHandlerEntry) (e : SystemError.t) (w : W)
    (final : ErrorResult) : ErrorResult * W :=
  match entries with
  | [] => (final, w)
  | entry :: rest =>
      if matches entry e then
        match handler entry e w with
        | (Handled, w') => (Handled, w')
        | (Partial, w') => try_all rest e w' Partial
        | (Unhandled, w') => try_all rest e w' final
        end
      else try_all rest e w final
  end.

Lemma try_all_app l1 l2 e w f :
  f ≠ Handled →
  try_all (l1 ++ l2) e w f =
  let '(r, w') := try_all l1 e w f in
  if bool_decide (r = Handled) then (Handled, w') else try_all l2 e w' r.
Proof.
  revert w f; induction l1 as [|x l1 IH]; intros w f Hf; simpl.
  - by rewrite bool_decide_eq_false_2.
  - destruct (matches x e); [|by apply IH].
    destruct (handler x e w) as [[] w']; [done|by apply IH|by apply IH].
Qed.

(** The run of the loops: the tries, then the log entry of an early return. *)
Definition after_tries (e : SystemError.t) (s : EState) (rw : ErrorResult * W)
    : outcome ((ErrorResult + ErrorResult) * EState) :=
  if bool_decide (rw.1 = Handled)
  then (log_error e Handled;; mret (inl Handled)) (mkEState (mgr s) rw.2)
  else Ret (inr rw.1, mkEState (mgr s) rw.2).

Lemma entries_loop_spec entries e f s :
  f ≠ Handled →
  entries_loop entries e f s = after_tries e s (try_all entries e (world s) f).
Proof.
  revert f s; induction entries as [|x l IH]; intros f s Hf; cbn [entries_loop try_all].
  - unfold after_tries. simpl. rewrite bool_decide_eq_false_2 by done. by destruct s.
  - destruct (matches x e); [|by apply IH]. unfold call_handler.
    destruct (handler x e (world s)) as [[] w'] eqn:E.
    + eapply bind_Ret; [rewrite E; reflexivity|done].
    + eapply bind_Ret; [rewrite E; reflexivity|]. by apply (IH Partial (mkEState (mgr s) w')).
    + eapply bind_Ret; [rewrite E; reflexivity|]. by apply (IH f (mkEState (mgr s) w')).
Qed.

Lemma error_priorities_spec m e f s :
  f ≠ Handled →
  priorities_loop m e f s = after_tries e s (try_all (in_order m) e (world s) f).
Proof.
  revert f s; induction m as [|[p es] m IH]; intros f s Hf; cbn [priorities_loop].
  - unfold after_tries. simpl. rewrite bool_decide_eq_false_2 by done. by destruct s.
  - change (in_order ((p, es) :: m)) with (es ++ in_order m).
    rewrite try_all_app by done. unfold mbind, M_bind.
    rewrite entries_loop_spec by done. unfold after_tries at 1.
    destruct (try_all es e (world s) f) as [r w']. cbn [fst snd].
    destruct (decide (r = Handled)) as [->|Hr].
    + rewrite bool_decide_eq_true_2 by done. unfold after_tries. simpl.
      unfold mbind, M_bind. by destruct (log_error e Handled _) as [[]| | |].
    + rewrite bool_decide_eq_false_2 by done. rewrite IH by done. done.
Qed.

(** The log gains one entry. *)
Lemma log_error_spec e r s q :
  log_holds (log (mgr s)) q →
  ∃ l', log_error e r s
        = Ret (tt, mkEState (mkHeapErrorManager (handlers (mgr s)) l' (panic_mode (mgr s))) (world s))
      ∧ log_holds l' (RingBuffer.q_push log_capacity q (mkErrorLogEntry e r)).
Proof.
  intros H. destruct (log_push_ok _ q (mkErrorLogEntry e r) H) as (l' & E & H').
  exists l'. split; [|done]. unfold log_error, zoom. by rewrite E.
Qed.

Lemma handle_error_spec e s q :
  log_holds (log (mgr s)) q →
  let panicking := panic_mode (mgr s) in
  let fatal := ErrorCode.is_fatal (SystemError.code e) in
  let '(r, w') := if panicking && negb fatal then (Unhandled, world s)
                  else try_all (in_order (handlers (mgr s))) e (world s) Unhandled in
  ∃ l', handle_error e s
        = Ret (r, mkEState (mkHeapErrorManager (handlers (mgr s)) l' (panicking || fatal)) w')
      ∧ log_holds l' (RingBuffer.q_push log_capacity q (mkErrorLogEntry e r)).
Proof.
  intros H panicking fatal.
  assert (∀ r w, ∃ l', log_error e r (mkEState (mkHeapErrorManager (handlers (mgr s))
              (log (mgr s)) (panicking || fatal)) w)
            = Ret (tt, mkEState (mkHeapErrorManager (handlers (mgr s)) l' (panicking || fatal)) w)
          ∧ log_holds l' (RingBuffer.q_push log_capacity q (mkErrorLogEntry e r))) as Hlog.
  { intros r w. exact (log_error_spec e r (mkEState (mkHeapErrorManager _ _ _) w) q H). }
  unfold handle_error. destruct (panicking && negb fatal) eqn:G.
  - assert (panicking || fatal = panicking) as Ep by (by destruct panicking, fatal).
    rewrite Ep in *. destruct (Hlog Unhandled (world s)) as (l' & E & Hl). exists l'.
    split; [|done]. mstep. fold panicking fatal. rewrite G.
    destruct s as [[hs lg pm] w]. mstep_with ltac:(exact E). done.
  - destruct (try_all _ _ _ _) as [r w'] eqn:T. destruct (Hlog r w') as (l' & E & Hl).
    exists l'. split; [|done]. mstep. fold panicking fatal. rewrite G.
    set (s1 := mkEState (mkHeapErrorManager (handlers (mgr s)) (log (mgr s)) (panicking || fatal)) (world s)).
    mstep_with ltac:(instantiate (1 := s1); instantiate (1 := tt)).
    { unfold s1. destruct fatal; [rewrite orb_true_r|rewrite orb_false_r]; [done|by destruct s as [[] ?]]. }
    mstep. unfold mbind, M_bind at 1. rewrite error_priorities_spec by done.
    cbn [s1 mgr world handlers]. rewrite T. unfold after_tries. cbn [fst snd mgr s1].
    destruct (decide (r = Handled)) as [->|Hr].
    + rewrite bool_decide_eq_true_2 by done. unfold mbind, M_bind. by rewrite E.
    + rewrite bool_decide_eq_false_2 by done. unfold mbind, M_bind. by rewrite E.
Qed.

(** ** The order of the handlers *)

(** Every list of the map holds handlers of its own priority. *)
Definition prio_ok (m : BTreeMap Z (list ErrorHandlerEntry)) : Prop :=
  bt_sorted (λ k, k) m ∧ Forall (λ pe, Forall (λ x, priority x = pe.1) pe.2) m.

Definition with_prio (p : Z) (l : list ErrorHandlerEntry) : list ErrorHandlerEntry :=
  filter (λ x, priority x = p) l.

Lemma with_prio_app p l1 l2 : with_prio p (l1 ++ l2) = with_prio p l1 ++ with_prio p l2.
Proof. apply filter_app. Qed.

Lemma with_prio_all p l : Forall (λ x, priority x = p) l → with_prio p l = l.
Proof.
  induction 1 as [|x l Hx _ IH]; [done|]. unfold with_prio in *. by rewrite filter_cons_True, IH.
Qed.

Lemma with_prio_none p l : Forall (λ x, priority x ≠ p) l → with_prio p l = [].
Proof.
  induction 1 as [|x l Hx _ IH]; [done|]. unfold with_prio in *. by rewrite filter_cons_False.
Qed.

Lemma in_order_prio m p :
  prio_ok m → with_prio p (in_order m) = default [] (bt_get (λ k, k) p m).
Proof.
  intros [Hs Hp]. unfold bt_sorted in Hs. induction Hs as [|[k es] m Hs IH Hall]; [done|].
  apply Forall_cons in Hp as [Hk Hp]. simpl in Hk.
  change (in_order ((k, es) :: m)) with (es ++ in_order m). rewrite with_prio_app, IH by done.
  cbn [bt_get]. destruct (Z.eqb_spec p k) as [->|Hne].
  - rewrite with_prio_all by done. destruct (bt_get (λ k, k) k m) as [es'|] eqn:G.
    + apply bt_get_elem in G; [|apply _]. rewrite Forall_forall in Hall.
      specialize (Hall _ G). simpl in Hall. lia.
    + simpl. by rewrite app_nil_r.
  - rewrite with_prio_none; [done|]. eapply Forall_impl; [exact Hk|]. intros x ->. congruence.
Qed.

Lemma in_order_sorted m :
  prio_ok m → StronglySorted (λ a b, priority a ≤ priority b) (in_order m).
Proof.
  intros [Hs Hp]. unfold bt_sorted in Hs. induction Hs as [|[k es] m Hs IH Hall]; [constructor|].
  apply Forall_cons in Hp as [Hk Hp]. simpl in Hk.
  assert (Forall (λ x, k ≤ priority x) (in_order m)) as Hge.
  { unfold in_order. apply Forall_concat, Forall_fmap, Forall_forall.
    rewrite !Forall_forall in *. intros [k' es'] He. simpl. specialize (Hall _ He).
    specialize (Hp _ He). simpl in *. eapply Forall_impl; [exact Hp|]. simpl. intros x ->. lia. }
  change (in_order ((k, es) :: m)) with (es ++ in_order m).
  specialize (IH Hp). clear Hall Hp Hs.
  induction Hk as [|x es Hx Hk IHk]; [done|]. simpl. constructor; [done|].
  apply Forall_app. split; [eapply Forall_impl; [exact Hk|]; intros y ->; lia|].
  eapply Forall_impl; [exact Hge|]. simpl. lia.
Qed.

Lemma register_prio_ok m x :
  prio_ok m → prio_ok (bt_upsert (λ k, k) (priority x) [] (λ es, es ++ [x]) m).
Proof.
  intros [Hs Hp]. split; [by apply bt_upsert_sorted|].
  apply Forall_forall. intros e He. apply bt_insert_elem in He as [->|He].
  - simpl. apply Forall_app. split; [|by constructor].
    destruct (bt_get (λ k, k) (priority x) m) as [es|] eqn:G; [|constructor].
    apply bt_get_elem in G; [|apply _]. rewrite Forall_forall in Hp. by apply (Hp _ G).
  - rewrite Forall_forall in Hp. auto.
Qed.

Definition register_entry (x : ErrorHandlerEntry) : M EState (result unit unit) :=
  register_handler (priority x) (source x) (level x) (handler x).

Fixpoint register_all (l : list ErrorHandlerEntry) : M EState unit :=
  match l with [] => mret tt | x :: r => register_entry x;; register_all r end.

Lemma register_all_spec l : ∀ s,
  prio_ok (handlers (mgr s)) →
  ∃ s', register_all l s = Ret (tt, s') ∧ prio_ok (handlers (mgr s'))
    ∧ panic_mode (mgr s') = panic_mode (mgr s) ∧ world s' = world s ∧ log (mgr s') = log (mgr s)
    ∧ ∀ p, with_prio p (in_order (handlers (mgr s')))
           = with_prio p (in_order (handlers (mgr s))) ++ with_prio p l.
Proof.
  induction l as [|x l IH]; intros s Hs.
  { exists s. split_and!; try done. intros p. by rewrite app_nil_r. }
  set (m1 := bt_upsert (λ k, k) (priority x) [] (λ es, es ++ [x]) (handlers (mgr s))).
  assert (prio_ok m1) as H1 by (by apply register_prio_ok).
  destruct (IH (mkEState (mkHeapErrorManager m1 (log (mgr s)) (panic_mode (mgr s))) (world s)) H1)
    as (s' & E & H2 & P2 & W2 & L2 & F2).
  exists s'. split_and!; try done.
  - cbn [register_all]. mstep_with ltac:(unfold register_entry, register_handler; mstep; reflexivity).
    destruct x. exact E.
  - intros p. rewrite F2. cbn [mgr handlers]. rewrite !in_order_prio by done.
    unfold m1. rewrite (bt_get_upsert (λ k : Z, k)). unfold with_prio.
    rewrite filter_cons. destruct (decide (p = priority x)) as [->|Hne].
    + rewrite decide_True by done. simpl. by rewrite <- app_assoc.
    + by rewrite decide_False by done.
Qed.

End error_manager.

Arguments EState : clear implicits.
Arguments HeapErrorManager : clear implicits.
Arguments ErrorHandlerEntry : clear implicits.

(** ** The manager of the kernel: its log is a ring buffer of 256 entries *)

Abbreviation error_log := (RingBuffer.t ErrorLogEntry).

#[export] Instance kernel_error_log {P : Profile} : BoundedLog ErrorLogEntry error_log :=
  ring_log ERROR_LOG_CAPACITY.

Definition HeapErrorManager_new {S W} : M S (HeapErrorManager W error_log) :=
  l ← RingBuffer.with_capacity ERROR_LOG_CAPACITY;
  mret (mkHeapErrorManager [] l false).

(** The log of a new manager. *)
Definition empty_log : error_log :=
  RingBuffer.mk (replicate (Z.to_nat ERROR_LOG_CAPACITY) None) ERROR_LOG_CAPACITY 0 0 0.

Lemma empty_log_holds {P : Profile} : log_holds empty_log [].
Proof.
  destruct (RingBuffer.with_capacity_spec (T := ErrorLogEntry) ERROR_LOG_CAPACITY tt) as (r & E & R & C).
  { unfold ERROR_LOG_CAPACITY. lia. }
  by injection E as <-.
Qed.

Section theorems.
Context {P : Profile} {W : Type}.

(** Handlers run in priority order, lowest number first and in the order of
    registration within a priority: after any registrations on a new manager,
    the order of the tries is the stable sort of the registrations. *)
Theorem error_handlers_stably_sorted (w : W) (l : list (ErrorHandlerEntry W)) :
  ∃ em s', HeapErrorManager_new tt = Ret (em, tt)
    ∧ register_all l (mkEState em w) = Ret (tt, s')
    ∧ StronglySorted (λ a b, priority a ≤ priority b) (in_order (handlers (mgr s')))
    ∧ ∀ p, with_prio p (in_order (handlers (mgr s'))) = with_prio p l.
Proof.
  destruct (register_all_spec l (mkEState (mkHeapErrorManager [] empty_log false) w))
    as (s' & E & H & _ & _ & _ & F).
  { split; constructor. }
  exists (mkHeapErrorManager [] empty_log false), s'. split_and!; [reflexivity|exact E|by apply in_order_sorted|exact F].
Qed.

(** C24: [handle_error] gives an error to the matching handlers in order until
    one handles it, and reports [Handled], [Partial] or [Unhandled] accordingly;
    in panic mode an error that is not fatal reaches no handler.  A fatal error
    turns panic mode on, nothing turns it off, and every error adds exactly one
    entry, with the reported result, to the bounded log. *)
Theorem handle_error_correct e (s : EState W error_log) q :
  log_holds (log (mgr s)) q →
  let panicking := panic_mode (mgr s) in
  let fatal := ErrorCode.is_fatal (SystemError.code e) in
  let '(r, w') := if panicking && negb fatal then (Unhandled, world s)
                  else try_all (in_order (handlers (mgr s))) e (world s) Unhandled in
  ∃ l', handle_error e s
        = Ret (r, mkEState (mkHeapErrorManager (handlers (mgr s)) l' (panicking || fatal)) w')
      ∧ log_holds l' (RingBuffer.q_push ERROR_LOG_CAPACITY q (mkErrorLogEntry e r)).
Proof. exact (handle_error_spec e s q). Qed.

Fixpoint handle_errors (es : list SystemError.t) : M (EState W error_log) (list ErrorResult) :=
  match es with
  | [] => mret []
  | e :: r => x ← handle_error e; xs ← handle_errors r; mret (x :: xs)
  end.

(** Panic mode is a latch.  After a fatal error, any number of errors that
    are not fatal are all reported [Unhandled] without running a handler. *)
Theorem panic_mode_latches e es (s : EState W error_log) q :
  log_holds (log (mgr s)) q → ErrorCode.is_fatal (SystemError.code e) = true →
  Forall (λ e', ErrorCode.is_fatal (SystemError.code e') = false) es →
  ∃ r s1 s2, handle_error e s = Ret (r, s1) ∧ panic_mode (mgr s1) = true
    ∧ handle_errors es s1 = Ret (replicate (length es) Unhandled, s2)
    ∧ world s2 = world s1 ∧ panic_mode (mgr s2) = true.
Proof.
  intros H Hf Hes.
  assert (∀ es (s1 : EState W error_log) q1, log_holds (log (mgr s1)) q1 → panic_mode (mgr s1) = true →
            Forall (λ e', ErrorCode.is_fatal (SystemError.code e') = false) es →
            ∃ s2, handle_errors es s1 = Ret (replicate (length es) Unhandled, s2)
              ∧ world s2 = world s1 ∧ panic_mode (mgr s2) = true) as Hrun.
  { clear. intros es. induction es as [|e es IH]; intros s1 q1 H1 Hp Hes; [by exists s1|].
    apply Forall_cons in Hes as [He Hes].
    pose proof (handle_error_spec e s1 q1 H1) as Hs. rewrite Hp, He in Hs. simpl in Hs.
    destruct Hs as (l' & E & H'). destruct (IH (mkEState (mkHeapErrorManager (handlers (mgr s1)) l' true) (world s1)) _ H' eq_refl Hes) as (s2 & E2 & W2 & P2).
    exists s2. split_and!; try done. cbn [handle_errors].
    mstep_with ltac:(exact E). by mstep_with ltac:(exact E2). }
  pose proof (handle_error_spec e s q H) as Hs. rewrite Hf in Hs. cbn [negb] in Hs.
  rewrite andb_false_r, orb_true_r in Hs.
  destruct (try_all _ _ _ _) as [r w']. destruct Hs as (l' & E & H').
  destruct (Hrun es (mkEState (mkHeapErrorManager (handlers (mgr s)) l' true) w') _ H' eq_refl Hes) as (s2 & E2 & W2 & P2).
  do 3 eexists. split_and!; [exact E|done|exact E2|done|done].
Qed.

End theorems.

(** ** Instances *)

(** A timer handler that passes, a memory handler that handles, in a kernel
    whose state counts the calls. *)
Definition timer_entry : ErrorHandlerEntry Z :=
  mkErrorHandlerEntry 5 (Some ErrorSource.Trap) None (λ _ w, (Partial, w + 1)).
Definition memory_entry : ErrorHandlerEntry Z :=
  mkErrorHandlerEntry 1 (Some ErrorSource.Memory) None (λ _ w, (Handled, w + 10)).

Definition demo_manager : EState Z error_log :=
  mkEState (mkHeapErrorManager [(1, [memory_entry]); (5, [timer_entry])] empty_log false) 0.

Definition memory_error (l : ErrorLevel.t) : SystemError.t :=
  SystemError.new (ErrorCode.new ErrorSource.Memory l 3) EmptyString None 0 0.

Lemma handle_error_correct_witness :
  ∃ l', @handle_error Z error_log (@kernel_error_log Dev) (memory_error ErrorLevel.Error) demo_manager
        = Ret (Handled, mkEState (mkHeapErrorManager [(1, [memory_entry]); (5, [timer_entry])] l' false) 10)
      ∧ @log_holds _ _ (@kernel_error_log Dev) l'
          [mkErrorLogEntry (memory_error ErrorLevel.Error) Handled].
Proof.
  exact (@handle_error_correct Dev Z (memory_error ErrorLevel.Error) demo_manager [] empty_log_holds).
Defined.

Lemma panic_mode_latches_witness :
  ∃ r s1 s2, @handle_error Z error_log (@kernel_error_log Dev) (memory_error ErrorLevel.Fatal) demo_manager
             = Ret (r, s1)
    ∧ panic_mode (mgr s1) = true
    ∧ @handle_errors Dev Z [memory_error ErrorLevel.Error; memory_error ErrorLevel.Info] s1
      = Ret ([Unhandled; Unhandled], s2)
    ∧ world s2 = world s1 ∧ panic_mode (mgr s2) = true.
Proof.
  refine (@panic_mode_latches Dev Z (memory_error ErrorLevel.Fatal)
           [memory_error ErrorLevel.Error; memory_error ErrorLevel.Info] demo_manager []
           empty_log_holds eq_refl _).
  repeat constructor.
Defined.
