(* ===== verification/HandlerManager.v ===== *)
(** * The trap handler manager

    Models [src/trap/ds/handler.rs] and
    [src/trap/infrastructure/handler_manager.rs].  A registered handler is an
    [Arc<RwLock<HandlerEntry>>] that the caller, the handler lists and the handle
    map share: entries live in a store of cells, and the maps hold references to
    them.  The hasher behind [HandlerHandle::generate_id] is a parameter. *)

From Stdlib Require Import ZArith Lia String.
From stdpp Require Import base option numbers sorting strings gmap list.
From S2P Require Import Prelude TrapTypes BTree.

(** ** [handler.rs] *)

Definition KERNEL_REGISTRAR_ID : Z := 0.
Definition SYSTEM_REGISTRAR_ID : Z := 1.

(** [NEXT_ID.fetch_add(1, SeqCst)] on the counter, which starts at 2. *)
Definition NEXT_ID_INIT : Z := 2.
Definition generate_registrar_id : M Z Z := λ next_id, Ret (next_id, wrap64 (next_id + 1)).

Inductive TrapError : Type := ExecutionFailed | UnrecoverableState.

Module TrapHandlerResult.
Inductive t : Type := Handled | Pass | Failed (e : TrapError).
End TrapHandlerResult.

Inductive ProtectionLevel : Type := Kernel | System | User.

(** An [Arc] is the name of a cell of the store. *)
Abbreviation HandlerStore := nat.
Abbreviation PriorityMap := (BTreeMap Z (list HandlerStore)).
Abbreviation TrapMap := (BTreeMap TrapType.t PriorityMap).
Abbreviation HandleMap := (BTreeMap Z HandlerStore).

Section handlers.
Context {W : Type}.

(** [fn(&mut TrapContext) -> TrapHandlerResult]; [W] is the rest of the kernel. *)
Definition TrapHandler : Type :=
  TrapContext.t → W → TrapHandlerResult.t * TrapContext.t * W.

Record HandlerEntry : Type := mkHandlerEntry {
  handler : TrapHandler;
  priority : Z;
  description : string;
  protection_level : ProtectionLevel;
  registrar_id : Z;
  context_id : option Z;
}.

Definition can_be_unregistered_by (e : HandlerEntry) (id : Z) : bool :=
  match protection_level e with
  | Kernel => id =? KERNEL_REGISTRAR_ID
  | System => (id =? KERNEL_REGISTRAR_ID) || (id =? SYSTEM_REGISTRAR_ID)
  | User => (registrar_id e =? id) || (id =? KERNEL_REGISTRAR_ID)
  end.

Definition set_registrar_id (v : Z) (e : HandlerEntry) : HandlerEntry :=
  mkHandlerEntry (handler e) (priority e) (description e) (protection_level e) v (context_id e).

Record HandlerHandle : Type := mkHandlerHandle { id : Z }.

(** ** [handler_manager.rs] *)


Record HState : Type := mkHState {
  cells : gmap nat HandlerEntry;
  handlers : TrapMap;
  handle_map : HandleMap;
  world : W;
}.

Definition set_cells v (s : HState) := mkHState v (handlers s) (handle_map s) (world s).
Definition set_handlers v (s : HState) := mkHState (cells s) v (handle_map s) (world s).
Definition set_handle_map v (s : HState) := mkHState (cells s) (handlers s) v (world s).
Definition set_world v (s : HState) := mkHState (cells s) (handlers s) (handle_map s) v.

(** [arc.read()] *)
Definition read (c : HandlerStore) : M HState HandlerEntry := λ s,
  match cells s !! c with Some e => Ret (e, s) | None => Undef end.

(** [h.read().description == d], inside the closures of [any] and [retain]. *)
Definition described (d : string) (s : HState) (c : HandlerStore) : bool :=
  match cells s !! c with Some e => bool_decide (description e = d) | None => false end.

Context (hash : string → TrapType.t → Z).

Definition generate_id (d : string) (ty : TrapType.t) : HandlerHandle :=
  mkHandlerHandle (hash d ty).

Definition bt_key : TrapType.t → Z := TrapType.index.
Definition zkey (k : Z) : Z := k.

Definition register (trap_type : TrapType.t) (entry : HandlerStore)
    : M HState (result unit HandlerHandle) :=
  e ← read entry;
  let handle := generate_id (description e) trap_type in
  s ← gets (λ s, s);
  if bool_decide (is_Some (bt_get zkey (id handle) (handle_map s))) then mret (Err tt)
  else
    modify (set_handlers
      (bt_upsert bt_key trap_type []
         (bt_upsert zkey (priority e) [] (λ l, l ++ [entry])) (handlers s)));;
    modify (set_handle_map (bt_insert zkey (id handle) entry (handle_map s)));;
    mret (Ok handle).

(** The search of [unregister] for the trap type. *)
Fixpoint find_trap_type (m : TrapMap) (p : Z) (d : string) (s : HState) : option TrapType.t :=
  match m with
  | [] => None
  | (ty, p_map) :: rest =>
      match bt_get zkey p p_map with
      | Some p_vec => if existsb (described d s) p_vec then Some ty else find_trap_type rest p d s
      | None => find_trap_type rest p d s
      end
  end.

Definition retain (d : string) (s : HState) (l : list HandlerStore) : list HandlerStore :=
  filter (λ c, described d s c = false) l.

(** [priority_list.retain(..)], and [remove] when it is left empty. *)
Definition prune (p : Z) (d : string) (s : HState) (p_map : PriorityMap) : PriorityMap :=
  match bt_get zkey p p_map with
  | None => p_map
  | Some l =>
      match retain d s l with
      | [] => bt_remove zkey p p_map
      | l' => bt_modify zkey p (λ _, l') p_map
      end
  end.

Definition unregister (handle : HandlerHandle) (requester_id : Z) : M HState (result unit unit) :=
  s ← gets (λ s, s);
  match bt_get zkey (id handle) (handle_map s) with
  | None => mret (Err tt)
  | Some arc =>
      e ← read arc;
      if negb (can_be_unregistered_by e requester_id) then mret (Err tt)
      else
        match find_trap_type (handlers s) (priority e) (description e) s with
        | None => mret (Err tt)
        | Some ty =>
            modify (set_handlers
              (bt_modify bt_key ty (prune (priority e) (description e) s) (handlers s)));;
            modify (λ s, set_handle_map (bt_remove zkey (id handle) (handle_map s)) s);;
            mret (Ok tt)
        end
  end.

Definition transfer_ownership (handle : HandlerHandle) (current_owner new_owner : Z)
    : M HState (result unit unit) :=
  s ← gets (λ s, s);
  match bt_get zkey (id handle) (handle_map s) with
  | None => mret (Err tt)
  | Some arc =>
      e ← read arc;
      if negb (registrar_id e =? current_owner) && negb (current_owner =? KERNEL_REGISTRAR_ID)
      then mret (Err tt)
      else
        modify (set_cells (<[arc := set_registrar_id new_owner e]> (cells s)));;
        mret (Ok tt)
  end.

(** [handler_fn(context)] *)
Definition call (h : TrapHandler) (ctx : TrapContext.t)
    : M HState (TrapHandlerResult.t * TrapContext.t) :=
  λ s, let '(r, ctx', w) := h ctx (world s) in Ret ((r, ctx'), set_world w s).

(** The loops of [dispatch]; [true] is the early return of [Handled]. *)
Fixpoint cells_loop (l : list HandlerStore) (ctx : TrapContext.t)
    : M HState (bool * TrapContext.t) :=
  match l with
  | [] => mret (false, ctx)
  | c :: rest =>
      e ← read c;
      '(r, ctx') ← call (handler e) ctx;
      match r with
      | TrapHandlerResult.Handled => mret (true, ctx')
      | TrapHandlerResult.Failed _ => cells_loop rest ctx'
      | TrapHandlerResult.Pass => cells_loop rest ctx'
      end
  end.

Fixpoint priorities_loop (m : PriorityMap) (ctx : TrapContext.t) : M HState (bool * TrapContext.t) :=
  match m with
  | [] => mret (false, ctx)
  | (_, l) :: rest =>
      '(handled, ctx') ← cells_loop l ctx;
      if (handled : bool) then mret (true, ctx') else priorities_loop rest ctx'
  end.

Definition dispatch (ctx : TrapContext.t) : M HState (TrapHandlerResult.t * TrapContext.t) :=
  let trap_type := TrapCause.to_trap_type (TrapContext.cause ctx) in
  s ← gets (λ s, s);
  match bt_get bt_key trap_type (handlers s) with
  | Some priority_map =>
      '(handled, ctx') ← priorities_loop priority_map ctx;
      mret (if (handled : bool) then TrapHandlerResult.Handled else TrapHandlerResult.Pass, ctx')
  | None => mret (TrapHandlerResult.Pass, ctx)
  end.

(** The ids whose handler belongs to the context, in map order. *)
Definition context_handles (cid : Z) (s : HState) : list Z :=
  fst <$> filter (λ e : Z * HandlerStore,
             (cells s !! snd e) ≫= context_id = Some cid) (handle_map s).

Definition remove_context_handle (handle_id : Z) : M HState unit :=
  s ← gets (λ s, s);
  match bt_get zkey handle_id (handle_map s) with
  | None => mret tt
  | Some arc =>
      modify (set_handle_map (bt_remove zkey handle_id (handle_map s)));;
      e ← read arc;
      modify (λ s, set_handlers
        ((λ tp, (fst tp, bt_modify zkey (priority e) (retain (description e) s) (snd tp)))
           <$> handlers s) s)
  end.

Fixpoint remove_context_handles (ids : list Z) : M HState unit :=
  match ids with
  | [] => mret tt
  | i :: rest => remove_context_handle i;; remove_context_handles rest
  end.

Definition unregister_for_context (cid : Z) : M HState unit :=
  s ← gets (λ s, s);
  remove_context_handles (context_handles cid s).

(** [HeapHandlerManager::new] *)
Definition HeapHandlerManager_new (w : W) : HState := mkHState ∅ [] [] w.

(** [Arc::new(RwLock::new(entry))]: a fresh cell. *)
Definition new_cell (e : HandlerEntry) : M HState HandlerStore := λ s,
  let c := fresh (dom (cells s)) in Ret (c, set_cells (<[c := e]> (cells s)) s).

End handlers.

Arguments HandlerEntry : clear implicits.
Arguments HState : clear implicits.

(** ** Facts about the maps *)

#[export] Instance bt_key_inj : Inj eq eq bt_key.
Proof. apply TrapType.index_inj. Qed.
#[export] Instance zkey_inj : Inj eq eq zkey.
Proof. by intros ? ?. Qed.

Section manager.
Context {W : Type}.
Implicit Types s : HState W.

(** The handlers of one trap type and priority, in order of registration. *)
Definition slot s (ty : TrapType.t) (p : Z) : list nat :=
  default [] (bt_get zkey p (default [] (bt_get bt_key ty (handlers s)))).

(** The handlers of a trap type in the order [dispatch] tries them. *)
Definition dispatch_order s (ty : TrapType.t) : list nat :=
  mjoin (snd <$> default [] (bt_get bt_key ty (handlers s))).

Record hm_ok (hash : string → TrapType.t → Z) s : Prop := {
  hm_types : bt_sorted bt_key (handlers s);
  hm_priorities : ∀ ty pm, bt_get bt_key ty (handlers s) = Some pm → bt_sorted zkey pm;
  hm_handles : bt_sorted zkey (handle_map s);
  (** every listed handler is alive, at its priority, and has its handle *)
  hm_listed : ∀ ty p c, c ∈ slot s ty p →
    ∃ e, cells s !! c = Some e ∧ priority e = p
         ∧ bt_get zkey (hash (description e) ty) (handle_map s) = Some c;
  (** every handle leads to a listed handler *)
  hm_handled : ∀ i c, bt_get zkey i (handle_map s) = Some c →
    ∃ e ty, cells s !! c = Some e ∧ i = hash (description e) ty ∧ c ∈ slot s ty (priority e);
  hm_nodup : ∀ ty p, NoDup (slot s ty p);
}.

Lemma empty_ok hash cs (w : W) : hm_ok hash (mkHState cs [] [] w).
Proof.
  split; try (by constructor); try done.
  intros ty p c. by intros ?%elem_of_nil.
Qed.

(** Registration appends to one slot. *)
Lemma slot_upsert s ty p c ty' p' hm :
  slot (mkHState (cells s) (bt_upsert bt_key ty [] (bt_upsert zkey p [] (λ l, l ++ [c])) (handlers s))
          hm (world s)) ty' p'
  = if decide (ty' = ty ∧ p' = p) then slot s ty p ++ [c] else slot s ty' p'.
Proof.
  unfold slot. cbn [handlers]. rewrite (bt_get_upsert bt_key).
  destruct (decide (ty' = ty)) as [->|Hne].
  - simpl. rewrite (bt_get_upsert zkey). destruct (decide (p' = p)) as [->|Hne].
    + by rewrite decide_True.
    + rewrite decide_False; [done|]. tauto.
  - rewrite decide_False; [done|]. tauto.
Qed.

Section registration.
Context (hash : string → TrapType.t → Z).

Lemma register_spec s ty c e :
  hm_ok hash s → cells s !! c = Some e →
  bt_get zkey (hash (description e) ty) (handle_map s) = None →
  ∃ s', register hash ty c s = Ret (Ok (mkHandlerHandle (hash (description e) ty)), s')
    ∧ hm_ok hash s' ∧ cells s' = cells s ∧ world s' = world s
    ∧ (∀ ty' p', slot s' ty' p' = if decide (ty' = ty ∧ p' = priority e)
                                  then slot s ty (priority e) ++ [c] else slot s ty' p')
    ∧ (∀ i, bt_get zkey i (handle_map s')
            = if decide (i = hash (description e) ty) then Some c else bt_get zkey i (handle_map s)).
Proof.
  intros H Hc Hn. pose proof H as [H1 H2 H3 H4 H5 H6].
  set (hs := bt_upsert bt_key ty [] (bt_upsert zkey (priority e) [] (λ l, l ++ [c])) (handlers s)).
  set (hm := bt_insert zkey (hash (description e) ty) c (handle_map s)).
  exists (mkHState (cells s) hs hm (world s)).
  assert (∀ i, bt_get zkey i hm = if decide (i = hash (description e) ty) then Some c
                                  else bt_get zkey i (handle_map s)) as Hget
    by (intros i; apply bt_get_insert; apply _).
  pose proof (λ ty' p', slot_upsert s ty (priority e) c ty' p' hm) as Hslot. fold hs in Hslot.
  split_and!; try done.
  - unfold register. mstep_with ltac:(unfold read; rewrite Hc; reflexivity).
    mstep. cbn [generate_id id]. rewrite Hn. done.
  - split; cbn [handlers handle_map cells].
    + by apply bt_upsert_sorted.
    + intros ty' pm. unfold hs. rewrite (bt_get_upsert bt_key).
      destruct (decide (ty' = ty)) as [->|]; [|apply H2]. intros [= <-].
      apply bt_upsert_sorted. destruct (bt_get bt_key ty (handlers s)) eqn:G; [by eapply H2|constructor].
    + by apply bt_insert_sorted.
    + intros ty' p' c' Hin. rewrite Hslot in Hin.
      destruct (decide (ty' = ty ∧ p' = priority e)) as [[-> ->]|Hne].
      * apply elem_of_app in Hin as [Hin| ->%list_elem_of_singleton].
        -- destruct (H4 _ _ _ Hin) as (e' & Hc' & Hp & Hg). exists e'. split_and!; try done.
           rewrite Hget. rewrite decide_False; [done|]. intros E. congruence.
        -- exists e. split_and!; try done. rewrite Hget. by rewrite decide_True.
      * destruct (H4 _ _ _ Hin) as (e' & Hc' & Hp & Hg). exists e'. split_and!; try done.
        rewrite Hget. rewrite decide_False; [done|]. intros E. congruence.
    + intros i c' Hi. rewrite Hget in Hi. destruct (decide (i = _)) as [->|Hne].
      * injection Hi as <-. exists e, ty. split_and!; try done. rewrite Hslot.
        rewrite decide_True by done. elem.
      * destruct (H5 _ _ Hi) as (e' & ty' & Hc' & -> & Hin). exists e', ty'. split_and!; try done.
        rewrite Hslot. destruct (decide _) as [[-> Ep]|]; [|done]. rewrite <- Ep. elem.
    + intros ty' p'. rewrite Hslot. destruct (decide _) as [[-> ->]|]; [|done].
      apply NoDup_app. split_and!; [done| |apply NoDup_singleton].
      intros x Hx ->%list_elem_of_singleton. destruct (H4 _ _ _ Hx) as (e' & Hc' & _ & Hg).
      congruence.
Qed.

End registration.

(** ** Dispatch *)

(** Try handlers in turn, up to the first that handles the trap. *)
Fixpoint try_handlers (l : list (HandlerEntry W)) (ctx : TrapContext.t) (w : W)
    : bool * TrapContext.t * W :=
  match l with
  | [] => (false, ctx, w)
  | e :: rest =>
      match handler e ctx w with
      | (TrapHandlerResult.Handled, ctx', w') => (true, ctx', w')
      | (_, ctx', w') => try_handlers rest ctx' w'
      end
  end.

Lemma try_handlers_app l1 l2 ctx w :
  try_handlers (l1 ++ l2) ctx w =
  let '(h, ctx', w') := try_handlers l1 ctx w in
  if (h : bool) then (true, ctx', w') else try_handlers l2 ctx' w'.
Proof.
  revert ctx w; induction l1 as [|e l1 IH]; intros ctx w; [done|]. simpl.
  by destruct (handler e ctx w) as [[[] ctx'] w'].
Qed.

(** The entries behind a list of cells. *)
Definition entries s (l : list nat) (es : list (HandlerEntry W)) : Prop :=
  Forall2 (λ c e, cells s !! c = Some e) l es.

Lemma cells_loop_spec l es : ∀ s ctx,
  entries s l es →
  cells_loop l ctx s =
  let '(h, ctx', w') := try_handlers es ctx (world s) in Ret ((h, ctx'), set_world w' s).
Proof.
  revert es; induction l as [|c l IH]; intros es s ctx H; unfold entries in H.
  - apply Forall2_nil_inv_l in H as ->. simpl. by destruct s.
  - apply Forall2_cons_inv_l in H as (e & es' & Hc & H' & ->).
    cbn [cells_loop try_handlers]. mstep_with ltac:(unfold read; rewrite Hc; reflexivity).
    unfold call at 1, mbind, M_bind. destruct (handler e ctx (world s)) as [[r ctx'] w'].
    destruct r; [done|by rewrite (IH es')|by rewrite (IH es')].
Qed.

Lemma priorities_loop_spec (m : PriorityMap) es : ∀ s ctx,
  entries s (mjoin (snd <$> m)) es →
  priorities_loop m ctx s =
  let '(h, ctx', w') := try_handlers es ctx (world s) in Ret ((h, ctx'), set_world w' s).
Proof.
  revert es; induction m as [|[p l] m IH]; intros es s ctx H.
  - inversion H; subst. simpl. by destruct s.
  - csimpl in H. apply Forall2_app_inv_l in H as (es1 & es2 & H1 & H2 & ->).
    cbn [priorities_loop]. unfold mbind, M_bind. rewrite (cells_loop_spec l es1) by done.
    rewrite try_handlers_app. destruct (try_handlers es1 ctx (world s)) as [[h ctx'] w'].
    destruct h; [done|]. by rewrite (IH es2).
Qed.

Lemma dispatch_spec s ctx es :
  let ty := TrapCause.to_trap_type (TrapContext.cause ctx) in
  entries s (dispatch_order s ty) es →
  dispatch ctx s =
  let '(h, ctx', w') := try_handlers es ctx (world s) in
  Ret ((if (h : bool) then TrapHandlerResult.Handled else TrapHandlerResult.Pass, ctx'),
       set_world w' s).
Proof.
  intros ty H. unfold dispatch. fold ty. unfold dispatch_order in H.
  unfold mbind, M_bind, gets. destruct (bt_get bt_key ty (handlers s)) as [pm|] eqn:G.
  - rewrite (priorities_loop_spec pm es) by done.
    by destruct (try_handlers es ctx (world s)) as [[[] ctx'] w'].
  - inversion H; subst. simpl. by destruct s.
Qed.

(** In a well-formed manager every listed cell has an entry. *)
Lemma dispatch_order_elem hash s ty c :
  hm_ok hash s → c ∈ dispatch_order s ty → ∃ p, c ∈ slot s ty p.
Proof.
  intros [_ H2 _ _ _ _]. unfold dispatch_order, slot.
  destruct (bt_get bt_key ty (handlers s)) as [pm|] eqn:G; simpl; [|by intros ?%elem_of_nil].
  rewrite list_elem_of_join. intros (l & Hc & Hl). apply list_elem_of_fmap in Hl as ([p l'] & -> & Hl).
  exists p. rewrite (bt_elem_get zkey p pm l'); [done|by eapply H2|done].
Qed.

Lemma entries_exist hash s ty : hm_ok hash s → ∃ es, entries s (dispatch_order s ty) es.
Proof.
  intros H.
  assert (∀ c, c ∈ dispatch_order s ty → ∃ e, cells s !! c = Some e) as Hall.
  { intros c Hc. destruct (dispatch_order_elem _ _ _ _ H Hc) as [p Hp].
    destruct (hm_listed _ _ H _ _ _ Hp) as (e & He & _). eauto. }
  induction (dispatch_order s ty) as [|c l IH]; [exists []; constructor|].
  destruct (Hall c) as [e He]; [elem|]. destruct IH as [es Hes].
  { intros c' Hc'. apply Hall. elem. }
  exists (e :: es). by constructor.
Qed.

(** The order of the tries: by priority, registration order within one. *)
Lemma dispatch_order_priorities hash s ty es :
  hm_ok hash s → entries s (dispatch_order s ty) es →
  StronglySorted (λ a b, priority a ≤ priority b) es.
Proof.
  intros H. pose proof (hm_priorities _ _ H ty) as Hpm. pose proof (hm_listed _ _ H ty) as Hls.
  unfold dispatch_order, slot in *.
  destruct (bt_get bt_key ty (handlers s)) as [pm|]; simpl in *; [|inversion 1; constructor].
  specialize (Hpm pm eq_refl).
  assert (∀ p l, (p, l) ∈ pm → ∀ c e, c ∈ l → cells s !! c = Some e → priority e = p) as Hpr.
  { intros p l Hl c e Hc He. destruct (Hls p c) as (e' & He' & Hp & _); [|congruence].
    by rewrite (bt_elem_get zkey p pm l). }
  clear Hls H. revert es. unfold bt_sorted in Hpm.
  induction Hpm as [|[p l] pm Hs IH Hall]; intros es He; csimpl in He.
  { inversion He; constructor. }
  apply Forall2_app_inv_l in He as (es1 & es2 & H1 & H2 & ->).
  assert (StronglySorted (λ a b, priority a ≤ priority b) es2) as S2.
  { apply IH; [|done]. intros p' l' Hl. apply Hpr. elem. }
  assert (Forall (λ e, priority e = p) es1) as P1.
  { apply Forall_forall. intros e Hin. apply list_elem_of_lookup in Hin as [i Hi].
    destruct (Forall2_lookup_r _ _ _ _ _ H1 Hi) as (c & Hc & Hce).
    apply (Hpr p l) with c; [elem|by eapply list_elem_of_lookup_2|done]. }
  assert (Forall (λ e, p ≤ priority e) es2) as P2.
  { apply Forall_forall. intros e Hin. apply list_elem_of_lookup in Hin as [i Hi].
    destruct (Forall2_lookup_r _ _ _ _ _ H2 Hi) as (c & Hc & Hce).
    apply list_elem_of_lookup_2 in Hc. apply list_elem_of_join in Hc as (l' & Hc & Hl).
    apply list_elem_of_fmap in Hl as ([p' l''] & -> & Hl).
    rewrite Forall_forall in Hall. specialize (Hall _ Hl). simpl in Hall. unfold zkey in Hall.
    rewrite (Hpr p' l'' ltac:(elem) c e Hc Hce). lia. }
  clear -P1 P2 S2. induction P1 as [|e es Ep P1 IH]; [done|]. simpl. constructor; [done|].
  apply Forall_app. split; [eapply Forall_impl; [exact P1|]; simpl; intros ? ->; lia|].
  eapply Forall_impl; [exact P2|]. simpl. lia.
Qed.

(** ** Removal *)

Lemma described_spec d s c :
  described d s c = true ↔ ∃ e, cells s !! c = Some e ∧ description e = d.
Proof.
  unfold described. destruct (cells s !! c) as [e|].
  - rewrite bool_decide_eq_true. split; [eauto|by intros (? & [= <-] & ?)].
  - split; [done|by intros (? & ? & _)].
Qed.

Lemma retain_elem d s l c : c ∈ retain d s l ↔ described d s c = false ∧ c ∈ l.
Proof. unfold retain. by rewrite list_elem_of_filter. Qed.

Lemma find_trap_type_Some m p d s ty :
  find_trap_type m p d s = Some ty →
  ∃ pm l c, (ty, pm) ∈ m ∧ bt_get zkey p pm = Some l ∧ c ∈ l ∧ described d s c = true.
Proof.
  induction m as [|[ty' pm] m IH]; simpl; [done|].
  destruct (bt_get zkey p pm) as [l|] eqn:G.
  - destruct (existsb _ l) eqn:E.
    + intros [= <-]. apply existsb_exists in E as (c & Hc & Hd). apply list_elem_of_In in Hc.
      exists pm, l, c. split_and!; try done. elem.
    + intros F. destruct (IH F) as (pm' & l' & c & ? & ?). exists pm', l', c. split; [elem|done].
  - intros F. destruct (IH F) as (pm' & l' & c & ? & ?). exists pm', l', c. split; [elem|done].
Qed.

Lemma find_trap_type_None m p d s ty pm l c :
  find_trap_type m p d s = None → (ty, pm) ∈ m → bt_get zkey p pm = Some l → c ∈ l →
  described d s c = false.
Proof.
  induction m as [|[ty' pm'] m IH]; simpl; [by intros _ ?%elem_of_nil|].
  intros F [[= <- <-]|Hin]%elem_of_cons G Hc.
  - rewrite G in F. destruct (existsb _ l) eqn:E; [done|].
    destruct (described d s c) eqn:D; [|done]. assert (existsb (described d s) l = true); [|congruence].
    apply existsb_exists. exists c. split; [by apply list_elem_of_In|done].
  - destruct (bt_get zkey p pm') as [l'|]; [destruct (existsb _ l'); [done|]|]; by apply IH.
Qed.

(** It is the first in the order of the map. *)
Lemma find_trap_type_first m p d s ty ty' pm l c :
  bt_sorted bt_key m → find_trap_type m p d s = Some ty →
  (ty', pm) ∈ m → bt_get zkey p pm = Some l → c ∈ l → described d s c = true →
  bt_key ty ≤ bt_key ty'.
Proof.
  unfold bt_sorted. induction 1 as [|[ty1 pm1] m Hs IH Hall]; simpl; [done|].
  intros F Hin G Hc Hd.
  assert (∀ x, x ∈ m → bt_key ty1 < bt_key x.1) as Hlt by (by apply Forall_forall).
  destruct (bt_get zkey p pm1) as [l1|] eqn:G1.
  - destruct (existsb (described d s) l1) eqn:E.
    + injection F as <-. apply elem_of_cons in Hin as [[= <- <-]|Hin]; [lia|].
      apply Hlt in Hin. simpl in Hin. lia.
    + apply elem_of_cons in Hin as [[= <- <-]|Hin]; [|by apply IH].
      assert (existsb (described d s) l1 = true); [|congruence]. apply existsb_exists.
      exists c. split; [apply list_elem_of_In; congruence|done].
  - apply elem_of_cons in Hin as [[= <- <-]|Hin]; [congruence|by apply IH].
Qed.

Lemma get_prune p d s pm p' :
  default [] (bt_get zkey p' (prune p d s pm)) =
  if decide (p' = p) then retain d s (default [] (bt_get zkey p pm)) else default [] (bt_get zkey p' pm).
Proof.
  unfold prune. destruct (bt_get zkey p pm) as [l|] eqn:G; simpl.
  - destruct (retain d s l) as [|c l'] eqn:R.
    + rewrite (bt_get_remove zkey). by destruct (decide (p' = p)).
    + rewrite (bt_get_modify zkey). destruct (decide (p' = p)) as [->|]; [|done]. by rewrite G.
  - destruct (decide (p' = p)) as [->|]; [|done]. by rewrite G.
Qed.

Lemma prune_sorted p d s pm : bt_sorted zkey pm → bt_sorted zkey (prune p d s pm).
Proof.
  intros H. unfold prune. destruct (bt_get zkey p pm); [|done].
  destruct (retain d s l); auto with rustos.
Qed.

(** No other listed handler has the priority and description of [e]. *)
Definition sole s (c : nat) (e : HandlerEntry W) (ty : TrapType.t) : Prop :=
  ∀ ty' c' e', c' ∈ slot s ty' (priority e) → cells s !! c' = Some e' →
    description e' = description e → c' = c ∧ ty' = ty.

Lemma slot_modify s ty p d ty' p' hm :
  slot (mkHState (cells s) (bt_modify bt_key ty (prune p d s) (handlers s)) hm (world s)) ty' p'
  = if decide (ty' = ty ∧ p' = p) then retain d s (slot s ty p) else slot s ty' p'.
Proof.
  unfold slot. cbn [handlers]. rewrite (bt_get_modify bt_key).
  destruct (decide (ty' = ty)) as [->|Hne]; [|rewrite decide_False; [done|tauto]].
  destruct (bt_get bt_key ty (handlers s)) as [pm|]; simpl.
  - rewrite get_prune. destruct (decide (p' = p)) as [->|]; [by rewrite decide_True|].
    rewrite decide_False; [done|tauto].
  - by destruct (decide _).
Qed.

(** The search by priority and description finds the type of a sole entry. *)
Lemma find_trap_type_sole s c e ty :
  bt_sorted bt_key (handlers s) → cells s !! c = Some e → c ∈ slot s ty (priority e) → sole s c e ty →
  find_trap_type (handlers s) (priority e) (description e) s = Some ty.
Proof.
  intros H1 Hc Hin Hsole.
  assert (described (description e) s c = true) as Hd by (apply described_spec; eauto).
  destruct (find_trap_type _ _ _ s) as [ty'|] eqn:F.
  - apply find_trap_type_Some in F as (pm & l & c' & Hty & Hl & Hc' & Hd').
    apply described_spec in Hd' as (e' & He' & Ed).
    destruct (Hsole ty' c' e') as [_ ->]; try done. unfold slot.
    rewrite (bt_elem_get bt_key ty' _ pm) by done. simpl. by rewrite Hl.
  - unfold slot in Hin. destruct (bt_get bt_key ty (handlers s)) as [pm|] eqn:G; simpl in Hin;
      [|by apply elem_of_nil in Hin].
    destruct (bt_get zkey (priority e) pm) as [l|] eqn:G'; [|by apply elem_of_nil in Hin].
    apply (bt_get_elem bt_key) in G.
    by rewrite (find_trap_type_None _ _ _ _ _ _ _ _ F G G' Hin) in Hd.
Qed.

(** Pruning the slot of a sole entry removes that entry only. *)
Lemma slot_pruned_elem hash s c e ty ty' p' c' hm :
  hm_ok hash s → cells s !! c = Some e → sole s c e ty →
  c' ∈ slot (mkHState (cells s) (bt_modify bt_key ty (prune (priority e) (description e) s) (handlers s))
               hm (world s)) ty' p'
  ↔ c' ∈ slot s ty' p' ∧ ¬ (ty' = ty ∧ c' = c).
Proof.
  intros H Hc Hsole. rewrite slot_modify. destruct (decide (ty' = ty ∧ p' = priority e)) as [[-> ->]|Hne].
  - rewrite retain_elem. split.
    + intros [Hd Hc']. split; [done|]. intros [_ ->].
      assert (described (description e) s c = true) by (apply described_spec; eauto). congruence.
    + intros [Hc' Hn]. split; [|done]. destruct (described _ s c') eqn:D; [|done].
      apply described_spec in D as (e' & He' & Ed). destruct (Hsole ty c' e' Hc' He' Ed). tauto.
  - split; [|tauto]. intros Hc'. split; [done|]. intros [-> ->].
    destruct (hm_listed _ _ H _ _ _ Hc') as (e' & He' & Hp & _). apply Hne. split; [done|congruence].
Qed.

Lemma unregister_spec hash s i c e ty req :
  hm_ok hash s → bt_get zkey i (handle_map s) = Some c → cells s !! c = Some e →
  c ∈ slot s ty (priority e) → sole s c e ty → can_be_unregistered_by e req = true →
  ∃ s', unregister (mkHandlerHandle i) req s = Ret (Ok tt, s')
    ∧ hm_ok hash s' ∧ cells s' = cells s ∧ world s' = world s
    ∧ (∀ i', bt_get zkey i' (handle_map s')
             = if decide (i' = i) then None else bt_get zkey i' (handle_map s))
    ∧ (∀ ty' p' c', c' ∈ slot s' ty' p' ↔ c' ∈ slot s ty' p' ∧ ¬ (ty' = ty ∧ c' = c)).
Proof.
  intros H Hi Hc Hin Hsole Hreq. pose proof H as [H1 H2 H3 H4 H5 H6].
  pose proof (find_trap_type_sole s c e ty H1 Hc Hin Hsole) as Hfind.
  set (hs := bt_modify bt_key ty (prune (priority e) (description e) s) (handlers s)).
  set (hm := bt_remove zkey i (handle_map s)).
  exists (mkHState (cells s) hs hm (world s)).
  assert (∀ i', bt_get zkey i' hm = if decide (i' = i) then None else bt_get zkey i' (handle_map s))
    as Hget by (intros i'; apply bt_get_remove; apply _).
  pose proof (λ ty' p', slot_modify s ty (priority e) (description e) ty' p' hm) as Hslot.
  fold hs in Hslot.
  pose proof (λ ty' p' c', slot_pruned_elem hash s c e ty ty' p' c' hm H Hc Hsole) as Hel. fold hs in Hel.
  split_and!; try done.
  - unfold unregister. mstep. cbn [id]. rewrite Hi.
    mstep_with ltac:(unfold read; rewrite Hc; reflexivity). rewrite Hreq, Hfind. done.
  - split; cbn [handlers handle_map cells].
    + by apply bt_modify_sorted.
    + intros ty' pm. unfold hs. rewrite (bt_get_modify bt_key).
      destruct (decide (ty' = ty)) as [->|]; [|apply H2].
      destruct (bt_get bt_key ty (handlers s)) as [pm'|] eqn:G; [|done].
      intros [= <-]. by apply prune_sorted, (H2 ty).
    + by apply bt_remove_sorted.
    + intros ty' p' c' [Hc' Hn]%Hel. destruct (H4 _ _ _ Hc') as (e' & He' & Hp & Hg).
      exists e'. split_and!; try done. rewrite Hget. rewrite decide_False; [done|].
      intros E. rewrite E in Hg. assert (c' = c) as -> by congruence.
      assert (e' = e) as -> by congruence. subst p'.
      destruct (Hsole ty' c e Hc' He' eq_refl). tauto.
    + intros i' c' Hi'. rewrite Hget in Hi'. destruct (decide (i' = i)) as [|Hne]; [done|].
      destruct (H5 _ _ Hi') as (e' & ty' & He' & -> & Hs'). exists e', ty'. split_and!; try done.
      apply Hel. split; [done|]. intros [-> ->]. assert (e' = e) as -> by congruence.
      apply Hne. destruct (H4 _ _ _ Hs') as (e2 & He2 & _ & Hg2).
      assert (e2 = e) as -> by congruence.
      destruct (H5 _ _ Hi) as (e3 & ty3 & He3 & -> & Hs3). assert (e3 = e) as -> by congruence.
      by destruct (Hsole ty3 c e Hs3 He3 eq_refl) as [_ ->].
    + intros ty' p'. rewrite Hslot. destruct (decide _); [|done]. by apply NoDup_filter.
Qed.

(** ** Cleanup of a context *)

Lemma remove_context_handle_spec s i c e :
  bt_get zkey i (handle_map s) = Some c → cells s !! c = Some e →
  ∃ s', remove_context_handle i s = Ret (tt, s')
    ∧ cells s' = cells s ∧ world s' = world s ∧ handle_map s' = bt_remove zkey i (handle_map s)
    ∧ ∀ ty p, slot s' ty p = if decide (p = priority e) then retain (description e) s (slot s ty p)
                             else slot s ty p.
Proof.
  intros Hi Hc. eexists. split; [|split_and!].
  - unfold remove_context_handle. mstep. rewrite Hi. mstep.
    mstep_with ltac:(unfold read; cbn [cells set_handle_map]; rewrite Hc; reflexivity). reflexivity.
  - done.
  - done.
  - done.
  - intros ty p. unfold slot. cbn [handlers set_handlers set_handle_map].
    rewrite (bt_get_map_values bt_key).
    destruct (bt_get bt_key ty (handlers s)) as [pm|]; simpl; [|by destruct (decide _)].
    rewrite (bt_get_modify zkey). destruct (decide (p = priority e)) as [->|]; [|done].
    by destruct (bt_get zkey (priority e) pm).
Qed.

(** Removing a list of distinct handles: each takes its handle out and every
    listed handler with its priority and description. *)
Lemma remove_context_handles_spec ids : ∀ s,
  NoDup ids →
  (∀ i, i ∈ ids → ∃ c e, bt_get zkey i (handle_map s) = Some c ∧ cells s !! c = Some e) →
  ∃ s', remove_context_handles ids s = Ret (tt, s')
    ∧ cells s' = cells s ∧ world s' = world s
    ∧ (∀ i, bt_get zkey i (handle_map s')
            = if decide (i ∈ ids) then None else bt_get zkey i (handle_map s))
    ∧ (∀ ty p c, c ∈ slot s' ty p ↔ c ∈ slot s ty p ∧
         ∀ i c' e', i ∈ ids → bt_get zkey i (handle_map s) = Some c' → cells s !! c' = Some e' →
           p = priority e' → described (description e') s c = false).
Proof.
  induction ids as [|i ids IH]; intros s Hnd Hids.
  { exists s. split_and!; try done. intros ty p c. split; [|tauto]. intros Hc. split; [done|].
    by intros ? ? ? ?%elem_of_nil. }
  apply NoDup_cons in Hnd as [Hni Hnd].
  destruct (Hids i ltac:(elem)) as (c & e & Hi & Hc).
  destruct (remove_context_handle_spec s i c e Hi Hc) as (s1 & E1 & C1 & W1 & M1 & S1).
  assert (∀ j, bt_get zkey j (handle_map s1)
               = if decide (j = i) then None else bt_get zkey j (handle_map s)) as G1
    by (intros j; rewrite M1; apply bt_get_remove; apply _).
  destruct (IH s1 Hnd) as (s2 & E2 & C2 & W2 & M2 & S2).
  { intros j Hj. destruct (Hids j ltac:(elem)) as (c' & e' & Hj' & Hc'). exists c', e'.
    rewrite G1, C1. rewrite decide_False; [done|]. by intros ->. }
  exists s2. split_and!; try congruence.
  - cbn [remove_context_handles]. by mstep_with ltac:(exact E1).
  - intros j. rewrite M2, G1. destruct (decide (j ∈ i :: ids)) as [Hj|Hj].
    + apply elem_of_cons in Hj as [->|Hj]; [|by rewrite decide_True].
      rewrite (decide_True (P := i = i)) by done. by destruct (decide (i ∈ ids)).
    + rewrite !decide_False; [done|..]; [intros ->|intros ?]; apply Hj; elem.
  - assert (∀ d x, described d s1 x = described d s x) as Hd by (intros d x; unfold described; by rewrite C1).
    intros ty p x. rewrite S2, S1. split.
    + intros [Hx Hrest].
      assert (x ∈ slot s ty p ∧ (p = priority e → described (description e) s x = false)) as [Hx' He].
      { destruct (decide (p = priority e)) as [->|]; [apply retain_elem in Hx; tauto|done]. }
      split; [done|]. intros j c' e' [->|Hj]%elem_of_cons Hjc He' Hp.
      * assert (c' = c) as -> by congruence. assert (e' = e) as -> by congruence. auto.
      * rewrite <- Hd. eapply (Hrest j c' e'); try done; [|by rewrite C1].
        rewrite G1, decide_False; [done|]. by intros ->.
    + intros [Hx Hrest]. split.
      * destruct (decide (p = priority e)) as [->|]; [|done]. apply retain_elem. split; [|done].
        eapply (Hrest i c e); try done. elem.
      * intros j c' e' Hj Hjc He' Hp. rewrite Hd. rewrite C1 in He'.
        rewrite G1 in Hjc. destruct (decide (j = i)) as [|Hne]; [done|].
        eapply (Hrest j c' e'); try done. elem.
Qed.

Lemma context_handles_spec s cid i :
  bt_sorted zkey (handle_map s) →
  i ∈ context_handles cid s ↔
  ∃ c e, bt_get zkey i (handle_map s) = Some c ∧ cells s !! c = Some e ∧ context_id e = Some cid.
Proof.
  intros H3. unfold context_handles. rewrite list_elem_of_fmap. split.
  - intros ([i' c] & -> & [Hcid Hin]%list_elem_of_filter). simpl in *.
    apply bind_Some in Hcid as (e & Hc & He). exists c, e. split_and!; try done.
    by apply (bt_elem_get zkey).
  - intros (c & e & Hi & Hc & He). exists (i, c). split; [done|]. apply list_elem_of_filter.
    split; [by simpl; rewrite Hc|]. by apply (bt_get_elem zkey).
Qed.

Lemma sorted_keys_nodup (m : HandleMap) : bt_sorted zkey m → NoDup (fst <$> m).
Proof.
  unfold bt_sorted. induction 1 as [|[k v] m Hs IH Hall]; csimpl; constructor; [|done].
  intros ([k' v'] & E & Hin)%list_elem_of_fmap. simpl in E. subst.
  rewrite Forall_forall in Hall. specialize (Hall _ Hin). simpl in Hall. lia.
Qed.

Lemma context_handles_nodup s cid : bt_sorted zkey (handle_map s) → NoDup (context_handles cid s).
Proof.
  intros H3. unfold context_handles. apply sorted_keys_nodup in H3.
  revert H3. generalize (handle_map s). intros m. induction m as [|[k v] m IH]; [done|]. rewrite fmap_cons.
  intros [Hn Hnd]%NoDup_cons. rewrite filter_cons. case_decide; [|auto]. rewrite fmap_cons. constructor; [|auto].
  intros ([k' v'] & E & [_ Hin]%list_elem_of_filter)%list_elem_of_fmap. simpl in E. subst. apply Hn.
  apply list_elem_of_fmap. by exists (k', v').
Qed.

End manager.

(** ** Theorems *)

Section theorems.
Context {W : Type} (hash : string → TrapType.t → Z).
Implicit Types s : HState W.

(** C18: Dispatching a trap runs the handlers registered for its type, ordered by
    priority, each on the context the one before left, and stops at the first
    that handles it.  A handler that passes or fails is skipped, so the answer
    is [Handled] or [Pass], never [Failed]; the registrations do not change. *)
Theorem dispatch_correct s ctx :
  hm_ok hash s →
  let ty := TrapCause.to_trap_type (TrapContext.cause ctx) in
  ∃ es, entries s (dispatch_order s ty) es
    ∧ StronglySorted (λ a b, priority a ≤ priority b) es
    ∧ (∀ e, e ∈ es ↔ ∃ c, c ∈ slot s ty (priority e) ∧ cells s !! c = Some e)
    ∧ dispatch ctx s =
      let '(handled, ctx', w') := try_handlers es ctx (world s) in
      Ret ((if (handled : bool) then TrapHandlerResult.Handled else TrapHandlerResult.Pass, ctx'),
           set_world w' s).
Proof.
  intros H ty. destruct (entries_exist hash s ty H) as [es Hes]. exists es.
  split_and!; [done|by eapply dispatch_order_priorities| |by apply dispatch_spec].
  intros e. split.
  - intros [i Hi]%list_elem_of_lookup. destruct (Forall2_lookup_r _ _ _ _ _ Hes Hi) as (c & Hc & He).
    exists c. split; [|done]. apply list_elem_of_lookup_2 in Hc.
    destruct (dispatch_order_elem _ _ _ _ H Hc) as [p Hp].
    destruct (hm_listed _ _ H _ _ _ Hp) as (e' & He' & <- & _). by assert (e' = e) as -> by congruence.
  - intros (c & Hc & He). assert (c ∈ dispatch_order s ty) as Hin.
    { unfold slot in Hc. unfold dispatch_order.
      destruct (bt_get bt_key ty (handlers s)) as [pm|]; simpl in *; [|by apply elem_of_nil in Hc].
      destruct (bt_get zkey (priority e) pm) as [l|] eqn:G; [|by apply elem_of_nil in Hc].
      apply list_elem_of_join. exists l. split; [done|]. apply list_elem_of_fmap.
      exists (priority e, l). split; [done|]. by apply (bt_get_elem zkey). }
    apply list_elem_of_lookup in Hin as [i Hi].
    destruct (Forall2_lookup_l _ _ _ _ _ Hes Hi) as (e' & He' & Hce).
    assert (e' = e) as -> by congruence. by eapply list_elem_of_lookup_2.
Qed.

(** Registration.  A second handler with the same handle is refused and
    nothing changes; otherwise the handler goes last in the list of its type
    and priority, its handle leads to it, every other list and handle is as
    before, and the maps stay consistent. *)
Theorem register_correct s ty c e :
  hm_ok hash s → cells s !! c = Some e →
  let i := hash (description e) ty in
  (is_Some (bt_get zkey i (handle_map s)) → register hash ty c s = Ret (Err tt, s))
  ∧ (bt_get zkey i (handle_map s) = None →
     ∃ s', register hash ty c s = Ret (Ok (mkHandlerHandle i), s')
       ∧ hm_ok hash s' ∧ cells s' = cells s
       ∧ (∀ ty' p', slot s' ty' p' = if decide (ty' = ty ∧ p' = priority e)
                                     then slot s ty (priority e) ++ [c] else slot s ty' p')
       ∧ (∀ j, bt_get zkey j (handle_map s')
               = if decide (j = i) then Some c else bt_get zkey j (handle_map s))).
Proof.
  intros H Hc i. split.
  - intros Hs. unfold register. mstep_with ltac:(unfold read; rewrite Hc; reflexivity).
    mstep. cbn [generate_id id]. fold i. by rewrite bool_decide_eq_true_2.
  - intros Hn. destruct (register_spec hash s ty c e H Hc Hn) as (s' & E & H' & C & _ & S & G).
    exists s'. by split_and!.
Qed.

(** C22: Unregistration by an allowed requester removes exactly the handler its
    handle names, provided no other handler of the same priority has the same
    description; its handle is gone, all others and all other handlers stay, and
    the maps stay consistent. *)
Theorem unregister_correct s i c e ty req :
  hm_ok hash s → bt_get zkey i (handle_map s) = Some c → cells s !! c = Some e →
  c ∈ slot s ty (priority e) → sole s c e ty → can_be_unregistered_by e req = true →
  ∃ s', unregister (mkHandlerHandle i) req s = Ret (Ok tt, s')
    ∧ hm_ok hash s' ∧ cells s' = cells s
    ∧ (∀ i', bt_get zkey i' (handle_map s')
             = if decide (i' = i) then None else bt_get zkey i' (handle_map s))
    ∧ (∀ ty' p' c', c' ∈ slot s' ty' p' ↔ c' ∈ slot s ty' p' ∧ ¬ (ty' = ty ∧ c' = c)).
Proof.
  intros H Hi Hc Hin Hs Hr.
  destruct (unregister_spec hash s i c e ty req H Hi Hc Hin Hs Hr) as (s' & E & H' & C & _ & G & S).
  exists s'. by split_and!.
Qed.


(** When a context ends, [unregister_for_context] leaves no handle and no
    listed handler that belongs to it. *)
Theorem context_cleanup_complete s cid :
  hm_ok hash s →
  ∃ s', unregister_for_context cid s = Ret (tt, s')
    ∧ cells s' = cells s ∧ world s' = world s
    ∧ (∀ i c e, bt_get zkey i (handle_map s') = Some c → cells s' !! c = Some e →
         context_id e ≠ Some cid)
    ∧ (∀ ty p c e, c ∈ slot s' ty p → cells s' !! c = Some e → context_id e ≠ Some cid)
    ∧ (∀ i c e, bt_get zkey i (handle_map s) = Some c → cells s !! c = Some e →
         context_id e ≠ Some cid → bt_get zkey i (handle_map s') = Some c).
Proof.
  intros H. destruct (remove_context_handles_spec (context_handles cid s) s) as (s' & E & C & Wd & G & S).
  { by apply context_handles_nodup, H. }
  { intros i (c & e & ? & ? & _)%context_handles_spec; [eauto|apply H]. }
  exists s'. split_and!; try done; rewrite ?C.
  - intros i c e Hi Hc Hcid. rewrite G in Hi. destruct (decide _) as [|Hn]; [done|].
    apply Hn, context_handles_spec; [apply H|eauto].
  - intros ty p c e Hin Hc Hcid. apply S in Hin as [Hin Hall].
    destruct (hm_listed _ _ H _ _ _ Hin) as (e' & Hc' & Hp & Hg). assert (e' = e) as -> by congruence.
    assert (described (description e) s c = false) as Hd.
    { eapply (Hall (hash (description e) ty) c e); try done.
      apply context_handles_spec; [apply H|eauto]. }
    assert (described (description e) s c = true) by (apply described_spec; eauto). congruence.
  - intros i c e Hi Hc Hcid. rewrite G, decide_False; [done|].
    intros (c' & e' & ? & ? & ?)%context_handles_spec; [congruence|apply H].
Qed.

End theorems.

(** ** An instance: two handlers, one of them bound to context 7 *)

Module Demo.

Definition hash (d : string) (ty : TrapType.t) : Z :=
  Z.of_nat (String.length d) * TrapType.COUNT + TrapType.index ty.

(** The kernel state counts the calls. *)
Definition tick : HandlerEntry Z :=
  mkHandlerEntry (λ ctx w, (TrapHandlerResult.Handled, ctx, w + 1)) 10 "tick" Kernel 0 None.
Definition trace : HandlerEntry Z :=
  mkHandlerEntry (λ ctx w, (TrapHandlerResult.Failed ExecutionFailed, ctx, w + 100)) 3 "trace" User 5
    (Some 7).

Definition s0 : HState Z := mkHState {[0%nat := tick; 1%nat := trace]} [] [] 0.
Definition s1 : HState Z := mkHState (cells s0)
  [(TrapType.TimerInterrupt, [(10, [0%nat])])] [(64, 0%nat)] 0.
Definition s2 : HState Z := mkHState (cells s0)
  [(TrapType.TimerInterrupt, [(3, [1%nat]); (10, [0%nat])])] [(64, 0%nat); (80, 1%nat)] 0.

(** A timer interrupt. *)
Definition timer_trap : TrapContext.t := TrapContext.mk (replicate 32 0) 0 0 (2 ^ 63 + 5) 0.

Lemma s1_ok : hm_ok hash s1.
Proof.
  destruct (register_spec hash s0 TrapType.TimerInterrupt 0%nat tick (empty_ok _ _ _) eq_refl eq_refl)
    as (s' & E & H & _).
  assert (register hash TrapType.TimerInterrupt 0%nat s0 = Ret (Ok (mkHandlerHandle 64), s1)) as E'
    by (vm_compute; reflexivity).
  rewrite E in E'. injection E' as ->. exact H.
Qed.

Lemma s2_ok : hm_ok hash s2.
Proof.
  destruct (register_spec hash s1 TrapType.TimerInterrupt 1%nat trace s1_ok eq_refl eq_refl)
    as (s' & E & H & _).
  assert (register hash TrapType.TimerInterrupt 1%nat s1 = Ret (Ok (mkHandlerHandle 80), s2)) as E'
    by (vm_compute; reflexivity).
  rewrite E in E'. injection E' as ->. exact H.
Qed.

End Demo.

Lemma dispatch_correct_witness :
  dispatch Demo.timer_trap Demo.s2
  = Ret ((TrapHandlerResult.Handled, Demo.timer_trap), set_world 101 Demo.s2).
Proof.
  destruct (dispatch_correct Demo.hash Demo.s2 Demo.timer_trap Demo.s2_ok) as (es & Hes & _ & _ & ->).
  apply Forall2_cons_inv_l in Hes as (e1 & es1 & E1 & Hes & ->).
  apply Forall2_cons_inv_l in Hes as (e2 & es2 & E2 & Hes & ->).
  apply Forall2_nil_inv_l in Hes as ->. injection E1 as <-. injection E2 as <-. reflexivity.
Defined.

Lemma register_correct_witness :
  register Demo.hash TrapType.TimerInterrupt 1%nat Demo.s2 = Ret (Err tt, Demo.s2).
Proof.
  apply (register_correct Demo.hash Demo.s2 TrapType.TimerInterrupt 1%nat Demo.trace Demo.s2_ok eq_refl).
  exists 1%nat. reflexivity.
Defined.

Lemma unregister_correct_witness :
  ∃ s', unregister (mkHandlerHandle 80) 5 Demo.s2 = Ret (Ok tt, s') ∧ hm_ok Demo.hash s'.
Proof.
  destruct (unregister_correct Demo.hash Demo.s2 80 1%nat Demo.trace TrapType.TimerInterrupt 5 Demo.s2_ok)
    as (s' & E & H & _); [reflexivity|reflexivity|by constructor| |reflexivity|].
  - intros ty c' e' Hin Hc Hd. destruct (hm_listed _ _ Demo.s2_ok _ _ _ Hin) as (e2 & Hc2 & Hp & Hg).
    assert (e2 = e') as -> by congruence. rewrite Hd in Hg. destruct ty; try discriminate Hg.
    injection Hg as <-. done.
  - exists s'. split; [exact E|exact H].
Defined.


Lemma context_cleanup_complete_witness :
  ∃ s', unregister_for_context 7 Demo.s2 = Ret (tt, s') ∧ 1%nat ∉ slot s' TrapType.TimerInterrupt 3.
Proof.
  destruct (context_cleanup_complete Demo.hash Demo.s2 7 Demo.s2_ok) as (s' & E & C & _ & _ & H & _).
  exists s'. split; [exact E|]. intros Hin. apply (H _ _ _ Demo.trace Hin); [|reflexivity].
  rewrite C. reflexivity.
Defined.
