(* ===== verification/HandlerSafety.v ===== *)
(** * The handler manager never loses a reference

    [hm_ok] of [HandlerManager.v] ties handles and lists together, and the
    defect of [unregister] on shared entries breaks that tie.  What no operation
    breaks is [hm_alive]: the maps are sorted and every handler they name exists.
    On such a manager each operation of the [HandlerManager] trait returns and
    leaves such a manager. *)

From Stdlib Require Import ZArith Lia String.
From stdpp Require Import base option numbers sorting strings gmap list.
From S2P Require Import Prelude TrapTypes BTree HandlerManager.

Section alive.
Context {W : Type} (hash : string → TrapType.t → Z).
Implicit Types s : HState W.

Record hm_alive s : Prop := {
  al_types : bt_sorted bt_key (handlers s);
  al_priorities : ∀ ty pm, bt_get bt_key ty (handlers s) = Some pm → bt_sorted zkey pm;
  al_handles : bt_sorted zkey (handle_map s);
  al_listed : ∀ ty p c, c ∈ slot s ty p → is_Some (cells s !! c);
  al_handled : ∀ i c, bt_get zkey i (handle_map s) = Some c → is_Some (cells s !! c);
}.

Lemma hm_ok_alive s : hm_ok hash s → hm_alive s.
Proof.
  intros [H1 H2 H3 H4 H5 _]. split; try done.
  - intros ty p c Hc. destruct (H4 _ _ _ Hc) as (e & He & _). by exists e.
  - intros i c Hc. destruct (H5 _ _ Hc) as (e & ty & He & _). by exists e.
Qed.

Lemma alive_set_world s w : hm_alive s → hm_alive (set_world w s).
Proof. intros []. by split. Qed.

Lemma alive_new_cell e s :
  hm_alive s → ∃ c s', new_cell e s = Ret (c, s') ∧ hm_alive s' ∧ cells s' !! c = Some e.
Proof.
  intros [H1 H2 H3 H4 H5]. eexists _, _. split; [reflexivity|]. cbn [cells set_cells].
  split; [|apply lookup_insert_eq].
  assert (∀ c c', is_Some (cells s !! c) → is_Some (<[c' := e]> (cells s) !! c)) as Hext
    by (intros c c' Hc; destruct (decide (c = c')) as [->|]; [rewrite lookup_insert_eq|rewrite lookup_insert_ne]; done).
  split; try done; cbn [cells set_cells]; intros; apply Hext; eauto.
Qed.

Lemma alive_register ty c s :
  hm_alive s → is_Some (cells s !! c) →
  ∃ r s', register hash ty c s = Ret (r, s') ∧ hm_alive s'.
Proof.
  intros H [e He]. pose proof H as [H1 H2 H3 H4 H5]. unfold register.
  destruct (bool_decide (is_Some (bt_get zkey (hash (description e) ty) (handle_map s)))) eqn:Eb.
  { eexists _, _. split; [|exact H]. mstep_with ltac:(unfold read; rewrite He; reflexivity). mstep.
    cbn [generate_id id]. by rewrite Eb. }
  eexists _, _. split.
  { mstep_with ltac:(unfold read; rewrite He; reflexivity). mstep. cbn [generate_id id]. rewrite Eb. reflexivity. }
  split; cbn [handlers handle_map cells set_handle_map set_handlers].
  - by apply bt_upsert_sorted.
  - intros ty' pm. rewrite (bt_get_upsert bt_key).
    destruct (decide (ty' = ty)) as [->|]; [|apply H2]. intros [= <-].
    apply bt_upsert_sorted. destruct (bt_get bt_key ty (handlers s)) eqn:G; [by eapply H2|constructor].
  - by apply bt_insert_sorted.
  - intros ty' p' c' Hin.
    pose proof (slot_upsert s ty (priority e) c ty' p'
      (bt_insert zkey (hash (description e) ty) c (handle_map s))) as Hs.
    unfold set_handle_map, set_handlers in Hin. cbn [cells handlers handle_map world] in Hin.
    rewrite Hs in Hin. destruct (decide _); [|by eapply H4].
    apply elem_of_app in Hin as [Hin| ->%list_elem_of_singleton]; [by eapply H4|by exists e].
  - intros i c'. rewrite (bt_get_insert zkey). destruct (decide _); [|apply H5]. intros [= <-]. by exists e.
Qed.

Lemma alive_unregister h req s :
  hm_alive s → ∃ r s', unregister h req s = Ret (r, s') ∧ hm_alive s'.
Proof.
  intros H. pose proof H as [H1 H2 H3 H4 H5]. unfold unregister.
  destruct (bt_get zkey (id h) (handle_map s)) as [c|] eqn:G.
  2:{ eexists _, _. split; [|exact H]. mstep. by rewrite G. }
  destruct (H5 _ _ G) as [e He].
  destruct (negb (can_be_unregistered_by e req)) eqn:Ea.
  { eexists _, _. split; [|exact H]. mstep. rewrite G.
    mstep_with ltac:(unfold read; rewrite He; reflexivity). by rewrite Ea. }
  destruct (find_trap_type (handlers s) (priority e) (description e) s) as [ty|] eqn:F.
  2:{ eexists _, _. split; [|exact H]. mstep. rewrite G.
      mstep_with ltac:(unfold read; rewrite He; reflexivity). by rewrite Ea, F. }
  eexists _, _. split.
  { mstep. rewrite G. mstep_with ltac:(unfold read; rewrite He; reflexivity). rewrite Ea, F. reflexivity. }
  split; cbn [handlers handle_map cells set_handle_map set_handlers].
  - by apply bt_modify_sorted.
  - intros ty' pm. rewrite (bt_get_modify bt_key). destruct (decide _); [|apply H2].
    intros (pm' & Hpm & ->)%fmap_Some. by apply prune_sorted, (H2 ty').
  - by apply bt_remove_sorted.
  - intros ty' p' c' Hin.
    pose proof (slot_modify s ty (priority e) (description e) ty' p' (bt_remove zkey (id h) (handle_map s))) as Hs.
    unfold set_handle_map, set_handlers in Hin. cbn [cells handlers handle_map world] in Hin.
    rewrite Hs in Hin. destruct (decide _) as [[-> ->]|]; [apply retain_elem in Hin as [_ Hin]|]; by eapply H4.
  - intros i c'. rewrite (bt_get_remove zkey). destruct (decide _); [done|apply H5].
Qed.

Lemma alive_transfer h cur new s :
  hm_alive s → ∃ r s', transfer_ownership h cur new s = Ret (r, s') ∧ hm_alive s'.
Proof.
  intros H. pose proof H as [H1 H2 H3 H4 H5]. unfold transfer_ownership.
  destruct (bt_get zkey (id h) (handle_map s)) as [c|] eqn:G.
  2:{ eexists _, _. split; [|exact H]. mstep. by rewrite G. }
  destruct (H5 _ _ G) as [e He].
  destruct (negb (registrar_id e =? cur) && negb (cur =? KERNEL_REGISTRAR_ID)) eqn:Ea.
  { eexists _, _. split; [|exact H]. mstep. rewrite G.
    mstep_with ltac:(unfold read; rewrite He; reflexivity). by rewrite Ea. }
  eexists _, _. split.
  { mstep. rewrite G. mstep_with ltac:(unfold read; rewrite He; reflexivity). rewrite Ea. reflexivity. }
  assert (∀ c', is_Some (cells s !! c') → is_Some (<[c := set_registrar_id new e]> (cells s) !! c')) as Hext.
  { intros c' Hc. destruct (decide (c' = c)) as [->|]; [rewrite lookup_insert_eq|rewrite lookup_insert_ne]; done. }
  split; try done; cbn [cells set_cells]; intros; apply Hext; eauto.
Qed.

Lemma alive_order s ty :
  hm_alive s → ∃ es, entries s (dispatch_order s ty) es.
Proof.
  intros [H1 H2 H3 H4 H5].
  assert (∀ c, c ∈ dispatch_order s ty → is_Some (cells s !! c)) as Hin.
  { intros c Hc. unfold dispatch_order in Hc.
    apply list_elem_of_join in Hc as (l & Hc & ([p l'] & -> & Hl)%list_elem_of_fmap).
    apply (H4 ty p). unfold slot. destruct (bt_get bt_key ty (handlers s)) as [pm|] eqn:G; [|by apply elem_of_nil in Hl].
    simpl in *. by rewrite (bt_elem_get zkey _ _ _ (H2 _ _ G) Hl). }
  revert Hin. generalize (dispatch_order s ty). intros l. induction l as [|c l IH]; intros Hin.
  { exists []. constructor. }
  destruct (Hin c ltac:(elem)) as [e He]. destruct IH as [es Hes]; [intros c' Hc'; apply Hin; elem|].
  exists (e :: es). by constructor.
Qed.

Lemma alive_dispatch ctx s :
  hm_alive s → ∃ r ctx' w', dispatch ctx s = Ret ((r, ctx'), set_world w' s).
Proof.
  intros H. destruct (alive_order s (TrapCause.to_trap_type (TrapContext.cause ctx)) H) as [es Hes].
  pose proof (dispatch_spec s ctx es Hes) as E.
  destruct (try_handlers es ctx (world s)) as [[h ctx'] w']. eauto.
Qed.

Lemma alive_remove_context_handle i s :
  hm_alive s → ∃ s', remove_context_handle i s = Ret (tt, s') ∧ hm_alive s' ∧ cells s' = cells s.
Proof.
  intros H. pose proof H as [H1 H2 H3 H4 H5].
  destruct (bt_get zkey i (handle_map s)) as [c|] eqn:G.
  2:{ exists s. split; [|done]. unfold remove_context_handle. mstep. by rewrite G. }
  destruct (H5 _ _ G) as [e He].
  destruct (remove_context_handle_spec s i c e G He) as (s' & E & C & _ & M1 & S1).
  exists s'. split_and!; try done.
  assert (handlers s' = (λ tp, (fst tp, bt_modify zkey (priority e) (retain (description e) s) (snd tp)))
            <$> handlers s) as Hh.
  { unfold remove_context_handle in E. apply bind_inv in E as (x & t & E1 & E). injection E1 as <- <-.
    rewrite G in E. apply bind_inv in E as (? & t & E1 & E). injection E1 as <- <-.
    apply bind_inv in E as (e' & t & E1 & E). unfold read in E1. cbn [cells set_handle_map] in E1.
    rewrite He in E1. injection E1 as <- <-. by injection E as <-. }
  split; rewrite ?C, ?M1.
  - rewrite Hh. by apply bt_map_values_sorted.
  - intros ty pm. rewrite Hh, (bt_get_map_values bt_key). intros (pm' & Hpm & ->)%fmap_Some.
    by apply bt_modify_sorted, (H2 ty).
  - by apply bt_remove_sorted.
  - intros ty p c' Hin. rewrite S1 in Hin.
    destruct (decide _); [apply retain_elem in Hin as [_ Hin]|]; by eapply H4.
  - intros j c'. rewrite (bt_get_remove zkey). destruct (decide _); [done|apply H5].
Qed.

Lemma alive_remove_context_handles ids s :
  hm_alive s → ∃ s', remove_context_handles ids s = Ret (tt, s') ∧ hm_alive s' ∧ cells s' = cells s.
Proof.
  revert s. induction ids as [|i ids IH]; intros s H; [by exists s|].
  destruct (alive_remove_context_handle i s H) as (s1 & E1 & H1 & C1).
  destruct (IH s1 H1) as (s2 & E2 & H2 & C2). exists s2. split_and!; [|done|congruence].
  cbn [remove_context_handles]. by mstep_with ltac:(exact E1).
Qed.

(** The handle belongs to a handler registered for the context. *)
Definition handle_of_context s (cid : Z) (h : HandlerHandle) : Prop :=
  ∃ c e, bt_get zkey (id h) (handle_map s) = Some c ∧ cells s !! c = Some e ∧ context_id e = Some cid.

(** Cleaning up a context takes exactly its handles. *)
Lemma alive_context cid s :
  hm_alive s →
  ∃ s', unregister_for_context cid s = Ret (tt, s') ∧ hm_alive s'
    ∧ ∀ c h, handle_of_context s' c h ↔ handle_of_context s c h ∧ c ≠ cid.
Proof.
  intros H. pose proof (al_handles _ H) as Hs.
  destruct (remove_context_handles_spec (context_handles cid s) s) as (s' & E & C & _ & G & _).
  { by apply context_handles_nodup. }
  { intros i (c & e & ? & ? & _)%context_handles_spec; [eauto|done]. }
  destruct (alive_remove_context_handles (context_handles cid s) s H) as (s2 & E2 & H2 & _).
  rewrite E in E2. injection E2 as <-.
  exists s'. split_and!; [exact E|done|]. intros c h. unfold handle_of_context. rewrite C.
  setoid_rewrite G. destruct (decide _) as [Hin|Hin].
  - apply context_handles_spec in Hin as (a & e & Ha & He & Hc); [|done].
    split; [by intros (? & ? & ? & _)|]. intros [(a' & e' & Ha' & He' & Hc') Hne].
    exfalso. apply Hne. congruence.
  - split; [|by intros [? _]]. intros (a & e & Ha & He & Hc). split; [eauto|]. intros ->.
    apply Hin, context_handles_spec; [done|eauto].
Qed.

End alive.
