(* ===== verification/TrapSystem.v ===== *)
(** * The trap system

    Models the container that joins the managers
    ([src/trap/infrastructure/di/container.rs]), its global instance and
    initialisation ([di/mod.rs]), the supervisor CSR accesses
    ([infrastructure/low_level.rs]) and the public API ([src/trap/api.rs]).
    The state of the whole subsystem is [KState]; a second [lock] of the global
    spin mutex by its holder never returns. *)

From Stdlib Require Import ZArith Lia String.
From stdpp Require Import base option numbers sorting strings gmap list.
From S2P Require Import Prelude RingBuffer TrapTypes BTree ErrorManager HandlerManager.

Module EM := ErrorManager.
Module HM := HandlerManager.

(** ** [low_level.rs] *)

(** The two CSRs of the hart. *)
Record Hart : Type := mkHart { sstatus : Z; stvec : Z }.

(** [1 << 1], the SIE bit. *)
Definition SIE : Z := Z.shiftl 1 1.

Definition sie_set (v : Z) : bool := negb (Z.land v SIE =? 0).

(** [csrrci] and [csrrc]: old value out, mask cleared; [csrs]: mask set. *)
Definition csr_clear (mask : Z) : M Hart Z :=
  λ h, Ret (sstatus h, mkHart (Z.ldiff (sstatus h) mask) (stvec h)).
Definition csr_set (mask : Z) : M Hart unit :=
  λ h, Ret (tt, mkHart (Z.lor (sstatus h) mask) (stvec h)).

Section low_level.
Context (trap_entry : Z).   (* the address of [__trap_entry] *)

Definition init_trap_vector (mode : TrapMode) : M Hart unit :=
  let stvec_value := Z.lor trap_entry (TrapMode_discriminant mode) in
  modify (λ h, mkHart (sstatus h) stvec_value).
End low_level.

Definition enable_interrupts : M Hart bool :=
  s ← csr_clear (Z.shiftl 1 1);
  mret (negb (Z.land s (Z.shiftl 1 1) =? 0)).

Definition disable_interrupts : M Hart bool :=
  s ← csr_clear (Z.shiftl 1 1);
  mret (negb (Z.land s (Z.shiftl 1 1) =? 0)).

Definition restore_interrupts (was_enabled : bool) : M Hart unit :=
  if was_enabled then csr_set (Z.shiftl 1 1) else mret tt.

(** ** Formatting of the error messages *)

Definition hex_digit (d : Z) : string :=
  match d with
  | 0 => "0" | 1 => "1" | 2 => "2" | 3 => "3" | 4 => "4" | 5 => "5" | 6 => "6" | 7 => "7"
  | 8 => "8" | 9 => "9" | 10 => "a" | 11 => "b" | 12 => "c" | 13 => "d" | 14 => "e" | _ => "f"
  end.
Fixpoint hex_digits (fuel : nat) (n : Z) (acc : string) : string :=
  match fuel with
  | O => acc
  | S fuel' =>
      let acc' := (hex_digit (n mod 16) ++ acc)%string in
      if n <? 16 then acc' else hex_digits fuel' (n / 16) acc'
  end.
(** [{:#x}] of a 64-bit value: at most sixteen digits. *)
Definition hex (n : Z) : string := ("0x" ++ hex_digits 16 n EmptyString)%string.

(** The derived [Debug] of [TrapType]. *)
Definition debug_trap_type (t : TrapType.t) : string :=
  match t with
  | TrapType.TimerInterrupt => "TimerInterrupt"
  | TrapType.ExternalInterrupt => "ExternalInterrupt"
  | TrapType.SoftwareInterrupt => "SoftwareInterrupt"
  | TrapType.SystemCall => "SystemCall"
  | TrapType.InstructionPageFault => "InstructionPageFault"
  | TrapType.LoadPageFault => "LoadPageFault"
  | TrapType.StorePageFault => "StorePageFault"
  | TrapType.InstructionAccessFault => "InstructionAccessFault"
  | TrapType.LoadAccessFault => "LoadAccessFault"
  | TrapType.StoreAccessFault => "StoreAccessFault"
  | TrapType.IllegalInstruction => "IllegalInstruction"
  | TrapType.Breakpoint => "Breakpoint"
  | TrapType.InstructionMisaligned => "InstructionMisaligned"
  | TrapType.LoadMisaligned => "LoadMisaligned"
  | TrapType.StoreMisaligned => "StoreMisaligned"
  | TrapType.Unknown => "Unknown"
  end.
Definition debug_trap_error (e : HM.TrapError) : string :=
  match e with
  | HM.ExecutionFailed => "ExecutionFailed"
  | HM.UnrecoverableState => "UnrecoverableState"
  end.

(** ** The container *)

Section system.
Context {P : Profile} {W : Type} (hash : string → TrapType.t → Z) (trap_entry : Z).

Record KState : Type := mkKState {
  hart : Hart;
  (** [INITIALIZED] *)
  initialized : bool;
  (** [GLOBAL_TRAP_SYSTEM] is [Some], and its mutex is held *)
  installed : bool;
  locked : bool;
  (** the managers of the instance, and the kernel state their handlers see *)
  hm : HM.HState W;
  em : EM.HeapErrorManager W EM.error_log;
}.

Definition on_hart {A} (m : M Hart A) : M KState A :=
  zoom hart (λ h s, mkKState h (initialized s) (installed s) (locked s) (hm s) (em s)) m.
Definition on_handlers {A} (m : M (HM.HState W) A) : M KState A :=
  zoom hm (λ h s, mkKState (hart s) (initialized s) (installed s) (locked s) h (em s)) m.
Definition on_errors {A} (m : M (EM.EState W EM.error_log) A) : M KState A :=
  zoom (λ s, EM.mkEState (em s) (HM.world (hm s)))
    (λ e s, mkKState (hart s) (initialized s) (installed s) (locked s)
              (HM.set_world (EM.world e) (hm s)) (EM.mgr e)) m.

(** The texts of the two reports.  The storage that [alloc::format!] takes for them
    from the heap, and what happens when it cannot, is in [TrapHeap.v]. *)
Definition unhandled_message (ctx : TrapContext.t) : string :=
  ("Unhandled trap: " ++ debug_trap_type (TrapCause.to_trap_type (TrapContext.cause ctx))
   ++ ", SEPC: " ++ hex (TrapContext.sepc ctx) ++ ", STVAL: " ++ hex (TrapContext.stval ctx))%string.
Definition failed_message (ctx : TrapContext.t) (e : HM.TrapError) : string :=
  ("Trap handler failed for " ++ debug_trap_type (TrapCause.to_trap_type (TrapContext.cause ctx))
   ++ ": " ++ debug_trap_error e ++ ", SEPC: " ++ hex (TrapContext.sepc ctx))%string.

Definition trap_report (lvl : ErrorLevel.t) (message : string) (ctx : TrapContext.t) : SystemError.t :=
  SystemError.new
    (ErrorCode.new ErrorSource.Trap lvl (wrap16 (TrapCause.code (TrapContext.cause ctx))))
    message (Some (TrapContext.stval ctx)) (TrapContext.sepc ctx) 0.

(** [TrapSystem::handle_trap]: the context is passed by reference; the message is a
    value ([TrapHeap.v] charges it to the heap). *)
Definition handle_trap (ctx : TrapContext.t) : M KState TrapContext.t :=
  '(r, ctx') ← on_handlers (HM.dispatch ctx);
  match r with
  | HM.TrapHandlerResult.Handled => mret ctx'
  | HM.TrapHandlerResult.Pass =>
      on_errors (EM.handle_error (trap_report ErrorLevel.Critical (unhandled_message ctx') ctx'));;
      mret ctx'
  | HM.TrapHandlerResult.Failed e =>
      on_errors (EM.handle_error (trap_report ErrorLevel.Error (failed_message ctx' e) ctx'));;
      mret ctx'
  end.

(** ** [di/mod.rs] *)

Definition set_locked (b : bool) : M KState unit :=
  modify (λ s, mkKState (hart s) (initialized s) (installed s) b (hm s) (em s)).

(** Lock, [expect], run, unlock at the end of the scope. *)
Definition with_trap_system {A} (f : M KState A) : M KState A :=
  s ← gets (λ s, s);
  if locked s then hang
  else if negb (installed s) then panic
  else
    set_locked true;;
    r ← f;
    set_locked false;;
    mret r.

Definition is_initialized : M KState bool := gets initialized.

Definition dispatch_trap (ctx : TrapContext.t) : M KState TrapContext.t :=
  with_trap_system (handle_trap ctx).

Definition page_fault_handler : HM.TrapHandler (W := W) := λ ctx w,
  (HM.TrapHandlerResult.Pass, ctx, w).
Definition illegal_instruction_handler : HM.TrapHandler (W := W) := λ ctx w,
  (HM.TrapHandlerResult.Pass, ctx, w).

Definition page_fault_entry : HM.HandlerEntry W :=
  HM.mkHandlerEntry page_fault_handler 10 "Default Page Fault Handler" HM.Kernel
    HM.KERNEL_REGISTRAR_ID None.
Definition illegal_inst_entry : HM.HandlerEntry W :=
  HM.mkHandlerEntry illegal_instruction_handler 10 "Default Illegal Instruction Handler" HM.Kernel
    HM.KERNEL_REGISTRAR_ID None.

(** [.expect(..)] *)
Definition expect {S A E} (m : M S (result E A)) : M S A :=
  r ← m; match r with Ok a => mret a | Err _ => panic end.

(** One [Arc] serves all three page faults. *)
Definition register_default_enhanced_handlers : M (HM.HState W) unit :=
  pf ← HM.new_cell page_fault_entry;
  expect (HM.register hash TrapType.LoadPageFault pf);;
  expect (HM.register hash TrapType.StorePageFault pf);;
  expect (HM.register hash TrapType.InstructionPageFault pf);;
  ii ← HM.new_cell illegal_inst_entry;
  expect (HM.register hash TrapType.IllegalInstruction ii);;
  mret tt.

(** The new managers replace those of the static (there are none before); the
    store of cells and the kernel state are those of the machine. *)
Definition initialize_trap_system (mode : TrapMode) : M KState unit :=
  s ← gets (λ s, s);
  if initialized s then panic
  else
    l ← EM.HeapErrorManager_new;
    modify (λ s, mkKState (hart s) true (installed s) (locked s)
      (HM.mkHState (HM.cells (hm s)) [] [] (HM.world (hm s))) l);;
    on_hart (init_trap_vector trap_entry mode);;
    on_handlers register_default_enhanced_handlers;;
    s ← gets (λ s, s);
    if locked s then hang
    else modify (λ s, mkKState (hart s) (initialized s) true (locked s) (hm s) (em s)).

(** ** [api.rs] *)

Inductive TrapApiError : Type :=
| SystemNotInitialized | RegistrationFailed | UnregistrationFailed | OwnershipTransferFailed
| HandlerNotFound | PermissionDenied | InternalError.

(** [.map_err(|_| e)] *)
Definition map_err {A E E'} (e : E') (r : result E A) : result E' A :=
  match r with Ok a => Ok a | Err _ => Err e end.

Definition register_trap_handler (trap_type : TrapType.t) (handler_fn : HM.TrapHandler)
    (priority : Z) (description : string) (protection_level : HM.ProtectionLevel)
    (registrar_id : Z) (context_id : option Z) : M KState (result TrapApiError HM.HandlerHandle) :=
  i ← is_initialized;
  if negb i then mret (Err SystemNotInitialized)
  else
    arc ← on_handlers (HM.new_cell (HM.mkHandlerEntry handler_fn priority description
                                      protection_level registrar_id context_id));
    r ← with_trap_system (on_handlers (HM.register hash trap_type arc));
    mret (map_err RegistrationFailed r).

Definition unregister_trap_handler (handle : HM.HandlerHandle) (requester_id : Z)
    : M KState (result TrapApiError unit) :=
  i ← is_initialized;
  if negb i then mret (Err SystemNotInitialized)
  else
    r ← with_trap_system (on_handlers (HM.unregister handle requester_id));
    mret (map_err UnregistrationFailed r).

Definition transfer_handler_ownership (handle : HM.HandlerHandle) (current_owner_id new_owner_id : Z)
    : M KState (result TrapApiError unit) :=
  i ← is_initialized;
  if negb i then mret (Err SystemNotInitialized)
  else
    r ← with_trap_system (on_handlers (HM.transfer_ownership handle current_owner_id new_owner_id));
    mret (map_err OwnershipTransferFailed r).

Definition api_enable_interrupts : M KState bool :=
  i ← is_initialized;
  if negb i then mret false else with_trap_system (on_hart enable_interrupts).

Definition api_disable_interrupts : M KState bool :=
  i ← is_initialized;
  if negb i then mret false else with_trap_system (on_hart disable_interrupts).

Definition api_restore_interrupts (was_enabled : bool) : M KState unit :=
  i ← is_initialized;
  if negb i then mret tt else with_trap_system (on_hart (restore_interrupts was_enabled)).

(** The closure registers with a manager of its own, which is dropped. *)
Definition register_error_handler (priority : Z) (source : option ErrorSource.t)
    (level : option ErrorLevel.t) (handler : EM.ErrorHandlerFn)
    : M KState (result TrapApiError unit) :=
  i ← is_initialized;
  if negb i then mret (Err SystemNotInitialized)
  else
    r ← with_trap_system
          (manager_instance ← EM.HeapErrorManager_new;
           s ← gets (λ s, s);
           match EM.register_handler priority source level handler
                   (EM.mkEState manager_instance (HM.world (hm s))) with
           | Ret (r, _) => mret r
           | _ => undef
           end);
    mret (map_err RegistrationFailed r).

Definition report_system_error (error : SystemError.t) : M KState ErrorResult :=
  i ← is_initialized;
  if negb i then mret Unhandled
  else with_trap_system (on_errors (EM.handle_error error)).

Definition create_system_error := SystemError.new.

End system.

Arguments KState : clear implicits.

(** ** Interrupt control *)

Lemma SIE_val : SIE = 2.
Proof. done. Qed.

Lemma land_SIE v : Z.land v SIE = if Z.testbit v 1 then 2 else 0.
Proof.
  rewrite SIE_val. apply Z.bits_inj'. intros n Hn. rewrite Z.land_spec.
  change 2 with (2 ^ 1) at 1. rewrite Z.pow2_bits_eqb by lia.
  destruct (Z.eqb_spec 1 n) as [<-|Hne].
  - rewrite andb_true_r. by destruct (Z.testbit v 1).
  - rewrite andb_false_r. destruct (Z.testbit v 1); [|by rewrite Z.bits_0].
    change 2 with (2 ^ 1). rewrite Z.pow2_bits_eqb by lia. symmetry. by apply Z.eqb_neq.
Qed.

Lemma sie_set_spec v : sie_set v = Z.testbit v 1.
Proof. unfold sie_set. rewrite land_SIE. by destruct (Z.testbit v 1). Qed.

(** [disable_interrupts] clears the SIE bit and reports whether it was set;
    [restore_interrupts] with that report brings the status register back to
    exactly what it was.  But [enable_interrupts] does not enable anything: it
    clears the SIE bit like [disable_interrupts]. *)
Theorem interrupt_control h :
  ∃ h1, disable_interrupts h = Ret (sie_set (sstatus h), h1)
    ∧ sie_set (sstatus h1) = false
    ∧ restore_interrupts (sie_set (sstatus h)) h1 = Ret (tt, h)
    ∧ enable_interrupts h = Ret (sie_set (sstatus h), h1).
Proof.
  exists (mkHart (Z.ldiff (sstatus h) SIE) (stvec h)). split_and!; [done| | |done].
  - rewrite sie_set_spec. cbn [sstatus]. rewrite Z.ldiff_spec, SIE_val. by rewrite andb_false_r.
  - unfold restore_interrupts. rewrite sie_set_spec.
    assert (∀ b, (if b : bool then csr_set (Z.shiftl 1 1) else mret tt)
                   (mkHart (Z.ldiff (sstatus h) SIE) (stvec h)) =
            Ret (tt, mkHart (if b then Z.lor (Z.ldiff (sstatus h) SIE) SIE
                             else Z.ldiff (sstatus h) SIE) (stvec h))) as Hrun by (by intros []).
    rewrite Hrun. destruct h as [v e]. cbn [sstatus stvec]. do 3 f_equal.
    apply Z.bits_inj'. intros n Hn.
    assert (Z.testbit SIE n = (1 =? n)) as Hs
      by (rewrite SIE_val; change 2 with (2 ^ 1); apply Z.pow2_bits_eqb; lia).
    destruct (Z.testbit v 1) eqn:E; rewrite ?Z.lor_spec, Z.ldiff_spec, Hs;
      destruct (Z.eqb_spec 1 n) as [<-|]; rewrite ?E; try done;
      by rewrite ?andb_true_r, ?orb_false_r.
Qed.

(** ** Handling a trap *)

Section theorems.
Context {P : Profile} {W : Type} (hash : string → TrapType.t → Z) (trap_entry : Z).
Implicit Types s : KState W.

(** A running system: installed, not locked, managers consistent, log [q]. *)
Record running s (q : list ErrorLogEntry) : Prop := {
  rn_init : initialized s = true;
  rn_installed : installed s = true;
  rn_unlocked : locked s = false;
  rn_handlers : HM.hm_ok hash (hm s);
  rn_log : log_holds (EM.log (em s)) q;
}.

Lemma hm_ok_world (s : HM.HState W) w : HM.hm_ok hash s → HM.hm_ok hash (HM.set_world w s).
Proof. intros []. by split. Qed.

Lemma with_trap_system_run {A} (f : M (KState W) A) s s' a :
  installed s = true → locked s = false →
  f (mkKState (hart s) (initialized s) true true (hm s) (em s)) = Ret (a, s') →
  with_trap_system f s
  = Ret (a, mkKState (hart s') (initialized s') (installed s') false (hm s') (em s')).
Proof.
  intros Hi Hl E. unfold with_trap_system. mstep. rewrite Hl, Hi. cbn [negb].
  mstep_with ltac:(unfold set_locked, modify; rewrite Hi; reflexivity).
  mstep_with ltac:(exact E). mstep. reflexivity.
Qed.

(** The error report of a trap nobody handled. *)
Definition unhandled_report (ctx : TrapContext.t) : SystemError.t :=
  trap_report ErrorLevel.Critical (unhandled_message ctx) ctx.

(** C19: A trap in a running system is dispatched to its handlers; when one
    handles it, nothing is logged, and when none does, exactly one critical
    error that carries the trap's code, address and program counter goes through
    the error manager and into the log.  The handling returns, releases the
    global lock and leaves the system running. *)
Theorem dispatch_trap_correct s q ctx :
  running s q →
  let ty := TrapCause.to_trap_type (TrapContext.cause ctx) in
  ∃ es, HM.entries (hm s) (HM.dispatch_order (hm s) ty) es
  ∧ let '(handled, ctx', w') := HM.try_handlers es ctx (HM.world (hm s)) in
    ∃ s', dispatch_trap ctx s = Ret (ctx', s')
    ∧ if (handled : bool) then running s' q ∧ em s' = em s ∧ HM.world (hm s') = w'
      else
        let e := unhandled_report ctx' in
        let '(r, w2) := if EM.panic_mode (em s) && negb (ErrorCode.is_fatal (SystemError.code e))
                        then (Unhandled, w')
                        else EM.try_all (EM.in_order (EM.handlers (em s))) e w' Unhandled in
        running s' (RingBuffer.q_push EM.ERROR_LOG_CAPACITY q (mkErrorLogEntry e r))
        ∧ HM.world (hm s') = w2
        ∧ EM.panic_mode (em s') = EM.panic_mode (em s) || ErrorCode.is_fatal (SystemError.code e).
Proof.
  intros [R1 R2 R3 R4 R5] ty. destruct (HM.entries_exist hash (hm s) ty R4) as [es Hes].
  exists es. split; [done|]. pose proof (HM.dispatch_spec (hm s) ctx es Hes) as Hd.
  destruct (HM.try_handlers es ctx (HM.world (hm s))) as [[handled ctx'] w'].
  destruct handled.
  - eexists. split.
    + unfold dispatch_trap. apply with_trap_system_run; [done|done|].
      unfold handle_trap. mstep_with ltac:(apply zoom_Ret; exact Hd). reflexivity.
    + split_and!; [|done|done]. split; try done. by apply hm_ok_world.
  - pose proof (EM.handle_error_spec (unhandled_report ctx')
                  (EM.mkEState (em s) w') q R5) as He. cbn [EM.mgr EM.world] in He. cbv zeta in *.
    destruct (if EM.panic_mode (em s) && _ then _ else _) as [r w2].
    destruct He as (l' & E & Hl). eexists. split.
    + unfold dispatch_trap. apply with_trap_system_run; [done|done|].
      unfold handle_trap. mstep_with ltac:(apply zoom_Ret; exact Hd). cbv beta iota.
      mstep_with ltac:(apply zoom_Ret; exact E). reflexivity.
    + split_and!; [|done|done]. split; try done. by apply hm_ok_world, hm_ok_world.
Qed.

(** Before initialisation no API call reaches the managers: registrations
    are refused with [SystemNotInitialized], errors are reported [Unhandled],
    the interrupt functions do nothing, and a trap panics. *)
Theorem api_before_init s :
  initialized s = false → installed s = false → locked s = false →
  (∀ ty h p d l r c, register_trap_handler hash ty h p d l r c s = Ret (Err SystemNotInitialized, s))
  ∧ (∀ i r, unregister_trap_handler i r s = Ret (Err SystemNotInitialized, s))
  ∧ (∀ i a b, transfer_handler_ownership i a b s = Ret (Err SystemNotInitialized, s))
  ∧ (∀ p sr l h, register_error_handler p sr l h s = Ret (Err SystemNotInitialized, s))
  ∧ (∀ e, report_system_error e s = Ret (Unhandled, s))
  ∧ api_enable_interrupts s = Ret (false, s) ∧ api_disable_interrupts s = Ret (false, s)
  ∧ (∀ ctx, dispatch_trap ctx s = Panic).
Proof.
  intros Hi Hn Hl.
  split_and!; intros;
    unfold register_trap_handler, unregister_trap_handler, transfer_handler_ownership,
      register_error_handler, report_system_error, api_enable_interrupts, api_disable_interrupts,
      dispatch_trap, with_trap_system, is_initialized;
    mstep; rewrite ?Hi, ?Hl, ?Hn; done.
Qed.

(** [register_error_handler] answers [Ok] but registers nothing: the manager
    it uses is created for the call and dropped, and the state of the running
    system is exactly what it was. *)
Theorem register_error_handler_has_no_effect s q p sr l h :
  running s q → register_error_handler p sr l h s = Ret (Ok tt, s).
Proof.
  intros [R1 R2 R3 R4 R5]. unfold register_error_handler.
  mstep. rewrite R1. cbn [negb].
  mstep_with ltac:(apply with_trap_system_run; [done|done|]; mstep; mstep; reflexivity).
  destruct s as [? ? ? ? ? ?]. cbn in *. subst. done.
Qed.

(** ** Initialisation *)

(** The hasher tells the four default handlers apart. *)
Definition default_handles_distinct : Prop :=
  NoDup [hash "Default Page Fault Handler" TrapType.LoadPageFault;
         hash "Default Page Fault Handler" TrapType.StorePageFault;
         hash "Default Page Fault Handler" TrapType.InstructionPageFault;
         hash "Default Illegal Instruction Handler" TrapType.IllegalInstruction].

(** A new cell is not listed anywhere. *)
Lemma new_cell_ok (h : HM.HState W) e :
  HM.hm_ok hash h →
  ∃ c h', HM.new_cell e h = Ret (c, h') ∧ HM.hm_ok hash h' ∧ (c ∉ dom (HM.cells h))
    ∧ HM.cells h' = <[c := e]> (HM.cells h) ∧ HM.world h' = HM.world h
    ∧ HM.handle_map h' = HM.handle_map h ∧ HM.handlers h' = HM.handlers h.
Proof.
  intros H. pose proof (is_fresh (dom (HM.cells h))) as Hf. set (c := fresh (dom (HM.cells h))) in *.
  exists c, (HM.set_cells (<[c := e]> (HM.cells h)) h). split_and!; try done.
  assert (∀ c' e', HM.cells h !! c' = Some e' → <[c := e]> (HM.cells h) !! c' = Some e') as Hext.
  { intros c' e' Hc'. rewrite lookup_insert_ne; [done|]. intros <-. apply Hf, elem_of_dom. eauto. }
  destruct H as [H1 H2 H3 H4 H5 H6]. split; try done; cbn [HM.cells HM.set_cells HM.handle_map].
  - intros ty p c' Hc'. destruct (H4 ty p c' Hc') as (e' & He' & ?). exists e'. eauto.
  - intros i c' Hi. destruct (H5 i c' Hi) as (e' & ty & He' & ?). exists e', ty. eauto.
Qed.

Lemma expect_ok {S A E} (m : M S (result E A)) (x : S) a (y : S) :
  m x = Ret (Ok a, y) → expect m x = Ret (a, y).
Proof. intros H. unfold expect. by mstep_with ltac:(exact H). Qed.

(** What the defaults leave behind, from any store of cells. *)
Definition defaults_installed (h : HM.HState W) (pf ii : nat) : Prop :=
  HM.cells h !! pf = Some page_fault_entry ∧ HM.cells h !! ii = Some illegal_inst_entry
  ∧ HM.slot h TrapType.LoadPageFault 10 = [pf]
  ∧ HM.slot h TrapType.StorePageFault 10 = [pf]
  ∧ HM.slot h TrapType.InstructionPageFault 10 = [pf]
  ∧ HM.slot h TrapType.IllegalInstruction 10 = [ii]
  ∧ HM.hm_ok hash h
  ∧ (∀ ty, ty ∈ [TrapType.LoadPageFault; TrapType.StorePageFault; TrapType.InstructionPageFault] →
       bt_get HM.zkey (hash "Default Page Fault Handler" ty) (HM.handle_map h) = Some pf)
  ∧ pf ≠ ii
  ∧ (∀ ty p c, c ∈ HM.slot h ty p →
       (c = pf ∧ ty ∈ [TrapType.LoadPageFault; TrapType.StorePageFault; TrapType.InstructionPageFault])
       ∨ c = ii).

(** Who is in a slot after one registration. *)
Lemma slot_append_elem (h h' : HM.HState W) ty p c :
  (∀ ty' p', HM.slot h' ty' p' = if decide (ty' = ty ∧ p' = p) then HM.slot h ty p ++ [c]
                                 else HM.slot h ty' p') →
  ∀ ty' p' x, x ∈ HM.slot h' ty' p' → x ∈ HM.slot h ty' p' ∨ (x = c ∧ ty' = ty).
Proof.
  intros S ty' p' x. rewrite S. case_decide as E; [|auto].
  destruct E as [-> ->]. rewrite elem_of_app, list_elem_of_singleton. intros [?|?]; auto.
Qed.

Lemma register_defaults_spec cs (w : W) :
  default_handles_distinct →
  ∃ h pf ii, register_default_enhanced_handlers hash (HM.mkHState cs [] [] w) = Ret (tt, h)
    ∧ defaults_installed h pf ii ∧ HM.world h = w.
Proof.
  intros Hd. unfold default_handles_distinct in Hd.
  rewrite !NoDup_cons, !not_elem_of_cons in Hd.
  destruct Hd as ((D1 & D2 & D3 & _) & (D4 & D5 & _) & (D6 & _) & _).
  destruct (new_cell_ok _ page_fault_entry (HM.empty_ok hash cs w))
    as (pf & s0 & E0 & H0 & _ & C0 & W0 & M0 & L0).
  assert (HM.cells s0 !! pf = Some page_fault_entry) as Hpf by (rewrite C0; apply lookup_insert_eq).
  cbn [HM.handle_map HM.handlers HM.world] in M0, L0, W0.
  destruct (HM.register_spec hash s0 TrapType.LoadPageFault pf _ H0 Hpf)
    as (s1 & E1 & H1 & C1 & W1 & S1 & G1); [by rewrite M0|]. rewrite <- C1 in Hpf.
  destruct (HM.register_spec hash s1 TrapType.StorePageFault pf _ H1 Hpf)
    as (s2 & E2 & H2 & C2 & W2 & S2 & G2).
  { rewrite G1, decide_False, M0 by (cbn; congruence). done. }
  rewrite <- C2 in Hpf.
  destruct (HM.register_spec hash s2 TrapType.InstructionPageFault pf _ H2 Hpf)
    as (s3 & E3 & H3 & C3 & W3 & S3 & G3).
  { rewrite G2, decide_False, G1, decide_False, M0 by (cbn; congruence). done. }
  rewrite <- C3 in Hpf.
  destruct (new_cell_ok s3 illegal_inst_entry H3) as (ii & s4 & E4 & H4 & F4 & C4 & W4 & M4 & L4).
  assert (HM.cells s4 !! ii = Some illegal_inst_entry) as Hii by (rewrite C4; apply lookup_insert_eq).
  assert (HM.cells s4 !! pf = Some page_fault_entry) as Hpf4.
  { rewrite C4, lookup_insert_ne; [done|]. intros ->. apply F4, elem_of_dom. eauto. }
  destruct (HM.register_spec hash s4 TrapType.IllegalInstruction ii _ H4 Hii)
    as (s5 & E5 & H5 & C5 & W5 & S5 & G5).
  { rewrite M4, G3, decide_False, G2, decide_False, G1, decide_False, M0 by (cbn; congruence). done. }
  assert (∀ ty p, HM.slot s4 ty p = HM.slot s3 ty p) as S4
    by (intros ty p; unfold HM.slot; by rewrite L4).
  assert (∀ ty p, HM.slot s0 ty p = []) as S0 by (intros ty p; unfold HM.slot; by rewrite L0).
  exists s5, pf, ii. split; [|split; [|congruence]].
  - unfold register_default_enhanced_handlers. mstep_with ltac:(exact E0).
    mstep_with ltac:(apply expect_ok; exact E1). mstep_with ltac:(apply expect_ok; exact E2).
    mstep_with ltac:(apply expect_ok; exact E3). mstep_with ltac:(exact E4).
    mstep_with ltac:(apply expect_ok; exact E5). reflexivity.
  - unfold defaults_installed. rewrite C5.
    split_and!; [done|done|..|done| | |];
      try (rewrite ?S5, ?S4, ?S3, ?S2, ?S1, ?S0; reflexivity).
    2:{ intros ->. apply F4, elem_of_dom. eauto. }
    2:{ intros ty p c Hc. apply (slot_append_elem _ _ _ _ _ S5) in Hc as [Hc|[-> _]]; [|auto].
        rewrite S4 in Hc. left.
        apply (slot_append_elem _ _ _ _ _ S3) in Hc as [Hc|[-> ->]]; [|split; [done|elem]].
        apply (slot_append_elem _ _ _ _ _ S2) in Hc as [Hc|[-> ->]]; [|split; [done|elem]].
        apply (slot_append_elem _ _ _ _ _ S1) in Hc as [Hc|[-> ->]]; [|split; [done|elem]].
        rewrite S0 in Hc. by apply elem_of_nil in Hc. }
    intros ty Hty. rewrite G5, M4, G3, G2, G1. cbn [HM.description page_fault_entry illegal_inst_entry].
    rewrite !elem_of_cons, elem_of_nil in Hty.
    destruct Hty as [->|[->|[->|[]]]]; repeat case_decide; congruence.
Qed.

Lemma initialize_run s mode :
  initialized s = false → locked s = false → default_handles_distinct →
  ∃ s' pf ii, initialize_trap_system hash trap_entry mode s = Ret (tt, s')
    ∧ running s' [] ∧ defaults_installed (hm s') pf ii
    ∧ stvec (hart s') = Z.lor trap_entry (TrapMode_discriminant mode)
    ∧ sstatus (hart s') = sstatus (hart s) ∧ EM.panic_mode (em s') = false.
Proof.
  intros Hi Hl Hd.
  destruct (register_defaults_spec (HM.cells (hm s)) (HM.world (hm s)) Hd)
    as (h & pf & ii & E & Hdef & Hw).
  exists (mkKState (mkHart (sstatus (hart s)) (Z.lor trap_entry (TrapMode_discriminant mode))) true true
            false h (EM.mkHeapErrorManager [] EM.empty_log false)), pf, ii.
  split_and!; try done.
  - unfold initialize_trap_system. mstep. rewrite Hi. mstep. mstep. mstep.
    mstep_with ltac:(apply zoom_Ret; exact E). mstep. cbn [locked]. rewrite Hl. reflexivity.
  - split; try done; [apply Hdef|apply EM.empty_log_holds].
Qed.

(** Initialisation of a fresh system points [stvec] at the trap entry with
    the requested mode, registers the default handlers, leaves the system
    running with an empty log and panic mode off, and can be done only once: a
    second call panics. *)
Theorem initialize_once s mode :
  initialized s = false → locked s = false → default_handles_distinct →
  ∃ s' pf ii, initialize_trap_system hash trap_entry mode s = Ret (tt, s')
    ∧ running s' [] ∧ defaults_installed (hm s') pf ii
    ∧ stvec (hart s') = Z.lor trap_entry (TrapMode_discriminant mode)
    ∧ sstatus (hart s') = sstatus (hart s) ∧ EM.panic_mode (em s') = false
    ∧ ∀ mode', initialize_trap_system hash trap_entry mode' s' = Panic.
Proof.
  intros Hi Hl Hd. destruct (initialize_run s mode Hi Hl Hd) as (s' & pf & ii & E & R & H).
  exists s', pf, ii. split_and!; try apply H; try done. intros mode'.
  unfold initialize_trap_system. mstep. by rewrite (rn_init _ _ R).
Qed.

(** The default page-fault handler is one shared entry registered for three
    trap types, and [unregister] looks for the trap type by priority and
    description: asked (by the kernel) to drop the store-page-fault handler, it
    removes the one for instruction page faults and keeps the other, whose
    handle is gone. *)
Theorem unregister_shared_entry_removes_wrong_handler (h : HM.HState W) pf ii :
  defaults_installed h pf ii →
  ∃ h', HM.unregister (HM.mkHandlerHandle (hash "Default Page Fault Handler" TrapType.StorePageFault))
          HM.KERNEL_REGISTRAR_ID h = Ret (Ok tt, h')
    ∧ HM.slot h' TrapType.StorePageFault 10 = [pf]
    ∧ HM.slot h' TrapType.InstructionPageFault 10 = []
    ∧ bt_get HM.zkey (hash "Default Page Fault Handler" TrapType.StorePageFault) (HM.handle_map h') = None.
Proof.
  intros (Cp & Ci & SL & SS & SI & SG & Hok & HH & Hne & Hall).
  pose proof Hok as [O1 O2 O3 O4 O5 O6].
  assert (HM.described "Default Page Fault Handler" h pf = true) as Hd
    by (apply HM.described_spec; by exists page_fault_entry).
  assert (∃ pm, (TrapType.InstructionPageFault, pm) ∈ HM.handlers h ∧ bt_get HM.zkey 10 pm = Some [pf])
    as (pm & Hpm & Hl).
  { unfold HM.slot in SI.
    destruct (bt_get HM.bt_key TrapType.InstructionPageFault (HM.handlers h)) as [pm|] eqn:G; [|done].
    simpl in SI. destruct (bt_get HM.zkey 10 pm) as [l|] eqn:G'; [|done]. simpl in SI. subst l.
    exists pm. split; [by apply (bt_get_elem HM.bt_key)|done]. }
  assert (HM.find_trap_type (HM.handlers h) 10 "Default Page Fault Handler" h
          = Some TrapType.InstructionPageFault) as Hfind.
  { destruct (HM.find_trap_type _ _ _ h) as [ty|] eqn:F.
    - pose proof (HM.find_trap_type_first _ _ _ _ _ _ _ _ _ O1 F Hpm Hl ltac:(elem) Hd) as Hle.
      apply HM.find_trap_type_Some in F as (pm' & l & c & Hty & Hl' & Hc & Hdc).
      assert (c ∈ HM.slot h ty 10) as Hsl.
      { unfold HM.slot. rewrite (bt_elem_get HM.bt_key ty _ pm') by done. simpl. by rewrite Hl'. }
      apply Hall in Hsl as [[-> Hin]| ->].
      + rewrite !elem_of_cons, elem_of_nil in Hin. destruct Hin as [->|[->|[->|[]]]]; done.
      + apply HM.described_spec in Hdc as (e & He & Ed). rewrite Ci in He. by injection He as <-.
    - exfalso. rewrite (HM.find_trap_type_None _ _ _ _ _ _ _ _ F Hpm Hl ltac:(elem)) in Hd. done. }
  eexists. split; [|split_and!].
  - unfold HM.unregister. mstep. cbn [HM.id]. rewrite HH by elem.
    mstep_with ltac:(unfold HM.read; rewrite Cp; reflexivity).
    cbn [HM.can_be_unregistered_by HM.protection_level page_fault_entry HM.priority HM.description].
    rewrite Z.eqb_refl. cbn [negb]. rewrite Hfind. reflexivity.
  - etransitivity; [apply (HM.slot_modify h TrapType.InstructionPageFault 10 "Default Page Fault Handler")|].
    by rewrite decide_False by (by intros []).
  - etransitivity; [apply (HM.slot_modify h TrapType.InstructionPageFault 10 "Default Page Fault Handler")|].
    rewrite decide_True by done. rewrite SI. unfold HM.retain. rewrite filter_cons_False; [done|].
    by rewrite Hd.
  - cbn [HM.handle_map HM.set_handle_map HM.set_handlers]. rewrite (bt_get_remove HM.zkey).
    by rewrite decide_True.
Qed.

End theorems.


(** ** Concrete systems *)

Module SysDemo.

Lemma handles_distinct : default_handles_distinct HM.Demo.hash.
Proof. apply (bool_decide_unpack _). by vm_compute. Qed.

(** Power-on: nothing initialised, interrupts enabled. *)
Definition boot : KState Z :=
  mkKState (mkHart 2 0) false false false HM.Demo.s0 (EM.mkHeapErrorManager [] EM.empty_log false).

(** A system with the two handlers of the handler manager's example. *)
Definition up : KState Z :=
  mkKState (mkHart 2 0) true true false HM.Demo.s2 (EM.mkHeapErrorManager [] EM.empty_log false).

Lemma up_running : running (P := Dev) HM.Demo.hash up [].
Proof. split; try reflexivity; [apply HM.Demo.s2_ok|apply EM.empty_log_holds]. Qed.

(** The managers right after the defaults were registered. *)
Definition defaults : HM.HState Z :=
  match register_default_enhanced_handlers HM.Demo.hash HM.Demo.s0 with
  | Ret (_, h) => h
  | _ => HM.Demo.s0
  end.

Lemma defaults_ok : ∃ pf ii, defaults_installed HM.Demo.hash defaults pf ii.
Proof.
  destruct (register_defaults_spec HM.Demo.hash (HM.cells HM.Demo.s0) 0 handles_distinct)
    as (h & pf & ii & E & H & _).
  exists pf, ii. unfold defaults. change HM.Demo.s0 with (HM.mkHState (HM.cells HM.Demo.s0) [] [] 0).
  rewrite E. exact H.
Qed.

End SysDemo.

Lemma dispatch_trap_correct_witness :
  ∃ s', dispatch_trap (P := Dev) HM.Demo.timer_trap SysDemo.up = Ret (HM.Demo.timer_trap, s')
    ∧ HM.world (hm s') = 101.
Proof.
  destruct (dispatch_trap_correct (P := Dev) HM.Demo.hash SysDemo.up [] HM.Demo.timer_trap SysDemo.up_running)
    as (es & Hes & H).
  apply Forall2_cons_inv_l in Hes as (e1 & es1 & E1 & Hes & ->).
  apply Forall2_cons_inv_l in Hes as (e2 & es2 & E2 & Hes & ->).
  apply Forall2_nil_inv_l in Hes as ->. injection E1 as <-. injection E2 as <-.
  destruct H as (s' & E & _ & _ & Hw). exists s'. split; [exact E|exact Hw].
Defined.

Lemma api_before_init_witness :
  dispatch_trap (P := Dev) HM.Demo.timer_trap SysDemo.boot = Panic.
Proof. apply (api_before_init (P := Dev) HM.Demo.hash SysDemo.boot); reflexivity. Defined.

Lemma register_error_handler_has_no_effect_witness :
  register_error_handler 3 None None (λ _ w, (Handled, w)) SysDemo.up
  = Ret (Ok tt, SysDemo.up).
Proof.
  exact (register_error_handler_has_no_effect (P := Dev) HM.Demo.hash SysDemo.up [] 3 None None
           (λ _ w, (Handled, w)) SysDemo.up_running).
Defined.

Lemma initialize_once_witness :
  ∃ s', initialize_trap_system HM.Demo.hash 4096 Vectored SysDemo.boot = Ret (tt, s')
    ∧ stvec (hart s') = 4097
    ∧ initialize_trap_system HM.Demo.hash 4096 Direct s' = Panic.
Proof.
  destruct (initialize_once (P := Dev) HM.Demo.hash 4096 SysDemo.boot Vectored eq_refl eq_refl
              SysDemo.handles_distinct) as (s' & pf & ii & E & _ & _ & Hv & _ & _ & Hp).
  exists s'. split; [exact E|]. split; [exact Hv|exact (Hp Direct)].
Defined.

Lemma unregister_shared_entry_removes_wrong_handler_witness :
  ∃ h', HM.unregister
          (HM.mkHandlerHandle (HM.Demo.hash "Default Page Fault Handler" TrapType.StorePageFault))
          HM.KERNEL_REGISTRAR_ID SysDemo.defaults = Ret (Ok tt, h')
    ∧ HM.slot h' TrapType.InstructionPageFault 10 = [].
Proof.
  destruct SysDemo.defaults_ok as (pf & ii & H).
  destruct (unregister_shared_entry_removes_wrong_handler HM.Demo.hash SysDemo.defaults pf ii H)
    as (h' & E & _ & Hs & _).
  exists h'. split; [exact E|exact Hs].
Defined.
