(* ===== verification/TrapEntry.v ===== *)
(** * The trap entry code

    Models [src/trap/infrastructure/asm/trap_entry.asm], instruction by
    instruction, with what the RISC-V privileged architecture does when a trap is
    taken and on [sret], and [low_level::handle_trap], which the assembly calls:
    the path of a trap from the interrupted program through [dispatch_trap]
    ([TrapSystem.v]) and back.  The context is a [#[repr(C)] TrapContext] in the
    288 bytes below the stack pointer. *)

From Stdlib Require Import ZArith Lia String.
From stdpp Require Import base option numbers strings gmap list.
From S2P Require Import Prelude Memory TrapTypes TrapSystem.

Module TS := TrapSystem.

(** ** The machine *)

Inductive Privilege : Type := User | Supervisor.

(** [regs] holds [x0] to [x31]. *)
Record Cpu : Type := mkCpu {
  regs : list Z;
  pc : Z;
  priv : Privilege;
  sepc : Z;
  scause : Z;
  stval : Z;
  ram : memory;
}.

(** [sstatus] and [stvec] are those of the kernel state. *)
Record Sys (W : Type) : Type := mkSys { cpu : Cpu; kernel : TS.KState W }.
Arguments mkSys {W} _ _.
Arguments cpu {W} _.
Arguments kernel {W} _.

Definition set_regs (v : list Z) (c : Cpu) : Cpu :=
  mkCpu v (pc c) (priv c) (sepc c) (scause c) (stval c) (ram c).
Definition set_sepc (v : Z) (c : Cpu) : Cpu :=
  mkCpu (regs c) (pc c) (priv c) v (scause c) (stval c) (ram c).
Definition set_ram (v : memory) (c : Cpu) : Cpu :=
  mkCpu (regs c) (pc c) (priv c) (sepc c) (scause c) (stval c) v.

Definition set_hart {W} (h : TS.Hart) (k : TS.KState W) : TS.KState W :=
  TS.mkKState h (TS.initialized k) (TS.installed k) (TS.locked k) (TS.hm k) (TS.em k).

(** Bits of [sstatus]: interrupt enable, its value before the trap, the privilege
    before the trap. *)
Definition bit_SIE : Z := 1.
Definition bit_SPIE : Z := 5.
Definition bit_SPP : Z := 8.
Definition put_bit (v i : Z) (b : bool) : Z := if b then Z.setbit v i else Z.clearbit v i.

Definition sie_on (v : Z) : bool := Z.testbit v bit_SIE.
Definition is_S (p : Privilege) : bool := match p with Supervisor => true | User => false end.

(** [sstatus] after a trap from privilege [p], and after [sret]. *)
Definition trap_sstatus (v : Z) (p : Privilege) : Z :=
  put_bit (put_bit (put_bit v bit_SPIE (sie_on v)) bit_SIE false) bit_SPP (is_S p).
Definition sret_sstatus (v : Z) : Z :=
  put_bit (put_bit (put_bit v bit_SIE (Z.testbit v bit_SPIE)) bit_SPIE true) bit_SPP false.
Definition sret_priv (v : Z) : Privilege :=
  if Z.testbit v bit_SPP then Supervisor else User.

(** ** Instructions *)

Inductive csr : Type := SSTATUS | SEPC | SCAUSE | STVAL.

(** Registers by number; [J_next] is a jump to the label behind it. *)
Inductive instr : Type :=
| Addi (rd rs : nat) (imm : Z)
| Mv (rd rs : nat)
| Sd (rs : nat) (off : Z) (base : nat)
| Ld (rd : nat) (off : Z) (base : nat)
| Csrr (rd : nat) (c : csr)
| Csrw (c : csr) (rs : nat)
| Call_handle_trap
| J_next
| Sret.

#[global] Instance csr_eq_dec : EqDecision csr.
Proof. solve_decision. Defined.
#[global] Instance instr_eq_dec : EqDecision instr.
Proof. solve_decision. Defined.

Definition sp : nat := 2.
Definition t0 : nat := 5.
Definition a0 : nat := 10.
Definition CONTEXT_SIZE : Z := 288.

(** [__trap_entry] *)
Definition trap_entry_code : list instr :=
  [Addi sp sp (- CONTEXT_SIZE);
   Sd 1 8 sp; Sd 2 16 sp; Sd 3 24 sp; Sd 4 32 sp; Sd 5 40 sp; Sd 6 48 sp; Sd 7 56 sp;
   Sd 8 64 sp; Sd 9 72 sp; Sd 10 80 sp; Sd 11 88 sp; Sd 12 96 sp; Sd 13 104 sp; Sd 14 112 sp;
   Sd 15 120 sp; Sd 16 128 sp; Sd 17 136 sp; Sd 18 144 sp; Sd 19 152 sp; Sd 20 160 sp;
   Sd 21 168 sp; Sd 22 176 sp; Sd 23 184 sp; Sd 24 192 sp; Sd 25 200 sp; Sd 26 208 sp;
   Sd 27 216 sp; Sd 28 224 sp; Sd 29 232 sp; Sd 30 240 sp; Sd 31 248 sp;
   Csrr t0 SSTATUS; Sd t0 256 sp;
   Csrr t0 SEPC; Sd t0 264 sp;
   Csrr t0 SCAUSE; Sd t0 272 sp;
   Csrr t0 STVAL; Sd t0 280 sp;
   Mv a0 sp;
   Call_handle_trap;
   J_next].

(** [__trap_return] *)
Definition trap_return_code : list instr :=
  [Ld t0 256 sp; Csrw SSTATUS t0;
   Ld t0 264 sp; Csrw SEPC t0;
   Ld 1 8 sp; Ld 3 24 sp; Ld 4 32 sp; Ld 5 40 sp; Ld 6 48 sp; Ld 7 56 sp;
   Ld 8 64 sp; Ld 9 72 sp; Ld 10 80 sp; Ld 11 88 sp; Ld 12 96 sp; Ld 13 104 sp; Ld 14 112 sp;
   Ld 15 120 sp; Ld 16 128 sp; Ld 17 136 sp; Ld 18 144 sp; Ld 19 152 sp; Ld 20 160 sp;
   Ld 21 168 sp; Ld 22 176 sp; Ld 23 184 sp; Ld 24 192 sp; Ld 25 200 sp; Ld 26 208 sp;
   Ld 27 216 sp; Ld 28 224 sp; Ld 29 232 sp; Ld 30 240 sp; Ld 31 248 sp;
   Ld sp 16 sp;
   Addi sp sp CONTEXT_SIZE;
   Sret].

(** ** The context in memory *)

(** Consecutive doublewords. *)
Fixpoint read_words (n : nat) (m : memory) (a : Z) : list Z :=
  match n with
  | O => []
  | S n' => load 8 m a :: read_words n' m (a + 8)
  end.
Fixpoint store_words (ws : list Z) (m : memory) (a : Z) : memory :=
  match ws with
  | [] => m
  | w :: ws' => store_words ws' (store 8 m a w) (a + 8)
  end.

Definition read_context (m : memory) (a : Z) : TrapContext.t :=
  TrapContext.mk (read_words 32 m a)
    (load 8 m (a + 256)) (load 8 m (a + 264)) (load 8 m (a + 272)) (load 8 m (a + 280)).
Definition context_words (c : TrapContext.t) : list Z :=
  TrapContext.x c
  ++ [TrapContext.sstatus c; TrapContext.sepc c; TrapContext.scause c; TrapContext.stval c].

Section machine.
Context {P : Profile} {W : Type}.
(** What the compiled [handle_trap] does besides its work on the context: it leaves
    other values in the registers, and writes memory: its frames below the stack
    pointer, and the trap system's own data. *)
Context (clobber : list Z → list Z) (frames : Z → memory → memory).
(** What [sstatus] holds after a write of the second value over the first. *)
Context (sstatus_warl : Z → Z → Z).
(** The address of [__trap_entry]. *)
Context (trap_entry : Z).

Definition reg (r : nat) : M (Sys W) Z := gets (λ s, default 0 (regs (cpu s) !! r)).
Definition on_cpu (f : Cpu → Cpu) : M (Sys W) unit := modify (λ s, mkSys (f (cpu s)) (kernel s)).
Definition write_reg (r : nat) (v : Z) : M (Sys W) unit :=
  match r with
  | O => mret tt
  | _ => on_cpu (λ c, set_regs (<[r := v]> (regs c)) c)
  end.
Definition write_sstatus (v : Z) : M (Sys W) unit :=
  modify (λ s, let h := TS.hart (kernel s) in
    mkSys (cpu s) (set_hart (TS.mkHart v (TS.stvec h)) (kernel s))).
Definition sstatus (s : Sys W) : Z := TS.sstatus (TS.hart (kernel s)).

Definition on_kernel {A} (m : M (TS.KState W) A) : M (Sys W) A :=
  zoom kernel (λ k s, mkSys (cpu s) k) m.

(** [low_level::handle_trap]: [dispatch_trap] works on the context through the
    pointer. *)
Definition handle_trap (context : Z) : M (Sys W) unit :=
  s ← gets (λ s, s);
  ctx ← on_kernel (TS.dispatch_trap (read_context (ram (cpu s)) context));
  on_cpu (λ c, set_ram (store_words (context_words ctx) (ram c) context) c).

(** The same as a compiled function. *)
Definition call_handle_trap : M (Sys W) unit :=
  context ← reg a0;
  handle_trap context;;
  stack ← reg sp;
  on_cpu (λ c, set_regs (clobber (regs c)) (set_ram (frames stack (ram c)) c)).

Definition read_csr (c : csr) : M (Sys W) Z :=
  gets (λ s, match c with
             | SSTATUS => sstatus s
             | SEPC => sepc (cpu s)
             | SCAUSE => scause (cpu s)
             | STVAL => stval (cpu s)
             end).

(** [sepc] keeps its lowest bit at zero; the entry code does not write the other
    two. *)
Definition write_csr (c : csr) (v : Z) : M (Sys W) unit :=
  match c with
  | SSTATUS => s ← gets sstatus; write_sstatus (sstatus_warl s v)
  | SEPC => on_cpu (set_sepc (Z.clearbit v 0))
  | SCAUSE => on_cpu (λ c, mkCpu (regs c) (pc c) (priv c) (sepc c) v (stval c) (ram c))
  | STVAL => on_cpu (λ c, mkCpu (regs c) (pc c) (priv c) (sepc c) (scause c) v (ram c))
  end.

(** [sret]: back to [sepc] at the privilege in SPP; SIE takes the value of SPIE. *)
Definition sret : M (Sys W) unit :=
  v ← gets sstatus;
  on_cpu (λ c, mkCpu (regs c) (sepc c) (sret_priv v)
                 (sepc c) (scause c) (stval c) (ram c));;
  write_sstatus (sret_sstatus v).

Definition exec (i : instr) : M (Sys W) unit :=
  match i with
  | Addi rd rs imm => v ← reg rs; write_reg rd (wrap64 (v + imm))
  | Mv rd rs => v ← reg rs; write_reg rd v
  | Sd rs off base =>
      b ← reg base; v ← reg rs;
      on_cpu (λ c, set_ram (store 8 (ram c) (wrap64 (b + off)) v) c)
  | Ld rd off base =>
      b ← reg base; v ← gets (λ s, load 8 (ram (cpu s)) (wrap64 (b + off)));
      write_reg rd v
  | Csrr rd c => v ← read_csr c; write_reg rd v
  | Csrw c rs => v ← reg rs; write_csr c v
  | Call_handle_trap => call_handle_trap
  | J_next => mret tt
  | Sret => sret
  end.

Fixpoint exec_all (l : list instr) : M (Sys W) unit :=
  match l with
  | [] => mret tt
  | i :: l => exec i;; exec_all l
  end.

(** The hardware takes a trap: interrupts are disabled, the old state of the
    interrupt enable and the privilege are kept in [sstatus]. *)
Definition trap_target (stvec cause : Z) : Z :=
  let base := Z.ldiff stvec 3 in
  if (Z.land stvec 3 =? 1) && TrapCause.is_interrupt (TrapCause.from_bits cause)
  then base + 4 * TrapCause.code (TrapCause.from_bits cause)
  else base.

Definition take_trap (cause tval : Z) : M (Sys W) unit :=
  s ← gets (λ s, s);
  let v := sstatus s in
  on_cpu (λ c, mkCpu (regs c) (trap_target (TS.stvec (TS.hart (kernel s))) cause) Supervisor
                 (pc c) cause tval (ram c));;
  write_sstatus (trap_sstatus v (priv (cpu s))).

(** A trap from the interrupted instruction to the one that runs next.  Only a
    jump to the first instruction of the entry code is modelled: in vectored mode
    an interrupt enters the code behind it. *)
Definition trap (cause tval : Z) : M (Sys W) unit :=
  take_trap cause tval;;
  target ← gets (λ s, pc (cpu s));
  if target =? trap_entry then exec_all (trap_entry_code ++ trap_return_code) else undef.

End machine.

(** ** Words in memory *)

Lemma read_words_length n m a : length (read_words n m a) = n.
Proof. revert a. induction n as [|n IH]; intros a; [done|]. cbn. by rewrite IH. Qed.

Lemma read_words_S n m a : read_words (S n) m a = load 8 m a :: read_words n m (a + 8).
Proof. reflexivity. Qed.

Lemma read_words_app n k m a :
  read_words (n + k) m a = read_words n m a ++ read_words k m (a + 8 * Z.of_nat n).
Proof.
  revert a. induction n as [|n IH]; intros a; cbn [Nat.add read_words app].
  - by rewrite Z.add_0_r.
  - rewrite IH. do 3 f_equal. lia.
Qed.

Lemma read_words_agree n m m' a :
  agree m m' a (a + 8 * Z.of_nat n) → read_words n m a = read_words n m' a.
Proof.
  revert a. induction n as [|n IH]; intros a H; [done|]. cbn [read_words].
  rewrite (load_agree 8 m m' a) by (apply (agree_sub _ _ _ _ _ _ H); lia).
  rewrite (IH (a + 8)); [done|]. apply (agree_sub _ _ _ _ _ _ H); lia.
Qed.

Lemma agree_store_words ws m a lo hi :
  hi ≤ a ∨ a + 8 * Z.of_nat (length ws) ≤ lo → agree m (store_words ws m a) lo hi.
Proof.
  revert m a. induction ws as [|w ws IH]; intros m a H; [apply agree_refl|].
  cbn [length store_words] in *. eapply agree_trans.
  - apply (agree_store 8 m a w). lia.
  - apply IH. lia.
Qed.

Lemma read_store_words ws m a :
  Forall in_u64 ws → read_words (length ws) (store_words ws m a) a = ws.
Proof.
  revert m a. induction ws as [|w ws IH]; intros m a H; [done|].
  apply Forall_cons in H as [Hw H]. cbn [length store_words read_words]. f_equal; [|by apply IH].
  rewrite <- (load_agree 8 (store 8 m a w)) by (apply agree_store_words; lia).
  apply load_store_small. exact Hw.
Qed.

Lemma store_words_app l k m a :
  store_words (l ++ k) m a = store_words k (store_words l m a) (a + 8 * Z.of_nat (length l)).
Proof.
  revert m a. induction l as [|w l IH]; intros m a; cbn [length store_words app].
  - by rewrite Z.add_0_r.
  - rewrite IH. f_equal. lia.
Qed.

(** A context of machine words. *)
Record context_ok (c : TrapContext.t) : Prop := {
  ctx_len : length (TrapContext.x c) = 32%nat;
  ctx_words : Forall in_u64 (context_words c);
}.

Lemma context_words_length c : length (TrapContext.x c) = 32%nat → length (context_words c) = 36%nat.
Proof. intros H. unfold context_words. by rewrite length_app, H. Qed.

Lemma read_context_words m a c :
  length (TrapContext.x c) = 32%nat → read_words 36 m a = context_words c → read_context m a = c.
Proof.
  intros Hl H. change 36%nat with (32 + 4)%nat in H. rewrite read_words_app in H.
  apply app_inj_1 in H as [Hx Hr]; [|by rewrite read_words_length].
  unfold read_context. rewrite Hx. cbn [read_words] in Hr.
  rewrite <- !Z.add_assoc in Hr. injection Hr as H1 H2 H3 H4. destruct c as [x v1 v2 v3 v4].
  f_equal; [exact H1|exact H2|exact H3|exact H4].
Qed.

(** ** Straight-line code *)

Ltac cpu_simpl :=
  unfold set_ram, set_regs, set_sepc, set_hart, sstatus;
  cbn [cpu kernel regs pc priv sepc scause stval ram TS.hart TS.initialized TS.installed TS.locked
       TS.hm TS.em TS.sstatus TS.stvec default from_option id].

Section proofs.
Context {P : Profile} {W : Type}.
Context (clobber : list Z → list Z) (frames : Z → memory → memory) (sstatus_warl : Z → Z → Z)
  (trap_entry : Z).
Implicit Types (s : Sys W) (c : Cpu) (k : TS.KState W).

Abbreviation exec := (exec clobber frames sstatus_warl).
Abbreviation exec_all := (exec_all clobber frames sstatus_warl).

Lemma exec_all_app l1 l2 s s1 :
  exec_all l1 s = Ret (tt, s1) → exec_all (l1 ++ l2) s = exec_all l2 s1.
Proof.
  revert s. induction l1 as [|i l1 IH]; intros s E; [by injection E as ->|].
  cbn [TrapEntry.exec_all app] in *. apply bind_inv in E as ([] & s' & E & Ei).
  erewrite bind_Ret; [reflexivity|exact E|]. by apply IH.
Qed.

Lemma wrap64_small z : in_u64 z → wrap64 z = z.
Proof. apply Z.mod_small. Qed.

(** Saving registers [i], [i+1], ... above the stack pointer. *)
Lemma exec_saves n i b l p pr se sc sv m k :
  l !! sp = Some b → 0 ≤ b → b + 8 * Z.of_nat (i + n) ≤ 2 ^ 64 → (i + n ≤ length l)%nat →
  exec_all ((λ r, Sd r (8 * Z.of_nat r) sp) <$> seq i n) (mkSys (mkCpu l p pr se sc sv m) k)
  = Ret (tt, mkSys (mkCpu l p pr se sc sv
                     (store_words (take n (drop i l)) m (b + 8 * Z.of_nat i))) k).
Proof.
  intros Hsp Hb. revert i m. induction n as [|n IH]; intros i m Hi Hl; [done|].
  destruct (lookup_lt_is_Some_2 l i) as [v Hv]; [lia|].
  rewrite (drop_S _ _ _ Hv). cbn [seq]. rewrite fmap_cons.
  cbn [TrapEntry.exec_all take store_words].
  mstep_with ltac:(unfold TrapEntry.exec, reg, gets, on_cpu, modify, mbind, M_bind;
    cpu_simpl; rewrite Hsp, Hv; cbn [default from_option id]; rewrite wrap64_small by (unfold in_u64; lia);
    reflexivity).
  cpu_simpl.
  rewrite IH by lia.
  by replace (b + 8 * Z.of_nat (S i)) with (b + 8 * Z.of_nat i + 8) by lia.
Qed.

(** Loading them. *)
Lemma exec_loads n i b l p pr se sc sv m k :
  l !! sp = Some b → 0 ≤ b → b + 8 * Z.of_nat (i + n) ≤ 2 ^ 64 → (i + n ≤ length l)%nat →
  (3 ≤ i)%nat →
  exec_all ((λ r, Ld r (8 * Z.of_nat r) sp) <$> seq i n) (mkSys (mkCpu l p pr se sc sv m) k)
  = Ret (tt, mkSys (mkCpu (take i l ++ read_words n m (b + 8 * Z.of_nat i) ++ drop (i + n) l)
                      p pr se sc sv m) k).
Proof.
  intros Hsp Hb. revert i l Hsp. induction n as [|n IH]; intros i l Hsp Hi Hl H3.
  { rewrite Nat.add_0_r. cbn. by rewrite take_drop. }
  cbn [seq]. rewrite fmap_cons. cbn [TrapEntry.exec_all read_words].
  mstep_with ltac:(unfold TrapEntry.exec, reg, gets, mbind, M_bind;
    cpu_simpl; rewrite Hsp; cbn [default from_option id]; rewrite wrap64_small by (unfold in_u64; lia);
    destruct i as [|i]; [lia|]; reflexivity).
  cpu_simpl.
  rewrite IH; [|rewrite list_lookup_insert_ne; [done|unfold sp; lia]|lia|rewrite length_insert; lia|lia].
  rewrite drop_insert_lt by lia.
  rewrite (take_S_r _ _ (load 8 m (b + 8 * Z.of_nat i))) by (apply list_lookup_insert_eq; lia).
  rewrite take_insert_ge by lia. rewrite <- app_assoc. cbn [app].
  replace (b + 8 * Z.of_nat (S i)) with (b + 8 * Z.of_nat i + 8) by lia.
  by replace (S i + n)%nat with (i + S n)%nat by lia.
Qed.

(** Saving a CSR through [t0]. *)
Lemma exec_save_csr q o v b l p pr se sc sv m k :
  l !! sp = Some b → length l = 32%nat → in_u64 (b + o) →
  read_csr q (mkSys (mkCpu l p pr se sc sv m) k) = Ret (v, mkSys (mkCpu l p pr se sc sv m) k) →
  exec_all [Csrr t0 q; Sd t0 o sp] (mkSys (mkCpu l p pr se sc sv m) k)
  = Ret (tt, mkSys (mkCpu (<[t0 := v]> l) p pr se sc sv (store 8 m (b + o) v)) k).
Proof.
  intros Hsp Hl Ho Hq. cbn [TrapEntry.exec_all].
  mstep_with ltac:(unfold TrapEntry.exec; mstep_with ltac:(exact Hq); reflexivity).
  mstep_with ltac:(unfold TrapEntry.exec, reg, gets, on_cpu, modify, mbind, M_bind;
    cpu_simpl; rewrite list_lookup_insert_ne by done; rewrite Hsp;
    rewrite list_lookup_insert_eq by (unfold t0; lia); cbn [default from_option id]; rewrite wrap64_small by done;
    reflexivity).
  reflexivity.
Qed.

Lemma saved_words ws v1 v2 v3 v4 m b :
  length ws = 31%nat →
  store 8 (store 8 (store 8 (store 8 (store_words ws m (b + 8)) (b + 256) v1) (b + 264) v2)
    (b + 272) v3) (b + 280) v4
  = store_words (ws ++ [v1; v2; v3; v4]) m (b + 8).
Proof.
  intros H. rewrite store_words_app, H. cbn [store_words].
  replace (b + 8 + 8 * Z.of_nat 31) with (b + 256) by lia.
  replace (b + 256 + 8) with (b + 264) by lia. replace (b + 264 + 8) with (b + 272) by lia.
  by replace (b + 272 + 8) with (b + 280) by lia.
Qed.

(** The code before the call. *)
Definition saving_code : list instr := take 41 trap_entry_code.

(** The context it leaves at [b], where [x0] is what the stack held. *)
Definition entry_context (b : Z) (l : list Z) (status : Z) (c : Cpu) : TrapContext.t :=
  TrapContext.mk (load 8 (ram c) b :: drop 1 (<[sp := b]> l)) status (sepc c) (scause c) (stval c).

Lemma saving_code_eq :
  saving_code = [Addi sp sp (- CONTEXT_SIZE)]
    ++ ((λ r, Sd r (8 * Z.of_nat r) sp) <$> seq 1 31)
    ++ [Csrr t0 SSTATUS; Sd t0 256 sp] ++ [Csrr t0 SEPC; Sd t0 264 sp]
    ++ [Csrr t0 SCAUSE; Sd t0 272 sp] ++ [Csrr t0 STVAL; Sd t0 280 sp] ++ [Mv a0 sp].
Proof. reflexivity. Qed.

Lemma exec_addi rd rs imm v l p pr se sc sv m k :
  l !! rs = Some v → rd ≠ 0%nat →
  exec_all [Addi rd rs imm] (mkSys (mkCpu l p pr se sc sv m) k)
  = Ret (tt, mkSys (mkCpu (<[rd := wrap64 (v + imm)]> l) p pr se sc sv m) k).
Proof.
  intros Hv Hrd. destruct rd as [|rd]; [done|]. cbn [TrapEntry.exec_all].
  mstep_with ltac:(unfold TrapEntry.exec, reg, gets, mbind, M_bind; cpu_simpl; rewrite Hv; reflexivity).
  reflexivity.
Qed.

Lemma exec_mv rd rs v l p pr se sc sv m k :
  l !! rs = Some v → rd ≠ 0%nat →
  exec_all [Mv rd rs] (mkSys (mkCpu l p pr se sc sv m) k)
  = Ret (tt, mkSys (mkCpu (<[rd := v]> l) p pr se sc sv m) k).
Proof.
  intros Hv Hrd. destruct rd as [|rd]; [done|]. cbn [TrapEntry.exec_all].
  mstep_with ltac:(unfold TrapEntry.exec, reg, gets, mbind, M_bind; cpu_simpl; rewrite Hv; reflexivity).
  reflexivity.
Qed.

Lemma exec_saving b l p pr se sc sv m k :
  length l = 32%nat → l !! sp = Some (b + CONTEXT_SIZE) → 0 ≤ b → b + CONTEXT_SIZE < 2 ^ 64 →
  let c := mkCpu l p pr se sc sv m in
  ∃ l', exec_all saving_code (mkSys c k)
    = Ret (tt, mkSys (mkCpu l' p pr se sc sv
        (store_words (drop 1 (context_words (entry_context b l (TS.sstatus (TS.hart k)) c))) m (b + 8))) k)
    ∧ length l' = 32%nat ∧ l' !! 0%nat = l !! 0%nat ∧ l' !! sp = Some b ∧ l' !! a0 = Some b.
Proof.
  intros Hl Hsp Hb Hb2. cbv zeta. rewrite saving_code_eq.
  erewrite exec_all_app by (apply (exec_addi _ _ _ _ _ _ _ _ _ _ _ _ Hsp); done).
  replace (b + CONTEXT_SIZE + - CONTEXT_SIZE) with b by lia. unfold CONTEXT_SIZE in *.
  rewrite wrap64_small by (unfold in_u64; lia). set (l1 := <[sp := b]> l).
  assert (length l1 = 32%nat) as Hl1 by (unfold l1; by rewrite length_insert).
  assert (l1 !! sp = Some b) as Hsp1 by (apply list_lookup_insert_eq; unfold sp; lia).
  erewrite exec_all_app by (apply (exec_saves 31 1 b); [done|lia|lia|lia]).
  do 4 (erewrite exec_all_app by
    (eapply (exec_save_csr _ _ _ b); [|by rewrite ?length_insert|unfold in_u64; lia|reflexivity];
     by rewrite ?list_lookup_insert_ne by done)).
  eexists. split; [erewrite exec_mv by first [done|by rewrite !list_lookup_insert_ne by done]|].
  - rewrite take_ge by (rewrite length_drop; lia). unfold context_words, entry_context.
    cbn [TrapContext.x TrapContext.sstatus TrapContext.sepc TrapContext.scause TrapContext.stval
         app sepc scause stval ram]. rewrite skipn_cons, drop_0. fold l1.
    rewrite <- saved_words by (rewrite length_drop; lia). reflexivity.
  - rewrite !length_insert. split_and!; [done| | |].
    + unfold l1. by rewrite !list_lookup_insert_ne by done.
    + by rewrite !list_lookup_insert_ne by done.
    + apply list_lookup_insert_eq. rewrite !length_insert. unfold a0. lia.
Qed.

(** The registers a return from context [c] leaves. *)
Definition returned_regs (c : TrapContext.t) : list Z :=
  0 :: default 0 (TrapContext.x c !! 1%nat)
    :: wrap64 (default 0 (TrapContext.x c !! sp) + CONTEXT_SIZE) :: drop 3 (TrapContext.x c).

Lemma read_words_lookup n m a i ws :
  read_words n m a = ws → (i < n)%nat → load 8 m (a + 8 * Z.of_nat i) = default 0 (ws !! i).
Proof.
  intros <-. revert a i. induction n as [|n IH]; intros a i Hi; [lia|].
  destruct i as [|i]; cbn [read_words].
  - by rewrite Z.add_0_r.
  - transitivity (default 0 (read_words n m (a + 8) !! i)); [|done].
    rewrite <- IH by lia. f_equal. lia.
Qed.

(** Loading the [i]-th word of the context. *)
Lemma exec_ld rd i ws b l p pr se sc sv m k :
  l !! sp = Some b → 0 ≤ b → b + CONTEXT_SIZE < 2 ^ 64 →
  read_words 36 m b = ws → (i < 36)%nat → rd ≠ 0%nat →
  exec (Ld rd (8 * Z.of_nat i) sp) (mkSys (mkCpu l p pr se sc sv m) k)
  = Ret (tt, mkSys (mkCpu (<[rd := default 0 (ws !! i)]> l) p pr se sc sv m) k).
Proof.
  intros Hsp Hb Hb2 Hws Hi Hrd. unfold CONTEXT_SIZE in *.
  unfold TrapEntry.exec, reg, gets, mbind, M_bind. cpu_simpl. rewrite Hsp. cpu_simpl.
  rewrite wrap64_small by (unfold in_u64; lia). rewrite (read_words_lookup _ _ _ _ _ Hws Hi).
  destruct rd as [|rd]; [done|]. reflexivity.
Qed.

(** Loading a CSR from the context. *)
Lemma exec_csr_restore q i ws b l p pr se sc sv m k s' :
  l !! sp = Some b → length l = 32%nat → 0 ≤ b → b + CONTEXT_SIZE < 2 ^ 64 →
  read_words 36 m b = ws → (i < 36)%nat →
  write_csr sstatus_warl q (default 0 (ws !! i))
    (mkSys (mkCpu (<[t0 := default 0 (ws !! i)]> l) p pr se sc sv m) k) = Ret (tt, s') →
  exec_all [Ld t0 (8 * Z.of_nat i) sp; Csrw q t0] (mkSys (mkCpu l p pr se sc sv m) k) = Ret (tt, s').
Proof.
  intros Hsp Hl Hb Hb2 Hws Hi Hq. cbn [TrapEntry.exec_all].
  mstep_with ltac:(by apply (exec_ld t0 i ws b)).
  mstep_with ltac:(unfold TrapEntry.exec, reg, gets, mbind, M_bind; cpu_simpl;
    rewrite list_lookup_insert_eq by (unfold t0; lia); cpu_simpl; exact Hq).
  reflexivity.
Qed.

Lemma read_saved_regs m b ctx :
  length (TrapContext.x ctx) = 32%nat → read_words 36 m b = context_words ctx →
  read_words 29 m (b + 8 * Z.of_nat 3) = drop 3 (TrapContext.x ctx).
Proof.
  intros Hl H. change 36%nat with (3 + (29 + 4))%nat in H. rewrite !read_words_app in H.
  apply (f_equal (λ l, take 29 (drop 3 l))) in H. unfold context_words in H.
  rewrite drop_app_length', take_app_length' in H by (by rewrite read_words_length).
  rewrite H, drop_app_le by lia. rewrite take_app_le by (rewrite length_drop; lia).
  apply take_ge. rewrite length_drop. lia.
Qed.

Lemma context_words_x ctx i :
  (i < length (TrapContext.x ctx))%nat → context_words ctx !! i = TrapContext.x ctx !! i.
Proof. apply lookup_app_l. Qed.

Lemma exec_restore_regs b l p pr se sc sv m k ctx :
  length l = 32%nat → l !! 0%nat = Some 0 → l !! sp = Some b → 0 ≤ b → b + CONTEXT_SIZE < 2 ^ 64 →
  length (TrapContext.x ctx) = 32%nat → read_words 36 m b = context_words ctx →
  exec_all ([Ld 1 (8 * Z.of_nat 1) sp] ++ ((λ r, Ld r (8 * Z.of_nat r) sp) <$> seq 3 29)
            ++ [Ld sp (8 * Z.of_nat 2) sp] ++ [Addi sp sp CONTEXT_SIZE])
    (mkSys (mkCpu l p pr se sc sv m) k)
  = Ret (tt, mkSys (mkCpu (returned_regs ctx) p pr se sc sv m) k).
Proof.
  intros Hl H0 Hsp Hb Hb2 Cl Hws. pose proof Hb2 as Hb3. unfold CONTEXT_SIZE in Hb3.
  destruct l as [|z0 [|z1 [|z2 l]]]; try done. injection H0 as ->. injection Hsp as ->.
  cbn [length] in Hl.
  erewrite exec_all_app
    by (cbn [TrapEntry.exec_all]; mstep_with ltac:(apply (exec_ld 1 1 (context_words ctx) b); first [done|lia]); reflexivity).
  erewrite exec_all_app by (apply (exec_loads 29 3 b); cbn [length insert list_insert]; first [done|lia]).
  rewrite (read_saved_regs _ _ _ Cl Hws), (drop_ge _ (3 + 29)) by (rewrite length_insert; cbn [length]; lia). rewrite app_nil_r.
  erewrite exec_all_app
    by (cbn [TrapEntry.exec_all]; mstep_with ltac:(apply (exec_ld sp 2 (context_words ctx) b); first [done|lia]); reflexivity).
  erewrite exec_addi by done.
  rewrite !context_words_x by lia. reflexivity.
Qed.

Lemma exec_return b l p pr se sc sv m k ctx :
  length l = 32%nat → l !! 0%nat = Some 0 → l !! sp = Some b → 0 ≤ b → b + CONTEXT_SIZE < 2 ^ 64 →
  length (TrapContext.x ctx) = 32%nat → read_words 36 m b = context_words ctx →
  let v := sstatus_warl (TS.sstatus (TS.hart k)) (TrapContext.sstatus ctx) in
  let pc' := Z.clearbit (TrapContext.sepc ctx) 0 in
  exec_all trap_return_code (mkSys (mkCpu l p pr se sc sv m) k)
  = Ret (tt, mkSys (mkCpu (returned_regs ctx) pc' (sret_priv v) pc' sc sv m)
               (set_hart (TS.mkHart (sret_sstatus v) (TS.stvec (TS.hart k))) k)).
Proof.
  intros Hl H0 Hsp Hb Hb2 Cl Hws. cbv zeta.
  change trap_return_code with ([Ld t0 (8 * Z.of_nat 32) sp; Csrw SSTATUS t0]
    ++ [Ld t0 (8 * Z.of_nat 33) sp; Csrw SEPC t0]
    ++ ([Ld 1 (8 * Z.of_nat 1) sp] ++ ((λ r, Ld r (8 * Z.of_nat r) sp) <$> seq 3 29)
        ++ [Ld sp (8 * Z.of_nat 2) sp] ++ [Addi sp sp CONTEXT_SIZE])
    ++ [Sret]).
  assert (∀ i, context_words ctx !! (32 + i)%nat
    = [TrapContext.sstatus ctx; TrapContext.sepc ctx; TrapContext.scause ctx; TrapContext.stval ctx] !! i)
    as Hcsr by (intros i; unfold context_words; rewrite lookup_app_r by lia; f_equal; lia).
  erewrite exec_all_app by (eapply (exec_csr_restore SSTATUS 32); [done..|lia|reflexivity]).
  erewrite exec_all_app by (eapply (exec_csr_restore SEPC 33); [|by rewrite ?length_insert|done..|lia|reflexivity];
    by rewrite list_lookup_insert_ne by done).
  rewrite (Hcsr 0%nat : context_words ctx !! 32%nat = Some (TrapContext.sstatus ctx)),
    (Hcsr 1%nat : context_words ctx !! 33%nat = Some (TrapContext.sepc ctx)). cpu_simpl.
  erewrite exec_all_app by
    (eapply (exec_restore_regs b); [..|exact Hws]; rewrite ?length_insert, ?list_lookup_insert_ne by done; done).
  reflexivity.
Qed.

(** ** A whole trap *)

(** The bytes that hold the trap system and whatever else the handlers keep: its
    statics (the lock of [GLOBAL_TRAP_SYSTEM] among them) and the heap blocks of its
    managers and of the error log, which lie above the stack. *)
Context (owned : Z → Prop).

(** Two memories that agree from [lo] on, the trap system's bytes apart. *)
Definition agree_above (m m' : memory) (lo : Z) : Prop :=
  ∀ x, lo ≤ x < 2 ^ 64 → ¬ owned x → m !! x = m' !! x.

(** What the compiled code keeps: the calling convention promises the zero
    register and the stack pointer; and the code writes above the stack pointer
    only bytes the trap system owns. *)
Record calling_convention : Prop := {
  cc_length : ∀ l, length (clobber l) = length l;
  cc_zero : ∀ l, clobber l !! 0%nat = l !! 0%nat;
  cc_sp : ∀ l, clobber l !! sp = l !! sp;
  cc_frames : ∀ b m, agree_above m (frames b m) b;
}.

Lemma agree_above_of m m' lo lo' : lo ≤ lo' → agree m m' lo (2 ^ 64) → agree_above m m' lo'.
Proof. intros Hl H x Hx _. apply H. lia. Qed.

Lemma agree_above_mono m m' lo lo' : lo ≤ lo' → agree_above m m' lo → agree_above m m' lo'.
Proof. intros Hl H x Hx. apply H. lia. Qed.

Lemma agree_above_trans m1 m2 m3 lo : agree_above m1 m2 lo → agree_above m2 m3 lo → agree_above m1 m3 lo.
Proof. intros H1 H2 x Hx Ho. by rewrite H1, H2. Qed.

(** A region of the stack is not the trap system's. *)
Lemma agree_above_region m m' lo hi :
  agree_above m m' lo → hi ≤ 2 ^ 64 → (∀ x, lo ≤ x < hi → ¬ owned x) → agree m m' lo hi.
Proof. intros H Hh Ho x Hx. apply H; [lia|auto]. Qed.

(** The registers of a machine of 64-bit words, with room for a context on the
    stack, in memory that is not the trap system's. *)
Record regs_ok (l : list Z) (b : Z) : Prop := {
  regs_length : length l = 32%nat;
  regs_zero : l !! 0%nat = Some 0;
  regs_words : Forall in_u64 l;
  regs_sp : l !! sp = Some (b + CONTEXT_SIZE);
  regs_room : 0 ≤ b;
  regs_stack : ∀ x, b ≤ x < b + CONTEXT_SIZE → ¬ owned x;
}.

(** The state in which the entry code runs, and the context it makes. *)
Definition trapped_kernel s : TS.KState W :=
  let h := TS.hart (kernel s) in
  set_hart (TS.mkHart (trap_sstatus (TS.sstatus h) (priv (cpu s))) (TS.stvec h)) (kernel s).
Definition trapped_context (b cause tval : Z) s : TrapContext.t :=
  TrapContext.mk (load 8 (ram (cpu s)) b :: drop 1 (<[sp := b]> (regs (cpu s))))
    (trap_sstatus (TS.sstatus (TS.hart (kernel s))) (priv (cpu s))) (pc (cpu s)) cause tval.

Lemma trapped_context_ok b cause tval s :
  regs_ok (regs (cpu s)) b → in_u64 (TS.sstatus (TS.hart (trapped_kernel s))) →
  in_u64 (pc (cpu s)) → in_u64 cause → in_u64 tval →
  context_ok (trapped_context b cause tval s).
Proof.
  intros [Rl Rz Rw Rsp Rr Ro] H1 H2 H3 H4.
  pose proof (Forall_lookup_1 _ _ _ _ Rw Rsp) as [_ Hb]. unfold CONTEXT_SIZE in Hb. split.
  - cbn [trapped_context TrapContext.x length]. by rewrite length_drop, length_insert, Rl.
  - apply Forall_app. split; [|by rewrite !Forall_cons, Forall_nil].
    apply Forall_cons. split; [apply (load_range 8)|]. apply Forall_drop, Forall_insert; [done|unfold in_u64; lia].
Qed.

(** The call: what the code behind it finds. *)
Lemma exec_call b l p pr se sc sv m k ctx ctx' k' :
  calling_convention → length l = 32%nat → l !! 0%nat = Some 0 → l !! sp = Some b → l !! a0 = Some b →
  0 ≤ b → b + CONTEXT_SIZE < 2 ^ 64 → (∀ x, b ≤ x < b + CONTEXT_SIZE → ¬ owned x) →
  read_words 36 m b = context_words ctx → length (TrapContext.x ctx) = 32%nat →
  TS.dispatch_trap ctx k = Ret (ctx', k') → context_ok ctx' →
  ∃ l' m', call_handle_trap clobber frames (mkSys (mkCpu l p pr se sc sv m) k)
      = Ret (tt, mkSys (mkCpu l' p pr se sc sv m') k')
    ∧ length l' = 32%nat ∧ l' !! 0%nat = Some 0 ∧ l' !! sp = Some b
    ∧ read_words 36 m' b = context_words ctx' ∧ agree_above m m' (b + CONTEXT_SIZE).
Proof.
  intros [Kl Kz Ks Kf] Hl H0 Hsp Ha Hb Hb2 Ho Hws Hx E [Cl Cw]. pose proof (context_words_length _ Cl) as Hn.
  unfold CONTEXT_SIZE in *.
  eexists (clobber l), (frames b (store_words (context_words ctx') m b)). split.
  - unfold call_handle_trap.
    mstep_with ltac:(unfold reg, gets; cpu_simpl; rewrite Ha; reflexivity).
    mstep_with ltac:(unfold handle_trap; mstep;
      mstep_with ltac:(apply zoom_Ret; cpu_simpl; rewrite (read_context_words _ _ _ Hx Hws); exact E);
      reflexivity).
    mstep_with ltac:(unfold reg, gets; cpu_simpl; rewrite Hsp; reflexivity).
    reflexivity.
  - split_and!; [by rewrite Kl|by rewrite Kz|by rewrite Ks| |].
    + rewrite <- (read_words_agree 36 (store_words (context_words ctx') m b))
        by (eapply agree_sub; [eapply agree_above_region; [apply (Kf b)|apply Z.lt_le_incl, Hb2|exact Ho]|lia..]).
      rewrite <- Hn. by apply read_store_words.
    + eapply agree_above_trans; [|eapply agree_above_mono, Kf; lia].
      eapply agree_above_of; [done|]. apply agree_store_words. rewrite Hn. lia.
Qed.

(** When the dispatch does not return, the code behind the call does not run. *)
Lemma exec_call_stops b l p pr se sc sv m k ctx rest :
  l !! a0 = Some b → read_words 36 m b = context_words ctx → length (TrapContext.x ctx) = 32%nat →
  let run := exec_all (Call_handle_trap :: rest) (mkSys (mkCpu l p pr se sc sv m) k) in
  match TS.dispatch_trap ctx k with
  | Ret _ => True
  | Panic => run = Panic
  | Hang => run = Hang
  | Undef => run = Undef
  end.
Proof.
  intros Ha Hws Hx. cbv zeta. destruct (TS.dispatch_trap ctx k) as [r| | |] eqn:E; [done|..];
    cbn [TrapEntry.exec_all TrapEntry.exec];
    unfold call_handle_trap, handle_trap, on_kernel, zoom, reg, gets, mbind, M_bind; cpu_simpl;
    rewrite Ha; cpu_simpl; by rewrite (read_context_words _ _ _ Hx Hws), E.
Qed.

Lemma read_saved_context b l v c :
  length l = 32%nat → Forall in_u64 (context_words (entry_context b l v c)) →
  read_words 36 (store_words (drop 1 (context_words (entry_context b l v c))) (ram c) (b + 8)) b
  = context_words (entry_context b l v c).
Proof.
  intros Hl Hw. unfold context_words, entry_context in *. cbn [TrapContext.x app TrapContext.sstatus
    TrapContext.sepc TrapContext.scause TrapContext.stval] in *.
  rewrite skipn_cons, drop_0. apply Forall_cons in Hw as [_ Hw]. set (ws := drop 1 _ ++ _) in *.
  assert (length ws = 35%nat) as Hn by (unfold ws; by rewrite length_app, length_drop, length_insert, Hl).
  rewrite (read_words_S 35). f_equal.
  - symmetry. apply load_agree, agree_store_words. lia.
  - rewrite <- Hn. by apply read_store_words.
Qed.

Lemma entry_code_split :
  trap_entry_code ++ trap_return_code = saving_code ++ Call_handle_trap :: J_next :: trap_return_code.
Proof. reflexivity. Qed.

(** A trap whose vector points to the entry code runs it in the trapped state. *)
Lemma trap_enters cause tval s :
  trap_target (TS.stvec (TS.hart (kernel s))) cause = trap_entry →
  let c := cpu s in
  trap clobber frames sstatus_warl trap_entry cause tval s
  = exec_all (trap_entry_code ++ trap_return_code)
      (mkSys (mkCpu (regs c) trap_entry Supervisor (pc c) cause tval (ram c)) (trapped_kernel s)).
Proof.
  intros Hv. cbv zeta. unfold trap.
  mstep_with ltac:(unfold take_trap; mstep; mstep; reflexivity).
  mstep. cpu_simpl. rewrite Hv, Z.eqb_refl. reflexivity.
Qed.

Lemma trap_run b cause tval s :
  calling_convention → regs_ok (regs (cpu s)) b →
  trap_target (TS.stvec (TS.hart (kernel s))) cause = trap_entry →
  in_u64 (TS.sstatus (TS.hart (trapped_kernel s))) →
  in_u64 (pc (cpu s)) → in_u64 cause → in_u64 tval →
  let run := trap clobber frames sstatus_warl trap_entry cause tval s in
  match TS.dispatch_trap (trapped_context b cause tval s) (trapped_kernel s) with
  | Ret (ctx, k) =>
      context_ok ctx →
      let v := sstatus_warl (TS.sstatus (TS.hart k)) (TrapContext.sstatus ctx) in
      let pc' := Z.clearbit (TrapContext.sepc ctx) 0 in
      ∃ m, run = Ret (tt, mkSys (mkCpu (returned_regs ctx) pc' (sret_priv v) pc' cause tval m)
                            (set_hart (TS.mkHart (sret_sstatus v) (TS.stvec (TS.hart k))) k))
        ∧ agree_above (ram (cpu s)) m (b + CONTEXT_SIZE)
  | Panic => run = Panic
  | Hang => run = Hang
  | Undef => run = Undef
  end.
Proof.
  intros CC R Hv H1 H2 H3 H4. cbv zeta.
  pose proof (trapped_context_ok b cause tval s R H1 H2 H3 H4) as Hok.
  destruct R as [Rl Rz Rw Rsp Rr Ro]. pose proof (Forall_lookup_1 _ _ _ _ Rw Rsp) as [_ Hb].
  rewrite (trap_enters _ _ _ Hv), entry_code_split.
  destruct (exec_saving b (regs (cpu s)) trap_entry Supervisor (pc (cpu s)) cause tval
              (ram (cpu s)) (trapped_kernel s) Rl Rsp Rr Hb) as (l1 & E1 & L1 & Z1 & S1 & A1).
  rewrite Rz in Z1. rewrite (exec_all_app _ _ _ _ E1). clear E1.
  match type of Hok with context_ok ?c => change (entry_context b (regs (cpu s)) _ _) with c end.
  pose proof (read_saved_context b (regs (cpu s)) _
    (mkCpu (regs (cpu s)) trap_entry Supervisor (pc (cpu s)) cause tval (ram (cpu s))) Rl (ctx_words _ Hok))
    as Hws.
  pose proof (exec_call_stops b l1 trap_entry Supervisor (pc (cpu s)) cause tval _ (trapped_kernel s)
                (trapped_context b cause tval s) (J_next :: trap_return_code) A1 Hws (ctx_len _ Hok)) as Hstop.
  cbv zeta in Hstop.
  destruct (TS.dispatch_trap _ _) as [[ctx k]| | |] eqn:E; [clear Hstop|done..]. intros Hc.
  destruct (exec_call b l1 trap_entry Supervisor (pc (cpu s)) cause tval _ (trapped_kernel s)
              (trapped_context b cause tval s) ctx k CC L1 Z1 S1 A1 Rr Hb Ro Hws (ctx_len _ Hok) E Hc)
    as (l2 & m2 & E2 & L2 & Z2 & S2 & W2 & G2).
  exists m2. split.
  - change (Call_handle_trap :: J_next :: trap_return_code)
      with ([Call_handle_trap; J_next] ++ trap_return_code).
    erewrite exec_all_app
      by (cbn [TrapEntry.exec_all TrapEntry.exec]; mstep_with ltac:(exact E2); mstep; reflexivity).
    by apply (exec_return b); [..|apply Hc|].
  - eapply agree_above_trans; [|exact G2]. eapply agree_above_of; [done|].
    apply agree_store_words. rewrite length_drop.
    rewrite (context_words_length (entry_context _ _ _ _)) by apply (ctx_len _ Hok).
    unfold CONTEXT_SIZE. lia.
Qed.

Lemma put_bit_spec v i b n : 0 ≤ i → 0 ≤ n → Z.testbit (put_bit v i b) n = if i =? n then b else Z.testbit v n.
Proof.
  intros Hi Hn. destruct b; cbn [put_bit].
  - rewrite Z.setbit_eqb by done. by destruct (i =? n).
  - rewrite Z.clearbit_eqb. destruct (i =? n); [by rewrite andb_false_r|by rewrite andb_true_r].
Qed.

(** [sret] undoes what the trap did to the interrupt enable and the privilege. *)
Lemma sret_trap_sstatus v p :
  sret_priv (trap_sstatus v p) = p
  ∧ sie_on (sret_sstatus (trap_sstatus v p)) = sie_on v
  ∧ ∀ n, 0 ≤ n → n ≠ bit_SPIE → n ≠ bit_SPP →
      Z.testbit (sret_sstatus (trap_sstatus v p)) n = Z.testbit v n.
Proof.
  unfold sret_priv, sret_sstatus, trap_sstatus, sie_on, bit_SIE, bit_SPIE, bit_SPP.
  split_and!; [|by rewrite !put_bit_spec by lia|].
  - rewrite put_bit_spec by lia. by destruct p.
  - intros n Hn H5 H8. rewrite !put_bit_spec by lia.
    destruct (Z.eqb_spec 8 n), (Z.eqb_spec 5 n), (Z.eqb_spec 1 n); subst; done.
Qed.

Lemma returned_regs_trapped b cause tval s :
  regs_ok (regs (cpu s)) b → returned_regs (trapped_context b cause tval s) = regs (cpu s).
Proof.
  intros [Rl Rz Rw Rsp Rr Ro]. pose proof (Forall_lookup_1 _ _ _ _ Rw Rsp) as Hb.
  unfold returned_regs. cbn [trapped_context TrapContext.x].
  destruct (regs (cpu s)) as [|z0 [|z1 [|z2 l]]]; try done.
  injection Rz as ->. injection Rsp as ->. cbn. by rewrite wrap64_small.
Qed.

(** ** Traps in a running system *)

Context (hash : string → TrapType.t → Z).

(** The context after the handlers of a list. *)
Definition handled_context (es : list (TS.HM.HandlerEntry W)) (ctx : TrapContext.t) (w : W) : TrapContext.t :=
  (TS.HM.try_handlers es ctx w).1.2.

Lemma dispatch_trap_context k q ctx :
  TS.running hash k q →
  ∃ es k' q', TS.HM.entries (TS.hm k) (TS.HM.dispatch_order (TS.hm k)
                                        (TrapCause.to_trap_type (TrapContext.cause ctx))) es
    ∧ TS.dispatch_trap ctx k = Ret (handled_context es ctx (TS.HM.world (TS.hm k)), k')
    ∧ TS.running hash k' q' ∧ TS.hart k' = TS.hart k.
Proof.
  intros [R1 R2 R3 R4 R5].
  destruct (TS.HM.entries_exist hash (TS.hm k) (TrapCause.to_trap_type (TrapContext.cause ctx)) R4)
    as [es Hes].
  pose proof (TS.HM.dispatch_spec (TS.hm k) ctx es Hes) as Hd. unfold handled_context.
  destruct (TS.HM.try_handlers es ctx (TS.HM.world (TS.hm k))) as [[[] ctx'] w'] eqn:T.
  - exists es. eexists _, q. split; [done|]. rewrite T. cbn [fst snd]. split.
    + unfold TS.dispatch_trap. apply TS.with_trap_system_run; [done|done|].
      unfold TS.handle_trap. mstep_with ltac:(apply zoom_Ret; exact Hd). reflexivity.
    + split; [|done]. split; try done. by apply TS.hm_ok_world.
  - pose proof (TS.EM.handle_error_spec (TS.unhandled_report ctx') (TS.EM.mkEState (TS.em k) w') q R5) as He.
    cbn [TS.EM.mgr TS.EM.world] in He. cbv zeta in *.
    destruct (if TS.EM.panic_mode (TS.em k) && _ then _ else _) as [r w2].
    destruct He as (l' & E & Hl). exists es. eexists _, _. split; [done|]. rewrite T. cbn [fst snd]. split.
    + unfold TS.dispatch_trap. apply TS.with_trap_system_run; [done|done|].
      unfold TS.handle_trap. mstep_with ltac:(apply zoom_Ret; exact Hd). cbv beta iota.
      mstep_with ltac:(apply zoom_Ret; exact E). reflexivity.
    + split; [|done]. split; try done. by apply TS.hm_ok_world, TS.hm_ok_world.
Qed.

Lemma trapped_running s q : TS.running hash (kernel s) q → TS.running hash (trapped_kernel s) q.
Proof. intros []. by split. Qed.

(** What a state needs for a trap to be taken: a running system, words in the
    registers, the entry code as the trap vector. *)
Record trappable s (q : list ErrorLogEntry) (b cause tval : Z) : Prop := {
  tp_convention : calling_convention;
  tp_running : TS.running hash (kernel s) q;
  tp_regs : regs_ok (regs (cpu s)) b;
  tp_vector : trap_target (TS.stvec (TS.hart (kernel s))) cause = trap_entry;
  tp_sstatus : in_u64 (TS.sstatus (TS.hart (trapped_kernel s)));
  tp_pc : in_u64 (pc (cpu s));
  tp_cause : in_u64 cause;
  tp_tval : in_u64 tval;
}.

(** The handlers of a trap, in the order they are tried. *)
Definition trap_handlers (cause : Z) s : list (TS.HM.HandlerEntry W) → Prop :=
  TS.HM.entries (TS.hm (kernel s))
    (TS.HM.dispatch_order (TS.hm (kernel s)) (TrapCause.to_trap_type (TrapCause.from_bits cause))).

(** C4: In a running system a trap always comes back.  Its handlers see in the
    context the registers [x1] to [x31] of the interrupted program, its program
    counter and status, and the cause; but [x2] is the stack pointer after it was
    lowered by the size of the context, and [x0] whatever the stack held there.
    The machine goes on with the registers, program counter and privilege they
    leave in the context, its stack pointer the saved one plus the size of the
    context; the memory above the interrupted stack pointer is untouched, except
    for the bytes that the trap system itself owns there, and the system still
    runs. *)
Theorem trap_correct b cause tval s q :
  trappable s q b cause tval →
  ∃ es, trap_handlers cause s es
  ∧ let ctx := handled_context es (trapped_context b cause tval s) (TS.HM.world (TS.hm (kernel s))) in
    context_ok ctx →
    let v := sstatus_warl (TS.sstatus (TS.hart (trapped_kernel s))) (TrapContext.sstatus ctx) in
    ∃ s' q', trap clobber frames sstatus_warl trap_entry cause tval s = Ret (tt, s')
      ∧ regs (cpu s') = returned_regs ctx
      ∧ pc (cpu s') = Z.clearbit (TrapContext.sepc ctx) 0
      ∧ priv (cpu s') = sret_priv v ∧ sstatus s' = sret_sstatus v
      ∧ agree_above (ram (cpu s)) (ram (cpu s')) (b + CONTEXT_SIZE)
      ∧ TS.running hash (kernel s') q'.
Proof.
  intros [CC Hr R Hv H1 H2 H3 H4].
  destruct (dispatch_trap_context (trapped_kernel s) q (trapped_context b cause tval s) (trapped_running _ _ Hr))
    as (es & k & q' & Hes & E & Hk & Hh).
  exists es. split; [exact Hes|]. cbv zeta. intros Hok.
  pose proof (trap_run b cause tval s CC R Hv H1 H2 H3 H4) as H. cbv zeta in H. rewrite E in H.
  destruct (H Hok) as (m & -> & G). rewrite Hh. eexists _, q'. split; [done|].
  split_and!; try done. destruct Hk. by split.
Qed.

Lemma handled_context_id es ctx w :
  Forall (λ e, ∀ x w, (TS.HM.handler e x w).1.2 = x) es → handled_context es ctx w = ctx.
Proof.
  unfold handled_context. intros H. revert w.
  induction H as [|e es He _ IH]; intros w; [done|]. cbn [TS.HM.try_handlers].
  specialize (He ctx w). destruct (TS.HM.handler e ctx w) as [[[] c'] w']; cbn in He; subst; first [done|apply IH].
Qed.

(** C13: A trap whose handlers leave the context as they found it is invisible to
    the interrupted program: it goes on at the same instruction, with the same
    registers, privilege and interrupt enable, and with its memory above the
    stack pointer as it was (the bytes the trap system itself owns there may
    change). *)
Theorem trap_transparent b cause tval s q :
  trappable s q b cause tval → (∀ v, sstatus_warl v v = v) → Z.testbit (pc (cpu s)) 0 = false →
  (∀ es, trap_handlers cause s es → Forall (λ e, ∀ x w, (TS.HM.handler e x w).1.2 = x) es) →
  ∃ s' q', trap clobber frames sstatus_warl trap_entry cause tval s = Ret (tt, s')
    ∧ regs (cpu s') = regs (cpu s) ∧ pc (cpu s') = pc (cpu s) ∧ priv (cpu s') = priv (cpu s)
    ∧ sie_on (sstatus s') = sie_on (sstatus s)
    ∧ agree_above (ram (cpu s)) (ram (cpu s')) (b + CONTEXT_SIZE)
    ∧ TS.running hash (kernel s') q'.
Proof.
  intros [CC Hr R Hv H1 H2 H3 H4] Hw He Hid.
  destruct (dispatch_trap_context (trapped_kernel s) q (trapped_context b cause tval s) (trapped_running _ _ Hr))
    as (es & k & q' & Hes & E & Hk & Hh).
  rewrite handled_context_id in E by (apply Hid, Hes).
  pose proof (trap_run b cause tval s CC R Hv H1 H2 H3 H4) as H. cbv zeta in H. rewrite E in H.
  destruct (H (trapped_context_ok b cause tval s R H1 H2 H3 H4)) as (m & -> & G).
  eexists _, q'. split; [done|]. rewrite Hh. unfold trapped_kernel. cpu_simpl.
  cbn [trapped_context TrapContext.sstatus TrapContext.sepc]. rewrite Hw.
  destruct (sret_trap_sstatus (TS.sstatus (TS.hart (kernel s))) (priv (cpu s))) as (P1 & P2 & _).
  split_and!; try done; [by apply returned_regs_trapped| |destruct Hk; by split].
  apply Z.bits_inj'. intros n Hn. rewrite Z.clearbit_eqb. destruct (Z.eqb_spec 0 n) as [<-|].
  - by rewrite He.
  - apply andb_true_r.
Qed.

(** ** Traps while the lock is held *)

(** The instructions other than the call return and leave the lock alone. *)
Lemma exec_keeps_lock i s :
  i ≠ Call_handle_trap → ∃ s', exec i s = Ret (tt, s') ∧ TS.locked (kernel s') = TS.locked (kernel s).
Proof.
  intros Hi. destruct i as [[] rs imm|[] rs|rs o base|[] o base|[] q|[] rs| | |]; first [done|by eexists].
Qed.

Lemma exec_all_keeps_lock l s :
  Call_handle_trap ∉ l →
  ∃ s', exec_all l s = Ret (tt, s') ∧ TS.locked (kernel s') = TS.locked (kernel s).
Proof.
  revert s. induction l as [|i l IH]; intros s Hl; [by eexists|].
  apply not_elem_of_cons in Hl as [Hi Hl].
  destruct (exec_keeps_lock i s (not_eq_sym Hi)) as (s1 & E1 & K1). destruct (IH s1 Hl) as (s2 & E2 & K2).
  exists s2. split; [|by rewrite K2]. cbn [TrapEntry.exec_all]. by mstep_with ltac:(exact E1).
Qed.

Lemma saving_no_call : Call_handle_trap ∉ saving_code.
Proof. apply (bool_decide_unpack _). vm_compute. exact I. Qed.

Lemma exec_call_locked rest s :
  TS.locked (kernel s) = true → exec_all (Call_handle_trap :: rest) s = Hang.
Proof.
  intros H. cbn [TrapEntry.exec_all TrapEntry.exec].
  unfold call_handle_trap, handle_trap, on_kernel, zoom, reg, gets, mbind, M_bind.
  unfold TS.dispatch_trap, TS.with_trap_system, gets, mbind, M_bind. by rewrite H.
Qed.

(** C21: A trap taken while the lock of the trap system is held never comes back:
    the handler of the trap spins on a lock whose holder it interrupted.  The
    functions of the trap interface hold that lock without masking interrupts, so
    an interrupt inside any of them is such a trap; so is a fault inside a
    handler. *)
Theorem trap_under_lock_hangs {A} (f : M (TS.KState W) A) k c cause tval :
  TS.installed k = true → TS.locked k = false →
  trap_target (TS.stvec (TS.hart k)) cause = trap_entry →
  ∃ k1, TS.with_trap_system f k = (r ← f; TS.set_locked false;; mret r) k1
    ∧ TS.hart k1 = TS.hart k
    ∧ trap clobber frames sstatus_warl trap_entry cause tval (mkSys c k1) = Hang.
Proof.
  intros Hi Hl Hv. eexists. split; [|split].
  - unfold TS.with_trap_system. mstep. rewrite Hl, Hi. cbn [negb]. mstep. reflexivity.
  - done.
  - rewrite trap_enters by done. rewrite entry_code_split.
    destruct (exec_all_keeps_lock saving_code (mkSys (mkCpu (regs c) trap_entry Supervisor (pc c) cause tval (ram c))
      (trapped_kernel (mkSys c (TS.mkKState (TS.hart k) (TS.initialized k) (TS.installed k) true (TS.hm k) (TS.em k))))))
      as (s1 & E1 & K1); [apply saving_no_call|].
    rewrite (exec_all_app _ _ _ _ E1). by apply exec_call_locked.
Qed.

End proofs.

(** ** Witnesses *)

Module EntryDemo.

(** Compiled code that leaves a value in [a0], one byte below the stack pointer
    and one in the trap system's data at 16384. *)
Definition clobber (l : list Z) : list Z := <[a0 := 77]> l.
Definition owned (x : Z) : Prop := x = 16384.
Definition frames (b : Z) (m : memory) : memory := <[16384 := 1]> (<[b - 1 := 9]> m).
Definition warl (_ v : Z) : Z := v.

Lemma convention : calling_convention clobber frames owned.
Proof.
  split.
  - intros l. apply length_insert.
  - intros l. by apply list_lookup_insert_ne.
  - intros l. by apply list_lookup_insert_ne.
  - intros b m x Hx Ho. unfold frames. rewrite !lookup_insert_ne; [done|lia|by intros <-].
Qed.

(** A program at 2048 with interrupts enabled, the vector at 4096. *)
Definition regs0 : list Z := 0 :: 11 :: 8192 :: (Z.of_nat <$> seq 3 29).
Definition kernel0 : TS.KState Z := set_hart (TS.mkHart 2 4096) TS.SysDemo.up.
Definition s0 : Sys Z := mkSys (mkCpu regs0 2048 Supervisor 0 0 0 ∅) kernel0.
Definition timer : Z := 2 ^ 63 + 5.

Lemma ready : trappable (P := Dev) clobber frames 4096 owned TS.HM.Demo.hash s0 [] (8192 - CONTEXT_SIZE) timer 0.
Proof.
  split; [apply convention| | |reflexivity|by vm_compute..].
  - pose proof TS.SysDemo.up_running as []. by split.
  - split; try done; [apply (bool_decide_unpack _); by vm_compute|].
    intros x Hx ->. unfold CONTEXT_SIZE in Hx. lia.
Qed.

End EntryDemo.

Lemma trap_correct_witness :
  ∃ s', trap (P := Dev) EntryDemo.clobber EntryDemo.frames EntryDemo.warl 4096 EntryDemo.timer 0 EntryDemo.s0 = Ret (tt, s')
    ∧ regs (cpu s') = EntryDemo.regs0 ∧ pc (cpu s') = 2048.
Proof.
  destruct (trap_correct (P := Dev) EntryDemo.clobber EntryDemo.frames EntryDemo.warl 4096 EntryDemo.owned TS.HM.Demo.hash
              (8192 - CONTEXT_SIZE) EntryDemo.timer 0 EntryDemo.s0 [] EntryDemo.ready) as (es & Hes & H).
  apply Forall2_cons_inv_l in Hes as (e1 & es1 & E1 & Hes & ->).
  apply Forall2_cons_inv_l in Hes as (e2 & es2 & E2 & Hes & ->).
  apply Forall2_nil_inv_l in Hes as ->. injection E1 as <-. injection E2 as <-.
  destruct H as (s' & q' & E & Hr & Hp & _).
  { split; [reflexivity|]. apply (bool_decide_unpack _). by vm_compute. }
  exists s'. split; [exact E|]. split; [rewrite Hr; by vm_compute|rewrite Hp; by vm_compute].
Defined.

Lemma trap_transparent_witness :
  ∃ s', trap (P := Dev) EntryDemo.clobber EntryDemo.frames EntryDemo.warl 4096 EntryDemo.timer 0 EntryDemo.s0 = Ret (tt, s')
    ∧ regs (cpu s') = EntryDemo.regs0 ∧ sie_on (sstatus s') = true.
Proof.
  destruct (trap_transparent (P := Dev) EntryDemo.clobber EntryDemo.frames EntryDemo.warl 4096 EntryDemo.owned TS.HM.Demo.hash
              (8192 - CONTEXT_SIZE) EntryDemo.timer 0 EntryDemo.s0 [] EntryDemo.ready)
    as (s' & q' & E & Hr & _ & _ & Hs & _);
    [reflexivity|reflexivity| |exists s'; split; [exact E|split; [exact Hr|exact Hs]]].
  intros es Hes.
  apply Forall2_cons_inv_l in Hes as (e1 & es1 & E1 & Hes & ->).
  apply Forall2_cons_inv_l in Hes as (e2 & es2 & E2 & Hes & ->).
  apply Forall2_nil_inv_l in Hes as ->. injection E1 as <-. injection E2 as <-. by repeat constructor.
Defined.

Lemma trap_under_lock_hangs_witness :
  ∃ k1 : TS.KState Z, sie_on (TS.sstatus (TS.hart k1)) = true
    ∧ trap (P := Dev) EntryDemo.clobber EntryDemo.frames EntryDemo.warl 4096 EntryDemo.timer 0
        (mkSys (cpu EntryDemo.s0) k1) = Hang.
Proof.
  destruct (trap_under_lock_hangs (P := Dev) EntryDemo.clobber EntryDemo.frames EntryDemo.warl 4096
              (TS.on_hart TS.disable_interrupts) EntryDemo.kernel0 (cpu EntryDemo.s0) EntryDemo.timer 0
              eq_refl eq_refl eq_refl) as (k1 & _ & Hh & E).
  exists k1. split; [by rewrite Hh|exact E].
Defined.
