(* ===== verification/Container.v ===== *)
(** * The traits of the trap system and their clients

    Models [src/trap/infrastructure/di/traits.rs], the parts of
    [src/trap/infrastructure/di/container.rs] that only know the traits, the
    [LowLevelHardwareController] of [di/mod.rs], and
    [src/trap/infrastructure/context_manager.rs].  A trait is a class of
    operations over the state its implementations act on; what its clients rely
    on is a second class of laws. *)

From Stdlib Require Import ZArith Lia String.
From stdpp Require Import base option numbers sorting strings gmap list.
From S2P Require Import Prelude TrapTypes BTree HandlerManager HandlerSafety ErrorManager TrapSystem.

Module TS := TrapSystem.
Module HM := HandlerManager.
Module EM := ErrorManager.

(** ** The traits *)

Class HandlerManager (S : Type) : Type := {
  register : TrapType.t → HM.HandlerStore → M S (result unit HM.HandlerHandle);
  unregister : HM.HandlerHandle → Z → M S (result unit unit);
  transfer_ownership : HM.HandlerHandle → Z → Z → M S (result unit unit);
  dispatch : TrapContext.t → M S (HM.TrapHandlerResult.t * TrapContext.t);
  unregister_for_context : Z → M S unit;
}.

(** [H] is the type of the error handlers. *)
Class ErrorManager (H S : Type) : Type := {
  register_handler : Z → option ErrorSource.t → option ErrorLevel.t → H → M S (result unit unit);
  handle_error : SystemError.t → M S ErrorResult;
  log_error : SystemError.t → ErrorResult → M S unit;
  is_panic_mode : M S bool;
  enter_panic_mode : M S unit;
}.

(** [trait ContextManager] has no methods. *)
Class ContextManager (S : Type) : Type := {}.

Class HardwareController (S : Type) : Type := {
  init_trap_vector : TrapMode → M S unit;
  enable_interrupts : M S bool;
  disable_interrupts : M S bool;
  restore_interrupts : bool → M S unit;
}.

(** ** The container *)

Section container.
Context {H S : Type} `{!HandlerManager S, !ErrorManager H S, !HardwareController S}.

(** [TrapSystem::initialize] *)
Definition initialize (mode : TrapMode) : M S unit := init_trap_vector mode.

(** [TrapSystem::handle_trap], on whatever managers were injected. *)
Definition handle_trap (ctx : TrapContext.t) : M S TrapContext.t :=
  '(r, ctx') ← dispatch ctx;
  match r with
  | HM.TrapHandlerResult.Handled => mret ctx'
  | HM.TrapHandlerResult.Pass =>
      handle_error (TS.trap_report ErrorLevel.Critical (TS.unhandled_message ctx') ctx');;
      mret ctx'
  | HM.TrapHandlerResult.Failed e =>
      handle_error (TS.trap_report ErrorLevel.Error (TS.failed_message ctx' e) ctx');;
      mret ctx'
  end.

End container.

(** ** Contexts *)

(** The manager a context refers to is the state its operations act on. *)
Record ManagedContext : Type := ManagedContext_new { context_id : Z }.

Section contexts.
Context {S : Type} `{!HandlerManager S}.

(** [Drop::drop] *)
Definition ManagedContext_drop (c : ManagedContext) : M S unit :=
  unregister_for_context (context_id c).

(** Contexts that end one after the other. *)
Fixpoint drop_all (l : list ManagedContext) : M S unit :=
  match l with
  | [] => mret tt
  | c :: r => ManagedContext_drop c;; drop_all r
  end.

End contexts.

(** What a context relies on: the cleanup takes exactly its handles. *)
Class HandlerManagerLaws (S : Type) `{!HandlerManager S} : Type := {
  manager_inv : S → Prop;
  belongs : S → Z → HM.HandlerHandle → Prop;
  cleanup_law : ∀ cid s, manager_inv s →
    ∃ s', unregister_for_context cid s = Ret (tt, s') ∧ manager_inv s'
      ∧ ∀ c h, belongs s' c h ↔ belongs s c h ∧ c ≠ cid;
}.

Lemma drop_all_laws {S} `{HandlerManagerLaws S} l s :
  manager_inv s →
  ∃ s', drop_all l s = Ret (tt, s') ∧ manager_inv s'
    ∧ ∀ c h, belongs s' c h ↔ belongs s c h ∧ c ∉ (context_id <$> l).
Proof.
  revert s. induction l as [|x l IH]; intros s Hs.
  { exists s. split_and!; try done. intros c h. rewrite elem_of_nil. tauto. }
  destruct (cleanup_law (context_id x) s Hs) as (s1 & E1 & Hs1 & B1).
  destruct (IH s1 Hs1) as (s2 & E2 & Hs2 & B2). exists s2. split_and!; [|done|].
  - cbn [drop_all]. by mstep_with ltac:(exact E1).
  - intros c h. rewrite B2, B1, fmap_cons, elem_of_cons. tauto.
Qed.

(** ** The kernel's instances *)

Section kernel.
Context {P : Profile} {W : Type} (hash : string → TrapType.t → Z) (trap_entry : Z).

Definition HeapHandlerManager : HandlerManager (TS.KState W) := {|
  register ty c := TS.on_handlers (HM.register hash ty c);
  unregister h r := TS.on_handlers (HM.unregister h r);
  transfer_ownership h c n := TS.on_handlers (HM.transfer_ownership h c n);
  dispatch ctx := TS.on_handlers (HM.dispatch ctx);
  unregister_for_context cid := TS.on_handlers (HM.unregister_for_context cid);
|}.

Definition HeapErrorManager : ErrorManager (EM.ErrorHandlerFn (W := W)) (TS.KState W) := {|
  register_handler p src lvl h := TS.on_errors (EM.register_handler p src lvl h);
  handle_error e := TS.on_errors (EM.handle_error e);
  log_error e r := TS.on_errors (EM.log_error e r);
  is_panic_mode := TS.on_errors EM.is_panic_mode;
  enter_panic_mode := TS.on_errors EM.enter_panic_mode;
|}.

Definition HeapContextManager : ContextManager (TS.KState W) := Build_ContextManager _.

Definition LowLevelHardwareController : HardwareController (TS.KState W) := {|
  init_trap_vector m := TS.on_hart (TS.init_trap_vector trap_entry m);
  enable_interrupts := TS.on_hart TS.enable_interrupts;
  disable_interrupts := TS.on_hart TS.disable_interrupts;
  restore_interrupts b := TS.on_hart (TS.restore_interrupts b);
|}.

(** With the kernel's managers injected, the container's [handle_trap] is the one
    of [TrapSystem.v]. *)
Lemma handle_trap_injected ctx s :
  @handle_trap _ _ HeapHandlerManager HeapErrorManager ctx s = TS.handle_trap ctx s.
Proof. reflexivity. Qed.

Lemma heap_cleanup_law cid (s : TS.KState W) :
  hm_alive (TS.hm s) →
  ∃ s', @unregister_for_context _ HeapHandlerManager cid s = Ret (tt, s') ∧ hm_alive (TS.hm s')
    ∧ ∀ c h, handle_of_context (TS.hm s') c h ↔ handle_of_context (TS.hm s) c h ∧ c ≠ cid.
Proof.
  intros Hs. destruct (alive_context cid (TS.hm s) Hs) as (h' & E & Hh & B).
  eexists. split; [cbn; apply zoom_Ret; exact E|]. by split.
Qed.

#[local] Instance heap_handler_manager : HandlerManager (TS.KState W) := HeapHandlerManager.

Definition HeapHandlerManager_laws : HandlerManagerLaws (TS.KState W) := {|
  manager_inv s := hm_alive (TS.hm s);
  belongs s c h := handle_of_context (TS.hm s) c h;
  cleanup_law := heap_cleanup_law;
|}.

(** C38: When contexts end, dropping them one after the other unregisters exactly
    the handles of the handlers registered for them: none of theirs is left and
    every other handle stays, whatever was registered and removed before. *)
Theorem dropped_contexts_leave_no_handles (l : list ManagedContext) (s : TS.KState W) :
  hm_alive (TS.hm s) →
  ∃ s', drop_all l s = Ret (tt, s') ∧ hm_alive (TS.hm s')
    ∧ ∀ c h, handle_of_context (TS.hm s') c h ↔
             handle_of_context (TS.hm s) c h ∧ c ∉ (context_id <$> l).
Proof. intros Hs. exact (@drop_all_laws _ _ HeapHandlerManager_laws l s Hs). Qed.

End kernel.

Lemma dropped_contexts_leave_no_handles_witness :
  ∃ s', @drop_all _ (HeapHandlerManager HM.Demo.hash) [ManagedContext_new 7] TS.SysDemo.up = Ret (tt, s')
    ∧ ∀ h, ¬ handle_of_context (TS.hm s') 7 h.
Proof.
  destruct (dropped_contexts_leave_no_handles HM.Demo.hash [ManagedContext_new 7] TS.SysDemo.up)
    as (s' & E & _ & B).
  - exact (hm_ok_alive HM.Demo.hash _ HM.Demo.s2_ok).
  - exists s'. split; [exact E|]. intros h Hh. apply (B 7 h) in Hh as [_ Hn]. apply Hn.
    apply list_elem_of_singleton. reflexivity.
Defined.
