(* ===== verification/TrapRuns.v ===== *)
(** * Runs of the trap system

    The trap system as a transition system: it starts with
    [initialize_trap_system] and then takes calls of the public API
    ([src/trap/api.rs]), traps from the hardware and the end of contexts, in any
    order and with any arguments.  [usable] holds along every run, and in a
    usable state every call returns. *)

From Stdlib Require Import ZArith Lia String.
From stdpp Require Import base option numbers sorting strings gmap list.
From S2P Require Import Prelude TrapTypes BTree RingBuffer HandlerManager HandlerSafety ErrorManager TrapSystem Container.

Section runs.
Context {P : Profile} {W : Type} (hash : string → TrapType.t → Z) (trap_entry : Z).
Implicit Types s : TS.KState W.

(** What can happen to the system. *)
Inductive event : Type :=
| RegisterTrapHandler (ty : TrapType.t) (fn : HM.TrapHandler (W := W)) (priority : Z) (description : string)
    (level : HM.ProtectionLevel) (registrar : Z) (context : option Z)
| UnregisterTrapHandler (handle : HM.HandlerHandle) (requester : Z)
| TransferOwnership (handle : HM.HandlerHandle) (owner new_owner : Z)
| EnableInterrupts
| DisableInterrupts
| RestoreInterrupts (was_enabled : bool)
| RegisterErrorHandler (priority : Z) (source : option ErrorSource.t) (level : option ErrorLevel.t)
    (handler : EM.ErrorHandlerFn (W := W))
| ReportError (error : SystemError.t)
| Trap (ctx : TrapContext.t)
| ContextEnds (context : ManagedContext).

(** The call behind an event, with its answer dropped. *)
Definition run_event (e : event) : M (TS.KState W) unit :=
  match e with
  | RegisterTrapHandler ty fn p d l r c => TS.register_trap_handler hash ty fn p d l r c;; mret tt
  | UnregisterTrapHandler h r => TS.unregister_trap_handler h r;; mret tt
  | TransferOwnership h o n => TS.transfer_handler_ownership h o n;; mret tt
  | EnableInterrupts => TS.api_enable_interrupts;; mret tt
  | DisableInterrupts => TS.api_disable_interrupts;; mret tt
  | RestoreInterrupts b => TS.api_restore_interrupts b
  | RegisterErrorHandler p src l h => TS.register_error_handler p src l h;; mret tt
  | ReportError e => TS.report_system_error e;; mret tt
  | Trap ctx => TS.dispatch_trap ctx;; mret tt
  | ContextEnds c => @ManagedContext_drop _ (HeapHandlerManager hash) c
  end.

(** States reached from power-on. *)
Inductive reachable : TS.KState W → Prop :=
| reach_init s0 s mode :
    TS.initialized s0 = false → TS.locked s0 = false →
    TS.initialize_trap_system hash trap_entry mode s0 = Ret (tt, s) → reachable s
| reach_step s e s' : reachable s → run_event e s = Ret (tt, s') → reachable s'.

Record usable s : Prop := {
  us_init : TS.initialized s = true;
  us_installed : TS.installed s = true;
  us_unlocked : TS.locked s = false;
  us_handlers : hm_alive (TS.hm s);
  us_log : ∃ q, log_holds (EM.log (TS.em s)) q;
}.

(** ** Every event keeps the system usable *)

(** The state once the lock is let go. *)
Definition released s : TS.KState W :=
  TS.mkKState (TS.hart s) (TS.initialized s) (TS.installed s) false (TS.hm s) (TS.em s).

(** The state inside a call that holds the lock. *)
Definition held s : TS.KState W :=
  TS.mkKState (TS.hart s) (TS.initialized s) true true (TS.hm s) (TS.em s).

(** A call under the lock: it suffices to look at what it does to the managers. *)
Lemma under_lock_usable {A} (f : M (TS.KState W) A) s :
  usable s → (∃ a s', f (held s) = Ret (a, s') ∧ usable (released s')) →
  ∃ a s', TS.with_trap_system f s = Ret (a, s') ∧ usable s'.
Proof.
  intros [H1 H2 H3 H4 H5] (a & s' & E & U).
  eexists a, _. split; [by apply TS.with_trap_system_run|exact U].
Qed.

Lemma held_usable s : usable s → usable (released (held s)).
Proof. intros []. by split. Qed.

Lemma on_handlers_usable {A} (m : M (HM.HState W) A) s :
  (∃ a h', m (TS.hm s) = Ret (a, h') ∧ hm_alive h') → usable (released s) →
  ∃ a s', TS.on_handlers m s = Ret (a, s') ∧ usable (released s').
Proof.
  intros (a & h' & E & H') [H1 H2 H3 H4 H5].
  eexists a, _. split; [by apply zoom_Ret|]. by split.
Qed.

Lemma on_errors_usable e s :
  usable (released s) →
  ∃ a s', TS.on_errors (EM.handle_error e) s = Ret (a, s')
    ∧ usable (released s').
Proof.
  intros [H1 H2 H3 H4 [q H5]].
  pose proof (EM.handle_error_spec e (EM.mkEState (TS.em s) (HM.world (TS.hm s))) q H5) as Hs.
  cbn zeta in Hs. destruct (if _ : bool then _ else _) as [r w'] eqn:T.
  destruct Hs as (l' & E & Hl). eexists r, _. split; [apply zoom_Ret; exact E|].
  split; try done; [by apply alive_set_world|by eexists].
Qed.

Lemma on_hart_usable {A} (m : M TS.Hart A) s :
  (∀ h, ∃ a h', m h = Ret (a, h')) →
  usable (released s) →
  ∃ a s', TS.on_hart m s = Ret (a, s')
    ∧ usable (released s').
Proof.
  intros Hm [H1 H2 H3 H4 H5]. destruct (Hm (TS.hart s)) as (a & h' & E).
  eexists a, _. split; [by apply zoom_Ret|]. by split.
Qed.

Lemma handle_trap_usable ctx s :
  usable (released s) →
  ∃ a s', TS.handle_trap ctx s = Ret (a, s')
    ∧ usable (released s').
Proof.
  intros U. destruct (on_handlers_usable (HM.dispatch ctx) s) as ([r ctx'] & s1 & E1 & U1); [|done|].
  { destruct (alive_dispatch ctx (TS.hm s) (us_handlers _ U)) as (r & ctx' & w' & E).
    eexists _, _. split; [exact E|]. apply alive_set_world, U. }
  unfold TS.handle_trap. destruct r as [| |err].
  - exists ctx', s1. split; [|done]. by mstep_with ltac:(exact E1).
  - destruct (on_errors_usable (TS.trap_report ErrorLevel.Critical (TS.unhandled_message ctx') ctx') s1 U1)
      as (a & s2 & E2 & U2).
    exists ctx', s2. split; [|done]. mstep_with ltac:(exact E1). by mstep_with ltac:(exact E2).
  - destruct (on_errors_usable (TS.trap_report ErrorLevel.Error (TS.failed_message ctx' err) ctx') s1 U1)
      as (a & s2 & E2 & U2).
    exists ctx', s2. split; [|done]. mstep_with ltac:(exact E1). by mstep_with ltac:(exact E2).
Qed.
(** The answer of a call that keeps the system usable does not matter. *)
Lemma drop_answer {A} (m : M (TS.KState W) A) s :
  (∃ a s', m s = Ret (a, s') ∧ usable s') → ∃ s', (m;; mret tt) s = Ret (tt, s') ∧ usable s'.
Proof. intros (a & s' & E & U). exists s'. split; [|done]. by mstep_with ltac:(exact E). Qed.

(** The guard of the API and a result that is only mapped. *)
Lemma guarded_usable {A B} (none : B) (m : M (TS.KState W) A) (f : A → B) s :
  TS.initialized s = true → (∃ a s', m s = Ret (a, s') ∧ usable s') →
  ∃ b s', (i ← TS.is_initialized; if negb i then mret none else (a ← m; mret (f a))) s = Ret (b, s') ∧ usable s'.
Proof.
  intros Hi (a & s' & E & U). eexists (f a), s'. split; [|done].
  mstep. rewrite Hi. cbn [negb]. by mstep_with ltac:(exact E).
Qed.

Lemma guarded_usable_id {A} (none : A) (m : M (TS.KState W) A) s :
  TS.initialized s = true → (∃ a s', m s = Ret (a, s') ∧ usable s') →
  ∃ b s', (i ← TS.is_initialized; if negb i then mret none else m) s = Ret (b, s') ∧ usable s'.
Proof.
  intros Hi (a & s' & E & U). eexists a, s'. split; [|done]. mstep. rewrite Hi. exact E.
Qed.

(** A manager call of the API: lock, call, unlock. *)
Lemma manager_call_usable {A} (m : M (HM.HState W) A) s :
  usable s → (∃ a h', m (TS.hm s) = Ret (a, h') ∧ hm_alive h') →
  ∃ a s', TS.with_trap_system (TS.on_handlers m) s = Ret (a, s') ∧ usable s'.
Proof.
  intros U Hm. apply under_lock_usable; [done|]. apply on_handlers_usable; [done|by apply held_usable].
Qed.

Lemma hart_call_usable {A} (m : M TS.Hart A) s :
  usable s → (∀ h, ∃ a h', m h = Ret (a, h')) →
  ∃ a s', TS.with_trap_system (TS.on_hart m) s = Ret (a, s') ∧ usable s'.
Proof.
  intros U Hm. apply under_lock_usable; [done|]. apply on_hart_usable; [done|by apply held_usable].
Qed.

Lemma register_usable ty fn p d l r c s :
  usable s → ∃ a s', TS.register_trap_handler hash ty fn p d l r c s = Ret (a, s') ∧ usable s'.
Proof.
  intros U. unfold TS.register_trap_handler.
  destruct (alive_new_cell (HM.mkHandlerEntry fn p d l r c) _ (us_handlers _ U)) as (x & h & E & Hh & Hx).
  set (s1 := TS.mkKState (TS.hart s) (TS.initialized s) (TS.installed s) (TS.locked s) h (TS.em s)).
  assert (usable s1) as U1 by (destruct U; by split).
  destruct (manager_call_usable (HM.register hash ty x) s1 U1) as (a & s' & E' & U').
  { apply alive_register; [done|]. by eexists. }
  eexists _, s'. split; [|done]. mstep. rewrite (us_init _ U). cbn [negb].
  mstep_with ltac:(apply zoom_Ret; exact E). fold s1. mstep_with ltac:(exact E'). reflexivity.
Qed.

Lemma register_error_usable p src l h s :
  usable s → ∃ a s', TS.register_error_handler p src l h s = Ret (a, s') ∧ usable s'.
Proof.
  intros U. apply guarded_usable; [apply U|]. apply under_lock_usable; [done|].
  eexists _, (held s). split; [|by apply held_usable]. reflexivity.
Qed.

Lemma event_usable e s : usable s → ∃ s', run_event e s = Ret (tt, s') ∧ usable s'.
Proof.
  intros U. pose proof (us_init _ U) as Hi. pose proof (us_handlers _ U) as Hh.
  destruct e; cbn [run_event].
  - apply drop_answer, register_usable, U.
  - apply drop_answer, guarded_usable, manager_call_usable; [done|done|by apply alive_unregister].
  - apply drop_answer, guarded_usable, manager_call_usable; [done|done|by apply alive_transfer].
  - apply drop_answer, guarded_usable_id, hart_call_usable; [done|done|]. intros h. by eexists _, _.
  - apply drop_answer, guarded_usable_id, hart_call_usable; [done|done|]. intros h. by eexists _, _.
  - destruct (guarded_usable_id tt (TS.with_trap_system (TS.on_hart (TS.restore_interrupts was_enabled))) s Hi)
      as ([] & s' & E & U'); [|by exists s'].
    apply hart_call_usable; [done|]. intros h. destruct was_enabled; by eexists _, _.
  - apply drop_answer, register_error_usable, U.
  - apply drop_answer, guarded_usable_id, under_lock_usable; [done|done|].
    apply on_errors_usable, held_usable, U.
  - apply drop_answer, under_lock_usable; [done|]. apply handle_trap_usable, held_usable, U.
  - destruct (heap_cleanup_law hash (context_id context) s Hh) as (s' & E & H' & _). exists s'.
    split; [exact E|]. cbn in E. unfold TS.on_handlers, zoom in E.
    destruct (HM.unregister_for_context _ _) as [[? h']| | |]; try done. injection E as _ <-. destruct U. by split.
Qed.

Lemma init_usable s0 s mode :
  TS.default_handles_distinct hash → TS.initialized s0 = false → TS.locked s0 = false →
  TS.initialize_trap_system hash trap_entry mode s0 = Ret (tt, s) → usable s.
Proof.
  intros Hd Hi Hl E.
  destruct (TS.initialize_run hash trap_entry s0 mode Hi Hl Hd) as (s' & pf & ii & E' & [] & _).
  rewrite E in E'. injection E' as <-. split; try done; [by eapply hm_ok_alive|by exists []].
Qed.

(** C12: The trap system cannot be brought down through its interface.  In every
    state reachable from power-on by any sequence of API calls, traps and ending
    contexts the system is initialised, its lock is free, every handler it lists
    exists and its log is well formed; and every further call, with any
    arguments, returns: it neither panics nor deadlocks. *)
Theorem trap_system_stays_up s :
  TS.default_handles_distinct hash → reachable s →
  usable s ∧ ∀ e, ∃ s', run_event e s = Ret (tt, s') ∧ reachable s'.
Proof.
  intros Hd R.
  assert (usable s) as U.
  { induction R as [s0 s mode Hi Hl E|s e s' R IH E]; [by eapply init_usable|].
    destruct (event_usable e s IH) as (s2 & E2 & U2). rewrite E in E2. by injection E2 as <-. }
  split; [done|]. intros e. destruct (event_usable e s U) as (s' & E & _).
  exists s'. split; [done|by eapply reach_step].
Qed.

End runs.

(** A run: a handler is registered, the shared default handler is unregistered for
    the wrong trap type, and a trap comes in. *)
Lemma trap_system_stays_up_witness :
  ∃ s : TS.KState Z, reachable (P := Dev) HM.Demo.hash 4096 s
    ∧ ∃ s' : TS.KState Z, run_event (P := Dev) HM.Demo.hash (Trap HM.Demo.timer_trap) s = Ret (tt, s') ∧ usable (P := Dev) s'.
Proof.
  destruct (TS.initialize_run (P := Dev) HM.Demo.hash 4096 TS.SysDemo.boot Direct eq_refl eq_refl
              TS.SysDemo.handles_distinct) as (s0 & pf & ii & E & _).
  assert (reachable (P := Dev) HM.Demo.hash 4096 s0) as R0
    by (eapply (reach_init (P := Dev) HM.Demo.hash 4096 TS.SysDemo.boot); [reflexivity..|exact E]).
  destruct (proj2 (trap_system_stays_up (P := Dev) HM.Demo.hash 4096 s0 TS.SysDemo.handles_distinct R0)
              (UnregisterTrapHandler (HM.generate_id HM.Demo.hash "Default Page Fault Handler" TrapType.StorePageFault)
                 HM.KERNEL_REGISTRAR_ID)) as (s1 & _ & R1).
  destruct (proj2 (trap_system_stays_up (P := Dev) HM.Demo.hash 4096 s1 TS.SysDemo.handles_distinct R1)
              (Trap HM.Demo.timer_trap)) as (s2 & E2 & R2).
  exists s1. split; [exact R1|]. exists s2. split; [exact E2|].
  exact (proj1 (trap_system_stays_up (P := Dev) HM.Demo.hash 4096 s2 TS.SysDemo.handles_distinct R2)).
Defined.
