(* ===== verification/Sbi.v ===== *)
(** * Firmware calls

    Models [src/util/sbi/api.rs] and the unformatted output of
    [src/console.rs] over a firmware given by parameters: the [ecall]
    instruction with its two result registers, and the legacy calls of the
    [sbi_rt] crate.  [W] is the state of the firmware and its devices. *)

From Stdlib Require Import ZArith Lia String Ascii.
From stdpp Require Import base option numbers list.
From S2P Require Import Prelude Arrays.

Inductive SbiError : Type :=
| Success | Failed | NotSupported | InvalidParam | Denied | InvalidAddress
| AlreadyAvailable | AlreadyStarted | AlreadyStopped.

#[global] Instance SbiError_eq_dec : EqDecision SbiError.
Proof. solve_decision. Defined.

Abbreviation SbiResult := (result SbiError Z).

Module extension_ids.
Definition BASE : Z := 0x10.
Definition TIMER : Z := 0x54494D45.
Definition IPI : Z := 0x735049.
Definition RFENCE : Z := 0x52464E43.
Definition HSM : Z := 0x48534D.
Definition SRST : Z := 0x53525354.
Definition PMU : Z := 0x504D55.
Definition DBCN : Z := 0x4442434E.
Definition SUSP : Z := 0x53555350.
Definition CPPC : Z := 0x43505043.
Definition NACL : Z := 0x4E41434C.
Definition STA : Z := 0x535441.
End extension_ids.

(** What the kernel needs of the machine below it. *)
Class Firmware (W : Type) : Type := {
  (** [ecall]: extension, function, six arguments; the error in [a0] (signed)
      and the value in [a1] *)
  ecall : Z → Z → list Z → W → Z * Z * W;
  (** [sbi_rt::legacy] *)
  console_putchar : Z → W → W;
  legacy_set_timer : Z → W → W;
  legacy_shutdown : W → W;
}.

(** The characters of an ASCII string literal, as codes. *)
Fixpoint chars (s : string) : list Z :=
  match s with
  | EmptyString => []
  | String c s' => Z.of_N (N_of_ascii c) :: chars s'
  end.
Definition newline : list Z := [10].

Section sbi.
Context {P : Profile} {W : Type} `{!Firmware W}.

Definition sbi_call (eid fid : Z) (args : list Z) : M W SbiResult := λ w,
  let '(error, value, w') := ecall eid fid args w in
  Ret (match error with
       | 0 => Ok value
       | -1 => Err Failed
       | -2 => Err NotSupported
       | -3 => Err InvalidParam
       | -4 => Err Denied
       | -5 => Err InvalidAddress
       | -6 => Err AlreadyAvailable
       | -7 => Err AlreadyStarted
       | -8 => Err AlreadyStopped
       | _ => Err Failed
       end, w').

(** ** [base] *)

(** [Ok(ret.unwrap_or(0))] *)
Definition or_zero (r : SbiResult) : SbiResult := Ok (match r with Ok v => v | Err _ => 0 end).

Definition base_call (fid a0 : Z) : M W SbiResult :=
  ret ← sbi_call extension_ids.BASE fid [a0; 0; 0; 0; 0; 0];
  mret (or_zero ret).
Definition get_spec_version : M W SbiResult := base_call 0 0.
Definition get_impl_id : M W SbiResult := base_call 1 0.
Definition get_impl_version : M W SbiResult := base_call 2 0.
Definition probe_extension (extension_id : Z) : M W SbiResult := base_call 3 extension_id.
Definition get_mvendorid : M W SbiResult := base_call 4 0.
Definition get_marchid : M W SbiResult := base_call 5 0.
Definition get_mimpid : M W SbiResult := base_call 6 0.

(** ** [console] *)

Definition putchar (ch : Z) : M W SbiResult :=
  modify (console_putchar ch);;
  mret (Ok 0).

Definition getchar : M W SbiResult := mret (Err NotSupported).

(** [?] *)
Definition try {A} (m : M W SbiResult) (k : Z → M W (result SbiError A)) : M W (result SbiError A) :=
  r ← m;
  match r with Ok v => k v | Err e => mret (Err e) end.

(** The loop of [puts], over the characters of the string. *)
Fixpoint puts_loop (s : list Z) (count : Z) : M W SbiResult :=
  match s with
  | [] => mret (Ok count)
  | ch :: s' =>
      try (putchar ch) (λ _,
        count' ← usize_add count 1;
        puts_loop s' count')
  end.
Definition puts (s : list Z) : M W SbiResult := puts_loop s 0.

(** The digits of a base as character codes; [None] for other bases. *)
Definition digit_table (base : Z) : option (list Z) :=
  match base with
  | 16 => Some [48; 49; 50; 51; 52; 53; 54; 55; 56; 57; 97; 98; 99; 100; 101; 102]
  | 10 => Some [48; 49; 50; 51; 52; 53; 54; 55; 56; 57]
  | 8 => Some [48; 49; 50; 51; 52; 53; 54; 55]
  | _ => None
  end.

(** [while n > 0 { buf[i] = digits[n % base]; n /= base; i += 1; }] *)
Fixpoint convert_loop (fuel : nat) (digits : list Z) (base n : Z) (buf : list Z) (i : Z)
    : M W (list Z * Z) :=
  match fuel with
  | O => hang
  | S fuel' =>
      if 0 <? n then
        d ← arr_get digits (n mod base);
        buf ← arr_set buf i d;
        i ← usize_add i 1;
        convert_loop fuel' digits base (n / base) buf i
      else mret (buf, i)
  end.

(** [while i > 0 { i -= 1; putchar(buf[i])?; count += 1; }] *)
Fixpoint output_loop (fuel : nat) (buf : list Z) (i count : Z) : M W SbiResult :=
  match fuel with
  | O => hang
  | S fuel' =>
      if 0 <? i then
        i ← usize_sub i 1;
        d ← arr_get buf i;
        try (putchar d) (λ _,
          count ← usize_add count 1;
          output_loop fuel' buf i count)
      else mret (Ok count)
  end.

(** The array has 64 entries, so neither loop can do more than 64 rounds
    without an index out of bounds. *)
Definition putnum (num base : Z) : M W SbiResult :=
  if negb (base =? 8) && negb (base =? 10) && negb (base =? 16) then mret (Err InvalidParam)
  else if num =? 0 then try (putchar 48) (λ _, mret (Ok 1))
  else
    match digit_table base with
    | None => mret (Err InvalidParam)
    | Some digits =>
        '(buf, i) ← convert_loop 66 digits base num (replicate 64 0) 0;
        if base =? 16 then
          try (putchar 48) (λ _, try (putchar 120) (λ _, output_loop 66 buf i 2))
        else if base =? 8 then
          try (putchar 48) (λ _, output_loop 66 buf i 1)
        else output_loop 66 buf i 0
    end.

(** ** The other extensions *)

Definition set_timer (time : Z) : M W SbiResult :=
  modify (legacy_set_timer time);;
  mret (Ok 0).

(** [match ret { Ok(0) => Ok(0), _ => Err(Failed) }] *)
Definition zero_or_failed (r : SbiResult) : SbiResult :=
  match r with Ok 0 => Ok 0 | _ => Err Failed end.

Definition send_ipi (hart_mask : Z) : M W SbiResult :=
  ret ← sbi_call extension_ids.IPI 0 [hart_mask; 0; 0; 0; 0; 0];
  mret (zero_or_failed ret).

Definition remote_fence_i (hart_mask : Z) : M W SbiResult :=
  ret ← sbi_call extension_ids.RFENCE 0 [hart_mask; 0; 0; 0; 0; 0];
  mret (zero_or_failed ret).
Definition remote_sfence_vma (hart_mask start size : Z) : M W SbiResult :=
  ret ← sbi_call extension_ids.RFENCE 1 [hart_mask; start; size; 0; 0; 0];
  mret (zero_or_failed ret).
Definition remote_sfence_vma_asid (hart_mask start size asid : Z) : M W SbiResult :=
  ret ← sbi_call extension_ids.RFENCE 2 [hart_mask; start; size; asid; 0; 0];
  mret (zero_or_failed ret).

Definition HART_STATE_STARTED : Z := 0.
Definition HART_STATE_STOPPED : Z := 1.
Definition HART_STATE_START_REQUEST_PENDING : Z := 2.
Definition HART_STATE_STOP_REQUEST_PENDING : Z := 3.

Definition hart_start (hartid start_addr opaque : Z) : M W SbiResult :=
  ret ← sbi_call extension_ids.HSM 0 [hartid; start_addr; opaque; 0; 0; 0];
  mret (zero_or_failed ret).
Definition hart_stop : M W SbiResult :=
  ret ← sbi_call extension_ids.HSM 1 [0; 0; 0; 0; 0; 0];
  mret (zero_or_failed ret).
Definition hart_get_status (hartid : Z) : M W SbiResult :=
  sbi_call extension_ids.HSM 2 [hartid; 0; 0; 0; 0; 0].

Definition RESET_TYPE_SHUTDOWN : Z := 0.
Definition RESET_TYPE_COLD_REBOOT : Z := 1.
Definition RESET_TYPE_WARM_REBOOT : Z := 2.
Definition RESET_REASON_NO_REASON : Z := 0.
Definition RESET_REASON_SYSTEM_FAILURE : Z := 1.

(** [-> !]: when the model returns, the machine has been told to stop. *)
Definition system_reset (reset_type reset_reason : Z) : M W unit :=
  sbi_call extension_ids.SRST 0 [reset_type; reset_reason; 0; 0; 0; 0];;
  modify legacy_shutdown.
Definition shutdown : M W unit := system_reset RESET_TYPE_SHUTDOWN RESET_REASON_NO_REASON.
Definition reboot : M W unit := system_reset RESET_TYPE_COLD_REBOOT RESET_REASON_NO_REASON.
Definition warm_reboot : M W unit := system_reset RESET_TYPE_WARM_REBOOT RESET_REASON_NO_REASON.

Definition get_num_counters : M W SbiResult := sbi_call extension_ids.PMU 0 [0; 0; 0; 0; 0; 0].
Definition get_counter_info (counter_idx : Z) : M W SbiResult :=
  sbi_call extension_ids.PMU 1 [counter_idx; 0; 0; 0; 0; 0].

Definition console_write (num_bytes base_addr_lo base_addr_hi : Z) : M W SbiResult :=
  sbi_call extension_ids.DBCN 0 [num_bytes; base_addr_lo; base_addr_hi; 0; 0; 0].
Definition console_read (num_bytes base_addr_lo base_addr_hi : Z) : M W SbiResult :=
  sbi_call extension_ids.DBCN 1 [num_bytes; base_addr_lo; base_addr_hi; 0; 0; 0].
Definition console_write_byte (byte : Z) : M W SbiResult :=
  sbi_call extension_ids.DBCN 2 [byte; 0; 0; 0; 0; 0].

Definition is_extension_available (extension_id : Z) : M W bool :=
  r ← probe_extension extension_id;
  mret (match r with Ok 0 => false | Ok _ => true | Err _ => false end).

(** [if let Ok(v) = get { puts(label).ok(); putnum(v, 16).ok(); puts("\\n").ok(); }] *)
Definition print_field (label : string) (get : M W SbiResult) : M W unit :=
  r ← get;
  match r with
  | Ok v => puts (chars label);; putnum v 16;; puts newline;; mret tt
  | Err _ => mret tt
  end.

Definition extension_names : list (string * Z) :=
  [("Timer"%string, extension_ids.TIMER); ("IPI"%string, extension_ids.IPI);
   ("RFENCE"%string, extension_ids.RFENCE); ("HSM"%string, extension_ids.HSM);
   ("System Reset"%string, extension_ids.SRST); ("PMU"%string, extension_ids.PMU);
   ("Debug Console"%string, extension_ids.DBCN)].

Fixpoint print_extensions (l : list (string * Z)) : M W unit :=
  match l with
  | [] => mret tt
  | (name, id) :: l' =>
      puts (chars "  ");;
      puts (chars name);;
      puts (chars ": ");;
      available ← is_extension_available id;
      (if available : bool then puts (chars "Available" ++ newline)
       else puts (chars "Not Available" ++ newline));;
      print_extensions l'
  end.

Definition print_sbi_info : M W unit :=
  puts (chars "=== SBI System Information ===" ++ newline);;
  print_field "SBI Spec Version: " get_spec_version;;
  print_field "SBI Implementation ID: " get_impl_id;;
  print_field "SBI Implementation Version: " get_impl_version;;
  puts (chars "Available Extensions:" ++ newline);;
  print_extensions extension_names;;
  puts (chars "==============================" ++ newline);;
  mret tt.

(** ** [src/console.rs] *)

Definition print_str (s : list Z) : M W unit := puts s;; mret tt.
Definition print_char (ch : Z) : M W unit := putchar ch;; mret tt.
Definition print_num (num : Z) : M W unit := putnum num 10;; mret tt.
Definition print_hex (num : Z) : M W unit := putnum num 16;; mret tt.
Definition print_oct (num : Z) : M W unit := putnum num 8;; mret tt.

End sbi.

(** ** What a console shows *)

(** The characters of [l] sent one by one. *)
Definition emit {W} `{!Firmware W} (l : list Z) (w : W) : W :=
  foldl (λ w c, console_putchar c w) w l.

(** The number that a list of digits, most significant first, stands for. *)
Definition digits_value (base : Z) (ds : list Z) : Z := foldl (λ v d, v * base + d) 0 ds.

(** The character of a digit. *)
Definition digit_char (d : Z) : Z := if d <? 10 then 48 + d else 87 + d.

(** [0x] or [0] in front of a number other than zero. *)
Definition base_prefix (num base : Z) : list Z :=
  if num =? 0 then []
  else if base =? 16 then [48; 120]
  else if base =? 8 then [48]
  else [].

(** [text] is the usual notation of [num] in [base]. *)
Definition numeral (num base : Z) (text : list Z) : Prop :=
  ∃ ds, text = base_prefix num base ++ map digit_char ds
      ∧ digits_value base ds = num
      ∧ Forall (λ d, 0 ≤ d < base) ds
      ∧ ds ≠ []
      ∧ (num ≠ 0 → head ds ≠ Some 0).

Section thms.
Context {P : Profile} {W : Type} `{!Firmware W}.
Implicit Types (w : W) (buf ds : list Z) (i : nat).

Lemma puts_loop_spec l c w :
  0 ≤ c → c + Z.of_nat (length l) < 2 ^ 64 →
  puts_loop l c w = Ret (Ok (c + Z.of_nat (length l)), emit l w).
Proof.
  revert c w. induction l as [|x l IH]; intros c w Hc Hlen; cbn [puts_loop length].
  { by rewrite Z.add_0_r. }
  cbn [length] in Hlen. unfold try. mstep. cbn beta iota. mstep_arith. rewrite IH by lia.
  do 3 f_equal. lia.
Qed.

Lemma digit_table_lookup base digits d :
  digit_table base = Some digits → 0 ≤ d < base → digits !! Z.to_nat d = Some (digit_char d).
Proof.
  intros Ht Hd.
  assert (base = 8 ∨ base = 10 ∨ base = 16) as Hb.
  { unfold digit_table in Ht. repeat case_match; simplify_eq; lia. }
  assert (Forall (λ k, digits !! k = Some (digit_char (Z.of_nat k))) (seq 0 (Z.to_nat base))) as HF.
  { destruct Hb as [->|[->| ->]]; cbn in Ht; simplify_eq;
      apply Forall_forall; intros k Hk; apply elem_of_seq in Hk;
      do 16 (destruct k as [|k]; [by cbn in *; try lia|]); lia. }
  rewrite Forall_forall in HF. rewrite HF by (apply elem_of_seq; lia). by rewrite Z2Nat.id by lia.
Qed.

(** The first loop leaves the digits in the array, least significant first. *)
Lemma convert_loop_spec base digits fuel (k : nat) n buf i w :
  digit_table base = Some digits → 1 < base →
  0 ≤ n < base ^ Z.of_nat k → (k < fuel)%nat → (i + k ≤ length buf)%nat → Z.of_nat (length buf) < 2 ^ 64 →
  ∃ ds buf', convert_loop fuel digits base n buf (Z.of_nat i) w
               = Ret ((buf', Z.of_nat (i + length ds)), w)
    ∧ length buf' = length buf ∧ (length ds ≤ k)%nat
    ∧ take (i + length ds) buf' = take i buf ++ map digit_char ds
    ∧ digits_value base (reverse ds) = n
    ∧ Forall (λ d, 0 ≤ d < base) ds
    ∧ (if decide (n = 0) then ds = [] else ∃ d, last ds = Some d ∧ d ≠ 0).
Proof.
  intros Ht Hb. revert fuel n buf i w. induction k as [|k IH]; intros fuel n buf i w Hn Hf Hi Hlen.
  - assert (n = 0) as -> by (simpl in Hn; lia). destruct fuel as [|fuel]; [lia|].
    exists [], buf. cbn [convert_loop length]. rewrite Nat.add_0_r, app_nil_r. by split_and!; try lia.
  - destruct fuel as [|fuel]; [lia|]. cbn [convert_loop]. destruct (0 <? n) eqn:En; b2p.
    2: { assert (n = 0) as -> by lia. exists [], buf. cbn [length].
         rewrite Nat.add_0_r, app_nil_r. by split_and!; try lia. }
    pose proof (Z.mod_pos_bound n base ltac:(lia)) as Hm.
    pose proof (Z.div_mod n base ltac:(lia)) as Hdm.
    assert (0 ≤ n / base < base ^ Z.of_nat k) as Hq.
    { split; [apply Z.div_pos; lia|]. apply Z.div_lt_upper_bound; [lia|].
      rewrite Nat2Z.inj_succ, Z.pow_succ_r in Hn by lia. lia. }
    destruct (IH fuel (n / base) (<[i := digit_char (n mod base)]> buf) (S i) w)
      as (ds & buf' & E & Hl' & Hk & Htk & Hv & HF & Hlast);
      [done|lia|rewrite length_insert; lia|by rewrite length_insert|].
    rewrite length_insert in Hl'. exists (n mod base :: ds), buf'. split_and!.
    + mstep_with ltac:(apply arr_get_ok; [lia|by apply digit_table_lookup with (base := base)]).
      mstep_with ltac:(apply arr_set_ok; lia). mstep_arith.
      replace (Z.of_nat i + 1) with (Z.of_nat (S i)) by lia. rewrite Nat2Z.id, E.
      cbn [length]. by rewrite Nat.add_succ_r.
    + done.
    + cbn [length]. lia.
    + cbn [length map]. rewrite Nat.add_succ_r. rewrite Nat.add_succ_l in Htk. rewrite Htk.
      rewrite (take_S_r _ _ (digit_char (n mod base))) by (rewrite list_lookup_insert_eq; [done|lia]).
      rewrite take_insert_ge by lia. by rewrite <- app_assoc.
    + rewrite reverse_cons. unfold digits_value in *. rewrite foldl_app, Hv. cbn. lia.
    + by constructor.
    + rewrite decide_False by lia. destruct (decide (n / base = 0)) as [H0|H0].
      * subst ds. exists (n mod base). split; [done|lia].
      * destruct Hlast as (d & Hd & Hne). exists d. split; [|done]. by destruct ds.
Qed.

(** The second loop sends the first [i] entries of the array backwards. *)
Lemma output_loop_spec fuel buf i c w :
  (i < fuel)%nat → (i ≤ length buf)%nat → 0 ≤ c → c + Z.of_nat i < 2 ^ 64 →
  output_loop fuel buf (Z.of_nat i) c w
    = Ret (Ok (c + Z.of_nat i), emit (reverse (take i buf)) w).
Proof.
  revert i c w. induction fuel as [|fuel IH]; intros i c w Hf Hi Hc Hb; [lia|].
  destruct i as [|i]; cbn [output_loop].
  { by rewrite Z.add_0_r. }
  destruct (lookup_lt_is_Some_2 buf i) as [x Hx]; [lia|].
  replace (0 <? Z.of_nat (S i)) with true by (symmetry; apply Z.ltb_lt; lia).
  mstep_arith. replace (Z.of_nat (S i) - 1) with (Z.of_nat i) by lia.
  mstep_with ltac:(apply arr_get_ok; [lia|by rewrite Nat2Z.id]).
  unfold try. mstep. cbn beta iota. mstep_arith. rewrite IH by lia.
  rewrite (take_S_r _ _ x), reverse_snoc by done. do 3 f_equal. lia.
Qed.

Lemma emit_app l1 l2 w : emit (l1 ++ l2) w = emit l2 (emit l1 w).
Proof. apply foldl_app. Qed.

Lemma putnum_numeral num base w :
  base = 8 ∨ base = 10 ∨ base = 16 → in_u64 num →
  ∃ text, putnum num base w = Ret (Ok (Z.of_nat (length text)), emit text w)
    ∧ numeral num base text.
Proof.
  intros Hb Hnum. unfold in_u64 in Hnum. unfold putnum.
  replace (negb (base =? 8) && negb (base =? 10) && negb (base =? 16)) with false
    by (by destruct Hb as [->|[->| ->]]).
  destruct (num =? 0) eqn:E0; b2p.
  { exists [48]. split; [done|]. exists [0]. unfold base_prefix. subst num. cbn.
    split_and!; try done. repeat constructor; lia. }
  assert (∃ digits, digit_table base = Some digits) as [digits Ht]
    by (destruct Hb as [->|[->| ->]]; by eexists).
  assert (num < base ^ Z.of_nat 22) as Hlt.
  { assert (8 ^ 22 ≤ base ^ 22) by (apply Z.pow_le_mono_l; lia). simpl Z.of_nat. lia. }
  destruct (convert_loop_spec base digits 66 22 num (replicate 64 0) 0 w)
    as (ds & buf & E & Hl & Hk & Htk & Hv & HF & Hlast); [done|lia|lia|lia|cbn; lia|cbn; lia|].
  rewrite decide_False in Hlast by done. destruct Hlast as (d & Hd & Hne).
  rewrite length_replicate in Hl. cbn [Nat.add take app] in Htk, E. rewrite Ht.
  exists (base_prefix num base ++ map digit_char (reverse ds)). split.
  - mstep_with ltac:(exact E). unfold base_prefix. rewrite (proj2 (Z.eqb_neq num 0)) by done.
    assert (∀ c w, 0 ≤ c < 4 → output_loop 66 buf (Z.of_nat (length ds)) c w
              = Ret (Ok (c + Z.of_nat (length ds)), emit (map digit_char (reverse ds)) w)) as Ho.
    { intros c w' Hc. rewrite output_loop_spec by lia. rewrite Htk.
      change (map digit_char) with (fmap (M:=list) digit_char).
      by rewrite fmap_reverse. }
    rewrite length_app, length_map, length_reverse, Nat2Z.inj_add, emit_app. unfold try.
    destruct Hb as [->|[->| ->]]; cbn [Z.eqb Pos.eqb]; repeat (mstep; cbn beta iota);
      by rewrite Ho by lia.
  - exists (reverse ds). split_and!; try done.
    + by apply Forall_reverse.
    + intros Hr. apply (f_equal reverse) in Hr. rewrite reverse_involutive in Hr. by subst ds.
    + intros _. rewrite head_reverse, Hd. congruence.
Qed.
(** What [print_str] and [print_hex] send. *)
Lemma print_str_spec l w :
  Z.of_nat (length l) < 2 ^ 64 → print_str l w = Ret (tt, emit l w).
Proof.
  intros Hl. unfold print_str, puts. mstep_with ltac:(apply puts_loop_spec; lia). reflexivity.
Qed.

Lemma print_hex_spec num w :
  in_u64 num → ∃ text, print_hex num w = Ret (tt, emit text w) ∧ numeral num 16 text.
Proof.
  intros Hn. destruct (putnum_numeral num 16 w) as (t & E & Ht); [lia|done|].
  exists t. split; [|done]. unfold print_hex. mstep_with ltac:(exact E). reflexivity.
Qed.

Lemma print_num_spec num w :
  in_u64 num → ∃ text, print_num num w = Ret (tt, emit text w) ∧ numeral num 10 text.
Proof.
  intros Hn. destruct (putnum_numeral num 10 w) as (t & E & Ht); [lia|done|].
  exists t. split; [|done]. unfold print_num. mstep_with ltac:(exact E). reflexivity.
Qed.

(** For base 8, 10 or 16 [putnum] sends the notation of the number in that
    base, [0x] or [0] in front and without leading zeros, and returns how many
    characters it sent; any other base is refused and nothing is sent. *)
Theorem putnum_prints_number num base w :
  in_u64 num →
  if decide (base ∈ [8; 10; 16])
  then ∃ text, putnum num base w = Ret (Ok (Z.of_nat (length text)), emit text w)
         ∧ numeral num base text
  else putnum num base w = Ret (Err InvalidParam, w).
Proof.
  intros Hn. destruct (decide _) as [Hb|Hb].
  - apply putnum_numeral; [|done]. rewrite !elem_of_cons, elem_of_nil in Hb. tauto.
  - rewrite !elem_of_cons, elem_of_nil in Hb. unfold putnum.
    by rewrite !(proj2 (Z.eqb_neq base _)) by (intros ->; tauto).
Qed.
End thms.

(** ** A firmware that records what it is told *)

Module FwDemo.

(** The characters sent, and the calls made, newest first. *)
Record t : Type := mk { screen : list Z; calls : list (Z * Z * list Z) }.

(** Extension probes answer 1, everything else fails. *)
#[global] Instance fw : Firmware t := {
  ecall eid fid args w :=
    ((if eid =? extension_ids.BASE then 0 else -2), 1, mk (screen w) ((eid, fid, args) :: calls w));
  console_putchar c w := mk (c :: screen w) (calls w);
  legacy_set_timer _ w := w;
  legacy_shutdown w := mk (screen w) ((8, 0, []) :: calls w);
}.

Definition off : t := mk [] [].

Example puts_hex : putnum (P := Dev) 0xbeef 16 off = Ret (Ok 6, mk (reverse (chars "0xbeef")) []).
Proof. by vm_compute. Qed.

End FwDemo.

Lemma putnum_prints_number_witness :
  ∃ text, putnum (P := Dev) 493 8 FwDemo.off = Ret (Ok (Z.of_nat (length text)), emit text FwDemo.off)
    ∧ numeral 493 8 text.
Proof. apply (putnum_prints_number (P := Dev) 493 8 FwDemo.off). unfold in_u64. lia. Defined.
