(* ===== verification/Console.v ===== *)
(** * Formatted console output

    Models the formatting side of [src/console.rs]: the [Stdout] writer, [print]
    and the macros over it, with the subset of [core::fmt] the kernel uses
    (strings, booleans, unsigned and signed integers, [{:x}], [{:#x}], [{:+}]).
    A format string is the list of its pieces. *)

From Stdlib Require Import ZArith Lia String Ascii.
From stdpp Require Import base option numbers list.
From S2P Require Import Prelude Arrays Sbi.

(** ** [core::fmt] *)

Inductive piece : Type :=
| Lit (s : string)       (* literal text *)
| Str (s : string)       (* [{}] of a string *)
| Bool (b : bool)        (* [{}] of a bool *)
| Dec (n : Z)            (* [{}] of an integer *)
| Hex (n : Z)            (* [{:x}] of an unsigned integer *)
| AltHex (n : Z)         (* [{:#x}] *)
| Plus (n : Z)           (* [{:+}] of a signed integer *)
| Nl.                    (* a newline in the literal text *)

(** Digits of [n], most significant first; each round takes at least a bit. *)
Fixpoint digits_loop (fuel : nat) (base n : Z) (acc : list Z) : list Z :=
  match fuel with
  | O => acc
  | S fuel' =>
      let acc' := n mod base :: acc in
      if n <? base then acc' else digits_loop fuel' base (n / base) acc'
  end.
Definition digits (base n : Z) : list Z := digits_loop (S (Z.to_nat (Z.log2 n))) base n [].

Definition fmt_unsigned (base n : Z) : list Z := map digit_char (digits base n).
Definition fmt_signed (plus : bool) (n : Z) : list Z :=
  if n <? 0 then 45 :: fmt_unsigned 10 (- n)
  else (if plus then [43] else []) ++ fmt_unsigned 10 n.

Definition fmt (p : piece) : list Z :=
  match p with
  | Lit s | Str s => chars s
  | Bool b => chars (if b then "true" else "false")
  | Dec n => fmt_signed false n
  | Hex n => fmt_unsigned 16 n
  | AltHex n => chars "0x" ++ fmt_unsigned 16 n
  | Plus n => fmt_signed true n
  | Nl => [10]
  end.
Definition format_args (l : list piece) : list Z := mjoin (fmt <$> l).

(** ** [console.rs] *)

Section console.
Context {P : Profile} {W : Type} `{!Firmware W}.

(** [Stdout::write_str] *)
Definition write_str (s : list Z) : M W (result unit unit) := print_str s;; mret (Ok tt).

(** [Stdout.write_fmt(args).unwrap()]: one [write_str] per piece. *)
Fixpoint print (args : list piece) : M W unit :=
  match args with
  | [] => mret tt
  | p :: rest =>
      r ← write_str (fmt p);
      match r with Ok _ => print rest | Err _ => panic end
  end.

Definition println (args : list piece) : M W unit := print (args ++ [Nl]).

(** The three coloured macros differ in their first piece; [\x1b] is the
    character 27. *)
Definition esc (s : string) : string := String "027" s.
Definition tagged (start : string) (args : list piece) : M W unit :=
  print [Lit (esc start)];;
  print args;;
  print [Lit (esc "[0m"); Nl].
Definition error_print (args : list piece) : M W unit := tagged "[31m[ERROR] " args.
Definition warn_print (args : list piece) : M W unit := tagged "[33m[WARN] " args.
Definition info_print (args : list piece) : M W unit := tagged "[32m[INFO] " args.

(** [file!()] and [line!()] are those of the place the macro is used. *)
Definition debug_print (file : string) (line : Z) (args : list piece) : M W unit :=
  print [Lit "["; Str file; Lit ":"; Dec line; Lit "] "];;
  println args.

End console.

(** ** Printed numbers *)

Lemma digits_value_cons base d ds :
  digits_value base (d :: ds) = d * base ^ Z.of_nat (length ds) + digits_value base ds.
Proof.
  unfold digits_value. cbn [foldl]. rewrite Z.add_0_l.
  assert (∀ l v, foldl (λ v d, v * base + d) v l
                 = v * base ^ Z.of_nat (length l) + foldl (λ v d, v * base + d) 0 l) as H; [|apply H].
  clear. induction l as [|x l IH]; intros v; cbn [foldl length].
  { rewrite Z.pow_0_r. lia. }
  rewrite IH, (IH (0 * base + x)), Nat2Z.inj_succ, Z.pow_succ_r by lia. lia.
Qed.

(** [ds] is the notation of [n] in [base] without leading zeros. *)
Definition notation_of (base n : Z) (ds : list Z) : Prop :=
  digits_value base ds = n ∧ Forall (λ d, 0 ≤ d < base) ds ∧ ds ≠ [] ∧ (n ≠ 0 → head ds ≠ Some 0).

(** The fuel is enough: each round takes away at least one bit. *)
Lemma digits_loop_spec base fuel n acc :
  1 < base → 0 ≤ n < 2 ^ Z.of_nat fuel → (0 < fuel)%nat → Forall (λ d, 0 ≤ d < base) acc →
  let ds := digits_loop fuel base n acc in
  digits_value base ds = n * base ^ Z.of_nat (length acc) + digits_value base acc
  ∧ Forall (λ d, 0 ≤ d < base) ds ∧ ds ≠ [] ∧ (n ≠ 0 → head ds ≠ Some 0).
Proof.
  intros Hb. revert n acc. induction fuel as [|fuel IH]; intros n acc Hn Hf Ha; [lia|]. cbn [digits_loop].
  pose proof (Z.mod_pos_bound n base ltac:(lia)) as Hm. pose proof (Z.div_mod n base ltac:(lia)) as Hdm.
  destruct (Z.ltb_spec n base).
  - rewrite Z.mod_small in * by lia. rewrite digits_value_cons. split_and!; [done|by constructor|done|].
    intros H0 [= ->]. done.
  - rewrite Nat2Z.inj_succ, Z.pow_succ_r in Hn by lia.
    assert (0 < n / base) by (apply Z.div_str_pos; lia).
    assert (n / base < 2 ^ Z.of_nat fuel) by (apply Z.div_lt_upper_bound; nia).
    assert (0 < fuel)%nat by (destruct fuel; [cbn in *; lia|lia]).
    destruct (IH (n / base) (n mod base :: acc)) as (V & F & N & L); [lia|done|by constructor|].
    split_and!; [|done|done|intros _; apply L; lia].
    rewrite V, digits_value_cons. cbn [length]. rewrite Nat2Z.inj_succ, Z.pow_succ_r by lia. nia.
Qed.

Lemma digits_spec base n : 1 < base → 0 ≤ n → notation_of base n (digits base n).
Proof.
  intros Hb Hn. destruct (digits_loop_spec base (S (Z.to_nat (Z.log2 n))) n []) as (V & F & N & L);
    [done| |lia|done|].
  - split; [done|]. rewrite Nat2Z.inj_succ, Z2Nat.id by apply Z.log2_nonneg.
    destruct (Z.eq_dec n 0) as [->|]; [done|]. apply Z.log2_spec. lia.
  - split_and!; try done. unfold digits. rewrite V. cbn [length]. change (digits_value base []) with 0.
    change (Z.of_nat 0) with 0. rewrite Z.pow_0_r. lia.
Qed.

(** Reading a number back. *)
Definition char_digit (c : Z) : option Z :=
  if (48 <=? c) && (c <=? 57) then Some (c - 48)
  else if (97 <=? c) && (c <=? 122) then Some (c - 87)
  else None.
Definition parse_unsigned (base : Z) (t : list Z) : option Z :=
  match t with
  | [] => None
  | _ => digits_value base <$> mapM (λ c, d ← char_digit c; if d <? base then Some d else None) t
  end.
Definition parse_signed (t : list Z) : option Z :=
  match t with
  | [] => None
  | c :: t' =>
      if c =? 45 then Z.opp <$> parse_unsigned 10 t'
      else if c =? 43 then parse_unsigned 10 t'
      else parse_unsigned 10 t
  end.

Lemma char_digit_char d : 0 ≤ d < 36 → char_digit (digit_char d) = Some d.
Proof.
  intros Hd. unfold char_digit, digit_char. destruct (Z.ltb_spec d 10).
  - rewrite (proj2 (Z.leb_le 48 _)), (proj2 (Z.leb_le _ 57)) by lia. cbn. f_equal. lia.
  - rewrite (proj2 (Z.leb_gt (87 + d) 57)), andb_false_r by lia.
    rewrite (proj2 (Z.leb_le 97 _)), (proj2 (Z.leb_le _ 122)) by lia. cbn. f_equal. lia.
Qed.

Lemma parse_fmt_unsigned base n : 1 < base ≤ 36 → 0 ≤ n → parse_unsigned base (fmt_unsigned base n) = Some n.
Proof.
  intros Hb Hn. destruct (digits_spec base n) as (V & F & N & _); [lia|done|].
  unfold parse_unsigned, fmt_unsigned. destruct (digits base n) as [|d ds] eqn:E; [done|].
  cbn [map]. change (digit_char d :: map digit_char ds) with (map digit_char (d :: ds)).
  assert (mapM (λ c, x ← char_digit c; if x <? base then Some x else None) (map digit_char (d :: ds))
          = Some (d :: ds)) as ->; [|by cbn; f_equal].
  clear -F Hb. induction F as [|x l Hx F IH]; [done|]. cbn [map mapM].
  rewrite char_digit_char by lia. cbn [mbind option_bind]. rewrite (proj2 (Z.ltb_lt x base)) by lia.
  cbn. by rewrite IH.
Qed.

Lemma parse_fmt_signed plus n : parse_signed (fmt_signed plus n) = Some n.
Proof.
  unfold fmt_signed. destruct (Z.ltb_spec n 0).
  - cbn [parse_signed Z.eqb Pos.eqb]. rewrite parse_fmt_unsigned by lia. cbn. f_equal. lia.
  - pose proof (parse_fmt_unsigned 10 n ltac:(lia) ltac:(done)) as E.
    destruct plus; [cbn [app parse_signed Z.eqb Pos.eqb]; exact E|]. cbn [app].
    destruct (digits_spec 10 n) as (_ & F & N & _); [lia|done|].
    unfold fmt_unsigned in *. destruct (digits 10 n) as [|d ds]; [done|]. cbn [map] in *. cbn [parse_signed].
    inversion_clear F as [|? ? Hd _].
    assert (48 ≤ digit_char d) by (unfold digit_char; case_match; lia).
    by rewrite (proj2 (Z.eqb_neq _ 45)), (proj2 (Z.eqb_neq _ 43)) by lia.
Qed.

(** A number printed by the console can be read back: [{}] and [{:+}] of any
    signed or unsigned integer and [{:x}] of an unsigned one are parsed to the
    number that was printed, so two numbers that print alike are equal; and
    [{:#x}] is [{:x}] with [0x] in front. *)
Theorem formatted_numbers_read_back n m :
  parse_signed (fmt (Dec n)) = Some n ∧ parse_signed (fmt (Plus n)) = Some n
  ∧ (fmt (Dec n) = fmt (Dec m) → n = m)
  ∧ (0 ≤ n → parse_unsigned 16 (fmt (Hex n)) = Some n ∧ fmt (AltHex n) = chars "0x" ++ fmt (Hex n)).
Proof.
  cbn [fmt]. split_and!; try apply parse_fmt_signed.
  - intros E. pose proof (parse_fmt_signed false n) as H. rewrite E, parse_fmt_signed in H. congruence.
  - intros Hn. split; [|done]. by apply parse_fmt_unsigned.
Qed.

(** ** What reaches the console *)

(** Text that fits in memory, numbers that fit in 64 bits. *)
Definition short (p : piece) : Prop :=
  match p with
  | Lit s | Str s => Z.of_nat (String.length s) < 2 ^ 63
  | Bool _ | Nl => True
  | Dec n | Hex n | AltHex n | Plus n => - 2 ^ 64 < n < 2 ^ 64
  end.

Lemma chars_length s : length (chars s) = String.length s.
Proof. induction s as [|c s IH]; [done|]. cbn. by rewrite IH. Qed.

Lemma digits_loop_length base fuel n acc : (length (digits_loop fuel base n acc) ≤ fuel + length acc)%nat.
Proof.
  revert n acc. induction fuel as [|fuel IH]; intros n acc; [done|]. cbn [digits_loop].
  destruct (n <? base); [cbn; lia|]. specialize (IH (n / base) (n mod base :: acc)). cbn [length] in IH. lia.
Qed.

Lemma fmt_unsigned_length base n : n < 2 ^ 64 → Z.of_nat (length (fmt_unsigned base n)) ≤ 65.
Proof.
  intros Hn. unfold fmt_unsigned. rewrite length_map. unfold digits.
  pose proof (digits_loop_length base (S (Z.to_nat (Z.log2 n))) n []) as H. cbn [length] in H.
  assert (Z.log2 n ≤ 64); [|pose proof (Z.log2_nonneg n); lia].
  destruct (Z.le_gt_cases n 0) as [H0|H0]; [by rewrite Z.log2_nonpos|].
  assert (Z.log2 n < 64) by (apply Z.log2_lt_pow2; lia). lia.
Qed.

Lemma fmt_length p : short p → Z.of_nat (length (fmt p)) < 2 ^ 64.
Proof.
  destruct p; cbn [short fmt]; intros H; rewrite ?chars_length; try lia; try done.
  - by destruct b.
  - unfold fmt_signed. destruct (Z.ltb_spec n 0); cbn [length app];
      [pose proof (fmt_unsigned_length 10 (- n))|pose proof (fmt_unsigned_length 10 n)]; lia.
  - pose proof (fmt_unsigned_length 16 n). lia.
  - rewrite length_app, chars_length. pose proof (fmt_unsigned_length 16 n). cbn [String.length]. lia.
  - unfold fmt_signed. destruct (Z.ltb_spec n 0); cbn [length app];
      [pose proof (fmt_unsigned_length 10 (- n))|pose proof (fmt_unsigned_length 10 n)]; lia.
Qed.

Section output.
Context {P : Profile} {W : Type} `{!Firmware W}.
Implicit Types w : W.

Lemma print_spec args w : Forall short args → print args w = Ret (tt, emit (format_args args) w).
Proof.
  intros H. revert w. induction H as [|p args Hp H IH]; intros w; [done|]. cbn [print].
  mstep_with ltac:(unfold write_str; mstep_with ltac:(apply print_str_spec; by apply fmt_length); reflexivity).
  cbn beta iota. rewrite IH. unfold format_args. rewrite fmap_cons. cbn [mjoin list_join]. by rewrite emit_app.
Qed.

Lemma println_spec args w :
  Forall short args → println args w = Ret (tt, emit (format_args args ++ [10]) w).
Proof.
  intros H. unfold println. rewrite print_spec by (apply Forall_app; split; [done|by repeat constructor]).
  do 3 f_equal. unfold format_args. by rewrite fmap_app, join_app.
Qed.

(** A coloured message ends with the escape sequence that resets the colour. *)
Lemma tagged_spec start args w :
  Forall short args → Z.of_nat (String.length start) < 2 ^ 62 →
  tagged start args w
  = Ret (tt, emit (format_args (Lit (esc start) :: args ++ [Lit (esc "[0m"); Nl])) w).
Proof.
  intros H Hl. unfold tagged.
  mstep_with ltac:(apply print_spec; repeat constructor; cbn [short esc String.length]; lia).
  mstep_with ltac:(by apply print_spec). rewrite print_spec by (by repeat constructor).
  rewrite <-!emit_app. do 3 f_equal. unfold format_args.
  cbn [fmap list_fmap mjoin list_join app]. rewrite (fmap_app fmt args), join_app.
  cbn [fmap list_fmap mjoin list_join app]. by rewrite !app_nil_r, !app_assoc.
Qed.

End output.
