(* ===== verification/Display.v ===== *)
(** * Printed errors and causes

    Models the [fmt::Debug] and [fmt::Display] implementations of the trap
    subsystem ([src/trap/ds/error.rs], [src/trap/ds/types.rs] and
    [src/trap/api.rs]) over the formatting of [Console.v], and proves that what
    they print identifies what was printed. *)

From Stdlib Require Import ZArith Lia String Ascii.
From stdpp Require Import base option numbers list.
From S2P Require Import TrapSystem TrapTypes Prelude Sbi Console.

(** ** The texts *)

Definition ErrorSource_debug (s : ErrorSource.t) : string :=
  match s with
  | ErrorSource.Unknown => "Unknown" | ErrorSource.Generic => "Generic" | ErrorSource.Trap => "Trap"
  | ErrorSource.Memory => "Memory" | ErrorSource.Process => "Process"
  | ErrorSource.FileSystem => "FileSystem" | ErrorSource.Device => "Device"
  | ErrorSource.Network => "Network" | ErrorSource.Syscall => "Syscall"
  end.

Definition ErrorLevel_debug (l : ErrorLevel.t) : string :=
  match l with
  | ErrorLevel.Fatal => "Fatal" | ErrorLevel.Critical => "Critical" | ErrorLevel.Error => "Error"
  | ErrorLevel.Warning => "Warning" | ErrorLevel.Info => "Info"
  end.

Definition ErrorCode_debug (self : ErrorCode.t) : list piece :=
  [Lit "ErrorCode("; Str (ErrorSource_debug (ErrorCode.source self)); Lit "|";
   Str (ErrorLevel_debug (ErrorCode.level self)); Lit "|"; Dec (ErrorCode.number self); Lit ")"].

Definition SystemError_display (self : SystemError.t) : list piece :=
  [Lit "SystemError "] ++ ErrorCode_debug (SystemError.code self)
  ++ [Lit " at IP="; AltHex (SystemError.instruction_pointer self); Lit ": "; Str (SystemError.message self)]
  ++ match SystemError.address self with
     | Some addr => [Lit " (address: "; AltHex addr; Lit ")"]
     | None => []
     end.

(** [{:?}] of a string puts it in quotes (character 34). *)
Definition quoted (s : string) : string := String "034" (s ++ String "034" EmptyString).

Definition TrapCause_debug (self : TrapCause.t) : list piece :=
  let cause_type := if TrapCause.is_interrupt self then "Interrupt"%string else "Exception"%string in
  [Lit "TrapCause::"; Str (quoted cause_type); Lit "::";
   Str (debug_trap_type (TrapCause.to_trap_type self)); Lit " (code: "; Dec (TrapCause.code self);
   Lit ", raw: "; AltHex (TrapCause.bits self); Lit ")"].

Definition TrapApiError_display (self : TrapApiError) : list piece :=
  [Lit match self with
       | SystemNotInitialized => "Trap system has not been initialized."
       | RegistrationFailed => "Handler registration failed."
       | UnregistrationFailed => "Handler unregistration failed."
       | OwnershipTransferFailed => "Handler ownership transfer failed."
       | HandlerNotFound => "The specified handler could not be found."
       | PermissionDenied => "Operation denied due to ownership or protection level."
       | InternalError => "An internal error occurred within the trap system."
       end].

Example quoted_cause :
  format_args (TrapCause_debug (TrapCause.from_bits 2))
  = chars "TrapCause::" ++ [34] ++ chars "Exception" ++ [34]
    ++ chars "::IllegalInstruction (code: 2, raw: 0x2)".
Proof. by vm_compute. Qed.

(** ** Reading them back *)

(** Two texts that agree up to and including the first [c]. *)
Lemma split_first (c : Z) l1 l2 r1 r2 :
  l1 ++ c :: r1 = l2 ++ c :: r2 → c ∉ l1 → c ∉ l2 → l1 = l2 ∧ r1 = r2.
Proof.
  revert l2. induction l1 as [|x l1 IH]; intros [|y l2] E H1 H2; cbn in E.
  - by injection E as ->.
  - injection E as -> _. by destruct H2; constructor.
  - injection E as <- _. by destruct H1; constructor.
  - injection E as -> E. apply not_elem_of_cons in H1 as [_ H1]. apply not_elem_of_cons in H2 as [_ H2].
    by destruct (IH l2 E H1 H2) as [-> ->].
Qed.

Lemma digit_chars base n c :
  1 < base ≤ 16 → 0 ≤ n → c ∈ fmt_unsigned base n → 48 ≤ c < 58 ∨ 97 ≤ c < 103.
Proof.
  intros Hb Hn. destruct (digits_spec base n) as (_ & F & _); [lia|done|]. rewrite Forall_forall in F.
  unfold fmt_unsigned. change (map digit_char ?l) with (digit_char <$> l).
  intros (d & -> & Hd)%list_elem_of_fmap. apply F in Hd. unfold digit_char. destruct (Z.ltb_spec d 10); lia.
Qed.

Lemma fmt_Dec n : 0 ≤ n → fmt (Dec n) = fmt_unsigned 10 n.
Proof. intros H. cbn [fmt]. unfold fmt_signed. by rewrite (proj2 (Z.ltb_ge n 0)). Qed.

Lemma fmt_unsigned_inj base n m :
  1 < base ≤ 16 → 0 ≤ n → 0 ≤ m → fmt_unsigned base n = fmt_unsigned base m → n = m.
Proof.
  intros Hb Hn Hm E. pose proof (parse_fmt_unsigned base n ltac:(lia) Hn) as H.
  rewrite E, parse_fmt_unsigned in H by lia. congruence.
Qed.

(** A character that is neither a digit nor one of [a] to [f]. *)
Ltac not_digit := intros ?%digit_chars; lia.

Lemma format_args_app l1 l2 : format_args (l1 ++ l2) = format_args l1 ++ format_args l2.
Proof. unfold format_args. by rewrite fmap_app, join_app. Qed.

Lemma source_name c s : c = 124 ∨ c = 41 → c ∉ chars (ErrorSource_debug s).
Proof. intros [->|[= ->]]; destruct s; apply (bool_decide_unpack _); by vm_compute. Qed.
Lemma level_name c l : c = 124 ∨ c = 41 → c ∉ chars (ErrorLevel_debug l).
Proof. intros [->|[= ->]]; destruct l; apply (bool_decide_unpack _); by vm_compute. Qed.
Lemma source_name_inj s s' : chars (ErrorSource_debug s) = chars (ErrorSource_debug s') → s = s'.
Proof. destruct s, s'; first [done|by vm_compute]. Qed.
Lemma level_name_inj l l' : chars (ErrorLevel_debug l) = chars (ErrorLevel_debug l') → l = l'.
Proof. destruct l, l'; first [done|by vm_compute]. Qed.

Lemma code_text s l n :
  in_u16 n →
  format_args (ErrorCode_debug (ErrorCode.new s l n))
  = chars "ErrorCode(" ++ chars (ErrorSource_debug s) ++ 124 :: chars (ErrorLevel_debug l)
    ++ 124 :: fmt_unsigned 10 n ++ [41].
Proof.
  intros Hn. destruct (error_code_roundtrip s l n Hn) as (E1 & E2 & E3 & _).
  unfold ErrorCode_debug, format_args. rewrite E1, E2, E3. cbn [fmap list_fmap mjoin list_join].
  rewrite fmt_Dec by apply Hn. cbn [fmt]. by rewrite app_nil_r.
Qed.

(** The text of a code, with anything after it, determines the code. *)
Lemma code_text_inj s l n s' l' n' r r' :
  in_u16 n → in_u16 n' →
  format_args (ErrorCode_debug (ErrorCode.new s l n)) ++ r
  = format_args (ErrorCode_debug (ErrorCode.new s' l' n')) ++ r' →
  s = s' ∧ l = l' ∧ n = n' ∧ r = r'.
Proof.
  intros Hn Hn'. rewrite !code_text by done. unfold in_u16 in *.
  rewrite <-!app_assoc. intros E%app_inv_head. rewrite <-!app_comm_cons, <-!app_assoc in E.
  apply split_first in E as [Es E]; [|apply source_name; tauto..].
  rewrite <-!app_comm_cons, <-!app_assoc in E.
  apply split_first in E as [El E]; [|apply level_name; tauto..].
  cbn [app] in E. apply split_first in E as [En E]; [|not_digit..].
  split_and!; [by apply source_name_inj|by apply level_name_inj| |done].
  apply (fmt_unsigned_inj 10) in En; lia.
Qed.

Lemma trap_type_name t : 40 ∉ chars (debug_trap_type t).
Proof. destruct t; apply (bool_decide_unpack _); by vm_compute. Qed.

(** The text of a cause determines the register it was read from. *)
Lemma cause_text_inj c c' :
  in_u64 (TrapCause.bits c) → in_u64 (TrapCause.bits c') →
  format_args (TrapCause_debug c) = format_args (TrapCause_debug c') → c = c'.
Proof.
  intros Hc Hc' E.
  assert (∀ c, in_u64 (TrapCause.bits c) → ∃ pre mid, (40 ∉ pre) ∧ (44 ∉ mid)
    ∧ format_args (TrapCause_debug c)
      = pre ++ 40 :: mid ++ 44 :: chars " raw: 0x" ++ fmt_unsigned 16 (TrapCause.bits c) ++ [41]) as Htext.
  { clear. intros c Hc. assert (0 ≤ TrapCause.code c) as H0.
    { rewrite TrapCause.code_spec by done. by apply Z.mod_pos_bound. }
    exists (chars "TrapCause::" ++ chars (quoted (if TrapCause.is_interrupt c then "Interrupt" else "Exception"))
            ++ chars "::" ++ chars (debug_trap_type (TrapCause.to_trap_type c)) ++ [32]).
    exists (chars "code: " ++ fmt_unsigned 10 (TrapCause.code c)). split_and!.
    - rewrite !elem_of_app. pose proof (trap_type_name (TrapCause.to_trap_type c)) as Hty.
      intros [H|[H|[H|[H|H]]]]; try done; revert H; [..|apply (bool_decide_unpack _); by vm_compute];
        try destruct (TrapCause.is_interrupt c); apply (bool_decide_unpack _); by vm_compute.
    - rewrite elem_of_app. intros [H|H]; [revert H; apply (bool_decide_unpack _); by vm_compute|].
      revert H. not_digit.
    - unfold TrapCause_debug, format_args. cbn [fmap list_fmap mjoin list_join].
      rewrite fmt_Dec by done. cbn [fmt]. rewrite app_nil_r.
      change (chars " (code: ") with ([32] ++ 40 :: chars "code: ").
      change (chars ", raw: ") with (44 :: chars " raw: "). change (chars " raw: 0x") with (chars " raw: " ++ chars "0x").
      change (chars ")") with [41].
      repeat first [rewrite <-app_assoc|rewrite <-app_comm_cons]. done. }
  destruct (Htext c Hc) as (pre & mid & H1 & H2 & Ec), (Htext c' Hc') as (pre' & mid' & H1' & H2' & Ec').
  rewrite Ec, Ec' in E. apply split_first in E as [_ E]; [|done..]. apply split_first in E as [_ E]; [|done..].
  apply app_inv_head in E. apply app_inj_tail in E as [E _].
  apply (fmt_unsigned_inj 16) in E; [|unfold in_u64 in *; lia..]. destruct c, c'. cbn in E. by subst.
Qed.

(** A printed error can be told from every other.  Two error codes that print
    alike are equal; two system errors whose messages on the console are the same
    text have the same code and the same instruction pointer, whatever their own
    messages and addresses; and the text of a trap cause determines the raw value
    of [scause], although the decoded trap type does not. *)
Theorem printed_errors_identify_errors s l n s' l' n' e e' c c' :
  in_u16 n → in_u16 n' →
  SystemError.code e = ErrorCode.new s l n → SystemError.code e' = ErrorCode.new s' l' n' →
  0 ≤ SystemError.instruction_pointer e → 0 ≤ SystemError.instruction_pointer e' →
  in_u64 (TrapCause.bits c) → in_u64 (TrapCause.bits c') →
  (format_args (ErrorCode_debug (SystemError.code e)) = format_args (ErrorCode_debug (SystemError.code e')) →
     SystemError.code e = SystemError.code e')
  ∧ (format_args (SystemError_display e) = format_args (SystemError_display e') →
       SystemError.code e = SystemError.code e'
       ∧ SystemError.instruction_pointer e = SystemError.instruction_pointer e')
  ∧ (format_args (TrapCause_debug c) = format_args (TrapCause_debug c') → c = c').
Proof.
  intros Hn Hn' Ee Ee' Hip Hip' Hc Hc'. rewrite Ee, Ee'. split_and!.
  - intros E. destruct (code_text_inj s l n s' l' n' [] []) as (-> & -> & -> & _); try done. by rewrite E.
  - unfold SystemError_display. rewrite !(format_args_app [Lit "SystemError "]). intros E%app_inv_head.
    rewrite Ee, Ee', !(format_args_app (ErrorCode_debug _)) in E.
    apply code_text_inj in E as (-> & -> & -> & E); [|done..]. split; [done|].
    rewrite !format_args_app in E. unfold format_args in E at 1 3.
    cbn [fmap list_fmap mjoin list_join fmt] in E. rewrite <-!app_assoc in E.
    apply app_inv_head in E. apply app_inv_head in E.
    change (chars ": ") with (58 :: [32]) in E. rewrite <-!app_comm_cons in E.
    apply split_first in E as [E _]; [|not_digit..]. apply (fmt_unsigned_inj 16) in E; lia.
  - by apply cause_text_inj.
Qed.

Lemma printed_errors_identify_errors_witness :
  format_args (TrapCause_debug (TrapCause.from_bits 8)) ≠ format_args (TrapCause_debug (TrapCause.from_bits 9))
  ∧ TrapCause.to_trap_type (TrapCause.from_bits 8) = TrapCause.to_trap_type (TrapCause.from_bits 9).
Proof.
  split; [|reflexivity]. intros E.
  set (e := SystemError.new (ErrorCode.new ErrorSource.Trap ErrorLevel.Error 8) "ecall" None 4096 0).
  destruct (printed_errors_identify_errors ErrorSource.Trap ErrorLevel.Error 8 ErrorSource.Trap ErrorLevel.Error 8 e e
              (TrapCause.from_bits 8) (TrapCause.from_bits 9)) as (_ & _ & H);
    [split; [discriminate|reflexivity]|split; [discriminate|reflexivity]|reflexivity|reflexivity|discriminate|discriminate
    |split; [discriminate|reflexivity]|split; [discriminate|reflexivity]|].
  specialize (H E). discriminate H.
Defined.
