(* ===== verification/Boot.v ===== *)
(** * The state of the system

    The allocator ([AllocApi.v]), the trap system ([TrapSystem.v]) and the firmware
    ([Sbi.v]) together, and what [src/lib.rs] and [src/main.rs] do first on them:
    clearing the BSS segment, the banner, and the memory information. *)

From Stdlib Require Import ZArith Lia String.
From stdpp Require Import base option numbers sorting strings gmap list.
From S2P Require Import TrapSystem Prelude Memory Metadata Allocator HeapInv AllocSteps AllocOps Arrays Handover Examples GlobalAlloc AllocApi GlobalThms HandoverSnapshot Sbi.

Module TS := TrapSystem.

(** ** The BSS segment *)

Section bss.
Context (sbss ebss : Z).   (* the linker's symbols *)

(** [for addr in lo..hi { write_volatile(addr, 0) }] *)
Definition zero_range (lo hi : Z) : M Machine unit :=
  for_range lo hi (λ addr _, wr 1 addr 0) tt.

Definition clear_bss (stack_bottom stack_top : Z) : M Machine unit :=
  (if sbss <? stack_bottom then zero_range sbss (Z.min ebss stack_bottom) else mret tt);;
  (if stack_top <? ebss then zero_range (Z.max sbss stack_top) ebss else mret tt).

End bss.

(** ** Memory information *)

Module MemoryInfo.

Record t : Type := mk {
  total_size : Z;
  used_size : Z;
  free_size : Z;
  allocator_initialized : bool;
  allocator_enabled : bool;
  allocation_count : Z;
  deallocation_count : Z;
}.

Section methods.
Context {P : Profile} {S : Type}.

Definition usage_percent (self : t) : M S Z :=
  if total_size self =? 0 then mret 0
  else
    u ← arith 64 (used_size self * 100);
    mret (wrap8 (u / total_size self)).

Definition is_healthy (self : t) : M S bool :=
  if negb (allocator_initialized self) then mret false
  else
    p ← usage_percent self;
    mret ((p <? 95) && (deallocation_count self <=? allocation_count self)).

End methods.
End MemoryInfo.

Definition get_memory_info : M GState MemoryInfo.t :=
  u ← Api.usage_summary;
  st ← Api.stats;
  i ← Api.is_initialized;
  e ← Api.is_enabled;
  let '(total_size, used_size, free_size) := default (0, 0, 0) u in
  let '(alloc_count, dealloc_count) :=
    match st with
    | Some st => (AllocStats.total_allocs st, AllocStats.total_frees st)
    | None => (0, 0)
    end in
  mret (MemoryInfo.mk total_size used_size free_size i e alloc_count dealloc_count).

(** ** The system *)

Record BState (V W : Type) : Type := mkB {
  alloc : GState;
  traps : TS.KState V;
  firmware : W;
}.
Arguments mkB {V W} _ _ _.
Arguments alloc {V W} _.
Arguments traps {V W} _.
Arguments firmware {V W} _.

Definition STACK_SIZE : Z := 4096 * 4.

Section boot.
Context {P : Profile} {V W : Type} `{!Firmware W}.

Definition on_alloc {A} (m : M GState A) : M (BState V W) A :=
  zoom alloc (λ g b, mkB g (traps b) (firmware b)) m.
Definition on_traps {A} (m : M (TS.KState V) A) : M (BState V W) A :=
  zoom traps (λ t b, mkB (alloc b) t (firmware b)) m.
Definition on_firmware {A} (m : M W A) : M (BState V W) A :=
  zoom firmware (λ w b, mkB (alloc b) (traps b) w) m.

(** The banner: [stack] is the address of [STACK], the rest are the linker's
    symbols. *)
Definition early_printk_banner (stack sbss ebss kernel_end : Z) : M W unit :=
  print_str (newline ++ chars "NT RustOS Booting..." ++ newline);;
  print_str (chars "Version: 0.2.0 (Trap System Refactored)" ++ newline);;
  print_str (chars "Architecture: RISC-V 64-bit" ++ newline);;
  print_str (chars "Stack Range (setup): 0x");;
  print_hex stack;;
  print_str (chars " - 0x");;
  print_hex (stack + STACK_SIZE);;
  print_str (chars " (");;
  print_num (STACK_SIZE / 1024);;
  print_str (chars " KB)" ++ newline);;
  print_str (chars "Kernel .bss segment: 0x");;
  print_hex sbss;;
  print_str (chars " - 0x");;
  print_hex ebss;;
  print_str newline;;
  print_str (chars "Kernel end symbol: 0x");;
  print_hex kernel_end;;
  print_str newline.

End boot.

(** ** Clearing the BSS segment *)

Lemma zero_range_spec lo hi ms :
  ∃ ms', zero_range lo hi ms = Ret (tt, ms') ∧ clock ms' = clock ms
    ∧ ∀ x, mem ms' !! x = if decide (lo ≤ x < hi) then Some 0 else mem ms !! x.
Proof.
  destruct (decide (lo ≤ hi)) as [Hle|Hgt].
  - destruct (for_range_inv (S := Machine) (λ k (_ : unit) s, clock s = clock ms
        ∧ ∀ x, mem s !! x = if decide (lo ≤ x < k) then Some 0 else mem ms !! x)
        (λ addr _, wr 1 addr 0) lo hi tt ms) as ([] & ms' & E & Hc & H); [done| | |by exists ms'].
    + split; [done|]. intros x. by rewrite decide_False by lia.
    + intros k [] s Hk [Hc H]. exists tt, (with_mem (λ m, <[k := 0]> m) s).
      split; [done|]. split; [done|]. intros x. cbn [mem with_mem]. destruct (decide (x = k)) as [->|Hx].
      * rewrite lookup_insert_eq. by rewrite decide_True by lia.
      * rewrite lookup_insert_ne, H by done. by destruct (decide _), (decide _); try lia.
  - exists ms. unfold zero_range, for_range. replace (Z.to_nat (hi - lo)) with 0%nat by lia.
    split_and!; [done|done|]. intros x. by rewrite decide_False by lia.
Qed.

(** [clear_bss] returns with every byte of the BSS segment that is not in the
    stack set to zero, and no other byte of memory touched, wherever the stack
    lies. *)
Theorem clear_bss_exact sbss ebss bottom top ms :
  ∃ ms', clear_bss sbss ebss bottom top ms = Ret (tt, ms') ∧ clock ms' = clock ms
    ∧ ∀ x, mem ms' !! x = if decide (sbss ≤ x < ebss ∧ ¬ (bottom ≤ x < top)) then Some 0
                          else mem ms !! x.
Proof.
  assert (∀ (b : bool) lo hi ms, ∃ ms', (if b then zero_range lo hi else mret tt) ms = Ret (tt, ms')
    ∧ clock ms' = clock ms
    ∧ ∀ x, mem ms' !! x = if decide (b = true ∧ lo ≤ x < hi) then Some 0 else mem ms !! x) as Hif.
  { intros [] lo hi ms0.
    - destruct (zero_range_spec lo hi ms0) as (ms' & E & Hc & H). exists ms'. split_and!; [done..|].
      intros x. rewrite H. by apply decide_ext; intuition.
    - exists ms0. split_and!; [done..|]. intros x. rewrite decide_False; [done|]. by intros [? _]. }
  destruct (Hif (sbss <? bottom) sbss (Z.min ebss bottom) ms) as (ms1 & E1 & Hc1 & H1).
  destruct (Hif (top <? ebss) (Z.max sbss top) ebss ms1) as (ms2 & E2 & Hc2 & H2).
  exists ms2. split_and!; [|congruence|].
  - unfold clear_bss. mstep_with ltac:(exact E1). exact E2.
  - intros x. rewrite H2, H1. pose proof (Z.ltb_lt sbss bottom). pose proof (Z.ltb_lt top ebss).
    by repeat destruct (decide _); try lia.
Qed.

(** ** Memory information *)

Section info.
Context {P : Profile}.

Lemma get_memory_info_run g s :
  holds g s → initialized g = true →
  let st := stats (self s) in
  get_memory_info g = Ret (MemoryInfo.mk (AllocStats.total_size st) (AllocStats.used_size st)
    (AllocStats.free_size st) true (enabled g) (AllocStats.total_allocs st) (AllocStats.total_frees st), g).
Proof.
  intros Hh Hi st. unfold get_memory_info, Api.usage_summary.
  mstep_with ltac:(mstep_with ltac:(by apply (api_stats_run g s)); reflexivity).
  mstep_with ltac:(by apply (api_stats_run g s)). mstep. mstep. cbn. by rewrite Hi.
Qed.

(** Less than 95 percent used and not more frees than allocations. *)
Definition healthy (st : AllocStats.t) : Prop :=
  AllocStats.used_size st * 100 / AllocStats.total_size st < 95
  ∧ AllocStats.total_frees st ≤ AllocStats.total_allocs st.

Lemma is_healthy_run {S} total used free e na nf (s : S) :
  0 ≤ used ≤ total → total * 100 < 2 ^ 64 →
  MemoryInfo.is_healthy (MemoryInfo.mk total used free true e na nf) s
    = Ret (bool_decide (used * 100 / total < 95 ∧ nf ≤ na), s).
Proof.
  intros Hu Hm. set (i := MemoryInfo.mk _ _ _ _ _ _ _).
  assert (MemoryInfo.usage_percent i s = Ret (used * 100 / total, s)) as E.
  { unfold MemoryInfo.usage_percent. cbn. destruct (Z.eqb_spec total 0) as [->|Ht].
    { by rewrite Z.div_0_r. }
    mstep_with ltac:(apply arith_ok; lia).
    assert (0 ≤ used * 100 / total ≤ 100).
    { split; [apply Z.div_pos; lia|]. apply Z.div_le_upper_bound; lia. }
    unfold wrap8. by rewrite Z.mod_small by lia. }
  unfold MemoryInfo.is_healthy. cbn [negb MemoryInfo.allocator_initialized i].
  mstep_with ltac:(exact E). unfold mret, M_ret. do 2 f_equal.
  apply eq_bool_prop_intro. rewrite bool_decide_spec, andb_True, !Is_true_true, Z.ltb_lt, Z.leb_le. done.
Qed.

End info.

(** ** The whole system *)

Section system.
Context {P : Profile} {V W : Type} `{!Firmware W}.
Implicit Types b : BState V W.

Lemma on_alloc_Ret {A} (m : M GState A) b a g :
  m (alloc b) = Ret (a, g) → on_alloc m b = Ret (a, mkB g (traps b) (firmware b)).
Proof. unfold on_alloc, zoom. by intros ->. Qed.

(** A call that leaves the allocator as it was. *)
Lemma on_alloc_same {A} (m : M GState A) b a :
  m (alloc b) = Ret (a, alloc b) → on_alloc m b = Ret (a, b).
Proof. intros H. rewrite (on_alloc_Ret m b a _ H). by destruct b. Qed.

Lemma on_alloc_Hang {A} (m : M GState A) b : m (alloc b) = Hang → on_alloc m b = Hang.
Proof. unfold on_alloc, zoom. by intros ->. Qed.

(** ** The heap of the kernel *)

Lemma align16 x :
  0 ≤ x → x + 15 < 2 ^ 64 →
  x ≤ Z.land (x + 15) (usize_not 15) < x + 16 ∧ Z.land (Z.land (x + 15) (usize_not 15)) 15 = 0.
Proof.
  intros H0 H1. pose proof (land_usize_not_pow2 (x + 15) 4 ltac:(lia) ltac:(lia)) as E.
  change (2 ^ 4 - 1) with 15 in E. change (2 ^ 4) with 16 in E. rewrite E.
  pose proof (Z.mod_pos_bound (x + 15) 16 ltac:(lia)). split; [lia|].
  change 15 with (Z.ones 4). rewrite Z.land_ones by lia. change (2 ^ 4) with 16.
  rewrite Zminus_mod_idemp_r, Z.sub_diag. done.
Qed.

(** ** The banner *)

(** [m] returns, having sent a text that satisfies [Q]. *)
Definition sends (m : M W unit) (w : W) (Q : list Z → Prop) : Prop :=
  ∃ l, m w = Ret (tt, emit l w) ∧ Q l.

Lemma sends_seq (m k : M W unit) w t Q :
  m w = Ret (tt, emit t w) → sends k (emit t w) (λ l, Q (t ++ l)) → sends (m;; k) w Q.
Proof.
  intros Em (l & Ek & HQ). exists (t ++ l). split; [|done]. rewrite emit_app.
  by mstep_with ltac:(exact Em).
Qed.

Lemma sends_str s (k : M W unit) w Q :
  Z.of_nat (length s) < 2 ^ 64 → sends k (emit s w) (λ l, Q (s ++ l)) → sends (print_str s;; k) w Q.
Proof. intros Hs. apply sends_seq. by apply print_str_spec. Qed.

Lemma sends_hex n (k : M W unit) w Q :
  in_u64 n → (∀ t, numeral n 16 t → sends k (emit t w) (λ l, Q (t ++ l))) → sends (print_hex n;; k) w Q.
Proof. intros Hn Hk. destruct (print_hex_spec n w Hn) as (t & E & Ht). by eapply sends_seq; [|apply Hk]. Qed.

Lemma sends_num n (k : M W unit) w Q :
  in_u64 n → (∀ t, numeral n 10 t → sends k (emit t w) (λ l, Q (t ++ l))) → sends (print_num n;; k) w Q.
Proof. intros Hn Hk. destruct (print_num_spec n w Hn) as (t & E & Ht). by eapply sends_seq; [|apply Hk]. Qed.

Lemma sends_last s w (Q : list Z → Prop) :
  Z.of_nat (length s) < 2 ^ 64 → Q s → sends (print_str s) w Q.
Proof. intros Hs HQ. exists s. split; [by apply print_str_spec|done]. Qed.

Lemma sends_mono m w (Q Q' : list Z → Prop) : sends m w Q → (∀ l, Q l → Q' l) → sends m w Q'.
Proof. intros (l & E & H) HQ. exists l. split; [done|by apply HQ]. Qed.

Lemma numeral_hex_prefix n t : n ≠ 0 → numeral n 16 t → ∃ digits, t = chars "0x" ++ digits.
Proof.
  intros Hn (ds & -> & _). unfold base_prefix. rewrite (proj2 (Z.eqb_neq n 0)) by done.
  by eexists.
Qed.

(** The banner returns.  It writes [0x] and then calls [print_hex], which writes
    it again: an address other than zero comes out as [0x0x..]. *)
Theorem banner_doubles_prefix stack sbss ebss kernel_end (w : W) :
  0 < stack → stack + STACK_SIZE < 2 ^ 64 → in_u64 sbss → in_u64 ebss → in_u64 kernel_end →
  ∃ before digits after,
    early_printk_banner stack sbss ebss kernel_end w
    = Ret (tt, emit (before ++ chars "Stack Range (setup): 0x0x" ++ digits ++ after) w)
    ∧ numeral stack 16 (chars "0x" ++ digits).
Proof.
  intros H0 H1 H2 H3 H4. unfold in_u64, STACK_SIZE in *.
  set (intro := (newline ++ chars "NT RustOS Booting..." ++ newline)
    ++ (chars "Version: 0.2.0 (Trap System Refactored)" ++ newline)
    ++ (chars "Architecture: RISC-V 64-bit" ++ newline)).
  assert (sends (early_printk_banner stack sbss ebss kernel_end) w (λ l, ∃ digits after,
    l = intro ++ chars "Stack Range (setup): 0x0x" ++ digits ++ after
    ∧ numeral stack 16 (chars "0x" ++ digits))) as (l & E & digits & after & -> & Hn);
    [|by exists intro, digits, after].
  unfold early_printk_banner. do 4 (apply sends_str; [by vm_compute|]).
  apply sends_hex; [unfold in_u64; lia|]. intros t Ht.
  destruct (numeral_hex_prefix stack t ltac:(lia) Ht) as [digits ->].
  apply (sends_mono _ _ (λ _, True)).
  - repeat lazymatch goal with
      | |- sends (print_str _ ≫= _) _ _ => apply sends_str; [by vm_compute|]
      | |- sends (print_hex _ ≫= _) _ _ => apply sends_hex; [unfold in_u64, STACK_SIZE; lia|intros ? _]
      | |- sends (print_num _ ≫= _) _ _ => apply sends_num; [by vm_compute|intros ? _]
      | |- sends (print_str _) _ _ => apply sends_last; [by vm_compute|done]
      end.
  - intros l _. exists digits, l. split; [|done]. unfold intro. by rewrite <- !app_assoc.
Qed.
End system.

(** ** A concrete system *)

Module BootDemo.

(** Three live blocks, two trap handlers, a silent console. *)
Definition up : BState Z FwDemo.t := mkB GlobalDemo.g3 TS.SysDemo.up FwDemo.off.

(** The same inside a call of the allocator. *)
Definition in_alloc : BState Z FwDemo.t :=
  mkB (set_locked true GlobalDemo.g3) TS.SysDemo.up FwDemo.off.

End BootDemo.
