(* ===== verification/Reports.v ===== *)
(** * Printed reports

    Models the functions that write a report to the console: the [print_..]
    methods of [src/init/alloc/metadata.rs] and [src/init/alloc/handover.rs],
    [print_status] and the snapshot reports of
    [src/init/alloc/mod.rs], and [MemoryInfo::print] of [src/lib.rs].  They run
    on the allocator's state next to the firmware that receives the text.

    A report that [returns] comes back whatever the console does with its text; a
    computation [erases] to another when they have the same effect on the kernel
    and the same result. *)

From Stdlib Require Import ZArith Lia String.
From stdpp Require Import base option numbers sorting strings gmap list.
From S2P Require Import Prelude Memory Purpose Metadata Allocator HeapInv AllocSteps AllocOps Arrays Handover Examples GlobalAlloc AllocApi GlobalThms HandoverSnapshot TypeSafety Sbi Console Boot.


(** [{:?}] of an [AllocError] *)
Definition AllocError_debug (e : AllocError) : string :=
  match e with
  | NotInitialized => "NotInitialized"
  | AlreadyInitialized => "AlreadyInitialized"
  | OutOfMemory => "OutOfMemory"
  | InvalidParameter => "InvalidParameter"
  | InvalidAlignment => "InvalidAlignment"
  | InvalidPointer => "InvalidPointer"
  | DoubleFree => "DoubleFree"
  | CorruptedHeader => "CorruptedHeader"
  | AllocatorFrozen => "AllocatorFrozen"
  | NullPointer => "NullPointer"
  | InternalError => "InternalError"
  end.

(** ** Reports on a value *)

Section values.
Context {P : Profile} {W : Type} `{!Firmware W}.

(** *** [AllocStats] *)

Definition AllocStats_print_detailed (self : AllocStats.t) : M W unit :=
  println [Lit "=== Detailed Memory Statistics ==="];;
  println [Lit "Memory Layout:"];;
  println [Lit "  Total size: "; Dec (AllocStats.total_size self / 1024); Lit " KB"];;
  println [Lit "  Used: "; Dec (AllocStats.used_size self / 1024); Lit " KB (";
           Dec (AllocStats.usage_percent self); Lit "%)"];;
  println [Lit "  Free: "; Dec (AllocStats.free_size self / 1024); Lit " KB"];;
  println [Lit "  Peak usage: "; Dec (AllocStats.peak_used_size self / 1024); Lit " KB"];;
  println [Lit "Block Statistics:"];;
  println [Lit "  Allocated blocks: "; Dec (AllocStats.alloc_count self)];;
  println [Lit "  Free blocks: "; Dec (AllocStats.free_count self)];;
  println [Lit "  Max free block: "; Dec (AllocStats.max_free_block_size self / 1024); Lit " KB"];;
  println [Lit "Allocation Statistics:"];;
  println [Lit "  Total allocations: "; Dec (AllocStats.total_allocs self)];;
  println [Lit "  Total deallocations: "; Dec (AllocStats.total_frees self)];;
  println [Lit "  Failed allocations: "; Dec (AllocStats.failed_allocs self)];;
  rate ← AllocStats.success_rate self;
  println [Lit "  Success rate: "; Dec rate; Lit "%"];;
  println [Lit "Size Statistics:"];;
  (if negb (AllocStats.min_alloc_size self =? usize_MAX)
   then println [Lit "  Min allocation: "; Dec (AllocStats.min_alloc_size self); Lit " bytes"]
   else mret tt);;
  println [Lit "  Max allocation: "; Dec (AllocStats.max_alloc_size self); Lit " bytes"];;
  println [Lit "  Average allocation: "; Dec (AllocStats.avg_alloc_size self); Lit " bytes"];;
  println [Lit "Performance Statistics:"];;
  println [Lit "  Block merges: "; Dec (AllocStats.merge_count self)];;
  println [Lit "  Block splits: "; Dec (AllocStats.split_count self)];;
  println [Lit "  Coalesce operations: "; Dec (AllocStats.coalesce_count self)];;
  println [Lit "  Fragmentation: "; Dec (AllocStats.fragmentation_estimate self); Lit "%"];;
  println [Lit "Error Statistics:"];;
  println [Lit "  Double free attempts: "; Dec (AllocStats.double_free_attempts self)];;
  println [Lit "  Corrupted blocks: "; Dec (AllocStats.corrupted_blocks self)];;
  println [Lit "====================================="].

Definition AllocStats_print_summary (self : AllocStats.t) : M W unit :=
  println [Lit "Memory: "; Dec (AllocStats.used_size self / 1024); Lit "/";
           Dec (AllocStats.total_size self / 1024); Lit " KB ("; Dec (AllocStats.usage_percent self);
           Lit "%), Allocs: "; Dec (AllocStats.total_frees self); Lit "/";
           Dec (AllocStats.total_allocs self); Lit ", Frag: ";
           Dec (AllocStats.fragmentation_estimate self); Lit "%"].

(** *** [HealthStatus] *)

Definition print_report (issues : HealthIssues.t) : M W unit :=
  if is_healthy issues then println [Lit "Allocator health: GOOD"]
  else
    warn_print [Lit "Allocator health issues detected:"];;
    (if HealthIssues.contains issues HealthIssues.HIGH_MEMORY_USAGE
     then warn_print [Lit "  - High memory usage (>90%)"] else mret tt);;
    (if HealthIssues.contains issues HealthIssues.HIGH_FRAGMENTATION
     then warn_print [Lit "  - High fragmentation (>50%)"] else mret tt);;
    (if HealthIssues.contains issues HealthIssues.LOW_SUCCESS_RATE
     then warn_print [Lit "  - Low allocation success rate (<95%)"] else mret tt);;
    (if HealthIssues.contains issues HealthIssues.CORRUPTION_DETECTED
     then error_print [Lit "  - Memory corruption detected!"] else mret tt);;
    (if HealthIssues.contains issues HealthIssues.POTENTIAL_LEAK
     then warn_print [Lit "  - Potential memory leak detected"] else mret tt).

(** *** [HandoverInfo] *)

(** [for (purpose, count, size) in &groups { if *count > 0 { .. } }] *)
Fixpoint print_groups (groups : list (AllocPurpose.t * Z * Z)) : M W unit :=
  match groups with
  | [] => mret tt
  | (purpose, count, size) :: rest =>
      (if 0 <? count then
         println [Lit "  "; Str (AllocPurpose.description purpose); Lit ": "; Dec count;
                  Lit " blocks, "; Dec (size / 1024); Lit " KB (priority: ";
                  Dec (AllocPurpose.priority purpose); Lit ")"]
       else mret tt);;
      print_groups rest
  end.

Definition HandoverInfo_print_summary (self : HandoverInfo.t) : M W unit :=
  println [Lit "=== Early Allocator Handover Summary ==="];;
  println [Lit "Protocol Version: "; Dec (HandoverInfo.version self)];;
  hs ← HandoverInfo.heap_size self;
  println [Lit "Heap range: 0x"; Hex (HandoverInfo.heap_start self); Lit " - 0x";
           Hex (HandoverInfo.heap_end self); Lit " ("; Dec (hs / 1024); Lit " KB)"];;
  println [Lit "Allocated blocks: "; Dec (HandoverInfo.allocated_count self); Lit "/";
           Dec MAX_TRACKED_BLOCKS];;
  allocated ← HandoverInfo.allocated_size self;
  println [Lit "Total allocated: "; Dec (allocated / 1024); Lit " KB"];;
  critical ← HandoverInfo.critical_size self;
  println [Lit "Critical memory: "; Dec (critical / 1024); Lit " KB"];;
  reclaimable ← HandoverInfo.reclaimable_size self;
  println [Lit "Reclaimable memory: "; Dec (reclaimable / 1024); Lit " KB"];;
  movable ← HandoverInfo.movable_size self;
  println [Lit "Movable memory: "; Dec (movable / 1024); Lit " KB"];;
  println [Nl; Lit "Allocation by purpose:"];;
  groups ← HandoverInfo.group_by_purpose self;
  print_groups groups;;
  println [Nl; Lit "Allocator State:"];;
  let state := HandoverInfo.allocator_state self in
  println [Lit "  Frozen: "; Bool (st_frozen state)];;
  println [Lit "  Integrity: "; Str (if integrity_ok state then "OK" else "FAILED")];;
  println [Lit "  Error count: "; Dec (error_count state)];;
  println [Nl; Lit "Performance Metrics:"];;
  let perf := performance_metrics state in
  println [Lit "  Cache hit rate: "; Dec (cache_hit_rate perf); Lit "%"];;
  println [Lit "  Defragmentation count: "; Dec (defrag_count perf)];;
  println [Lit "  Max consecutive failures: "; Dec (max_consecutive_failures perf)];;
  println [Nl; Lit "Statistics:"];;
  let stats := HandoverInfo.statistics self in
  println [Lit "  Total allocations: "; Dec (AllocStats.total_allocs stats)];;
  println [Lit "  Total deallocations: "; Dec (AllocStats.total_frees stats)];;
  println [Lit "  Current usage: "; Dec (AllocStats.usage_percent stats); Lit "%"];;
  println [Lit "  Fragmentation: "; Dec (AllocStats.fragmentation_estimate stats); Lit "%"];;
  println [Lit "========================================"].

(** *** [MemoryInfo] *)

Definition MemoryInfo_print (self : MemoryInfo.t) : M W unit :=
  println [Lit "=== System Memory Information ==="];;
  println [Lit "  Total: "; Dec (MemoryInfo.total_size self / 1024); Lit " KB"];;
  usage_percent ← (if 0 <? MemoryInfo.total_size self
                   then u ← arith 64 (MemoryInfo.used_size self * 100);
                        mret (u / MemoryInfo.total_size self)
                   else mret 0);
  println [Lit "  Used:  "; Dec (MemoryInfo.used_size self / 1024); Lit " KB ("; Dec usage_percent;
           Lit "%)"];;
  println [Lit "  Free:  "; Dec (MemoryInfo.free_size self / 1024); Lit " KB"];;
  println [Lit "  Allocator: Initialized ("; Bool (MemoryInfo.allocator_initialized self);
           Lit "), Enabled ("; Bool (MemoryInfo.allocator_enabled self); Lit ")"];;
  println [Lit "  Operations: "; Dec (MemoryInfo.allocation_count self); Lit " allocs, ";
           Dec (MemoryInfo.deallocation_count self); Lit " deallocs"];;
  println [Lit "================================="].

(** *** Snapshots *)

Definition MemorySnapshot_print (self : Api.MemorySnapshot) : M W unit :=
  println [Lit "=== Memory Snapshot (t="; Dec (Api.timestamp self); Lit ") ==="];;
  AllocStats_print_summary (Api.statistics self);;
  println [Lit "Allocated blocks: "; Dec (HandoverInfo.allocated_count (snd (Api.handover_info self)))];;
  println [Lit "============================"].

(** [size_delta / 1024] truncates toward zero; it is printed only when positive. *)
Definition SnapshotComparison_print (self : Api.SnapshotComparison) : M W unit :=
  println [Lit "=== Snapshot Comparison ==="];;
  println [Lit "Time delta: "; Dec (Api.time_delta self); Lit " ticks"];;
  println [Lit "Allocations: +"; Dec (Api.alloc_delta self)];;
  println [Lit "Deallocations: +"; Dec (Api.dealloc_delta self)];;
  println [Lit "Size change: "; Plus (Api.size_delta self); Lit " bytes"];;
  println [Lit "Block count change: "; Plus (Api.block_count_delta self)];;
  (if Api.dealloc_delta self <? Api.alloc_delta self
   then warn_print [Lit "Net allocation growth detected"] else mret tt);;
  (if 0 <? Api.size_delta self
   then warn_print [Lit "Memory usage increased by "; Dec (Z.quot (Api.size_delta self) 1024); Lit " KB"]
   else mret tt);;
  println [Lit "========================="].

End values.

(** ** Reports that read the kernel's state *)

Record RState (W : Type) : Type := mkR { kernel : GState; console : W }.
Arguments mkR {W} _ _.
Arguments kernel {W} _.
Arguments console {W} _.

Definition on_kernel {W A} (m : M GState A) : M (RState W) A :=
  zoom kernel (λ g r, mkR g (console r)) m.
Definition on_console {W A} (m : M W A) : M (RState W) A :=
  zoom console (λ w r, mkR (kernel r) w) m.

Section stateful.
Context {P : Profile} {W : Type} `{!Firmware W}.
Context (info_layout : Layout) (info_bytes : HandoverInfo.t → list Z).

(** *** [AllocatedBlock] *)

Definition AllocatedBlock_print_info (self : AllocatedBlock.t) : M (RState W) unit :=
  age ← on_kernel (on_hand_clock (AllocatedBlock.age self));
  on_console (println [Lit "Block #"; Dec (AllocatedBlock.alloc_id self); Lit ": addr=0x";
    Hex (AllocatedBlock.addr self); Lit ", size="; Dec (AllocatedBlock.size self); Lit " bytes, purpose=";
    Str (AllocPurpose.short_name (AllocatedBlock.purpose self)); Lit " (";
    Str (AllocPurpose.description (AllocatedBlock.purpose self)); Lit "), age="; Dec age]).

(** [{:?}] of the derived [Debug] of [MemoryPermissions] *)
Definition MemoryPermissions_debug (p : MemoryPermissions.t) : list piece :=
  [Lit "MemoryPermissions { bits: "; Dec (MemoryPermissions.bits p); Lit " }"].

Definition AllocatedBlock_print_detailed (self : AllocatedBlock.t) : M (RState W) unit :=
  let purpose := AllocatedBlock.purpose self in
  on_console (println [Lit "=== Block Details ==="]);;
  on_console (println [Lit "ID: "; Dec (AllocatedBlock.alloc_id self)]);;
  e ← AllocatedBlock.end_addr self;
  on_console (println [Lit "Address: 0x"; Hex (AllocatedBlock.addr self); Lit " - 0x"; Hex e]);;
  on_console (println [Lit "Size: "; Dec (AllocatedBlock.size self); Lit " bytes (";
                       Dec (AllocatedBlock.size self / 1024); Lit " KB)"]);;
  on_console (println [Lit "Purpose: "; Str (AllocPurpose.description purpose); Lit " (";
                       Str (AllocPurpose.short_name purpose); Lit ")"]);;
  on_console (println [Lit "Priority: "; Dec (AllocPurpose.priority purpose)]);;
  on_console (println [Lit "Alignment: "; Dec (AllocatedBlock.alignment self); Lit " bytes"]);;
  on_console (println (Lit "Permissions: " :: MemoryPermissions_debug (AllocatedBlock.permissions self)));;
  age ← on_kernel (on_hand_clock (AllocatedBlock.age self));
  on_console (println [Lit "Age: "; Dec age; Lit " ticks"]);;
  on_console (println [Lit "Critical: "; Bool (AllocPurpose.is_critical purpose)]);;
  on_console (println [Lit "Reclaimable: "; Bool (AllocPurpose.is_reclaimable purpose)]);;
  on_console (println [Lit "Movable: "; Bool (AllocPurpose.is_movable purpose)]);;
  on_console (println [Lit "==================="]).

(** *** [HandoverInfo::print_detailed_report] *)

(** The ten most important blocks. *)
Definition print_top_blocks (self : HandoverInfo.t) (indices : list Z) : M (RState W) unit :=
  for_range 0 (Z.min (HandoverInfo.allocated_count self) 10) (λ i _,
    block_idx ← arr_get indices i;
    block ← arr_get (HandoverInfo.allocated_blocks self) block_idx;
    let purpose := AllocatedBlock.purpose block in
    on_console (println [Lit "  #"; Dec (AllocatedBlock.alloc_id block); Lit ": ";
      Str (AllocPurpose.short_name purpose); Lit " - 0x"; Hex (AllocatedBlock.addr block); Lit " (";
      Dec (AllocatedBlock.size block / 1024); Lit " KB) - "; Str (AllocPurpose.description purpose)])) tt.

Definition print_detailed_report (self : HandoverInfo.t) : M (RState W) unit :=
  on_console (HandoverInfo_print_summary self);;
  on_console (println [Nl; Lit "=== Detailed Block Analysis ==="]);;
  priority_indices ← HandoverInfo.blocks_by_priority self;
  on_console (println [Lit "Blocks by priority (highest first):"]);;
  print_top_blocks self priority_indices;;
  leak_result ← on_kernel (on_hand_clock (HandoverInfo.detect_potential_leaks self));
  (if 0 <? suspicious_count leak_result then
     on_console (
       warn_print [Lit "Potential memory leaks detected!"];;
       println [Lit "  Suspicious blocks: "; Dec (suspicious_count leak_result)];;
       println [Lit "  Suspicious size: "; Dec (total_suspicious_size leak_result / 1024); Lit " KB"];;
       println [Lit "  Leak score: "; Dec (leak_score leak_result); Lit "%"];;
       println [Lit "  Oldest block age: "; Dec (oldest_block_age leak_result); Lit " ticks"])
   else mret tt);;
  on_console (println [Lit "==============================="]).

(** *** [mod.rs] *)

Definition print_status : M (RState W) unit :=
  i ← on_kernel Api.is_initialized;
  if negb i then on_console (error_print [Lit "Early allocator not initialized"])
  else
    on_console (info_print [Lit "Early Allocator Status:"]);;
    i ← on_kernel Api.is_initialized;
    on_console (info_print [Lit "  Initialized: "; Bool i]);;
    e ← on_kernel Api.is_enabled;
    on_console (info_print [Lit "  Enabled: "; Bool e]);;
    st ← on_kernel Api.stats;
    (match st with
     | Some st =>
         on_console (AllocStats_print_summary st);;
         health ← check_health st;
         on_console (print_report health)
     | None => mret tt
     end);;
    c ← on_kernel Api.integrity_check;
    match c with
    | Ok _ => on_console (info_print [Lit "Integrity check: PASSED"])
    | Err e => on_console (error_print [Lit "Integrity check: FAILED ("; Str (AllocError_debug e); Lit ")"])
    end.

End stateful.

(** ** Printable values *)

Lemma short_usize n : in_u64 n → - 2 ^ 64 < n < 2 ^ 64.
Proof. unfold in_u64. lia. Qed.
Lemma short_kb n : in_u64 n → - 2 ^ 64 < n / 1024 < 2 ^ 64.
Proof.
  unfold in_u64. intros Hn. assert (0 ≤ n / 1024) by (apply Z.div_pos; lia).
  assert (n / 1024 < 2 ^ 64) by (apply Z.div_lt_upper_bound; lia). lia.
Qed.
Lemma short_u8 n : in_u8 n → - 2 ^ 64 < n < 2 ^ 64.
Proof. unfold in_u8. lia. Qed.
Lemma short_u32 n : in_u32 n → - 2 ^ 64 < n < 2 ^ 64.
Proof. unfold in_u32. lia. Qed.
Lemma usage_percent_range st : in_u8 (AllocStats.usage_percent st).
Proof. unfold AllocStats.usage_percent. case_match; [done|apply to_u8_range]. Qed.
Lemma fragmentation_estimate_range st : in_u8 (AllocStats.fragmentation_estimate st).
Proof. unfold AllocStats.fragmentation_estimate. case_match; [done|apply to_u8_range]. Qed.
Lemma max_tracked_range : in_u64 MAX_TRACKED_BLOCKS.
Proof. done. Qed.

Create HintDb printable.
#[export] Hint Resolve max_tracked_range short_usize short_kb short_u8 short_u32 usage_percent_range
  fragmentation_estimate_range : printable.

(** Every piece of a line is printable: literal text by evaluation, numbers by
    their type. *)
Ltac printable :=
  repeat first [ apply Forall_nil_2 | apply Forall_cons_2 ];
  lazymatch goal with
  | |- short (Lit _) => by vm_compute
  | |- short (Str (AllocPurpose.description ?p)) => destruct p; by vm_compute
  | |- short (Str (AllocPurpose.short_name ?p)) => destruct p; by vm_compute
  | |- short (Dec (AllocPurpose.priority ?p)) => destruct p; by vm_compute
  | |- short (Str (if ?b then _ else _)) => destruct b; by vm_compute
  | |- short (Str (AllocError_debug ?e)) => destruct e; by vm_compute
  | |- short (Bool _) => exact I
  | |- short Nl => exact I
  | |- _ => cbn [short]; auto with printable
  end.

Section returns.
Context {P : Profile} {W : Type} `{!Firmware W}.

(** A report that comes back. *)
Definition returns (m : M W unit) : Prop := ∀ w, ∃ w', m w = Ret (tt, w').

Lemma returns_println args : Forall short args → returns (println args).
Proof. intros H w. eexists. by apply println_spec. Qed.
Lemma returns_tagged start args :
  Forall short args → Z.of_nat (String.length start) < 2 ^ 62 → returns (tagged start args).
Proof. intros H Hl w. eexists. by apply tagged_spec. Qed.
Lemma returns_seq (m k : M W unit) : returns m → returns k → returns (m;; k).
Proof.
  intros Hm Hk w. destruct (Hm w) as [w1 E1]. destruct (Hk w1) as [w2 E2]. exists w2.
  mstep_with ltac:(exact E1). exact E2.
Qed.
Lemma returns_skip : returns (mret tt).
Proof. intros w. by exists w. Qed.
Lemma returns_debug_print file line args :
  short (Str file) → -2 ^ 64 < line < 2 ^ 64 → Forall short args → returns (debug_print file line args).
Proof.
  intros Hf Hl H. unfold debug_print. apply returns_seq; [|by apply returns_println].
  intros w. eexists. apply print_spec. repeat apply Forall_cons_2; by try apply Forall_nil_2.
Qed.

End returns.

Ltac returns :=
  lazymatch goal with
  | |- returns (_ ≫= _) => apply returns_seq; returns
  | |- returns (println _) => apply returns_println; printable
  | |- returns (error_print _) => apply returns_tagged; [printable|by vm_compute]
  | |- returns (warn_print _) => apply returns_tagged; [printable|by vm_compute]
  | |- returns (info_print _) => apply returns_tagged; [printable|by vm_compute]
  | |- returns (debug_print _ _ _) => apply returns_debug_print; [by vm_compute|lia|printable]
  | |- returns (mret tt) => apply returns_skip
  | |- returns (match ?x with _ => _ end) => destruct x; returns
  | |- _ => idtac
  end.

(** ** The health report *)

(** A coloured line. *)
Definition warn_line (t : string) : list Z :=
  format_args [Lit (esc "[33m[WARN] "); Lit t; Lit (esc "[0m"); Nl].
Definition error_line (t : string) : list Z :=
  format_args [Lit (esc "[31m[ERROR] "); Lit t; Lit (esc "[0m"); Nl].

(** The conditions under which each line belongs in the report. *)
Definition health_findings (st : AllocStats.t) (rate : Z) : list (bool * list Z) :=
  [ (90 <? AllocStats.usage_percent st, warn_line "  - High memory usage (>90%)");
    (50 <? AllocStats.fragmentation_estimate st, warn_line "  - High fragmentation (>50%)");
    ((rate <? 95) && (100 <? AllocStats.total_allocs st), warn_line "  - Low allocation success rate (<95%)");
    ((0 <? AllocStats.double_free_attempts st) || (0 <? AllocStats.corrupted_blocks st),
       error_line "  - Memory corruption detected!");
    (1000 <? AllocStats.total_allocs st - AllocStats.total_frees st,
       warn_line "  - Potential memory leak detected") ].

Definition health_text (findings : list (bool * list Z)) : list Z :=
  let raised := filter (λ f, f.1 = true) findings in
  match raised with
  | [] => format_args [Lit "Allocator health: GOOD"; Nl]
  | _ => warn_line "Allocator health issues detected:" ++ mjoin (snd <$> raised)
  end.

Section health.
Context {P : Profile} {W : Type} `{!Firmware W}.

Lemma emit_if (c : bool) (m k : M W unit) t l w :
  (∀ w, m w = Ret (tt, emit t w)) → (∀ w, k w = Ret (tt, emit l w)) →
  ((if c then m else mret tt);; k) w = Ret (tt, emit ((if c then t else []) ++ l) w).
Proof.
  intros Hm Hk. rewrite emit_app. destruct c; [mstep_with ltac:(apply Hm)|mstep]; apply Hk.
Qed.

Lemma warn_spec t w : Z.of_nat (String.length t) < 2 ^ 63 → warn_print [Lit t] w = Ret (tt, emit (warn_line t) w).
Proof. intros H. unfold warn_print. rewrite tagged_spec; [done|by repeat constructor|by vm_compute]. Qed.
Lemma error_spec t w : Z.of_nat (String.length t) < 2 ^ 63 → error_print [Lit t] w = Ret (tt, emit (error_line t) w).
Proof. intros H. unfold error_print. rewrite tagged_spec; [done|by repeat constructor|by vm_compute]. Qed.

Ltac coloured_line :=
  lazymatch goal with
  | |- warn_print _ _ = _ => apply warn_spec; by vm_compute
  | |- error_print _ _ = _ => apply error_spec; by vm_compute
  end.

(** The flags raised by five conditions, and what the tests on them answer. *)
Definition flags (c1 c2 c3 c4 c5 : bool) : HealthIssues.t :=
  HealthIssues.raise c5 HealthIssues.POTENTIAL_LEAK
    (HealthIssues.raise c4 HealthIssues.CORRUPTION_DETECTED
       (HealthIssues.raise c3 HealthIssues.LOW_SUCCESS_RATE
          (HealthIssues.raise c2 HealthIssues.HIGH_FRAGMENTATION
             (HealthIssues.raise c1 HealthIssues.HIGH_MEMORY_USAGE HealthIssues.empty)))).

Lemma flags_spec c1 c2 c3 c4 c5 :
  let f := flags c1 c2 c3 c4 c5 in
  is_healthy f = negb (c1 || c2 || c3 || c4 || c5)
  ∧ HealthIssues.contains f HealthIssues.HIGH_MEMORY_USAGE = c1
  ∧ HealthIssues.contains f HealthIssues.HIGH_FRAGMENTATION = c2
  ∧ HealthIssues.contains f HealthIssues.LOW_SUCCESS_RATE = c3
  ∧ HealthIssues.contains f HealthIssues.CORRUPTION_DETECTED = c4
  ∧ HealthIssues.contains f HealthIssues.POTENTIAL_LEAK = c5.
Proof. by destruct c1, c2, c3, c4, c5. Qed.

Lemma health_text_lines (l : list (bool * list Z)) :
  health_text l
  = if existsb fst l
    then warn_line "Allocator health issues detected:" ++ mjoin ((λ f : bool * list Z, if f.1 then f.2 else []) <$> l)
    else format_args [Lit "Allocator health: GOOD"; Nl].
Proof.
  unfold health_text.
  assert (mjoin (snd <$> filter (λ f : bool * list Z, f.1 = true) l) = mjoin ((λ f : bool * list Z, if f.1 then f.2 else []) <$> l)) as <-.
  { induction l as [|[[] t] l IH]; [done| |].
    - rewrite filter_cons_True by done. by cbn [fmap list_fmap mjoin list_join fst snd]; f_equal.
    - rewrite filter_cons_False by done. exact IH. }
  destruct (filter _ l) as [|f fs] eqn:E.
  - destruct (existsb fst l) eqn:Ex; [|done]. apply existsb_exists in Ex as (f & Hf & Hb).
    assert (f ∈ filter (λ f : bool * list Z, f.1 = true) l) as Hin.
    { apply list_elem_of_filter. split; [done|]. by apply list_elem_of_In. }
    rewrite E in Hin. by apply elem_of_nil in Hin.
  - assert (f ∈ filter (λ f : bool * list Z, f.1 = true) l) as Hin by (rewrite E; elem).
    apply list_elem_of_filter in Hin as [Hb Hf]. rewrite (proj2 (existsb_exists fst l)); [done|].
    exists f. split; [by apply list_elem_of_In|done].
Qed.

Lemma print_report_spec c1 c2 c3 c4 c5 w :
  print_report (flags c1 c2 c3 c4 c5) w = Ret (tt, emit (health_text
    [ (c1, warn_line "  - High memory usage (>90%)"); (c2, warn_line "  - High fragmentation (>50%)");
      (c3, warn_line "  - Low allocation success rate (<95%)");
      (c4, error_line "  - Memory corruption detected!");
      (c5, warn_line "  - Potential memory leak detected") ]) w).
Proof.
  rewrite health_text_lines. unfold print_report.
  destruct (flags_spec c1 c2 c3 c4 c5) as (-> & -> & -> & -> & -> & ->).
  cbn [existsb fst snd fmap list_fmap]. rewrite orb_false_r, !orb_assoc.
  destruct (c1 || c2 || c3 || c4 || c5); cbn [negb]; [|by apply println_spec; repeat constructor].
  cbn [mjoin list_join]. rewrite emit_app.
  mstep_with ltac:(by apply warn_spec).
  do 4 (apply emit_if; [intros ?; coloured_line|intros ?]).
  rewrite app_nil_r. destruct c5; [coloured_line|done].
Qed.

(** The health report is exact.  Unless the counts of attempts overflow, the
    check of the allocator's health followed by its report returns, and the text
    it sends is one line per condition that holds, in a fixed order behind a
    heading, or the one line that says all is well: memory above 90 percent, a
    fragmentation estimate above 50 percent, fewer than 95 percent of more than
    a hundred attempts successful, a double free or corruption seen, over a
    thousand allocations not given back. *)
Theorem health_report_exact st (w : W) :
  0 ≤ AllocStats.total_allocs st + AllocStats.failed_allocs st < 2 ^ 64 →
  ∃ rate, AllocStats.success_rate st w = Ret (rate, w)
    ∧ (h ← check_health st; print_report h) w = Ret (tt, emit (health_text (health_findings st rate)) w).
Proof.
  intros Ht. assert (∃ rate, ∀ S (s : S), AllocStats.success_rate st s = Ret (rate, s)) as [rate E].
  { unfold AllocStats.success_rate.
    destruct (AllocStats.total_allocs st + AllocStats.failed_allocs st =? 0) eqn:Z0;
      eexists; intros S s; (mstep_with ltac:(by apply u64_add_ok)); rewrite Z0; reflexivity. }
  exists rate. split; [apply E|].
  mstep_with ltac:(unfold check_health; mstep_with ltac:(apply E); reflexivity).
  etransitivity; [apply (print_report_spec (90 <? AllocStats.usage_percent st)
    (50 <? AllocStats.fragmentation_estimate st) ((rate <? 95) && (100 <? AllocStats.total_allocs st))
    ((0 <? AllocStats.double_free_attempts st) || (0 <? AllocStats.corrupted_blocks st))
    ((AllocStats.total_frees st <? AllocStats.total_allocs st)
     && (1000 <? AllocStats.total_allocs st - AllocStats.total_frees st)))|].
  unfold health_findings. do 4 f_equal. do 5 f_equal. f_equal. destruct (Z.ltb_spec (AllocStats.total_frees st) (AllocStats.total_allocs st)); [done|].
  cbn [andb]. symmetry. apply Z.ltb_ge. lia.
Qed.

End health.

(** ** Erasing the output *)

(** A computation that does not use its state, whatever the state is. *)
Definition pure_as {S A} (m : M S A) (o : outcome A) : Prop :=
  ∀ s, m s = match o with Ret a => Ret (a, s) | Panic => Panic | Hang => Hang | Undef => Undef end.

(** Two instances of the same such computation. *)
Definition alike {S T A} (m : M S A) (m' : M T A) : Prop := ∃ o, pure_as m o ∧ pure_as m' o.

Section alike.
Context {P : Profile} {S T : Type}.

Lemma alike_ret {A} (a : A) : alike (mret a : M S A) (mret a : M T A).
Proof. by exists (Ret a). Qed.
Lemma alike_panic {A} : alike (panic : M S A) (panic : M T A).
Proof. by exists Panic. Qed.
Lemma alike_bind {A B} (m : M S A) (m' : M T A) (k : A → M S B) (k' : A → M T B) :
  alike m m' → (∀ a, alike (k a) (k' a)) → alike (m ≫= k) (m' ≫= k').
Proof.
  intros (o & H1 & H2) Hk. destruct o as [a| | |].
  - destruct (Hk a) as (o' & K1 & K2). exists o'. split; intros s; unfold mbind, M_bind; by rewrite ?H1, ?H2.
  - exists Panic. split; intros s; unfold mbind, M_bind; by rewrite ?H1, ?H2.
  - exists Hang. split; intros s; unfold mbind, M_bind; by rewrite ?H1, ?H2.
  - exists Undef. split; intros s; unfold mbind, M_bind; by rewrite ?H1, ?H2.
Qed.
Lemma alike_arith z : alike (arith (S := S) 64 z) (arith (S := T) 64 z).
Proof.
  destruct (arith_cases z) as [[E _]|(_ & _ & E)]; [exists (Ret (z mod 2 ^ 64))|exists Panic];
    by split; intros s; rewrite E.
Qed.
Lemma alike_arr_get {A} (l : list A) i : alike (arr_get (S := S) l i) (arr_get (S := T) l i).
Proof. unfold arr_get. repeat case_match; first [apply alike_ret|apply alike_panic]. Qed.
Lemma alike_for_range {A} lo hi (body : Z → A → M S A) (body' : Z → A → M T A) acc :
  (∀ k a, alike (body k a) (body' k a)) → alike (for_range lo hi body acc) (for_range lo hi body' acc).
Proof.
  intros Hb. unfold for_range. generalize (Z.to_nat (hi - lo)) as n. intros n. revert lo acc.
  induction n as [|n IH]; intros lo acc; cbn [for_n]; [apply alike_ret|].
  apply alike_bind; [apply Hb|]. intros a. apply IH.
Qed.

Lemma alike_size_where test i : alike (HandoverInfo.size_where (S := S) test i) (HandoverInfo.size_where (S := T) test i).
Proof.
  apply alike_for_range. intros k a. apply alike_bind; [apply alike_arr_get|]. intros b.
  case_match; [apply alike_arith|apply alike_ret].
Qed.
Lemma alike_group_by_purpose i : alike (HandoverInfo.group_by_purpose (S := S) i) (HandoverInfo.group_by_purpose (S := T) i).
Proof.
  apply alike_for_range. intros k a. apply alike_bind; [apply alike_arr_get|]. intros b.
  induction a as [|[[q n] t] a IH]; cbn [HandoverInfo.bump_group]; [apply alike_ret|]. case_match.
  - apply alike_bind; [apply alike_arith|]. intros n'. apply alike_bind; [apply alike_arith|]. intros. apply alike_ret.
  - apply alike_bind; [exact IH|]. intros. apply alike_ret.
Qed.
Lemma alike_check_health st : alike (check_health (S := S) st) (check_health (S := T) st).
Proof.
  unfold check_health. apply alike_bind; [|intros; apply alike_ret].
  apply alike_bind; [apply alike_arith|]. intros n. case_match; apply alike_ret.
Qed.

End alike.

Section erasure.
Context {P : Profile} {W : Type} `{!Firmware W}.
Implicit Types r : RState W.

Definition forget {A} (o : outcome (A * RState W)) : outcome (A * GState) :=
  match o with Ret (a, r) => Ret (a, kernel r) | Panic => Panic | Hang => Hang | Undef => Undef end.

(** Without its output the report [m] is [m']. *)
Definition erases {A} (m : M (RState W) A) (m' : M GState A) : Prop :=
  ∀ r, typed (kernel r) → forget (m r) = m' (kernel r).

Lemma erases_bind {A B} `{!Typed A} (m : M (RState W) A) m' (k : A → M (RState W) B) k' :
  erases m m' → well_typed m' → (∀ a, typed a → erases (k a) (k' a)) → erases (m ≫= k) (m' ≫= k').
Proof.
  intros Hm Hw Hk r Hr. specialize (Hm r Hr). unfold mbind, M_bind.
  destruct (m r) as [[a r']| | |]; cbn [forget] in Hm; rewrite <- Hm; try done.
  symmetry in Hm. destruct (Hw _ _ _ Hr Hm) as [Hr' Ha]. by apply Hk.
Qed.

Lemma erases_kernel {A} (m : M GState A) : erases (on_kernel m) m.
Proof. intros r _. unfold on_kernel, zoom. by destruct (m (kernel r)) as [[]| | |]. Qed.

(** Printing erases to nothing. *)
Lemma erases_print {A} (m : M W unit) (k : M (RState W) A) k' :
  returns m → erases k k' → erases (on_console m;; k) k'.
Proof.
  intros Hm Hk [g w] Hr. destruct (Hm w) as [w' E].
  etransitivity; [|apply (Hk (mkR g w') Hr)]. unfold on_console, zoom, mbind, M_bind. cbn [console]. by rewrite E.
Qed.
Lemma erases_last (m : M W unit) : returns m → erases (on_console m) (mret tt).
Proof.
  intros Hm [g w] Hr. destruct (Hm w) as [w' E]. unfold on_console, zoom. cbn [console]. by rewrite E.
Qed.

Lemma erases_alike {A} (m : M (RState W) A) (m' : M GState A) : alike m m' → erases m m'.
Proof. intros (o & H1 & H2) r _. rewrite H1, H2. by destruct o. Qed.

Lemma print_summary_returns st : typed st → returns (AllocStats_print_summary st).
Proof.
  intros [H _]. repeat match goal with H : Forall _ (_ :: _) |- _ => inversion_clear H end.
  unfold AllocStats_print_summary. returns.
Qed.

Lemma print_report_returns issues : returns (print_report issues).
Proof. unfold print_report. returns. Qed.

(** A read whose value is only printed. *)
Lemma erases_read {A B} (f : GState → A) (k : A → M (RState W) B) k' :
  (∀ a, erases (k a) k') → erases (on_kernel (gets f) ≫= k) k'.
Proof. intros Hk [g w] Hr. exact (Hk (f g) (mkR g w) Hr). Qed.

Lemma print_status_erases : erases print_status Api.print_status.
Proof.
  unfold print_status, Api.print_status, Api.is_initialized, Api.is_enabled.
  apply erases_bind; [apply erases_kernel|by apply wt_gets|]. intros i _.
  destruct i; cbn [negb]; [|apply erases_last; returns].
  apply erases_print; [returns|]. apply erases_read. intros i. apply erases_print; [returns|].
  apply erases_read. intros e. apply erases_print; [returns|].
  apply erases_bind; [apply erases_kernel|apply wt_api_stats|]. intros st Hst. apply erases_bind.
  - destruct st as [st|]; [|by intros r _].
    apply erases_print; [by apply print_summary_returns|].
    apply (erases_bind (Typed0 := λ _, True)); [apply erases_alike, alike_check_health|apply wt_check_health|].
    intros h _. apply erases_last, print_report_returns.
  - destruct st; [|by apply wt_ret].
    apply (wt_bind (H := λ _, True)); [apply wt_check_health|]. intros. by apply wt_ret.
  - intros _ _. apply erases_bind; [apply erases_kernel|apply wt_api_integrity_check|].
    intros [|err] _; apply erases_last; returns.
Qed.

(** The same inside one report on the console. *)
Lemma erases_console_print (m k : M W unit) (k' : M GState unit) :
  returns m → erases (on_console k) k' → erases (on_console (m;; k)) k'.
Proof.
  intros Hm Hk [g w] Hr. destruct (Hm w) as [w' E].
  etransitivity; [|apply (Hk (mkR g w') Hr)]. unfold on_console, zoom, mbind, M_bind. cbn [console]. by rewrite E.
Qed.

Lemma erases_console_bind {A} `{!Typed A} (m : M W A) (m' : M GState A) (k : A → M W unit) k' :
  alike m m' → well_typed m' → (∀ a, typed a → erases (on_console (k a)) (k' a)) →
  erases (on_console (m ≫= k)) (m' ≫= k').
Proof.
  intros (o & H1 & H2) Hw Hk [g w] Hr. specialize (H2 g). unfold mbind, M_bind. cbn [kernel].
  unfold on_console, zoom. cbn [console kernel]. rewrite H1, H2. destruct o as [a| | |]; [|done..].
  destruct (Hw g a g Hr H2) as [_ Ha]. exact (Hk a Ha (mkR g w) Hr).
Qed.

Lemma erases_console_assoc {A B} (m : M W A) (f : A → M W B) (k : B → M W unit) k' :
  erases (on_console (m ≫= λ a, f a ≫= k)) k' → erases (on_console ((m ≫= f) ≫= k)) k'.
Proof.
  intros H r Hr. rewrite <-(H r Hr). unfold on_console, zoom, mbind, M_bind.
  by destruct (m (console r)) as [[]| | |].
Qed.

Lemma print_groups_returns (groups : list (AllocPurpose.t * Z * Z)) : typed groups → returns (print_groups groups).
Proof.
  induction 1 as [|[[p n] t] groups [[_ Hn] Ht] H IH]; cbn [print_groups]; returns; exact IH.
Qed.

Lemma HandoverInfo_print_summary_erases i :
  typed i → erases (on_console (HandoverInfo_print_summary i)) (print_summary i).
Proof.
  intros Hi. pose proof Hi as (? & ? & ? & ? & [Hst _] & ? & ? & ? & (? & ? & ? & ? & ? & ? & ?) & ?).
  repeat match goal with H : Forall _ (_ :: _) |- _ => inversion_clear H end.
  unfold HandoverInfo_print_summary, print_summary, HandoverInfo.heap_size, HandoverInfo.allocated_size,
    HandoverInfo.critical_size, HandoverInfo.reclaimable_size, HandoverInfo.movable_size.
  repeat first
    [ apply erases_console_print; [solve [returns]|]
    | apply erases_console_print; [by apply print_groups_returns|]
    | apply erases_console_bind;
        [first [apply alike_arith|apply alike_size_where|apply alike_group_by_purpose]
        |first [apply wt_arith|by apply wt_size_where|by apply wt_group_by_purpose]|
         let H := fresh "Hv" in intros ? H; try change (in_u64 _) in H] ].
  apply erases_last. returns.
Qed.

Lemma MemoryInfo_print_returns total used free i e na nf :
  in_u64 total → in_u64 free → in_u64 na → in_u64 nf → 0 ≤ used * 100 < 2 ^ 64 →
  returns (MemoryInfo_print (MemoryInfo.mk total used free i e na nf)).
Proof.
  intros Ht Hf Hna Hnf Hu. assert (in_u64 used) as Hu' by (unfold in_u64; lia).
  unfold MemoryInfo_print.
  cbn [MemoryInfo.total_size MemoryInfo.used_size MemoryInfo.free_size MemoryInfo.allocation_count
       MemoryInfo.deallocation_count MemoryInfo.allocator_initialized MemoryInfo.allocator_enabled].
  do 2 (apply returns_seq; [returns|]). intros w.
  assert (∃ u, (if 0 <? total then u ← arith 64 (used * 100); mret (u / total) else mret 0) w = Ret (u, w) ∧ in_u64 u)
    as (u & E & Hv).
  { destruct (Z.ltb_spec 0 total); [|by exists 0]. exists (used * 100 / total). split.
    - mstep_with ltac:(by apply arith_ok). reflexivity.
    - split; [apply Z.div_pos; lia|]. apply Z.div_lt_upper_bound; nia. }
  assert (returns (W := W) (
    println [Lit "  Used:  "; Dec (used / 1024); Lit " KB ("; Dec u; Lit "%)"];;
    println [Lit "  Free:  "; Dec (free / 1024); Lit " KB"];;
    println [Lit "  Allocator: Initialized ("; Bool i; Lit "), Enabled ("; Bool e; Lit ")"];;
    println [Lit "  Operations: "; Dec na; Lit " allocs, "; Dec nf; Lit " deallocs"];;
    println [Lit "================================="])) as Hrest by returns.
  destruct (Hrest w) as [w' Ew]. exists w'. by mstep_with ltac:(exact E).
Qed.

Lemma print_detailed_returns st :
  typed st → 0 ≤ AllocStats.total_allocs st + AllocStats.failed_allocs st < 2 ^ 64 →
  returns (AllocStats_print_detailed st).
Proof.
  intros [H _] Ha. repeat match goal with H : Forall _ (_ :: _) |- _ => inversion_clear H end.
  assert (∃ rate, in_u8 rate ∧ ∀ w : W, AllocStats.success_rate st w = Ret (rate, w)) as (rate & Hr & E).
  { unfold AllocStats.success_rate.
    destruct (AllocStats.total_allocs st + AllocStats.failed_allocs st =? 0) eqn:Z0;
      eexists; (split; [|intros w; (mstep_with ltac:(by apply u64_add_ok)); rewrite Z0; reflexivity]);
      [done|apply to_u8_range]. }
  unfold AllocStats_print_detailed. do 14 (apply returns_seq; [solve [returns]|]).
  intros w. unfold mbind at 1, M_bind at 1. rewrite E. revert w.
  match goal with |- ∀ w, ∃ w', ?m w = _ => change (returns m) end. returns.
Qed.

End erasure.

(** ** Concrete reports *)

Module ReportDemo.

(** A full heap on which a double free was tried. *)
Definition bad : AllocStats.t :=
  AllocStats.mk 1000 950 50 20 3 200 180 20 1 0 64 16 32 4 5 4 960 10 0.

End ReportDemo.

Lemma health_report_exact_witness :
  ∃ rate, AllocStats.success_rate (P := Dev) ReportDemo.bad FwDemo.off = Ret (rate, FwDemo.off) ∧ rate = 90
    ∧ (h ← check_health (P := Dev) ReportDemo.bad; print_report (P := Dev) h) FwDemo.off
      = Ret (tt, emit (warn_line "Allocator health issues detected:"
                       ++ warn_line "  - High memory usage (>90%)"
                       ++ warn_line "  - High fragmentation (>50%)"
                       ++ warn_line "  - Low allocation success rate (<95%)"
                       ++ error_line "  - Memory corruption detected!") FwDemo.off).
Proof.
  destruct (health_report_exact (P := Dev) ReportDemo.bad FwDemo.off) as (rate & E1 & E2); [vm_compute; split; congruence|].
  exists rate. split; [exact E1|]. assert (rate = 90) as Hr by (vm_compute in E1; congruence).
  split; [exact Hr|]. rewrite E2, Hr. vm_compute. reflexivity.
Defined.
