(* ===== verification/Messages.v ===== *)
(** * The messages of the allocator's interface

    Models the functions of [src/init/alloc/mod.rs] that write to the console as
    they are in the source, messages included, on the allocator's state next to
    the firmware that receives the text.  [AllocApi.v] has the same functions
    without their messages, which is what the theorems on the allocator are
    about; the theorem of this file shows that the messages make no difference to
    what the functions do. *)

From Stdlib Require Import ZArith Lia String.
From stdpp Require Import base option numbers sorting strings gmap list.
From S2P Require Import Prelude Memory Purpose Metadata Allocator HeapInv AllocSteps AllocOps Arrays Handover Examples GlobalAlloc AllocApi GlobalThms HandoverSnapshot TypeSafety Sbi Console Boot Reports.

Module Verbose.
Section api.
Context {P : Profile} {W : Type} `{!Firmware W}.
Context (info_layout : Layout) (info_bytes : HandoverInfo.t → list Z).

Definition info (args : list piece) : M (RState W) unit := on_console (info_print args).
Definition warn (args : list piece) : M (RState W) unit := on_console (warn_print args).
Definition error (args : list piece) : M (RState W) unit := on_console (error_print args).
Definition debug (line : Z) (args : list piece) : M (RState W) unit :=
  on_console (debug_print "src/init/alloc/mod.rs" line args).

Definition is_initialized : M (RState W) bool := on_kernel Api.is_initialized.
Definition is_enabled : M (RState W) bool := on_kernel Api.is_enabled.

Definition enable : M (RState W) unit :=
  on_kernel Api.enable;; debug 117 [Lit "Early allocator enabled"].
Definition disable : M (RState W) unit :=
  on_kernel Api.disable;; warn [Lit "Early allocator disabled"].

Definition init (hstart hsize : Z) : M (RState W) (result AllocError unit) :=
  i ← is_initialized;
  if i : bool then warn [Lit "Early allocator already initialized"];; mret (Err AlreadyInitialized)
  else if hstart =? 0 then error [Lit "Invalid heap start address: 0"];; mret (Err InvalidParameter)
  else if hsize <? 64 * 1024
  then error [Lit "Heap size too small: "; Dec hsize; Lit " bytes (minimum: 64KB)"];; mret (Err InvalidParameter)
  else if 1024 * 1024 * 1024 <? hsize
  then error [Lit "Heap size too large: "; Dec hsize; Lit " bytes (maximum: 1GB)"];; mret (Err InvalidParameter)
  else if negb (Z.land hstart 0xF =? 0)
  then error [Lit "Heap start address not aligned: 0x"; Hex hstart];; mret (Err InvalidAlignment)
  else
    match checked_add hstart hsize with
    | None => error [Lit "Heap address range overflow"];; mret (Err InvalidParameter)
    | Some hend =>
        if hend <=? hstart
        then error [Lit "Invalid heap range: start=0x"; Hex hstart; Lit ", end=0x"; Hex hend];;
             mret (Err InvalidParameter)
        else
          r ← on_kernel (TS_init hstart hsize);
          match r with
          | Err e =>
              error [Lit "Failed to initialize early allocator: "; Str (AllocError_debug e)];; mret (Err e)
          | Ok _ =>
              on_kernel (modify (set_initialized true));;
              info [Lit "Early allocator initialized successfully"];;
              info [Lit "  Start: 0x"; Hex hstart];;
              info [Lit "  Size:  "; Dec (hsize / 1024); Lit " KB ("; Dec hsize; Lit " bytes)"];;
              info [Lit "  End:   0x"; Hex hend];;
              c ← on_kernel TS_integrity_check;
              match c with
              | Err e =>
                  error [Lit "Post-initialization integrity check failed: "; Str (AllocError_debug e)];;
                  mret (Err e)
              | Ok _ =>
                  st ← on_kernel TS_stats;
                  match st with
                  | Some st =>
                      info [Lit "Initial heap state:"];;
                      info [Lit "  Available: "; Dec (AllocStats.free_size st / 1024); Lit " KB"];;
                      overhead ← usize_sub (AllocStats.total_size st) (AllocStats.free_size st);
                      info [Lit "  Overhead:  "; Dec overhead; Lit " bytes"];;
                      mret (Ok tt)
                  | None => mret (Ok tt)
                  end
              end
          end
    end.

Definition alloc (sz : Z) : M (RState W) (option Z) :=
  i ← is_initialized;
  if negb i then error [Lit "Early allocator not initialized"];; mret None
  else
    e ← is_enabled;
    if negb e
    then debug 140 [Lit "Allocation attempt while allocator disabled (size: "; Dec sz; Lit ")"];; mret None
    else if sz =? 0 then debug 145 [Lit "Zero-size allocation request"];; mret None
    else
      r ← on_kernel (TS_alloc_aligned sz 8);
      match r with
      | Some p => mret (Some p)
      | None => debug 152 [Lit "Allocation failed: size: "; Dec sz];; mret None
      end.

Definition alloc_aligned (sz align : Z) : M (RState W) (option Z) :=
  i ← is_initialized;
  if negb i then error [Lit "Early allocator not initialized"];; mret None
  else
    e ← is_enabled;
    if negb e then debug 173 [Lit "Aligned allocation attempt while allocator disabled"];; mret None
    else if (sz =? 0) || negb (is_power_of_two align)
    then debug 178 [Lit "Invalid aligned allocation parameters: size="; Dec sz; Lit ", align="; Dec align];;
         mret None
    else
      r ← on_kernel (TS_alloc_aligned sz align);
      match r with
      | Some p => mret (Some p)
      | None =>
          debug 185 [Lit "Aligned allocation failed: size: "; Dec sz; Lit ", align: "; Dec align];; mret None
      end.

Definition alloc_zeroed (sz : Z) : M (RState W) (option Z) :=
  r ← alloc sz;
  match r with
  | Some p =>
      on_kernel (on_machine (modify (with_mem (λ m, write_bytes (Z.to_nat sz) m p 0))));;
      mret (Some p)
  | None => mret None
  end.

Definition dealloc (p : Z) : M (RState W) unit :=
  i ← is_initialized;
  if negb i then error [Lit "Early allocator not initialized"]
  else
    match NonNull_new p with
    | None => warn [Lit "Attempt to deallocate null pointer"]
    | Some q =>
        r ← on_kernel (TS_dealloc q);
        match r with
        | Ok _ => mret tt
        | Err e => error [Lit "Deallocation failed: "; Str (AllocError_debug e); Lit ", ptr=0x"; Hex p]
        end
    end.

(** The two functions that report an unhealthy allocator. *)
Definition warn_health (text : string) : M (RState W) unit :=
  h ← on_kernel Api.health_check;
  match h with
  | Some health =>
      if negb (is_healthy health) then warn [Lit text];; on_console (print_report health) else mret tt
  | None => mret tt
  end.

Definition prepare_handover : M (RState W) (option (Z * HandoverInfo.t)) :=
  i ← is_initialized;
  if negb i then warn [Lit "Cannot prepare handover: allocator not initialized"];; mret None
  else
    info [Lit "Preparing allocator handover..."];;
    c ← on_kernel Api.integrity_check;
    (match c with
     | Ok _ => mret tt
     | Err e => error [Lit "Pre-handover integrity check failed: "; Str (AllocError_debug e)]
     end);;
    warn_health "Handover preparation: allocator health issues detected";;
    b ← on_kernel (TS_prepare_handover info_layout info_bytes);
    match b with
    | Some (p, handover) =>
        v ← HandoverInfo.validate handover;
        match v with
        | Ok _ =>
            info [Lit "Handover information prepared and validated"];;
            on_console (HandoverInfo_print_summary handover);;
            mret (Some (p, handover))
        | Err e =>
            error [Lit "Handover validation failed: "; Str e];;
            on_kernel (EarlyBox_drop p info_layout);;
            mret None
        end
    | None => error [Lit "Failed to prepare handover information"];; mret None
    end.

Definition freeze : M (RState W) (result AllocError unit) :=
  i ← is_initialized;
  if negb i then mret (Err NotInitialized)
  else
    info [Lit "Freezing early allocator..."];;
    print_status;;
    r ← on_kernel TS_freeze;
    match r with
    | Ok _ => disable;; info [Lit "Early allocator frozen and disabled"];; mret (Ok tt)
    | Err e => error [Lit "Failed to freeze allocator: "; Str (AllocError_debug e)];; mret (Err e)
    end.

Definition emergency_reclaim : M (RState W) Z :=
  i ← is_initialized;
  if negb i then error [Lit "Cannot perform emergency reclaim: allocator not initialized"];; mret 0
  else
    warn [Lit "Performing emergency memory reclaim..."];;
    on_kernel Api.stats;;
    b ← on_kernel (TS_prepare_handover info_layout info_bytes);
    match b with
    | Some (p, handover) =>
        r ← HandoverInfo.reclaimable_size handover;
        if 0 <? r
        then warn [Lit "Found "; Dec (r / 1024); Lit " KB of potentially reclaimable memory"];;
             on_kernel (EarlyBox_drop p info_layout);;
             mret r
        else on_kernel (EarlyBox_drop p info_layout);;
             warn [Lit "No reclaimable memory found"];;
             mret 0
    | None => warn [Lit "No reclaimable memory found"];; mret 0
    end.

Definition maintenance : M (RState W) (result AllocError unit) :=
  i ← is_initialized;
  if negb i then mret (Err NotInitialized)
  else
    debug 469 [Lit "Running allocator maintenance..."];;
    c ← on_kernel Api.integrity_check;
    match c with
    | Err e => mret (Err e)
    | Ok _ =>
        warn_health "Maintenance: health issues detected";;
        debug 488 [Lit "Allocator maintenance completed"];;
        mret (Ok tt)
    end.

(** The report owns the box and drops it. *)
Definition print_debug_info : M (RState W) unit :=
  i ← is_initialized;
  if negb i then error [Lit "Early allocator not initialized"]
  else
    on_console (println [Lit "=== Early Allocator Debug Information ==="]);;
    st ← on_kernel Api.stats;
    (match st with Some st => on_console (AllocStats_print_detailed st) | None => mret tt end);;
    h ← prepare_handover;
    (match h with
     | Some (p, info) => print_detailed_report info;; on_kernel (EarlyBox_drop p info_layout)
     | None => mret tt
     end);;
    on_console (println [Lit "=========================================="]).

(** The two macros. *)
Definition warn_purpose (p : Z) (pu : AllocPurpose.t) : M (RState W) unit :=
  r ← on_kernel (Api.set_purpose p pu);
  match r with
  | Ok _ => mret tt
  | Err e => warn [Lit "Failed to set allocation purpose: "; Str (AllocError_debug e)]
  end.

Definition alloc_with_purpose (sz : Z) (pu : AllocPurpose.t) : M (RState W) (option Z) :=
  r ← alloc sz;
  match r with
  | Some p => warn_purpose p pu;; mret (Some p)
  | None => mret None
  end.

Definition alloc_zeroed_with_purpose (sz : Z) (pu : AllocPurpose.t) : M (RState W) (option Z) :=
  r ← alloc_zeroed sz;
  match r with
  | Some p => warn_purpose p pu;; mret (Some p)
  | None => mret None
  end.

End api.
End Verbose.

(** ** What is left without the messages *)

Section erasure.
Context {P : Profile} {W : Type} `{!Firmware W}.
Context (info_layout : Layout) (info_bytes : HandoverInfo.t → list Z).

Lemma alike_search_range {S T A} lo hi (body : Z → M S (option A)) (body' : Z → M T (option A)) :
  (∀ i, alike (body i) (body' i)) → alike (search_range lo hi body) (search_range lo hi body').
Proof.
  intros H. unfold search_range. generalize (Z.to_nat (hi - lo)) as n. intros n. revert lo.
  induction n as [|n IH]; intros lo; cbn [search_n]; [apply alike_ret|].
  apply alike_bind; [apply H|]. intros [a|]; [apply alike_ret|apply IH].
Qed.

Lemma alike_validate {S T} i : alike (HandoverInfo.validate (S := S) i) (HandoverInfo.validate (S := T) i).
Proof.
  unfold HandoverInfo.validate. do 4 (case_match; [apply alike_ret|]).
  apply alike_bind.
  { apply alike_for_range. intros k a. apply alike_bind; [apply alike_arr_get|]. intros b. apply alike_ret. }
  intros c. case_match; [apply alike_ret|]. apply alike_bind.
  { apply alike_search_range. intros k. apply alike_bind; [apply alike_arr_get|]. intros b.
    case_match; [apply alike_ret|]. apply alike_bind; [apply alike_arith|]. intros e. apply alike_ret. }
  intros [|]; [apply alike_ret|]. apply alike_bind.
  { do 2 (apply alike_search_range; intros ?). do 2 (apply alike_bind; [apply alike_arr_get|intros ?]).
    apply alike_bind; [|intros ?; apply alike_ret]. unfold AllocatedBlock.overlaps_with.
    apply alike_bind; [apply alike_arith|]. intros e. case_match; [|apply alike_ret].
    apply alike_bind; [apply alike_arith|]. intros ?. apply alike_ret. }
  intros [|]; [apply alike_ret|]. apply alike_bind; [apply alike_size_where|]. intros n. case_match; apply alike_ret.
Qed.

Lemma forget_Ret {A} (o : outcome (A * RState W)) a g :
  forget o = Ret (a, g) → ∃ r, o = Ret (a, r) ∧ kernel r = g.
Proof. destruct o as [[x r]| | |]; cbn; try done. intros [= <- <-]. by exists r. Qed.

(** A function on the kernel's state that ends by handing on its result. *)
Lemma erases_tail {A} (m : M (RState W) A) (m' : M GState A) : erases m (m' ≫= mret) → erases m m'.
Proof. intros H r Hr. rewrite (H r Hr). apply bind_ret_r. Qed.

Lemma erases_ret {A} (a : A) : erases (W := W) (mret a) (mret a).
Proof. by intros r _. Qed.

#[local] Hint Resolve wt_TS_init wt_TS_integrity_check wt_TS_stats wt_TS_alloc_aligned wt_TS_dealloc wt_TS_freeze
  wt_api_stats wt_api_integrity_check wt_health_check wt_print_status wt_api_alloc wt_api_alloc_zeroed
  wt_TS_prepare_handover wt_set_enabled wt_set_initialized : typed.
#[local] Hint Extern 1 (well_typed (gets _)) => by apply wt_gets : typed.

#[local] Hint Extern 1 (well_typed Api.disable) => apply wt_set_enabled : typed.

Create HintDb erases.
#[local] Hint Resolve print_status_erases : erases.

(** Follow the two versions of a function in step. *)
Ltac erase :=
  lazymatch goal with
  | |- erases (on_console _ ≫= _) _ => apply erases_print; [returns|erase]
  | |- erases (mret _) (mret _) => apply erases_ret
  | |- erases (on_console _) (mret ?a) => destruct a; apply erases_last; returns
  | |- erases (on_kernel _) _ => apply erases_kernel
  | |- erases (on_kernel _ ≫= _) (_ ≫= _) =>
      apply erases_bind; [apply erases_kernel|auto with typed|intros ? ?; erase]
  | |- erases (on_kernel _ ≫= _) _ => apply erases_tail; erase
  | |- erases (usize_sub _ _ ≫= _) (_ ≫= _) =>
      apply erases_bind; [apply erases_alike, alike_arith|apply wt_arith|intros ? ?; erase]
  | |- erases (_ ≫= _) (_ ≫= _) =>
      try (apply erases_bind; [solve [auto with erases]|auto with typed|intros ? ?; erase])
  | |- erases (match ?x with _ => _ end) (match ?x with _ => _ end) => destruct x eqn:?; erase
  | |- erases (match ?x with _ => _ end) (mret _) => destruct x eqn:?; erase
  | |- _ => idtac
  end.
Ltac speak :=
  unfold Verbose.info, Verbose.warn, Verbose.error, Verbose.debug, Verbose.is_initialized, Verbose.is_enabled,
    Api.is_initialized, Api.is_enabled.

Lemma erases_enable : erases (W := W) Verbose.enable Api.enable.
Proof. unfold Verbose.enable, Api.enable. speak. erase. Qed.
Lemma erases_disable : erases (W := W) Verbose.disable Api.disable.
Proof. unfold Verbose.disable, Api.disable. speak. erase. Qed.

Lemma erases_alloc sz : in_u64 sz → erases (W := W) (Verbose.alloc sz) (Api.alloc sz).
Proof.
  intros Hsz. unfold Verbose.alloc, Api.alloc. speak. erase.
Qed.

Lemma erases_alloc_aligned sz al :
  in_u64 sz → in_u64 al → erases (W := W) (Verbose.alloc_aligned sz al) (Api.alloc_aligned sz al).
Proof. intros Hsz Hal. unfold Verbose.alloc_aligned, Api.alloc_aligned. speak. erase. Qed.

Lemma erases_alloc_zeroed sz : in_u64 sz → erases (W := W) (Verbose.alloc_zeroed sz) (Api.alloc_zeroed sz).
Proof.
  intros Hsz. unfold Verbose.alloc_zeroed, Api.alloc_zeroed.
  apply erases_bind; [by apply erases_alloc|apply wt_api_alloc|]. intros [p|] Hp; [|apply erases_ret].
  apply erases_bind; [apply erases_kernel|apply wt_on_machine, wt_write_bytes|]. intros [] _. apply erases_ret.
Qed.

Lemma erases_dealloc p : in_u64 p → erases (W := W) (Verbose.dealloc p) (Api.dealloc p).
Proof. intros Hp. unfold Verbose.dealloc, Api.dealloc. speak. erase. Qed.

Lemma checked_add_range a n z : in_u64 a → in_u64 n → checked_add a n = Some z → in_u64 z.
Proof. unfold checked_add, in_u64. intros Ha Hn. case_match; [|done]. intros [= <-]. b2p. lia. Qed.

Lemma stats_free_range st : typed st → in_u64 (AllocStats.free_size st).
Proof. intros [H _]. by repeat match goal with H : Forall _ (_ :: _) |- _ => inversion_clear H end. Qed.

Lemma erases_init a n : in_u64 a → in_u64 n → erases (W := W) (Verbose.init a n) (Api.init a n).
Proof.
  intros Ha Hn. unfold Verbose.init, Api.init. speak.
  erase.
  1,2: by apply short_usize, (checked_add_range a n).
  by apply short_kb, stats_free_range.
Qed.

#[local] Hint Resolve erases_disable : erases.

Lemma erases_freeze : erases (W := W) Verbose.freeze Api.freeze.
Proof.
  unfold Verbose.freeze, Api.freeze. speak. erase.
Qed.

Lemma erases_warn_health {A} text (k : M (RState W) A) k' :
  Z.of_nat (String.length text) < 2 ^ 63 → erases k k' →
  erases (Verbose.warn_health text;; k) (Api.health_check;; k').
Proof.
  intros Ht Hk. unfold Verbose.warn_health. speak.
  assert (returns (W := W) (warn_print [Lit text])) as Hw
    by (apply returns_tagged; [apply Forall_cons_2; [done|apply Forall_nil_2]|by vm_compute]).
  intros r Hr. rewrite bind_assoc. revert r Hr.
  apply (erases_bind (Typed0 := @Typed_option _ Typed_health)); [apply erases_kernel|apply wt_health_check|].
  intros [h|] _; [|exact Hk]. case_match; [|exact Hk].
  intros r Hr. rewrite bind_assoc. revert r Hr.
  apply erases_print; [done|]. apply erases_print; [apply print_report_returns|done].
Qed.

Lemma erases_maintenance : erases (W := W) Verbose.maintenance Api.maintenance.
Proof.
  unfold Verbose.maintenance, Api.maintenance. speak. erase.
  apply erases_warn_health; [by vm_compute|]. erase.
Qed.

Lemma erases_skip {A} (k : M (RState W) A) k' : erases k k' → erases (mret tt;; k) k'.
Proof. done. Qed.

(** The end of [prepare_handover], with the box made. *)
Lemma erases_checked_handover p i :
  typed i →
  erases (W := W)
    (v ← HandoverInfo.validate i;
     match v with
     | Ok _ =>
         Verbose.info [Lit "Handover information prepared and validated"];;
         on_console (HandoverInfo_print_summary i);;
         mret (Some (p, i))
     | Err e =>
         Verbose.error [Lit "Handover validation failed: "; Str e];;
         on_kernel (EarlyBox_drop p info_layout);;
         mret None
     end)
    (v ← HandoverInfo.validate i;
     match v with
     | Ok _ => print_summary i;; mret (Some (p, i))
     | Err _ => EarlyBox_drop p info_layout;; mret None
     end).
Proof.
  intros Hi. speak. apply erases_bind; [apply erases_alike, alike_validate|by apply wt_validate|].
  intros [u|e] He.
  - apply erases_print; [returns|].
    apply erases_bind; [by apply HandoverInfo_print_summary_erases|by apply wt_print_summary|]. intros u' _. apply erases_ret.
  - apply erases_print; [apply returns_tagged; [printable; exact He|by vm_compute]|].
    apply erases_bind; [apply erases_kernel|apply wt_EarlyBox_drop|]. intros u' _. apply erases_ret.
Qed.

Lemma erases_prepare_handover :
  erases (W := W) (Verbose.prepare_handover info_layout info_bytes) (Api.prepare_handover info_layout info_bytes).
Proof.
  unfold Verbose.prepare_handover, Api.prepare_handover. speak. erase.
  match goal with |- erases (_ ≫= (λ _, ?m)) ?m' => assert (erases m m') as Hm end.
  { apply erases_warn_health; [by vm_compute|].
    apply erases_bind; [apply erases_kernel|by apply wt_TS_prepare_handover|].
    intros [[p i]|] Hb; [apply erases_checked_handover; apply Hb|]. apply erases_print; [returns|apply erases_ret]. }
  destruct a0 as [u|e]; [by apply erases_skip|]. apply erases_print; [returns|exact Hm].
Qed.

Lemma erases_emergency_reclaim :
  erases (W := W) (Verbose.emergency_reclaim info_layout info_bytes) (Api.emergency_reclaim info_layout info_bytes).
Proof.
  unfold Verbose.emergency_reclaim, Api.emergency_reclaim. speak. erase.
  apply erases_bind; [apply erases_alike, alike_size_where|by apply wt_reclaimable_size, H1|].
  intros r Hr. destruct (0 <? r).
  - apply erases_print; [returns|]. apply erases_bind; [apply erases_kernel|apply wt_EarlyBox_drop|].
    intros u _. apply erases_ret.
  - apply erases_bind; [apply erases_kernel|apply wt_EarlyBox_drop|].
    intros u _. apply erases_print; [returns|apply erases_ret].
Qed.

Lemma wt_api_set_purpose p pu : well_typed (Api.set_purpose p pu).
Proof. unfold Api.set_purpose, Api.is_initialized. keep. Qed.

Lemma erases_warn_purpose {A} p pu (k : M (RState W) A) k' :
  erases k k' → erases (Verbose.warn_purpose p pu;; k) (Api.set_purpose p pu;; k').
Proof.
  intros Hk r Hr. unfold Verbose.warn_purpose. rewrite bind_assoc. revert r Hr. speak.
  apply erases_bind; [apply erases_kernel|apply wt_api_set_purpose|]. intros [u|e] _; [exact Hk|].
  apply erases_print; [returns|done].
Qed.

Lemma erases_with_purpose pu (m : M (RState W) (option Z)) m' :
  erases m m' → well_typed m' →
  erases (r ← m; match r with Some p => Verbose.warn_purpose p pu;; mret (Some p) | None => mret None end)
    (r ← m'; match r with Some p => Api.set_purpose p pu;; mret (Some p) | None => mret None end).
Proof.
  intros Hm Hw. apply erases_bind; [done|done|]. intros [p|] _; [|apply erases_ret].
  apply erases_warn_purpose, erases_ret.
Qed.

(** What hangs without messages hangs with them. *)
Lemma erases_Hang {A} (m : M (RState W) A) m' r : erases m m' → typed (kernel r) → m' (kernel r) = Hang → m r = Hang.
Proof. intros H Hr E. specialize (H r Hr). rewrite E in H. by destruct (m r) as [[]| | |]. Qed.

Lemma verbose_prepare_handover_hangs N g s bs (w : W) :
  heap_ready N g s bs → 2 * N < 2 ^ 64 → initialized g = true → layout_ok info_layout → typed g →
  Verbose.prepare_handover info_layout info_bytes (mkR g w) = Hang.
Proof.
  intros R HN Hi Hl Hg. eapply erases_Hang; [apply erases_prepare_handover|done|].
  by eapply (prepare_handover_hangs N).
Qed.

Lemma ready_stats_typed N g s bs : heap_ready N g s bs → typed g → typed (stats (self s)).
Proof. intros ([_ Hin _] & _) [Hg _]. rewrite Hin in Hg. by destruct Hg as (_ & _ & _ & ? & _). Qed.

(** It asks for a handover, so on an initialised heap it prints the statistics
    and then spins on the allocator's lock for ever. *)
Theorem print_debug_info_deadlocks N g s bs (w : W) :
  heap_ready N g s bs → 2 * N < 2 ^ 64 → initialized g = true → layout_ok info_layout → typed g →
  Verbose.print_debug_info info_layout info_bytes (mkR g w) = Hang.
Proof.
  intros R HN Hi Hl Hg.
  assert (typed (stats (self s))) as Ht by (by eapply ready_stats_typed).
  pose proof R as (Hh & _ & [H1 _ H3 _ _ _ _ _ _]).
  unfold Verbose.print_debug_info, Verbose.is_initialized, Api.is_initialized. mstep. cbn [kernel negb console]. rewrite Hi. cbn [negb].
  destruct (returns_println [Lit "=== Early Allocator Debug Information ==="] ltac:(printable) w) as [w1 E1].
  mstep_with ltac:(apply zoom_Ret; exact E1). cbn [kernel].
  mstep_with ltac:(apply zoom_Ret; by apply (api_stats_run g s)). cbn [kernel console].
  destruct (print_detailed_returns _ Ht ltac:(lia) w1) as [w2 E2].
  mstep_with ltac:(apply zoom_Ret; exact E2). cbn [kernel console]. apply bind_Hang.
  by eapply verbose_prepare_handover_hangs.
Qed.

(** The messages of the interface make no difference.  Every function listed here
    of the allocator's module that writes to the console, run as it is in the source, has
    the result and the effect on the kernel of the function without its messages:
    no message panics or hangs, whatever the state, and the functions that stop or
    panic without messages do so with them. *)
Theorem messages_erase :
  (∀ a n, in_u64 a → in_u64 n → erases (W := W) (Verbose.init a n) (Api.init a n))
  ∧ (∀ sz, in_u64 sz → erases (W := W) (Verbose.alloc sz) (Api.alloc sz))
  ∧ (∀ sz al, in_u64 sz → in_u64 al → erases (W := W) (Verbose.alloc_aligned sz al) (Api.alloc_aligned sz al))
  ∧ (∀ sz, in_u64 sz → erases (W := W) (Verbose.alloc_zeroed sz) (Api.alloc_zeroed sz))
  ∧ (∀ sz pu, in_u64 sz →
       erases (W := W) (Verbose.alloc_with_purpose sz pu) (Api.alloc_with_purpose sz pu)
       ∧ erases (W := W) (Verbose.alloc_zeroed_with_purpose sz pu) (Api.alloc_zeroed_with_purpose sz pu))
  ∧ (∀ p, in_u64 p → erases (W := W) (Verbose.dealloc p) (Api.dealloc p))
  ∧ erases (W := W) print_status Api.print_status
  ∧ (∀ i, typed i → erases (W := W) (on_console (HandoverInfo_print_summary i)) (print_summary i))
  ∧ erases (W := W) Verbose.enable Api.enable ∧ erases (W := W) Verbose.disable Api.disable
  ∧ erases (W := W) Verbose.freeze Api.freeze ∧ erases (W := W) Verbose.maintenance Api.maintenance
  ∧ erases (W := W) (Verbose.prepare_handover info_layout info_bytes) (Api.prepare_handover info_layout info_bytes)
  ∧ erases (W := W) (Verbose.emergency_reclaim info_layout info_bytes) (Api.emergency_reclaim info_layout info_bytes).
Proof.
  split_and!; [exact erases_init|exact erases_alloc|exact erases_alloc_aligned|exact erases_alloc_zeroed| |
    exact erases_dealloc|exact print_status_erases|exact HandoverInfo_print_summary_erases|exact erases_enable|exact erases_disable|exact erases_freeze|exact erases_maintenance|
    exact erases_prepare_handover|exact erases_emergency_reclaim].
  intros sz pu Hsz. split; apply erases_with_purpose.
  - by apply erases_alloc.
  - apply wt_api_alloc.
  - by apply erases_alloc_zeroed.
  - apply wt_api_alloc_zeroed.
Qed.

End erasure.

(** ** A concrete run *)

Lemma g_boot_typed : typed GlobalDemo.g_boot.
Proof. split; [exact I|]. split; [|split; split; by_eval]. split; [|split; by_eval]. apply map_Forall_empty. Qed.

Lemma messages_erase_witness :
  ∃ r, Verbose.init (P := Dev) 2151677952 65536 (mkR GlobalDemo.g_boot FwDemo.off) = Ret (Ok tt, r)
    ∧ initialized (kernel r) = true.
Proof.
  destruct (messages_erase (P := Dev) (W := FwDemo.t) GlobalDemo.box_layout (λ _, [])) as [H _].
  specialize (H 2151677952 65536 ltac:(split; by_eval) ltac:(split; by_eval) (mkR GlobalDemo.g_boot FwDemo.off) g_boot_typed).
  destruct (init_run (P := Dev) GlobalDemo.g_boot 2151677952 65536) as (g' & s & h & E & _ & _ & _ & _ & _ & Hi & _);
    [reflexivity|reflexivity|reflexivity|split; by_eval|by_eval|split_and!; by_eval|].
  destruct (forget_Ret _ _ _ (eq_trans H E)) as (r & Er & Hr).
  exists r. split; [exact Er|rewrite Hr; exact Hi].
Defined.
