(* ===== verification/System.v ===== *)
(** * Checking and stopping the system

    Models [verify_system_state_after_init] of [src/main.rs] and [shutdown],
    [reboot] and the panic handler of [src/lib.rs], with their console output,
    over the state of the whole system ([Boot.v]): the allocator, the trap system
    and the firmware. *)

From Stdlib Require Import ZArith Lia String.
From stdpp Require Import base option numbers sorting strings gmap list.
From S2P Require Import TrapSystem TrapTypes Prelude Memory Metadata Allocator HeapInv AllocSteps AllocOps Arrays Handover Examples GlobalAlloc AllocApi GlobalThms HandoverSnapshot TypeSafety Sbi Console Boot Reports Messages.

(** [PanicInfo]: where the panic was raised and with what message. *)
Record PanicInfo : Type := mkPanicInfo {
  location : option (string * Z);
  message : option string;
}.

Section system.
Context {P : Profile} {V W : Type} `{!Firmware W}.
Context (info_layout : Layout) (info_bytes : HandoverInfo.t → list Z).

Definition on_report {A} (m : M (RState W) A) : M (BState V W) A :=
  zoom (λ b, mkR (alloc b) (firmware b)) (λ r b, mkB (kernel r) (traps b) (console r)) m.

Definition info (args : list piece) : M (BState V W) unit := on_firmware (info_print args).
Definition warn (args : list piece) : M (BState V W) unit := on_firmware (warn_print args).
Definition error (args : list piece) : M (BState V W) unit := on_firmware (error_print args).

Definition verify_system_state_after_init : M (BState V W) unit :=
  info [Lit "Verifying system state post-initialization..."];;
  i ← on_alloc Api.is_initialized;
  if negb i then error [Lit "FATAL: Allocator failed to initialize properly!"];; panic
  else
    e ← on_alloc Api.is_enabled;
    (if negb e then warn [Lit "Allocator is initialized but not enabled."]
     else info [Lit "Allocator state: Initialized and Enabled."]);;
    t ← on_traps TS.is_initialized;
    if negb t then error [Lit "FATAL: Trap subsystem failed to initialize properly!"];; panic
    else
      info [Lit "Trap subsystem state: Initialized."];;
      memory_info ← on_alloc get_memory_info;
      on_firmware (MemoryInfo_print memory_info);;
      h ← MemoryInfo.is_healthy memory_info;
      (if negb h then warn [Lit "Memory system health check reported issues post-init."]
       else info [Lit "Memory system health check: PASSED."]);;
      c ← on_alloc Api.integrity_check;
      (match c with
       | Ok _ => info [Lit "Allocator integrity check: PASSED."]
       | Err e => error [Lit "Allocator integrity check failed: "; Str (AllocError_debug e)];; panic
       end);;
      info [Lit "System state verification completed successfully."].

(** [-> !]: the model returns when the firmware has been told to stop. *)
Definition shutdown : M (BState V W) unit :=
  info [Lit "System Shutting Down..."];;
  i ← on_alloc Api.is_initialized;
  (if i : bool then
     h ← on_report (Verbose.prepare_handover info_layout info_bytes);
     (match h with
      | Some (p, handover) =>
          info [Lit "Final system state prepared for handover."];;
          on_firmware (HandoverInfo_print_summary handover);;
          on_alloc (EarlyBox_drop p info_layout)
      | None => mret tt
      end);;
     r ← on_report Verbose.freeze;
     (match r with
      | Ok _ => mret tt
      | Err e => error [Lit "Failed to freeze allocator: "; Str (AllocError_debug e)]
      end);;
     on_report print_status
   else mret tt);;
  info [Lit "Shutdown sequence completed. Calling SBI shutdown."];;
  on_firmware Sbi.shutdown.

Definition reboot : M (BState V W) unit :=
  info [Lit "System Rebooting..."];;
  i ← on_alloc Api.is_initialized;
  (if i : bool then
     r ← on_report Verbose.freeze;
     match r with
     | Ok _ => mret tt
     | Err e => warn [Lit "Failed to freeze allocator before reboot: "; Str (AllocError_debug e)]
     end
   else mret tt);;
  info [Lit "Reboot sequence initiated. Calling SBI reboot."];;
  on_firmware Sbi.reboot.

(** *** The panic handler *)

(** The closure it hands to the trap system. *)
Definition latch_panic_mode : M (TS.KState V) unit :=
  p ← TS.on_errors TS.EM.is_panic_mode;
  if negb p then TS.on_errors TS.EM.enter_panic_mode else mret tt.

Definition report_panic (panic_info : PanicInfo) : M W unit :=
  error_print [Lit "KERNEL PANIC!"];;
  (match location panic_info with
   | Some (file, line) => error_print [Lit "  Location: "; Str file; Lit ":"; Dec line]
   | None => mret tt
   end);;
  match message panic_info with
  | Some text => error_print [Lit "  Message: "; Str text]
  | None => error_print [Lit "  No panic message available."]
  end.

Definition report_memory : M (BState V W) unit :=
  i ← on_alloc Api.is_initialized;
  if i : bool then
    warn [Lit "Memory state at panic:"];;
    u ← on_alloc Api.usage_summary;
    (match u with
     | Some (total, used, free) =>
         error [Lit "  Total: "; Dec (total / 1024); Lit " KB, Used: "; Dec (used / 1024); Lit " KB, Free: ";
                Dec (free / 1024); Lit " KB"]
     | None => mret tt
     end);;
    st ← on_alloc Api.stats;
    match st with
    | Some st =>
        error [Lit "  Allocations: "; Dec (AllocStats.total_allocs st); Lit ", Deallocations: ";
               Dec (AllocStats.total_frees st)];;
        if 0 <? AllocStats.total_size st
        then error [Lit "  Usage: "; Dec (AllocStats.usage_percent st); Lit "%, Fragmentation: ";
                    Dec (AllocStats.fragmentation_estimate st); Lit "%"]
        else mret tt
    | None => mret tt
    end
  else error [Lit "  Allocator not initialized. Cannot report memory state."].

(** Up to the final [loop { wfi }]. *)
Definition panic_handler (panic_info : PanicInfo) : M (BState V W) unit :=
  on_traps (TS.on_hart (TS.csr_clear (Z.shiftl 1 1)));;
  on_firmware (report_panic panic_info);;
  t ← on_traps TS.is_initialized;
  (if t : bool then on_traps (TS.with_trap_system latch_panic_mode) else mret tt);;
  report_memory;;
  error [Lit "System halted."].

End system.

(** ** Reports in between *)

Section runs.
Context {P : Profile} {V W : Type} `{!Firmware W}.
Context (info_layout : Layout) (info_bytes : HandoverInfo.t → list Z).
Implicit Types b : BState V W.

(** Whatever a report prints, the rest runs with the allocator and the trap system
    as they were. *)
Lemma report_bind {A} (m : M W unit) (k : unit → M (BState V W) A) b :
  returns m → ∃ w, (on_firmware m ≫= k) b = k tt (mkB (alloc b) (traps b) w).
Proof.
  intros H. destruct (H (firmware b)) as [w E]. exists w. unfold mbind, M_bind, on_firmware, zoom. by rewrite E.
Qed.

Lemma report_last (m : M W unit) b :
  returns m → ∃ w, on_firmware m b = Ret (tt, mkB (alloc b) (traps b) w).
Proof. intros H. destruct (H (firmware b)) as [w E]. exists w. unfold on_firmware, zoom. by rewrite E. Qed.

Lemma on_report_Ret {A} (m : M (RState W) A) b a r :
  m (mkR (alloc b) (firmware b)) = Ret (a, r) → on_report m b = Ret (a, mkB (kernel r) (traps b) (console r)).
Proof. unfold on_report, zoom. by intros ->. Qed.

(** A function of the interface, messages included, by what it does without. *)
Lemma on_report_erases {A} (m : M (RState W) A) m' b a g :
  erases m m' → typed (alloc b) → m' (alloc b) = Ret (a, g) →
  ∃ w, on_report m b = Ret (a, mkB g (traps b) w).
Proof.
  intros Hm Ht E. specialize (Hm (mkR (alloc b) (firmware b)) Ht). cbn [kernel] in Hm. rewrite E in Hm.
  destruct (forget_Ret _ _ _ Hm) as (r & Er & Hr). exists (console r). rewrite (on_report_Ret _ _ _ _ Er). by rewrite Hr.
Qed.

(** [k] comes back, in a state that satisfies [Q]. *)
Definition arrives (k : M (BState V W) unit) b (Q : BState V W → Prop) : Prop :=
  ∃ b', k b = Ret (tt, b') ∧ Q b'.

Lemma arrives_step {A} (m : M (BState V W) A) (k : A → M (BState V W) unit) b a b1 Q :
  m b = Ret (a, b1) → arrives (k a) b1 Q → arrives (m ≫= k) b Q.
Proof. intros E (b' & Ek & HQ). exists b'. split; [|done]. by mstep_with ltac:(exact E). Qed.

Lemma arrives_seq (m k : M (BState V W) unit) b Q R :
  arrives m b R → (∀ b1, R b1 → arrives k b1 Q) → arrives (m;; k) b Q.
Proof. intros (b1 & E & HR) Hk. eapply arrives_step; [exact E|by apply Hk]. Qed.

Lemma arrives_last (m : M W unit) b (Q : BState V W → Prop) :
  returns m → (∀ w, Q (mkB (alloc b) (traps b) w)) → arrives (on_firmware m) b Q.
Proof.
  intros H HQ. destruct (H (firmware b)) as [w E]. eexists. split; [|apply (HQ w)].
  unfold on_firmware, zoom. by rewrite E.
Qed.

(** Whatever a report prints. *)
Lemma arrives_report (m : M W unit) (k : M (BState V W) unit) b Q :
  returns m → (∀ w, arrives k (mkB (alloc b) (traps b) w) Q) → arrives (on_firmware m;; k) b Q.
Proof.
  intros H Hk. destruct (H (firmware b)) as [w E]. eapply arrives_step; [|apply (Hk w)].
  unfold on_firmware, zoom. by rewrite E.
Qed.

(** A report whose text depends on a test. *)
Lemma arrives_choice (c : bool) (m m' : M W unit) (k : M (BState V W) unit) b Q :
  returns m → returns m' → (∀ w, arrives k (mkB (alloc b) (traps b) w) Q) →
  arrives ((if c then on_firmware m else on_firmware m');; k) b Q.
Proof. intros Hm Hm' Hk. destruct c; by apply arrives_report. Qed.

End runs.

Ltac say :=
  unfold info, warn, error;
  lazymatch goal with
  | |- context [(on_firmware ?m ≫= ?k) ?b] =>
      let w := fresh "w" in destruct (report_bind m k b) as [w ->]; [try solve [returns]|cbv beta; cbn [alloc traps]]
  end.

(** ** The check after initialisation *)

Section verify.
Context {P : Profile} {V W : Type} `{!Firmware W}.
Implicit Types b : BState V W.

Lemma verify_run N b s bs :
  heap_ready N (alloc b) s bs → typed (alloc b) → 0 ≤ AllocStats.used_size (stats (self s)) * 100 < 2 ^ 64 →
  initialized (alloc b) = true → TS.initialized (traps b) = true →
  arrives verify_system_state_after_init b (λ b', alloc b' = alloc b ∧ traps b' = traps b).
Proof.
  intros R Hg Hu Hi Ht. pose proof (ready_stats_typed _ _ _ _ R Hg) as Hst. destruct R as (Hh & I & _).
  assert (∀ i e, returns (W := W) (MemoryInfo_print (MemoryInfo.mk (AllocStats.total_size (stats (self s)))
    (AllocStats.used_size (stats (self s))) (AllocStats.free_size (stats (self s))) i e
    (AllocStats.total_allocs (stats (self s))) (AllocStats.total_frees (stats (self s)))))) as Hp.
  { intros i e. destruct Hst as [H _]. repeat match goal with H : Forall _ (_ :: _) |- _ => inversion_clear H end.
    by apply MemoryInfo_print_returns. }
  assert (∃ h, ∀ b0 : BState V W, MemoryInfo.is_healthy (MemoryInfo.mk (AllocStats.total_size (stats (self s)))
    (AllocStats.used_size (stats (self s))) (AllocStats.free_size (stats (self s))) true (enabled (alloc b))
    (AllocStats.total_allocs (stats (self s))) (AllocStats.total_frees (stats (self s)))) b0 = Ret (h, b0)) as [h Eh].
  { unfold MemoryInfo.is_healthy, MemoryInfo.usage_percent. cbn.
    destruct (AllocStats.total_size (stats (self s)) =? 0); eexists; intros b0; [by mstep|].
    mstep_with ltac:(mstep_with ltac:(by apply arith_ok); reflexivity). reflexivity. }
  unfold verify_system_state_after_init, info, warn, error.
  apply arrives_report; [returns|]. intros w1.
  eapply arrives_step; [by apply on_alloc_same|]. cbn [alloc]. rewrite Hi. cbn [negb].
  eapply arrives_step; [by apply on_alloc_same|]. apply arrives_choice; [returns|returns|]. intros w2. cbn [alloc traps].
  eapply arrives_step; [unfold on_traps; by apply zoom_Ret|]. cbn [alloc traps firmware]. rewrite Ht. cbn [negb].
  apply arrives_report; [returns|]. intros w3. cbn [alloc traps].
  eapply arrives_step; [apply on_alloc_same; by apply (get_memory_info_run _ s)|].
  apply arrives_report; [apply Hp|]. intros w4. cbn [alloc traps].
  eapply arrives_step; [apply Eh|]. apply arrives_choice; [returns|returns|]. intros w5. cbn [alloc traps].
  eapply arrives_step; [apply on_alloc_same; by apply (api_integrity_run _ s bs)|]. cbn iota.
  apply arrives_report; [returns|]. intros w6. apply arrives_last; [returns|]. by intros w7.
Qed.

(** On an initialised heap and trap system the check after initialisation passes
    and changes neither; it panics when either is missing.  Its health report is
    the condition on the statistics. *)
Theorem verify_system_state_correct N b s bs :
  heap_ready N (alloc b) s bs → typed (alloc b) →
  AllocStats.total_size (stats (self s)) = heap_end (self s) - heap_start (self s) →
  (heap_end (self s) - heap_start (self s)) * 100 < 2 ^ 64 →
  (initialized (alloc b) = true → TS.initialized (traps b) = true →
     arrives verify_system_state_after_init b (λ b', alloc b' = alloc b ∧ traps b' = traps b))
  ∧ (initialized (alloc b) = false ∨ TS.initialized (traps b) = false →
     verify_system_state_after_init b = Panic)
  ∧ (initialized (alloc b) = true →
     ∃ info, get_memory_info (alloc b) = Ret (info, alloc b)
       ∧ MemoryInfo.is_healthy info b = Ret (bool_decide (healthy (stats (self s))), b)).
Proof.
  intros R Hg Ht Hm. pose proof R as (Hh & I & _).
  pose proof (wf_stats _ _ (proj1 I)) as [Su _ _ _].
  pose proof (wf_end _ _ (proj1 I)). pose proof (bytes_total bs).
  pose proof (sums_nonneg bs (wf_ok _ _ (proj1 I))).
  assert (0 ≤ AllocStats.used_size (stats (self s)) ≤ AllocStats.total_size (stats (self s)))
    by (unfold HEADER_SIZE in *; lia).
  rewrite <- Ht in Hm. split_and!.
  - intros Hi Htr. apply (verify_run N b s bs); [done|done|lia|done|done].
  - intros Hn. unfold verify_system_state_after_init. say. mstep_with ltac:(by apply on_alloc_same). cbn [alloc].
    destruct (initialized (alloc b)) eqn:Hi; cbn [negb]; [|by say]. destruct Hn as [|Hn]; [done|].
    mstep_with ltac:(by apply on_alloc_same). cbn [alloc].
    destruct (enabled (alloc b)); cbn [negb]; say;
      (mstep_with ltac:(unfold on_traps; by apply zoom_Ret)); cbn [traps]; rewrite Hn; cbn [negb]; by say.
  - intros Hi. eexists. split; [by apply (get_memory_info_run _ s)|]. apply is_healthy_run; lia.
Qed.

End verify.

(** ** Shutdown and reboot *)

Section stop.
Context {P : Profile} {V W : Type} `{!Firmware W}.
Context (info_layout : Layout) (info_bytes : HandoverInfo.t → list Z).
Implicit Types b : BState V W.

(** The two firmware calls of [system_reset]. *)
Definition reset_calls (reset_type : Z) (w : W) : W :=
  legacy_shutdown (snd (ecall extension_ids.SRST 0 [reset_type; 0; 0; 0; 0; 0] w)).

Lemma system_reset_run reset_type b :
  on_firmware (system_reset reset_type RESET_REASON_NO_REASON) b
  = Ret (tt, mkB (alloc b) (traps b) (reset_calls reset_type (firmware b))).
Proof.
  unfold on_firmware, zoom, system_reset, sbi_call, reset_calls, RESET_REASON_NO_REASON, mbind, M_bind.
  by destruct (ecall _ _ _ _) as [[? ?] ?].
Qed.

Lemma arrives_reset reset_type b (Q : BState V W → Prop) :
  Q (mkB (alloc b) (traps b) (reset_calls reset_type (firmware b))) →
  arrives (on_firmware (system_reset reset_type RESET_REASON_NO_REASON)) b Q.
Proof. intros HQ. eexists. split; [apply system_reset_run|exact HQ]. Qed.

Lemma shutdown_uninitialised b :
  initialized (alloc b) = false →
  arrives (shutdown info_layout info_bytes) b (λ b',
    ∃ w, b' = mkB (alloc b) (traps b) (reset_calls RESET_TYPE_SHUTDOWN w)).
Proof.
  intros Hi. unfold shutdown, info. apply arrives_report; [returns|]. intros w1.
  eapply arrives_step; [by apply on_alloc_same|]. cbn [alloc]. rewrite Hi.
  eapply arrives_step; [reflexivity|]. apply arrives_report; [returns|]. intros w2.
  apply arrives_reset. by eexists.
Qed.

Lemma reboot_run N b s bs :
  heap_ready N (alloc b) s bs → 2 * N < 2 ^ 64 → typed (alloc b) →
  let g' := if initialized (alloc b) then frozen_system s (alloc b) else alloc b in
  arrives reboot b (λ b', ∃ w, b' = mkB g' (traps b) (reset_calls RESET_TYPE_COLD_REBOOT w)).
Proof.
  intros R HN Hg. unfold reboot, info, warn. cbv zeta. apply arrives_report; [returns|]. intros w1.
  eapply arrives_step; [by apply on_alloc_same|]. cbn [alloc]. destruct (initialized (alloc b)) eqn:Hi.
  - destruct (freeze_run N (alloc b) s bs R HN Hi) as [E _].
    destruct (on_report_erases Verbose.freeze Api.freeze (mkB (alloc b) (traps b) w1) (Ok tt) _ erases_freeze Hg E)
      as [w2 E2].
    eapply arrives_step; [mstep_with ltac:(exact E2); reflexivity|].
    apply arrives_report; [returns|]. intros w3. apply arrives_reset. by eexists.
  - eapply arrives_step; [reflexivity|]. apply arrives_report; [returns|]. intros w2. apply arrives_reset. by eexists.
Qed.

(** C39: [shutdown] of a system whose allocator is initialised never reaches the
    firmware: it deadlocks preparing the handover.  Before initialisation, in
    whatever state the rest is, it does reach it.  [reboot] always does, with the
    heap frozen first and every block and byte left as it was. *)
Theorem shutdown_hangs_reboot_resets :
  layout_ok info_layout →
  (∀ b, initialized (alloc b) = false →
     ∃ w, shutdown info_layout info_bytes b
          = Ret (tt, mkB (alloc b) (traps b) (reset_calls RESET_TYPE_SHUTDOWN w)))
  ∧ ∀ N b s bs, heap_ready N (alloc b) s bs → 2 * N < 2 ^ 64 → typed (alloc b) →
    (initialized (alloc b) = true → shutdown info_layout info_bytes b = Hang)
    ∧ ∃ g' s' w, reboot b = Ret (tt, mkB g' (traps b) (reset_calls RESET_TYPE_COLD_REBOOT w))
      ∧ heap_ready N g' s' bs ∧ mach s' = mach s
      ∧ (initialized (alloc b) = true → frozen (self s') = true ∧ enabled g' = false).
Proof.
  intros Hl. split.
  { intros b Hi. destruct (shutdown_uninitialised b Hi) as (b' & E & w & ->). by exists w. }
  intros N b s bs R HN Hg. split.
  - intros Hi. unfold shutdown. say. mstep_with ltac:(by apply on_alloc_same). cbn [alloc]. rewrite Hi.
    do 2 apply bind_Hang. unfold on_report, zoom. cbn [alloc firmware].
    by erewrite verbose_prepare_handover_hangs.
  - destruct (reboot_run N b s bs R HN Hg) as (b' & E & w & ->). destruct (initialized (alloc b)) eqn:Hi.
    + destruct (freeze_run N (alloc b) s bs R HN Hi) as [_ R'].
      by exists (frozen_system s (alloc b)), (frozen_state s), w.
    + by exists (alloc b), s, w.
Qed.

End stop.

(** ** The panic handler *)

Section panicking.
Context {P : Profile} {V W : Type} `{!Firmware W}.
Implicit Types b : BState V W.

(** Texts and line numbers that fit their types. *)
Definition printable_panic (panic_info : PanicInfo) : Prop :=
  match location panic_info with
  | Some (file, line) => short (Str file) ∧ in_u32 line
  | None => True
  end
  ∧ match message panic_info with Some text => short (Str text) | None => True end.

Lemma report_panic_returns panic_info : printable_panic panic_info → returns (W := W) (report_panic panic_info).
Proof.
  destruct panic_info as [[[file line]|] [text|]]; intros [H1 H2]; cbn [location message] in H1, H2;
    unfold report_panic; cbn [location message]; returns;
    first [done | by destruct H1 | by destruct H1; apply short_u32].
Qed.

(** The state of the trap system with the SIE bit cleared. *)
Definition masked (t : TS.KState V) : TS.KState V :=
  TS.mkKState (TS.mkHart (Z.ldiff (TS.sstatus (TS.hart t)) TS.SIE) (TS.stvec (TS.hart t)))
    (TS.initialized t) (TS.installed t) (TS.locked t) (TS.hm t) (TS.em t).

Lemma latch_run (t : TS.KState V) :
  TS.installed t = true → TS.locked t = false →
  ∃ t', TS.with_trap_system latch_panic_mode t = Ret (tt, t')
    ∧ TS.EM.panic_mode (TS.em t') = true ∧ TS.hart t' = TS.hart t ∧ TS.locked t' = false
    ∧ TS.HM.handlers (TS.hm t') = TS.HM.handlers (TS.hm t).
Proof.
  intros Hi Hl. destruct t as [h i ins lo hm em]. cbn in *. subst.
  eexists. split.
  { eapply TS.with_trap_system_run; [done|done|]. unfold latch_panic_mode. mstep. cbn.
    instantiate (1 := TS.mkKState h i true true (TS.HM.set_world (TS.HM.world hm) hm)
                        (TS.EM.mkHeapErrorManager (TS.EM.handlers em) (TS.EM.log em) true)).
    by destruct em as [? ? []], hm. }
  by destruct hm.
Qed.

Lemma masked_sie (t : TS.KState V) : TS.sie_set (TS.sstatus (TS.hart (masked t))) = false.
Proof.
  rewrite TS.sie_set_spec. cbn [masked TS.sstatus TS.hart].
  rewrite Z.ldiff_spec, TS.SIE_val. apply andb_false_r.
Qed.

Lemma stats_locked g : initialized g = true → locked g = true → Api.stats g = Hang.
Proof.
  intros Hi Hl. unfold Api.stats, Api.is_initialized. mstep. rewrite Hi. cbn [negb].
  unfold TS_stats, with_allocator, under_lock. mstep. by rewrite Hl.
Qed.

(** The handler up to the trap system's lock. *)
Lemma panic_handler_start panic_info b :
  printable_panic panic_info → TS.initialized (traps b) = true →
  ∃ w, panic_handler panic_info b
       = (on_traps (TS.with_trap_system latch_panic_mode);; report_memory;; error [Lit "System halted."])
           (mkB (alloc b) (masked (traps b)) w).
Proof.
  intros Hp Ht. unfold panic_handler.
  destruct (report_panic_returns panic_info Hp (firmware b)) as [w E]. exists w.
  destruct b as [g [h i ins lo hm em] w0]. cbn [traps TS.initialized firmware] in *. subst i.
  mstep_with ltac:(reflexivity).
  mstep_with ltac:(unfold on_firmware; apply zoom_Ret; exact E). reflexivity.
Qed.

Lemma report_memory_run b al :
  initialized (alloc b) = true → instance (alloc b) = Some al → locked (alloc b) = false → typed (alloc b) →
  arrives report_memory b (λ b', alloc b' = alloc b ∧ traps b' = traps b).
Proof.
  intros Hi Hal Hl Hg.
  assert (Api.stats (alloc b) = Ret (Some (stats al), alloc b)) as E
    by (by apply (api_stats_run _ (mkAState al (machine (alloc b))))).
  assert (typed (stats al)) as [Hst _] by (destruct Hg as [Hg _]; rewrite Hal in Hg; by destruct Hg as (_ & _ & _ & ? & _)).
  repeat match goal with H : Forall _ (_ :: _) |- _ => inversion_clear H end.
  unfold report_memory, warn, error. eapply arrives_step; [by apply on_alloc_same|]. rewrite Hi.
  apply arrives_report; [returns|]. intros w1.
  eapply arrives_step.
  { apply on_alloc_same. unfold Api.usage_summary. mstep_with ltac:(exact E). reflexivity. }
  apply arrives_report; [returns|]. intros w2. cbn [alloc traps].
  eapply arrives_step; [apply on_alloc_same; exact E|]. cbn iota.
  apply arrives_report; [returns|]. intros w3. case_match.
  - apply arrives_last; [returns|]. by intros w4.
  - by eexists.
Qed.

(** The panic handler masks interrupts, latches panic mode and gets to the end
    of its report without touching the heap, when neither lock is held.  A panic
    raised while the trap system's lock or the allocator's is held (a panicking
    trap handler, an arithmetic overflow inside the allocator) never gets
    there. *)
Theorem panic_handler_needs_locks panic_info b :
  printable_panic panic_info → typed (alloc b) →
  TS.initialized (traps b) = true → TS.installed (traps b) = true →
  initialized (alloc b) = true → is_Some (instance (alloc b)) →
  (TS.locked (traps b) = false → locked (alloc b) = false →
     ∃ t' w, panic_handler panic_info b = Ret (tt, mkB (alloc b) t' w)
       ∧ TS.EM.panic_mode (TS.em t') = true ∧ TS.sie_set (TS.sstatus (TS.hart t')) = false
       ∧ TS.locked t' = false ∧ TS.HM.handlers (TS.hm t') = TS.HM.handlers (TS.hm (traps b)))
  ∧ (TS.locked (traps b) = true ∨ locked (alloc b) = true → panic_handler panic_info b = Hang).
Proof.
  intros Hp Hg Ht Hin Hi [al Hal]. destruct (panic_handler_start panic_info b Hp Ht) as [w ->].
  assert (TS.locked (traps b) = false → ∃ t',
    on_traps (TS.with_trap_system latch_panic_mode) (mkB (alloc b) (masked (traps b)) w)
      = Ret (tt, mkB (alloc b) t' w)
    ∧ TS.EM.panic_mode (TS.em t') = true ∧ TS.sie_set (TS.sstatus (TS.hart t')) = false
    ∧ TS.locked t' = false ∧ TS.HM.handlers (TS.hm t') = TS.HM.handlers (TS.hm (traps b))) as Hlatch.
  { intros Hl. destruct (latch_run (masked (traps b)) Hin Hl) as (t' & E & Hpm & Hh & Hl' & Hhm).
    exists t'. split_and!; try done; [by unfold on_traps, zoom; cbn [traps]; rewrite E|].
    rewrite Hh. apply masked_sie. }
  split.
  - intros Hl Hlg. destruct (Hlatch Hl) as (t' & E & H).
    destruct (report_memory_run (mkB (alloc b) t' w) al Hi Hal Hlg Hg) as ([g1 t1 w1] & E1 & Eg & Et).
    cbn in Eg, Et. subst g1 t1.
    destruct (report_last (error_print [Lit "System halted."]) (mkB (alloc b) t' w1)) as [w2 E2]; [returns|].
    exists t', w2. split; [|done]. mstep_with ltac:(exact E). mstep_with ltac:(exact E1). exact E2.
  - intros Hlk. destruct (TS.locked (traps b)) eqn:Hl.
    { apply bind_Hang. unfold on_traps, zoom, TS.with_trap_system, mbind, M_bind, gets. cbn [traps].
      cbn [masked TS.locked]. by rewrite Hl. }
    destruct Hlk as [|Hlg]; [done|]. destruct (Hlatch eq_refl) as (t' & E & _).
    mstep_with ltac:(exact E). apply bind_Hang. unfold report_memory.
    mstep_with ltac:(by apply on_alloc_same). cbn [alloc]. rewrite Hi. say.
    apply bind_Hang, on_alloc_Hang. unfold Api.usage_summary. apply bind_Hang. by apply stats_locked.
Qed.

End panicking.

(** ** Concrete runs *)

Lemma g3_typed : typed GlobalDemo.g3.
Proof.
  assert (map_Forall (λ _ v, in_u8 v) (mem (mach heap3))) as Hm.
  { apply map_Forall_to_list, Forall_forall. intros [a v] Hin.
    assert (forallb (λ x, bool_decide (0 ≤ x.2 < 2 ^ 8)) (map_to_list (mem (mach heap3))) = true) as H by by_eval.
    rewrite forallb_forall in H. apply list_elem_of_In, H in Hin. by apply bool_decide_eq_true_1 in Hin. }
  assert (typed (stats (self heap3))) as Hs.
  { split; [|split; by_eval]. repeat (apply Forall_cons_2; [split; by_eval|]). apply Forall_nil_2. }
  refine (conj (conj _ (conj _ (conj _ (conj Hs _)))) (conj (conj Hm _) (conj _ _))); split; by_eval.
Qed.

Lemma verify_system_state_correct_witness :
  ∃ b', verify_system_state_after_init BootDemo.up = Ret (tt, b') ∧ alloc b' = GlobalDemo.g3.
Proof.
  destruct (proj1 (verify_system_state_correct 10 BootDemo.up heap3 blocks3 GlobalDemo.g3_ready g3_typed
                  ltac:(by_eval) ltac:(by_eval)) eq_refl eq_refl) as (b' & E & H & _).
  exists b'. split; [exact E|exact H].
Defined.

Lemma shutdown_hangs_reboot_resets_witness :
  shutdown GlobalDemo.box_layout (λ _, []) BootDemo.up = Hang
  ∧ ∃ b' w, reboot BootDemo.up = Ret (tt, b') ∧ firmware b' = reset_calls RESET_TYPE_COLD_REBOOT w.
Proof.
  destruct (shutdown_hangs_reboot_resets (V := Z) GlobalDemo.box_layout (λ _, [])) as [_ H]; [split_and!; by_eval|].
  destruct (H 10 BootDemo.up heap3 blocks3 GlobalDemo.g3_ready) as (Hs & g' & s' & w & E & _);
    [by_eval|apply g3_typed|].
  split; [exact (Hs eq_refl)|]. eexists _, w. split; [exact E|reflexivity].
Defined.

Definition overflow_panic : PanicInfo :=
  mkPanicInfo (Some ("src/init/alloc/allocator.rs", 222)) (Some "attempt to add with overflow").

Lemma panic_handler_needs_locks_witness :
  (∃ t' w, panic_handler overflow_panic BootDemo.up = Ret (tt, mkB GlobalDemo.g3 t' w)
     ∧ TS.EM.panic_mode (TS.em t') = true)
  ∧ panic_handler overflow_panic BootDemo.in_alloc = Hang.
Proof.
  assert (printable_panic overflow_panic) as Hp by (split; [split; [by_eval|split; by_eval]|by_eval]).
  split.
  - destruct (panic_handler_needs_locks overflow_panic BootDemo.up Hp g3_typed eq_refl eq_refl eq_refl (mk_is_Some _ _ eq_refl))
      as [H _]. destruct (H eq_refl eq_refl) as (t' & w & E & Hpm & _). exists t', w. split; [exact E|exact Hpm].
  - apply (panic_handler_needs_locks overflow_panic BootDemo.in_alloc Hp g3_typed eq_refl eq_refl eq_refl (mk_is_Some _ _ eq_refl)).
    right. reflexivity.
Defined.
