(* ===== verification/Startup.v ===== *)
(** * Starting the kernel

    Models the rest of the path from [_start] to the main loop, with its console
    output: [alloc_error_handler] of [src/init/alloc/global.rs],
    [test_dynamic_structures] and [init] of [src/lib.rs], and [rust_main] of
    [src/main.rs].  The kernel's allocator is made an instance of the interface
    that [Vec] and [String] use ([Collections.v]).  The collections that the trap
    system itself keeps on the heap are values in [TrapSystem.v]; the test of the
    dynamic structures is proved for a heap on which anything else is allocated. *)

From Stdlib Require Import ZArith Lia String.
From stdpp Require Import base option numbers sorting strings gmap list.
From S2P Require Import TrapSystem TrapTypes Prelude Memory Metadata Allocator HeapInv AllocSteps AllocOps Arrays Handover Examples GlobalAlloc AllocApi GlobalThms HandoverSnapshot ByteHeap Collections TypeSafety Sbi Console Boot Reports Messages System.

(** ** The kernel's allocator as a [GlobalAlloc] *)

Section kernel_alloc.
Context {P : Profile} {W : Type} `{!Firmware W}.

(** [alloc_error_handler]: a report and a panic. *)
Definition alloc_error_handler (l : Layout) : M (RState W) unit :=
  on_console (error_print [Lit "Memory allocation error!"]);;
  on_console (error_print [Lit "Requested: size="; Dec (lsize l); Lit " bytes, align="; Dec (lalign l)]);;
  st ← on_kernel TS_stats;
  (match st with
   | Some st =>
       on_console (error_print [Lit "Allocator stats:"]);;
       on_console (AllocStats_print_detailed st)
   | None => mret tt
   end);;
  panic.

(** [impl GlobalAlloc for EarlyGlobalAllocator]; a failed deallocation is
    reported on the console, which is left out. *)
#[global] Instance EarlyGlobalAllocator : GlobalAlloc (RState W) := {
  ga_alloc l := on_kernel (Global_alloc l);
  ga_alloc_zeroed l := on_kernel (Global_alloc_zeroed l);
  ga_dealloc p l := on_kernel (Global_dealloc p l);
  ga_realloc p l n := on_kernel (Global_realloc p l n);
  ga_write p data := on_kernel (on_machine (modify (with_mem (λ m, put_bytes data m p))));
  ga_read p n := on_kernel (on_machine (rd n p));
  ga_error := alloc_error_handler;
}.

Lemma on_kernel_Ret {A} (m : M GState A) (r : RState W) a g :
  m (kernel r) = Ret (a, g) → on_kernel m r = Ret (a, mkR g (console r)).
Proof. unfold on_kernel, zoom. by intros ->. Qed.

(** The heap of owned bytes, in a state of machine integers. *)
Definition kernel_heap (K : Z) (F : gmap Z (list Z)) (g : GState) : Prop := byte_heap K F g ∧ typed g.

Lemma kernel_heap_mono K K' m g : kernel_heap K m g → 0 ≤ K' ≤ K → kernel_heap K' m g.
Proof.
  intros [(N & s & bs & R & HK & HN & Hi & He & [B1 B2 B3 B4 B5 B6 B7]) Ht] Hle. split; [|done]. exists N, s, bs.
  split_and!; [done|lia|lia|done|done|]. split; try done. eapply room_mono; [exact B4|lia].
Qed.

(** The operations on it keep both. *)
Lemma alloc_kernel_heap K m g l :
  kernel_heap K m g → word_layout l → lsize l + 144 ≤ K →
  ∃ p v g', Global_alloc l g = Ret (p, g') ∧ p ≠ 0 ∧ m !! p = None
    ∧ Z.of_nat (length v) = lsize l ∧ kernel_heap (K - lsize l - 144) (<[p := v]> m) g'.
Proof.
  intros [H Ht] Hl HK. destruct (alloc_byte_heap K m g l H Hl HK) as (p & v & g' & E & H1 & H2 & H3 & H4).
  exists p, v, g'. split_and!; try done. split; [done|]. by apply (wt_Global_alloc l g p g').
Qed.

Lemma alloc_zeroed_kernel_heap K m g l :
  kernel_heap K m g → word_layout l → lsize l + 144 ≤ K →
  ∃ p g', Global_alloc_zeroed l g = Ret (p, g') ∧ p ≠ 0 ∧ m !! p = None
    ∧ kernel_heap (K - lsize l - 144) (<[p := replicate (Z.to_nat (lsize l)) 0]> m) g'.
Proof.
  intros [H Ht] Hl HK. destruct (alloc_zeroed_byte_heap K m g l H Hl HK) as (p & g' & E & H1 & H2 & H3).
  exists p, g'. split_and!; try done. split; [done|]. by apply (wt_Global_alloc_zeroed l g p g').
Qed.

Lemma dealloc_kernel_heap K m g p l :
  kernel_heap K m g → is_Some (m !! p) → 8 ≤ K →
  ∃ g', Global_dealloc p l g = Ret (tt, g') ∧ kernel_heap (K - 8) (delete p m) g'.
Proof.
  intros [H Ht] Hp HK. destruct (dealloc_byte_heap K m g p l H Hp HK) as (g' & E & H1).
  exists g'. split_and!; try done. split; [done|]. by apply (wt_Global_dealloc p l g tt g').
Qed.

Lemma realloc_kernel_heap K m g p v l n :
  kernel_heap K m g → m !! p = Some v → Z.of_nat (length v) = lsize l →
  word_layout (mkLayout n (lalign l)) → n < 2 ^ 62 → n + 152 ≤ K →
  ∃ q w g', Global_realloc p l n g = Ret (q, g') ∧ q ≠ 0 ∧ m !! q = None ∧ Z.of_nat (length w) = n
    ∧ (∀ k, (k < length v)%nat → (k < length w)%nat → w !! k = v !! k)
    ∧ kernel_heap (K - n - 152) (<[q := w]> (delete p m)) g'.
Proof.
  intros [H Ht] Hp Hv Hl Hn HK.
  destruct (realloc_byte_heap K m g p v l n H Hp Hv Hl Hn HK) as (q & w & g' & E & H1 & H2 & H3 & H4 & H5).
  exists q, w, g'. split_and!; try done. split; [done|]. by apply (wt_Global_realloc p l n g q g').
Qed.

Lemma write_kernel_heap K m g p l off data :
  kernel_heap K m g → m !! p = Some l → (off + length data ≤ length l)%nat → Forall in_u8 data →
  ∃ g', on_machine (modify (with_mem (λ mm, put_bytes data mm (p + Z.of_nat off)))) g = Ret (tt, g')
    ∧ kernel_heap K (<[p := overwrite l off data]> m) g'.
Proof.
  intros [H Ht] Hp Hl Hd. destruct (write_byte_heap K m g p l off data H Hp Hl Hd) as (g' & E & H1).
  exists g'. split_and!; try done. split; [done|].
  by apply (wt_on_machine _ (wt_put_bytes data (p + Z.of_nat off)) g tt g').
Qed.

Lemma init_kernel_heap g start sz :
  locked g = false → instance g = None → initialized g = false → enabled g = true → typed g →
  0 ≤ start → init_accepts start sz → sz mod 8 = 0 → start + sz + 72 ≤ 2 ^ 64 → sz ≤ 2 ^ 56 →
  ∃ g', Api.init start sz g = Ret (Ok tt, g') ∧ kernel_heap (sz - HEADER_SIZE) ∅ g'.
Proof.
  intros Hl Hin Hi He Ht H0 Ha Hm Hlim Hbig. pose proof Ha as (_ & Hsz & _). pose proof Ht as (_ & [_ Hck] & _).
  destruct (init_byte_heap g start sz Hl Hin Hi He Hck H0 Ha Hm Hlim Hbig) as (g' & E & H).
  exists g'. split_and!; try done. split; [done|].
  apply (wt_api_init start sz) in E; [apply E|unfold in_u64; unfold init_accepts in *; lia..|done].
Qed.

(** The laws of the interface; the operations leave the console [w] alone. *)
#[local] Obligation Tactic := idtac.
#[program] Definition EarlyGlobalAllocator_laws (w : W) : GlobalAllocLaws (RState W) := {|
  owns K m r := kernel_heap K m (kernel r) ∧ console r = w;
|}.
Next Obligation. intros w K K' m r [H Hw] HK. split; [by eapply kernel_heap_mono|done]. Qed.
Next Obligation.
  intros w K m r l [H Hw] Hl HK. destruct (alloc_kernel_heap K m (kernel r) l H Hl HK) as (p & v & g & E & H1 & H2 & H3 & H4).
  exists p, v, (mkR g (console r)). split_and!; try done. by apply on_kernel_Ret.
Qed.
Next Obligation.
  intros w K m r l [H Hw] Hl HK. destruct (alloc_zeroed_kernel_heap K m (kernel r) l H Hl HK) as (p & g & E & H1 & H2 & H3).
  exists p, (mkR g (console r)). split_and!; try done. by apply on_kernel_Ret.
Qed.
Next Obligation.
  intros w K m r p l [H Hw] Hp HK. destruct (dealloc_kernel_heap K m (kernel r) p l H Hp HK) as (g & E & H1).
  exists (mkR g (console r)). split; [by apply on_kernel_Ret|done].
Qed.
Next Obligation.
  intros w K m r p v l n [H Hw] Hp Hv Hl Hn HK.
  destruct (realloc_kernel_heap K m (kernel r) p v l n H Hp Hv Hl Hn HK) as (q & u & g & E & H1 & H2 & H3 & H4 & H5).
  exists q, u, (mkR g (console r)). split_and!; try done. by apply on_kernel_Ret.
Qed.
Next Obligation.
  intros w K m r p v off data [H Hw] Hp Hl Hd.
  destruct (write_kernel_heap K m (kernel r) p v off data H Hp Hl Hd) as (g & E & H1).
  exists (mkR g (console r)). split; [by apply on_kernel_Ret|done].
Qed.
Next Obligation.
  intros w K m r p v off n [H Hw] Hp Hl. cbn. unfold on_kernel, on_machine, zoom, rd, gets.
  rewrite (read_byte_heap K m (kernel r) p v off n (proj1 H) Hp Hl). by destruct r as [[] ?].
Qed.

End kernel_alloc.

(** ** [lib.rs] and [main.rs] *)

Section startup.
Context {P : Profile} {V W : Type} `{!Firmware W}.

(** The four bytes of an [i32] or [u32]. *)
Definition int_bytes (n : Z) : list Z := [n mod 256; n / 2 ^ 8 mod 256; n / 2 ^ 16 mod 256; n / 2 ^ 24 mod 256].

(** The three parts of [test_dynamic_structures]; the vector and the string live
    to the end of the function and are dropped in reverse order. *)
Definition test_vec : M (RState W) Vec.t :=
  v ← Vec.push_all 4 4 (Vec.new 4) (int_bytes <$> seqZ 0 10);
  ok ← (if Vec.len v =? 10 then x ← Vec.index 4 v 9; mret (x =? 9) else mret false);
  (if ok : bool
   then on_console (debug_print "src/lib.rs" 175 [Lit "  Vec test: PASSED ("; Dec (Vec.len v); Lit " elements)"])
   else on_console (error_print [Lit "  Vec test: FAILED"]));;
  mret v.

(** In the branch that prints the string it equals the literal. *)
Definition test_string : M (RState W) Vec.t :=
  t ← Str.from (chars "Hello");
  t ← Str.push_str t (chars ", RustOS!");
  ok ← Str.eq_str t (chars "Hello, RustOS!");
  (if ok : bool
   then on_console (debug_print "src/lib.rs" 184 [Lit "  String test: PASSED ('"; Lit "Hello, RustOS!"; Lit "')"])
   else on_console (error_print [Lit "  String test: FAILED"]));;
  mret t.

Definition test_box : M (RState W) unit :=
  b ← on_kernel (EarlyBox_new (mkLayout 4 4) (int_bytes 42));
  match b with
  | Some p =>
      x ← ga_read p 4;
      (if x =? 42
       then on_console (debug_print "src/lib.rs" 191 [Lit "  EarlyBox test: PASSED (value = "; Dec x; Lit ")"])
       else on_console (error_print [Lit "  EarlyBox test: FAILED"]));;
      on_kernel (EarlyBox_drop p (mkLayout 4 4))
  | None => on_console (error_print [Lit "  EarlyBox allocation: FAILED"])
  end.

Definition test_dynamic_structures : M (RState W) unit :=
  on_console (info_print [Lit "Testing dynamic data structures..."]);;
  v ← test_vec;
  t ← test_string;
  test_box;;
  on_console (info_print [Lit "Dynamic structures test completed."]);;
  Str.drop t;;
  Vec.drop 4 4 v.

Context (hash : string → TrapType.t → Z) (trap_entry : Z).

(** [trap::init] *)
Definition trap_init (mode : TrapMode) : M (TS.KState V) unit :=
  TS.initialize_trap_system hash trap_entry mode.

(** [init]; [kernel_end] is the linker's [end]. *)
Definition init (kernel_end : Z) : M (BState V W) unit :=
  on_firmware (info_print [Lit "NT RustOS Initializing..."]);;
  a ← usize_add kernel_end 0xF;
  let heap_start_aligned := Z.land a (usize_not 0xF) in
  let heap_size := 2 * 1024 * 1024 in
  r ← on_report (Verbose.init heap_start_aligned heap_size);
  (match r with
   | Ok _ =>
       on_firmware (info_print [Lit "Early Allocator initialized at 0x"; Hex heap_start_aligned; Lit " (Size: ";
                                Dec (heap_size / 1024); Lit " KB)."]);;
       st ← on_alloc Api.stats;
       match st with
       | Some st =>
           overhead ← usize_sub (AllocStats.total_size st) (AllocStats.free_size st);
           on_firmware (info_print [Lit "  Initial Heap: Total: "; Dec (AllocStats.total_size st / 1024);
             Lit " KB, Free: "; Dec (AllocStats.free_size st / 1024); Lit " KB, Overhead: "; Dec overhead;
             Lit " bytes"])
       | None => mret tt
       end
   | Err _ =>
       on_firmware (print_str (chars "FATAL: Failed to initialize early allocator: "));;
       on_firmware (print_str (chars "Halting." ++ newline));;
       hang
   end);;
  on_traps (trap_init Direct);;
  on_firmware (info_print [Lit "Trap Subsystem initialized."]);;
  on_report test_dynamic_structures;;
  on_firmware print_sbi_info;;
  on_firmware (info_print [Lit "System Core Initialization Completed."]).

(** [rust_main] up to the main loop; [stack] is the address of [STACK]. *)
Definition rust_main (stack sbss ebss kernel_end : Z) : M (BState V W) unit :=
  on_firmware (early_printk_banner stack sbss ebss kernel_end);;
  init kernel_end;;
  verify_system_state_after_init.

(** [_start] after it has set the stack pointer. *)
Definition _start (stack sbss ebss kernel_end : Z) : M (BState V W) unit :=
  on_alloc (on_machine (clear_bss sbss ebss stack (stack + STACK_SIZE)));;
  rust_main stack sbss ebss kernel_end.

End startup.

(** ** The dynamic structures test passes *)

Section tests.
Context {P : Profile} {W : Type} `{!Firmware W}.

Lemma int_bytes_ok n : Forall in_u8 (int_bytes n).
Proof. unfold int_bytes. repeat (constructor; [by apply Z.mod_pos_bound|]). constructor. Qed.

(** A console report between two heap operations. *)
Lemma on_console_Ret (m : M W unit) (r : RState W) t :
  (∀ w, m w = Ret (tt, emit t w)) → on_console m r = Ret (tt, mkR (kernel r) (emit t (console r))).
Proof. intros H. unfold on_console, zoom. by rewrite H. Qed.

Definition debug_line (line : Z) (args : list piece) : list Z :=
  format_args [Lit "["; Str "src/lib.rs"; Lit ":"; Dec line; Lit "] "] ++ format_args args ++ [10].
Definition info_line (t : string) : list Z :=
  format_args [Lit (esc "[32m[INFO] "); Lit t; Lit (esc "[0m"); Nl].

Lemma debug_print_spec line args w :
  -2 ^ 64 < line < 2 ^ 64 → Forall short args →
  debug_print "src/lib.rs" line args w = Ret (tt, emit (debug_line line args) w).
Proof.
  intros Hl H. unfold debug_print.
  mstep_with ltac:(apply print_spec; repeat first [apply Forall_nil_2|apply Forall_cons_2]; first [exact Hl|by vm_compute]).
  rewrite println_spec by done. by rewrite <-emit_app.
Qed.

Lemma info_print_spec t w : short (Lit t) → info_print [Lit t] w = Ret (tt, emit (info_line t) w).
Proof.
  intros H. unfold info_print. rewrite tagged_spec; [done| |by vm_compute].
  apply Forall_cons_2; [done|apply Forall_nil_2].
Qed.

(** The first part: ten pushed integers are there. *)
Lemma test_vec_passes K F (r : RState W) :
  kernel_heap K F (kernel r) → Vec.vec_credits 4 10 ≤ K →
  ∃ v f r', test_vec r = Ret (v, r') ∧ kernel_heap (K - Vec.vec_credits 4 10) (f ∪ F) (kernel r') ∧ f ##ₘ F
    ∧ Vec.holds 4 v (int_bytes <$> seqZ 0 10) f
    ∧ console r' = emit (debug_line 175 [Lit "  Vec test: PASSED ("; Dec 10; Lit " elements)"]) (console r).
Proof.
  intros Hb HK. pose (L := EarlyGlobalAllocator_laws (console r)).
  set (xs := int_bytes <$> seqZ 0 10).
  destruct (Vec.build_law 4 4 ltac:(lia) eq_refl ltac:(tauto) 10 K F xs r) as (v & f & r1 & E & Ho & Hd & Hv & _); try done.
  { apply Forall_fmap, Forall_true. intros n. split; [done|apply int_bytes_ok]. }
  pose proof Ho as [Hb1 Hw]. pose proof (proj1 Hv) as Hlen. change (Z.of_nat (length xs)) with 10 in Hlen.
  exists v, f. eexists (mkR (kernel r1) (emit _ (console r1))). split_and!; [|exact Hb1|done|exact Hv|rewrite <-Hw].
  - unfold test_vec. mstep_with ltac:(exact E). rewrite Hlen. change (10 =? 10) with true. cbn iota.
    mstep_with ltac:(mstep_with ltac:(by apply (Vec.index_law 4 ltac:(lia) _ F f v xs 9 (int_bytes 9) r1 Ho Hv)); reflexivity).
    change (le_value (int_bytes 9) =? 9) with true. cbn iota.
    mstep_with ltac:(apply on_console_Ret; intros w; apply debug_print_spec; [lia|printable]). reflexivity.
  - reflexivity.
Qed.

(** The second: a string that has to grow holds both texts. *)
Lemma test_string_passes K F (r : RState W) :
  kernel_heap K F (kernel r) → 315 ≤ K →
  ∃ t f r', test_string r = Ret (t, r') ∧ kernel_heap (K - 315) (f ∪ F) (kernel r') ∧ f ##ₘ F
    ∧ Str.holds t (chars "Hello, RustOS!") f
    ∧ console r' = emit (debug_line 184 [Lit "  String test: PASSED ('"; Lit "Hello, RustOS!"; Lit "')"]) (console r).
Proof.
  intros Hb HK. pose (L := EarlyGlobalAllocator_laws (console r)).
  assert (owns K F r) as Ho0 by (by split).
  destruct (Str.from_law K F (chars "Hello") r Ho0) as (t & f & r1 & E1 & Ho & Hd & Ht & Hcap & _);
    [by vm_compute|repeat (constructor; [by vm_compute|]); constructor|cbn; lia|].
  destruct (Str.push_str_law _ F f t _ (chars ", RustOS!") r1 Ho Hd Ht) as (t' & f' & r2 & E2 & Ho' & Hd' & Ht');
    [done|done|done|by vm_compute|repeat (constructor; [by vm_compute|]); constructor|cbn; lia|].
  pose proof Ho' as [Hb' Hw].
  exists t', f'. eexists (mkR (kernel r2) (emit _ (console r2))). split_and!; [| |done|exact Ht'|rewrite <-Hw].
  - unfold test_string. mstep_with ltac:(exact E1). mstep_with ltac:(exact E2).
    mstep_with ltac:(by apply (Str.same_bytes_law _ F f' t' _ r2 Ho' Ht')). cbn iota.
    mstep_with ltac:(apply on_console_Ret; intros w; apply debug_print_spec; [lia|printable]). reflexivity.
  - cbn [kernel]. eapply kernel_heap_mono; [exact Hb'|cbn; lia].
  - reflexivity.
Qed.

(** [EarlyBox::new] is a request like that of the trait, and a write. *)
Lemma EarlyBox_new_run l data g g1 g2 p :
  Global_alloc l g = Ret (p, g1) → p ≠ 0 →
  on_machine (modify (with_mem (λ m, put_bytes data m p))) g1 = Ret (tt, g2) →
  lsize l ≠ 0 → is_power_of_two (lalign l) = true → 0 < lalign l ≤ 4096 → lsize l ≤ isize_MAX - lalign l →
  EarlyBox_new l data g = Ret (Some p, g2).
Proof.
  intros E1 Hp E2 Hz Hpow Ha Hs.
  assert (TS_alloc_aligned (lsize l) (lalign l) g = Ret (Some p, g1)) as E.
  { unfold Global_alloc, mbind, M_bind, mret, M_ret in E1.
    destruct (TS_alloc_aligned _ _ g) as [[[q|] g']| | |] eqn:E; try done; by injection E1 as <- <-. }
  unfold EarlyBox_new, alloc_init.
  mstep_with ltac:(unfold alloc_type, safe_alloc; rewrite (proj2 (Z.eqb_neq (lsize l) 0)) by done;
    rewrite Hpow, (proj2 (Z.ltb_ge 4096 (lalign l))) by lia; cbn [negb orb];
    mstep_with ltac:(mstep_with ltac:(apply usize_sub_ok; unfold isize_MAX; lia);
      rewrite (proj2 (Z.ltb_ge _ (lsize l))) by lia; mstep_with ltac:(exact E); reflexivity); reflexivity).
  cbn iota. mstep_with ltac:(exact E2). reflexivity.
Qed.

(** The third: a box that is freed at the end of the [if let]. *)
Lemma test_box_passes K F (r : RState W) :
  kernel_heap K F (kernel r) → 156 ≤ K →
  ∃ r', test_box r = Ret (tt, r') ∧ kernel_heap (K - 156) F (kernel r')
    ∧ console r' = emit (debug_line 191 [Lit "  EarlyBox test: PASSED (value = "; Dec 42; Lit ")"]) (console r).
Proof.
  intros Hb HK.
  destruct (alloc_kernel_heap K F (kernel r) (mkLayout 4 4) Hb) as (p & v & g1 & E1 & Hp & Hfr & Hv & Hb1);
    [split_and!; [done|done|tauto]|cbn; lia|]. cbn [lsize] in *.
  destruct (write_kernel_heap _ _ g1 p v 0 (int_bytes 42) Hb1) as (g2 & E2 & Hb2);
    [apply lookup_insert_eq|cbn; lia|apply int_bytes_ok|].
  rewrite insert_insert_eq in Hb2. change (Z.of_nat 0) with 0 in E2. rewrite Z.add_0_r in E2.
  assert (overwrite v 0 (int_bytes 42) = int_bytes 42) as Ev.
  { unfold overwrite. rewrite drop_ge by (cbn; lia). by rewrite app_nil_r. }
  rewrite Ev in Hb2.
  assert (ga_read p 4 (mkR g2 (console r)) = Ret (42, mkR g2 (console r))) as E3.
  { pose (L := EarlyGlobalAllocator_laws (console r)).
    assert (owns (K - 4 - 144) (<[p := int_bytes 42]> F) (mkR g2 (console r))) as Ho by (by split).
    rewrite <-(Z.add_0_r p). change 0 with (Z.of_nat 0).
    apply (ga_read_law _ _ (mkR g2 (console r)) p (int_bytes 42) 0 4 Ho); [apply lookup_insert_eq|cbn; lia]. }
  destruct (dealloc_kernel_heap _ _ g2 p (mkLayout 4 4) Hb2) as (g3 & E4 & Hb3);
    [by rewrite lookup_insert_eq|lia|].
  rewrite delete_insert_id in Hb3 by done.
  eexists. split_and!; [| |].
  - unfold test_box. mstep_with ltac:(apply on_kernel_Ret; by apply (EarlyBox_new_run _ _ _ g1 g2 p)). cbn iota.
    mstep_with ltac:(exact E3). change (42 =? 42) with true. cbn iota.
    mstep_with ltac:(apply on_console_Ret; intros w; apply debug_print_spec; [lia|printable]).
    apply on_kernel_Ret. exact E4.
  - cbn [kernel]. eapply kernel_heap_mono; [exact Hb3|lia].
  - reflexivity.
Qed.

(** What the test prints. *)
Definition test_report : list Z :=
  info_line "Testing dynamic data structures..."
  ++ debug_line 175 [Lit "  Vec test: PASSED ("; Dec 10; Lit " elements)"]
  ++ debug_line 184 [Lit "  String test: PASSED ('"; Lit "Hello, RustOS!"; Lit "')"]
  ++ debug_line 191 [Lit "  EarlyBox test: PASSED (value = "; Dec 42; Lit ")"]
  ++ info_line "Dynamic structures test completed.".

(** Credits: the vector, the string and the box, and freeing the first two. *)
Definition test_credits : Z := Vec.vec_credits 4 10 + 315 + 156 + 16.

Lemma test_dynamic_structures_run K F (r : RState W) :
  kernel_heap K F (kernel r) → test_credits ≤ K →
  ∃ r', test_dynamic_structures r = Ret (tt, r') ∧ kernel_heap (K - test_credits) F (kernel r')
    ∧ console r' = emit test_report (console r).
Proof.
  unfold test_credits. intros Hb HK. set (c := Vec.vec_credits 4 10) in *.
  destruct (test_vec_passes K F (mkR (kernel r) (emit (info_line "Testing dynamic data structures...") (console r))) Hb)
    as (v & f1 & r1 & E1 & Hb1 & Hd1 & Hv & Hw1); [fold c; lia|]. fold c in Hb1.
  destruct (test_string_passes _ _ r1 Hb1) as (t & f2 & r2 & E2 & Hb2 & Hd2 & Ht & Hw2); [lia|].
  destruct (test_box_passes _ _ r2 Hb2) as (r3 & E3 & Hb3 & Hw3); [lia|].
  set (w4 := emit (info_line "Dynamic structures test completed.") (console r3)).
  pose (L := EarlyGlobalAllocator_laws w4).
  assert (owns (K - c - 315 - 156) (f2 ∪ (f1 ∪ F)) (mkR (kernel r3) w4)) as Ho by (by split).
  destruct (Vec.drop_law 1 1 _ _ _ t _ _ Ho Hd2 Ht) as (r5 & E5 & Ho5); [lia|].
  destruct (Vec.drop_law 4 4 _ _ _ v _ _ Ho5 Hd1 Hv) as (r6 & E6 & [Hb6 Hw6]); [lia|].
  exists r6. split_and!.
  - unfold test_dynamic_structures.
    mstep_with ltac:(apply on_console_Ret; intros w; apply info_print_spec; by vm_compute).
    mstep_with ltac:(exact E1). mstep_with ltac:(exact E2). mstep_with ltac:(exact E3).
    mstep_with ltac:(apply on_console_Ret; intros w; apply info_print_spec; by vm_compute).
    mstep_with ltac:(exact E5). exact E6.
  - eapply kernel_heap_mono; [exact Hb6|lia].
  - rewrite Hw6. unfold w4, test_report. rewrite Hw3, Hw2, Hw1. by rewrite !emit_app.
Qed.

(** C29: The kernel's own test of its dynamic structures passes on any heap of
    whole-word blocks with room for it, whatever else is allocated there: the vector, the string and the
    box come back with the right contents, the console shows exactly the five
    lines of a run without a failure, everything the test allocated has been
    freed, and every byte of the other allocations reads as before. *)
Theorem dynamic_structures_test_passes K F (r : RState W) :
  kernel_heap K F (kernel r) → test_credits ≤ K →
  ∃ r', test_dynamic_structures r = Ret (tt, r')
    ∧ console r' = emit test_report (console r)
    ∧ kernel_heap (K - test_credits) F (kernel r')
    ∧ ∀ p l off n, F !! p = Some l → (off + n ≤ length l)%nat →
        ga_read (p + Z.of_nat off) n r' = Ret (le_value (take n (drop off l)), r').
Proof.
  intros Hb HK. destruct (test_dynamic_structures_run K F r Hb HK) as (r' & E & Hb' & Hw).
  exists r'. split_and!; [done|done|done|]. intros p l off n Hp Hl.
  pose (L := EarlyGlobalAllocator_laws (console r')).
  assert (owns (K - test_credits) F r') as Ho by (by split). by apply (ga_read_law _ _ r' p l off n Ho).
Qed.

End tests.

(** ** From reset to the main loop *)

Section boot_run.
Context {P : Profile} {V W : Type} `{!Firmware W}.
(** A register is 64 bits wide. *)
Context (registers : ∀ eid fid args (w : W), in_u64 (ecall eid fid args w).1.2).

Lemma base_call_returns fid a0 (w : W) : ∃ v w', base_call fid a0 w = Ret (Ok v, w') ∧ in_u64 v.
Proof.
  pose proof (registers extension_ids.BASE fid [a0; 0; 0; 0; 0; 0] w) as Hv.
  unfold base_call, sbi_call, mbind, M_bind. destruct (ecall _ _ _ _) as [[e v] w']. cbn in Hv.
  eexists _, w'. split; [reflexivity|]. repeat case_match; by simplify_eq.
Qed.

Lemma puts_run s (w : W) :
  Z.of_nat (length s) < 2 ^ 64 → puts s w = Ret (Ok (Z.of_nat (length s)), emit s w).
Proof. intros H. unfold puts. rewrite puts_loop_spec by lia. done. Qed.

Lemma print_field_returns label fid :
  Z.of_nat (length (chars label)) < 2 ^ 64 → returns (W := W) (print_field label (base_call fid 0)).
Proof.
  intros Hl w. destruct (base_call_returns fid 0 w) as (v & w1 & E1 & Hv).
  destruct (putnum_numeral v 16 (emit (chars label) w1)) as (t & E2 & _); [tauto|done|].
  eexists. unfold print_field. mstep_with ltac:(exact E1). cbn iota.
  mstep_with ltac:(by apply puts_run). mstep_with ltac:(exact E2).
  mstep_with ltac:(by apply puts_run). reflexivity.
Qed.

Lemma returns_puts s (k : M W unit) :
  Z.of_nat (length s) < 2 ^ 64 → returns k → returns (puts s;; k).
Proof.
  intros H Hk w. destruct (Hk (emit s w)) as [w' E]. exists w'.
  by mstep_with ltac:(by apply puts_run).
Qed.

Lemma print_extensions_returns l :
  Forall (λ x, Z.of_nat (length (chars x.1)) < 2 ^ 64) l → returns (W := W) (print_extensions l).
Proof.
  induction 1 as [|[name id] l Hn H IH]; [apply returns_skip|]. cbn [print_extensions].
  apply returns_puts; [by vm_compute|]. apply returns_puts; [done|]. apply returns_puts; [by vm_compute|].
  intros w. destruct (base_call_returns 3 id w) as (v & w1 & E1 & _).
  assert (∃ a, is_extension_available id w = Ret (a, w1)) as [a Ea].
  { eexists. unfold is_extension_available, probe_extension. mstep_with ltac:(exact E1). reflexivity. }
  destruct (IH (emit ((if a then chars "Available" else chars "Not Available") ++ newline) w1)) as [w2 E2].
  exists w2. mstep_with ltac:(exact Ea). destruct a; mstep_with ltac:(by apply puts_run); exact E2.
Qed.

Lemma print_sbi_info_returns : returns (W := W) print_sbi_info.
Proof.
  unfold print_sbi_info. apply returns_puts; [by vm_compute|].
  do 3 (apply returns_seq; [apply print_field_returns; by vm_compute|]).
  apply returns_puts; [by vm_compute|]. apply returns_seq; [|apply returns_puts; [by vm_compute|apply returns_skip]].
  apply print_extensions_returns. repeat (apply Forall_cons_2; [by vm_compute|]). apply Forall_nil_2.
Qed.

Implicit Types b : BState V W.

(** The check after initialisation passes on any heap in good order. *)
Lemma verify_returns K m b :
  kernel_heap K m (alloc b) → TS.initialized (traps b) = true →
  arrives verify_system_state_after_init b (λ b', alloc b' = alloc b ∧ traps b' = traps b).
Proof.
  intros [(N & s & bs & R & _ & _ & Hi & _ & B) Hg] Ht. pose proof R as (_ & I & _).
  pose proof (wf_stats _ _ (proj1 I)) as [Su _ _ _]. pose proof (wf_end _ _ (proj1 I)) as He.
  pose proof (bytes_total bs). pose proof (sums_nonneg bs (wf_ok _ _ (proj1 I))).
  pose proof (bh_limit _ _ _ _ B) as [_ Hlim].
  apply (verify_run N b s bs); [done|done|unfold HEADER_SIZE in *; lia|done|done].
Qed.

Context (hash : string → TrapType.t → Z) (trap_entry : Z).

(** The machine comes up with nothing initialised and room for the heap behind
    the kernel. *)
Record power_on (kernel_end : Z) (b : BState V W) : Prop := {
  po_locked : locked (alloc b) = false;
  po_instance : instance (alloc b) = None;
  po_initialized : initialized (alloc b) = false;
  po_enabled : enabled (alloc b) = true;
  po_typed : typed (alloc b);
  po_traps : TS.initialized (traps b) = false;
  po_trap_lock : TS.locked (traps b) = false;
  po_range : 0 < kernel_end ∧ kernel_end + 2 * 1024 * 1024 + 88 ≤ 2 ^ 64;
}.

Lemma wt_clear_bss sbss ebss lo hi : well_typed (clear_bss sbss ebss lo hi).
Proof.
  assert (∀ l h, well_typed (zero_range l h)) as H
    by (intros l h; apply wt_for_range; [intros; apply wt_wr|done]).
  unfold clear_bss. apply wt_bind; [|intros _ _]; case_match; first [apply H|by apply wt_ret].
Qed.

(** Credits left after [init]. *)
Definition init_credits : Z := 2 * 1024 * 1024 - HEADER_SIZE - test_credits.

Lemma init_run_all kernel_end b :
  TS.default_handles_distinct hash → power_on kernel_end b →
  ∃ b', init hash trap_entry kernel_end b = Ret (tt, b') ∧ kernel_heap init_credits ∅ (alloc b')
    ∧ TS.running hash (traps b') [] ∧ TS.stvec (TS.hart (traps b')) = Z.lor trap_entry 0.
Proof.
  intros Hd [Hl Hin Hi He Hck Ht Htl [H0 H1]]. destruct (align16 kernel_end) as [Ha Hz]; [lia|lia|].
  set (a := Z.land (kernel_end + 15) (usize_not 15)) in *.
  assert (init_accepts a (2 * 1024 * 1024)) as Hacc by (unfold init_accepts; split_and!; lia).
  destruct (init_run (alloc b) a (2 * 1024 * 1024) Hl Hin Hi (proj2 (proj1 (proj2 Hck))) ltac:(lia) Hacc)
    as (g & s & h & E & R & _ & _ & _ & _ & Hi' & _ & Htot & Hfs).
  destruct (init_kernel_heap (alloc b) a (2 * 1024 * 1024) Hl Hin Hi He Hck ltac:(lia) Hacc)
    as (g' & E' & Hb); [done|lia|lia|]. rewrite E in E'. injection E' as <-.
  destruct (TS.initialize_run hash trap_entry (traps b) Direct Ht Htl Hd) as (t & pf & ii & Et & Hrun & _ & Hv & _).
  assert (∀ w, ∃ r, test_dynamic_structures (mkR g w) = Ret (tt, r) ∧ kernel_heap init_credits ∅ (kernel r)) as Htest.
  { intros w. destruct (test_dynamic_structures_run (2 * 1024 * 1024 - HEADER_SIZE) ∅ (mkR g w) Hb) as (r & Er & Hr & _);
      [by vm_compute|]. by exists r. }
  enough (arrives (init hash trap_entry kernel_end) b (λ b', kernel_heap init_credits ∅ (alloc b')
    ∧ TS.running hash (traps b') [] ∧ TS.stvec (TS.hart (traps b')) = Z.lor trap_entry 0)) as H by exact H.
  unfold init. apply arrives_report; [returns|]. intros w0.
  eapply arrives_step; [apply usize_add_ok; lia|]. fold a. cbv zeta.
  destruct (on_report_erases _ _ (mkB (alloc b) (traps b) w0) (Ok tt) g
    (erases_init a (2 * 1024 * 1024) ltac:(split; lia) ltac:(split; lia)) Hck E) as [w0' E1].
  eapply arrives_step; [exact E1|]. cbn iota.
  apply (arrives_seq _ _ _ _ (λ b', alloc b' = g ∧ traps b' = traps b)).
  { apply arrives_report; cbn [alloc traps].
    { apply returns_tagged; [|by vm_compute]. printable; apply short_usize; unfold in_u64; lia. }
    intros w1. eapply arrives_step; [apply on_alloc_same; apply (api_stats_run g s); [apply R|done]|]. cbn iota.
    rewrite Htot, Hfs. eapply arrives_step; [by apply usize_sub_ok|].
    apply arrives_last; [|by intros w].
    apply returns_tagged; [|by vm_compute]. printable; by vm_compute. }
  intros [g1 t1 w1] [Eg Et1]. cbn [alloc traps] in Eg, Et1. subst g1 t1.
  eapply arrives_step; [unfold on_traps; apply zoom_Ret; exact Et|]. cbn [alloc traps firmware].
  apply arrives_report; [returns|]. intros w2. cbn [alloc traps].
  destruct (Htest w2) as (r & Er & Hr). eapply arrives_step; [unfold on_report; apply zoom_Ret; exact Er|].
  apply arrives_report; [apply print_sbi_info_returns|]. intros w3. cbn [alloc traps].
  apply arrives_last; [returns|]. intros w4. split_and!; [exact Hr|exact Hrun|exact Hv].
Qed.

Lemma start_run stack sbss ebss kernel_end b :
  TS.default_handles_distinct hash → power_on kernel_end b →
  0 < stack → stack + STACK_SIZE < 2 ^ 64 → in_u64 sbss → in_u64 ebss →
  arrives (_start hash trap_entry stack sbss ebss kernel_end) b (λ b', kernel_heap init_credits ∅ (alloc b')
    ∧ TS.running hash (traps b') [] ∧ TS.stvec (TS.hart (traps b')) = Z.lor trap_entry 0).
Proof.
  intros Hd [Hl Hin Hi He Hck Ht Htl Hr] H1 H2 H3 H4.
  destruct (clear_bss_exact sbss ebss stack (stack + STACK_SIZE) (machine (alloc b))) as (ms & Ec & _).
  destruct b as [g t w]. cbn [alloc traps firmware] in *. unfold _start, rust_main.
  eapply arrives_step; [apply on_alloc_Ret; unfold on_machine; apply zoom_Ret; exact Ec|].
  apply arrives_report.
  { intros w1. destruct (banner_doubles_prefix stack sbss ebss kernel_end w1) as (? & ? & ? & E & _);
      [done..|unfold in_u64; lia|]. by eexists. }
  intros w1. cbn [alloc traps].
  edestruct (init_run_all kernel_end) as (b1 & E1 & Hb & Hrun & Hv); [exact Hd| |eapply arrives_step; [exact E1|]].
  { split; cbn; try done. destruct Hck as (T1 & T2 & T3). split_and!; try apply T3; [done|].
    by apply (wt_clear_bss _ _ _ _ _ _ _ T2 Ec). }
  destruct (verify_returns _ _ b1 Hb ltac:(apply Hrun)) as (b2 & E2 & Ha & Ht2).
  exists b2. split; [exact E2|]. by rewrite Ha, Ht2.
Qed.

(** C3: The kernel boots.  From power-on, wherever the linker put the stack and the
    BSS segment, [_start] gets to the main loop: it neither panics nor hangs in
    clearing the BSS, printing the banner, initialising the heap and the trap
    system, testing the dynamic structures, printing the firmware's information
    or verifying the state.  The heap is then well formed and enabled, the trap
    system runs with its log empty, and [stvec] holds the trap entry in direct
    mode. *)
Theorem kernel_boots stack sbss ebss kernel_end b :
  TS.default_handles_distinct hash → power_on kernel_end b →
  0 < stack → stack + STACK_SIZE < 2 ^ 64 → in_u64 sbss → in_u64 ebss →
  ∃ b' N s bs, _start hash trap_entry stack sbss ebss kernel_end b = Ret (tt, b')
    ∧ heap_ready N (alloc b') s bs ∧ initialized (alloc b') = true ∧ enabled (alloc b') = true
    ∧ TS.running hash (traps b') [] ∧ TS.stvec (TS.hart (traps b')) = Z.lor trap_entry 0.
Proof.
  intros Hd Hp H1 H2 H3 H4. destruct (start_run stack sbss ebss kernel_end b Hd Hp H1 H2 H3 H4)
    as (b' & E & [(N & s & bs & R & _ & _ & Hi & He & _) _] & Hrun & Hv).
  by exists b', N, s, bs.
Qed.

End boot_run.

(** A test run on the heap of an example, and a boot. *)
Lemma blank_typed : typed (mkG false None false true (mkMachine ∅ 0) 0 0).
Proof. split_and!; [done|split; [apply map_Forall_empty|done]|done|done]. Qed.

Lemma dynamic_structures_test_passes_witness :
  ∃ g r, byte_heap 65488 ∅ g ∧ test_dynamic_structures (P := Dev) (mkR g FwDemo.off) = Ret (tt, r)
    ∧ console r = emit test_report FwDemo.off.
Proof.
  destruct (init_kernel_heap (P := Dev) (mkG false None false true (mkMachine ∅ 0) 0 0) 2151677952 65536)
    as (g & _ & H); [reflexivity..|apply blank_typed|by_eval|split_and!; by_eval|by_eval|by_eval|by_eval|].
  destruct (dynamic_structures_test_passes (P := Dev) 65488 ∅ (mkR g FwDemo.off) H ltac:(by_eval)) as (r & E & Hw & _).
  exists g, r. split; [exact (proj1 H)|]. split; [exact E|exact Hw].
Defined.

Lemma kernel_boots_witness :
  ∃ b', _start (P := Dev) HM.Demo.hash 4096 2149548032 2149564416 2149580000 2149580800
          (mkB GlobalDemo.g_boot TS.SysDemo.boot FwDemo.off) = Ret (tt, b') ∧ initialized (alloc b') = true.
Proof.
  destruct (kernel_boots (P := Dev) (W := FwDemo.t) ltac:(intros; split; by_eval) HM.Demo.hash 4096 2149548032
              2149564416 2149580000 2149580800 (mkB GlobalDemo.g_boot TS.SysDemo.boot FwDemo.off)
              TS.SysDemo.handles_distinct) as (b' & N & s & bs & E & _ & Hi & _);
    [split; try reflexivity; [apply blank_typed|split; by_eval]|by_eval|by_eval|split; by_eval|split; by_eval|].
  exists b'. split; [exact E|exact Hi].
Defined.
