(* ===== verification/TrapHeap.v ===== *)
(** * Trap reports on the heap

    [TrapSystem::handle_trap] ([di/container.rs]) and [dispatch_trap]
    ([di/mod.rs]) once more, with the storage of the messages: [alloc::format!]
    takes a [String] from the global allocator, inside the trap, and the error log
    keeps it until the entry is overwritten.  [TrapSystem.v] leaves this out; here
    the two are compared: as long as the allocator answers, a trap does what it
    does there, and when the trap interrupted the allocator it never comes back. *)

From Stdlib Require Import ZArith Lia String.
From stdpp Require Import base option numbers sorting strings gmap list.
From S2P Require Import ErrorManager TrapSystem TrapTypes RingBuffer Prelude Memory Metadata Allocator Arrays Handover Examples GlobalAlloc AllocApi GlobalThms HandoverSnapshot Collections Sbi Console Boot Reports System Startup.

Section trap_heap.
Context {P : Profile} {V W : Type} `{!Firmware W}.
(** What [core::fmt] estimates for the length of the text, and reserves first. *)
Context (estimated_capacity : Z).

(** The allocator with the console, the trap system, and the [String]s of the
    entries in the error log, the oldest first. *)
Record HState : Type := mkH { heap : RState W; sys : TS.KState V; texts : list Vec.t }.

Definition on_heap {A} (m : M (RState W) A) : M HState A := zoom heap (λ h s, mkH h (sys s) (texts s)) m.
Definition on_sys {A} (m : M (TS.KState V) A) : M HState A := zoom sys (λ t s, mkH (heap s) t (texts s)) m.
Definition set_texts (l : list Vec.t) : M HState unit := modify (λ s, mkH (heap s) (sys s) l).

(** [fmt::Write] for a [String]: one [push_str] per piece. *)
Fixpoint write_pieces (v : Vec.t) (pieces : list string) : M (RState W) Vec.t :=
  match pieces with
  | [] => mret v
  | piece :: rest => v ← Str.push_str v (chars piece); write_pieces v rest
  end.

Definition format (pieces : list string) : M (RState W) Vec.t :=
  v ← Vec.with_capacity 1 1 estimated_capacity;
  write_pieces v pieces.

(** [{:#x}] writes the prefix and the digits. *)
Definition hex_pieces (n : Z) : list string := ["0x"; TS.hex_digits 16 n EmptyString]%string.

Definition unhandled_pieces (ctx : TrapContext.t) : list string :=
  ["Unhandled trap: "%string; TS.debug_trap_type (TrapCause.to_trap_type (TrapContext.cause ctx)); ", SEPC: "%string]
  ++ hex_pieces (TrapContext.sepc ctx) ++ [", STVAL: "%string] ++ hex_pieces (TrapContext.stval ctx).
Definition failed_pieces (ctx : TrapContext.t) (e : TS.HM.TrapError) : list string :=
  ["Trap handler failed for "%string; TS.debug_trap_type (TrapCause.to_trap_type (TrapContext.cause ctx)); ": "%string;
   TS.debug_trap_error e; ", SEPC: "%string] ++ hex_pieces (TrapContext.sepc ctx).

(** The log takes the text over; the entry that a full log overwrites is
    dropped. *)
Definition keep_text (v : Vec.t) : M HState unit :=
  s ← gets (λ s, s);
  match texts s with
  | oldest :: rest =>
      if Z.of_nat (length (texts s)) <? TS.EM.ERROR_LOG_CAPACITY then set_texts (texts s ++ [v])
      else on_heap (Str.drop oldest);; set_texts (rest ++ [v])
  | [] => set_texts [v]
  end.

(** [handle_error] of a report: the log entry is its last step. *)
Definition report (lvl : ErrorLevel.t) (message : string) (v : Vec.t) (ctx : TrapContext.t) : M HState unit :=
  on_sys (TS.on_errors (TS.EM.handle_error (TS.trap_report lvl message ctx)));;
  keep_text v.

Definition handle_trap (ctx : TrapContext.t) : M HState TrapContext.t :=
  '(r, ctx') ← on_sys (TS.on_handlers (TS.HM.dispatch ctx));
  match r with
  | TS.HM.TrapHandlerResult.Handled => mret ctx'
  | TS.HM.TrapHandlerResult.Pass =>
      message ← on_heap (format (unhandled_pieces ctx'));
      report ErrorLevel.Critical (TS.unhandled_message ctx') message ctx';;
      mret ctx'
  | TS.HM.TrapHandlerResult.Failed e =>
      message ← on_heap (format (failed_pieces ctx' e));
      report ErrorLevel.Error (TS.failed_message ctx' e) message ctx';;
      mret ctx'
  end.

Definition dispatch_trap (ctx : TrapContext.t) : M HState TrapContext.t :=
  s ← gets sys;
  if TS.locked s then hang
  else if negb (TS.installed s) then panic
  else
    on_sys (TS.set_locked true);;
    r ← handle_trap ctx;
    on_sys (TS.set_locked false);;
    mret r.

End trap_heap.

Arguments HState : clear implicits.

(** The pieces make up the message. *)
Lemma append_empty (s : string) : String.append s EmptyString = s.
Proof. induction s as [|c s IH]; [done|]. change (String c (String.append s EmptyString) = String c s). by rewrite IH. Qed.

Lemma unhandled_pieces_text ctx : foldr String.append EmptyString (unhandled_pieces ctx) = TS.unhandled_message ctx.
Proof.
  unfold unhandled_pieces, hex_pieces, TS.unhandled_message, TS.hex. cbn [foldr app].
  rewrite append_empty. reflexivity.
Qed.

(** ** Comparison with the trap system alone *)

Section comparison.
Context {P : Profile} {V W : Type} `{!Firmware W} (estimated_capacity : Z) (hash : string → TrapType.t → Z).
Implicit Types s : HState V W.

Abbreviation dispatch_trap := (dispatch_trap (V := V) (W := W) estimated_capacity).
Abbreviation format := (format (W := W) estimated_capacity).

(** The outcome of a computation whose first step does not return. *)
Definition stops {S A} (o : outcome (A * S)) : Prop := match o with Ret _ => False | _ => True end.

Lemma bind_stops {S A B} (m : M S A) (k : A → M S B) (x : S) : stops (m x) → stops ((m ≫= k) x).
Proof. unfold mbind, M_bind. by destruct (m x) as [[]| | |]. Qed.

(** Reserving storage for the text with the allocator's lock taken, and when the
    allocator answers null. *)
Lemma format_locked pieces (r : RState W) :
  0 < estimated_capacity → locked (kernel r) = true → format pieces r = Hang.
Proof.
  intros Hc Hl. unfold TrapHeap.format, Vec.with_capacity. rewrite (proj2 (Z.eqb_neq _ _)) by lia.
  unfold ga_alloc, EarlyGlobalAllocator, on_kernel, zoom, Global_alloc, TS_alloc_aligned, with_allocator, under_lock,
    gets, mbind, M_bind. by rewrite Hl.
Qed.

Lemma alloc_error_stops l (r : RState W) : stops (alloc_error_handler l r).
Proof.
  destruct (alloc_error_handler l r) as [[[] r']| | |] eqn:E; [|done..].
  unfold alloc_error_handler in E. apply bind_inv in E as (? & ? & _ & E). apply bind_inv in E as (? & ? & _ & E).
  apply bind_inv in E as (? & ? & _ & E). by apply bind_inv in E as (? & ? & _ & E).
Qed.

Lemma format_no_memory pieces (r : RState W) g :
  0 < estimated_capacity → Global_alloc (mkLayout estimated_capacity 1) (kernel r) = Ret (0, g) →
  stops (format pieces r).
Proof.
  intros Hc E. unfold TrapHeap.format. apply bind_stops.
  unfold Vec.with_capacity. rewrite (proj2 (Z.eqb_neq _ _)) by lia.
  unfold mbind, M_bind, Vec.layout. rewrite Z.mul_1_r. unfold ga_alloc, EarlyGlobalAllocator.
  rewrite (on_kernel_Ret _ _ _ _ E). cbn [Z.eqb].
  pose proof (alloc_error_stops (mkLayout estimated_capacity 1) (mkR g (console r))) as H. unfold ga_error.
  by destruct (alloc_error_handler _ _) as [[]| | |].
Qed.

Lemma keep_text_run v s :
  Z.of_nat (length (texts s)) < TS.EM.ERROR_LOG_CAPACITY →
  keep_text v s = Ret (tt, mkH (heap s) (sys s) (texts s ++ [v])).
Proof.
  intros H. unfold keep_text. mstep. destruct (texts s) as [|oldest rest]; [done|].
  by rewrite (proj2 (Z.ltb_lt _ _)).
Qed.

(** The body of [dispatch_trap] once the lock is taken. *)
Lemma dispatch_trap_locked ctx s q :
  TS.running hash (sys s) q →
  dispatch_trap ctx s
  = (r ← handle_trap estimated_capacity ctx; on_sys (TS.set_locked false);; mret r)
      (mkH (heap s) (TS.mkKState (TS.hart (sys s)) (TS.initialized (sys s)) true true (TS.hm (sys s)) (TS.em (sys s)))
         (texts s)).
Proof.
  intros [_ Hi Hl _ _]. unfold TrapHeap.dispatch_trap. mstep. rewrite Hl, Hi. cbn [negb].
  mstep_with ltac:(unfold on_sys, zoom, TS.set_locked, modify; rewrite Hi; reflexivity). reflexivity.
Qed.

(** C20: The report of an unhandled trap takes its message from the heap.  A trap
    that some handler handles leaves the allocator alone and does what the trap
    system does by itself.  For one that no handler takes, [format!] runs inside the
    trap: when the trap interrupted a call that holds the allocator's lock, it spins
    for ever, with the lock of the trap system held; when the allocator answers
    null, it does not return either (the allocation error handler panics); and when
    the formatting returns, the trap does what the trap system does by itself, the
    log keeping the text. *)
Theorem unhandled_traps_allocate s q ctx :
  TS.running hash (sys s) q → 0 < estimated_capacity →
  Z.of_nat (length (texts s)) < TS.EM.ERROR_LOG_CAPACITY →
  ∃ es, TS.HM.entries (TS.hm (sys s))
          (TS.HM.dispatch_order (TS.hm (sys s)) (TrapCause.to_trap_type (TrapContext.cause ctx))) es
  ∧ let '(handled, ctx', w') := TS.HM.try_handlers es ctx (TS.HM.world (TS.hm (sys s))) in
    ∃ t', TS.dispatch_trap ctx (sys s) = Ret (ctx', t')
    ∧ if (handled : bool) then dispatch_trap ctx s = Ret (ctx', mkH (heap s) t' (texts s))
      else
        (locked (kernel (heap s)) = true → dispatch_trap ctx s = Hang)
        ∧ (∀ g, Global_alloc (mkLayout estimated_capacity 1) (kernel (heap s)) = Ret (0, g) →
             stops (dispatch_trap ctx s))
        ∧ (∀ v h, format (unhandled_pieces ctx') (heap s) = Ret (v, h) →
             dispatch_trap ctx s = Ret (ctx', mkH h t' (texts s ++ [v]))).
Proof.
  intros R Hc Hn. pose proof (dispatch_trap_locked ctx s q R) as Ed. pose proof R as [R1 R2 R3 R4 R5].
  destruct (TS.HM.entries_exist hash (TS.hm (sys s)) (TrapCause.to_trap_type (TrapContext.cause ctx)) R4) as [es Hes].
  exists es. split; [done|]. pose proof (TS.HM.dispatch_spec (TS.hm (sys s)) ctx es Hes) as Hd.
  destruct (TS.HM.try_handlers es ctx (TS.HM.world (TS.hm (sys s)))) as [[handled ctx'] w']. destruct handled.
  - eexists. split.
    + unfold TS.dispatch_trap. apply TS.with_trap_system_run; [done|done|].
      unfold TS.handle_trap. mstep_with ltac:(apply zoom_Ret; exact Hd). reflexivity.
    + rewrite Ed. mstep_with ltac:(unfold handle_trap; mstep_with ltac:(do 2 apply zoom_Ret; exact Hd); reflexivity).
      reflexivity.
  - pose proof (TS.EM.handle_error_spec (TS.unhandled_report ctx') (TS.EM.mkEState (TS.em (sys s)) w') q R5) as He.
    cbn [TS.EM.mgr TS.EM.world] in He. cbv zeta in He.
    destruct (if TS.EM.panic_mode (TS.em (sys s)) && _ then _ else _) as [r w2]. destruct He as (l' & E & _).
    set (s1 := mkH (heap s) (TS.mkKState (TS.hart (sys s)) (TS.initialized (sys s)) true true
                               (TS.HM.set_world w' (TS.hm (sys s))) (TS.em (sys s))) (texts s)).
    assert (dispatch_trap ctx s
      = (r ← (message ← on_heap (format (unhandled_pieces ctx'));
              report ErrorLevel.Critical (TS.unhandled_message ctx') message ctx';; mret ctx');
         on_sys (TS.set_locked false);; mret r) s1) as Es.
    { rewrite Ed. unfold handle_trap. rewrite bind_assoc. mstep_with ltac:(do 2 apply zoom_Ret; exact Hd). reflexivity. }
    eexists. split; [|split_and!].
    + unfold TS.dispatch_trap. apply TS.with_trap_system_run; [done|done|].
      unfold TS.handle_trap. mstep_with ltac:(apply zoom_Ret; exact Hd). cbv beta iota.
      mstep_with ltac:(apply zoom_Ret; exact E). reflexivity.
    + intros Hl. rewrite Es. unfold on_heap, zoom, mbind, M_bind. by rewrite (format_locked _ (heap s1)).
    + intros g Eg. rewrite Es. do 2 apply bind_stops. unfold on_heap, zoom.
      pose proof (format_no_memory (unhandled_pieces ctx') (heap s1) g Hc Eg) as Hst.
      by destruct (format (unhandled_pieces ctx') (heap s1)) as [[]| | |].
    + intros v h Ef. rewrite Es. mstep_with ltac:(mstep_with ltac:(apply zoom_Ret; exact Ef);
        mstep_with ltac:(unfold report; mstep_with ltac:(do 2 apply zoom_Ret; exact E);
          by apply keep_text_run); reflexivity).
      reflexivity.
Qed.

End comparison.

(** ** A breakpoint nobody handles *)

Module TrapHeapDemo.

Definition breakpoint : TrapContext.t := TrapContext.mk (replicate 32 0) 0 4096 3 0.

(** A heap of 1 KiB with room, and the same inside a call of the allocator. *)
Definition idle : HState Z FwDemo.t := mkH (mkR GlobalDemo.g3 FwDemo.off) TS.SysDemo.up [].
Definition in_alloc : HState Z FwDemo.t :=
  mkH (mkR (set_locked true GlobalDemo.g3) FwDemo.off) TS.SysDemo.up [].

(** There is room for the text. *)
Lemma formats :
  match format (P := Dev) 66 (unhandled_pieces breakpoint) (heap idle) with Ret _ => true | _ => false end = true.
Proof. vm_compute. reflexivity. Qed.

End TrapHeapDemo.

Lemma unhandled_traps_allocate_witness :
  (∃ s', dispatch_trap (P := Dev) 66 TrapHeapDemo.breakpoint TrapHeapDemo.idle = Ret (TrapHeapDemo.breakpoint, s')
     ∧ length (texts s') = 1%nat)
  ∧ dispatch_trap (P := Dev) 66 TrapHeapDemo.breakpoint TrapHeapDemo.in_alloc = Hang.
Proof.
  split.
  - destruct (unhandled_traps_allocate (P := Dev) 66 TS.HM.Demo.hash TrapHeapDemo.idle [] TrapHeapDemo.breakpoint
                TS.SysDemo.up_running eq_refl eq_refl) as (es & Hes & H).
    apply Forall2_nil_inv_l in Hes as ->. destruct H as (t' & _ & _ & _ & H).
    pose proof TrapHeapDemo.formats as E.
    destruct (format (P := Dev) 66 (unhandled_pieces TrapHeapDemo.breakpoint) (heap TrapHeapDemo.idle))
      as [[v h]| | |]; [clear E|discriminate E..].
    eexists. split; [exact (H v h eq_refl)|reflexivity].
  - destruct (unhandled_traps_allocate (P := Dev) 66 TS.HM.Demo.hash TrapHeapDemo.in_alloc [] TrapHeapDemo.breakpoint
                TS.SysDemo.up_running eq_refl eq_refl) as (es & Hes & H).
    apply Forall2_nil_inv_l in Hes as ->. destruct H as (t' & _ & H & _). exact (H eq_refl).
Defined.
