(* ===== verification/SelfTest.v ===== *)
(** * The main loop and the self tests

    Models [main_loop] of [src/lib.rs] and the tests it runs: the runner of
    [src/test/mod.rs], the console and firmware tests of
    [src/test/console_test.rs] and [src/test/sbi_test.rs], and [run_alloc_tests]
    of [src/test/alloc_test.rs].  The list of the last suite is an argument here:
    what is proved holds for every list of tests, and so for that of the source
    ([AllocTests.v]). *)

From Stdlib Require Import ZArith Lia String.
From stdpp Require Import base option numbers sorting strings gmap list.
From S2P Require Import TrapSystem TrapTypes Prelude Memory Metadata Allocator HeapInv AllocSteps AllocOps Arrays Handover Examples GlobalAlloc AllocApi GlobalThms HandoverSnapshot ByteHeap TypeSafety Sbi Console Boot Reports Messages System Startup.

(** ** The runner *)

Inductive TestResult : Type := Pass | Fail | Skip.

#[global] Instance TestResult_eq_dec : EqDecision TestResult.
Proof. solve_decision. Defined.

Record TestCase (S : Type) : Type := mkTestCase {
  name : string;
  func : M S TestResult;
  description : string;
}.
Arguments mkTestCase {S} _ _ _.
Arguments name {S} _.
Arguments func {S} _.
Arguments description {S} _.

Module TestRunner.
Record t : Type := mk { total : Z; passed : Z; failed : Z; skipped : Z }.

Definition new : t := mk 0 0 0 0.

(** [match result] *)
Definition count {P : Profile} {S} (r : TestResult) (self : t) : M S t :=
  match r with
  | Pass => n ← usize_add (passed self) 1; mret (mk (total self) n (failed self) (skipped self))
  | Fail => n ← usize_add (failed self) 1; mret (mk (total self) (passed self) n (skipped self))
  | Skip => n ← usize_add (skipped self) 1; mret (mk (total self) (passed self) (failed self) n)
  end.

Section run.
Context {P : Profile} {W : Type} `{!Firmware W}.

Definition run_test (test : TestCase (RState W)) (self : t) : M (RState W) t :=
  n ← usize_add (total self) 1;
  let self := mk n (passed self) (failed self) (skipped self) in
  on_console (println [Lit "Running test: "; Str (name test); Lit " - "; Str (description test)]);;
  result ← func test;
  self ← count result self;
  on_console (match result with
              | Pass => info_print [Lit "  [PASS] "; Str (name test)]
              | Fail => error_print [Lit "  [FAIL] "; Str (name test)]
              | Skip => warn_print [Lit "  [SKIP] "; Str (name test)]
              end);;
  mret self.

(** [for test in tests] *)
Fixpoint run_tests (tests : list (TestCase (RState W))) (self : t) : M (RState W) t :=
  match tests with
  | [] => mret self
  | test :: rest => self ← run_test test self; run_tests rest self
  end.

Definition run_suite (suite_name : string) (tests : list (TestCase (RState W))) (self : t)
    : M (RState W) t :=
  on_console (println [Lit "=== "; Str suite_name; Lit " Test Suite ==="]);;
  self ← run_tests tests self;
  on_console (println [Lit "=== "; Str suite_name; Lit " Test Suite Complete ==="]);;
  mret self.

Definition print_summary (self : t) : M W unit :=
  println [Lit "=== Test Summary ==="];;
  println [Lit "Total tests: "; Dec (total self)];;
  info_print [Lit "Passed: "; Dec (passed self)];;
  (if 0 <? failed self then error_print [Lit "Failed: "; Dec (failed self)]
   else info_print [Lit "Failed: "; Dec (failed self)]);;
  (if 0 <? skipped self then warn_print [Lit "Skipped: "; Dec (skipped self)]
   else info_print [Lit "Skipped: "; Dec (skipped self)]);;
  success_rate ← (if 0 <? total self
                  then n ← arith 64 (passed self * 100); mret (n / total self)
                  else mret 100);
  (if (success_rate =? 100) && (failed self =? 0)
   then info_print [Lit "Success rate: "; Dec success_rate; Lit "% - All tests passed!"]
   else warn_print [Lit "Success rate: "; Dec success_rate; Lit "%"]);;
  println [Lit "=================="].

Definition all_passed (self : t) : bool := (failed self =? 0) && (0 <? total self).

End run.
End TestRunner.

Section tests.
Context {P : Profile} {W : Type} `{!Firmware W}.

(** ** [console_test.rs] *)

Definition test_basic_char_output : M (RState W) TestResult :=
  on_console (print_char 65);;
  on_console (print_char 66);;
  on_console (print_char 67);;
  on_console (print_char 10);;
  mret Pass.

Definition test_string_output : M (RState W) TestResult :=
  on_console (print_str (chars "Hello from string output test" ++ newline));;
  mret Pass.

Definition test_decimal_output : M (RState W) TestResult :=
  on_console (print_str (chars "Decimal numbers: "));;
  on_console (print_num 0);;
  on_console (print_str (chars ", "));;
  on_console (print_num 42);;
  on_console (print_str (chars ", "));;
  on_console (print_num 12345);;
  on_console (print_str newline);;
  mret Pass.

Definition test_hex_output : M (RState W) TestResult :=
  on_console (print_str (chars "Hex numbers: "));;
  on_console (print_hex 0);;
  on_console (print_str (chars ", "));;
  on_console (print_hex 255);;
  on_console (print_str (chars ", "));;
  on_console (print_hex 0xDEADBEEF);;
  on_console (print_str newline);;
  mret Pass.

Definition test_octal_output : M (RState W) TestResult :=
  on_console (print_str (chars "Octal numbers: "));;
  on_console (print_oct 0);;
  on_console (print_str (chars ", "));;
  on_console (print_oct 64);;
  on_console (print_str (chars ", "));;
  on_console (print_oct 511);;
  on_console (print_str newline);;
  mret Pass.

Definition test_format_macros : M (RState W) TestResult :=
  on_console (println [Lit "Testing println macro: "; Str "success"]);;
  on_console (println [Lit "Numbers: "; Dec 42; Lit " "; Dec 0xFF; Lit " "; Dec 63]);;
  mret Pass.

Definition test_color_output : M (RState W) TestResult :=
  on_console (info_print [Lit "This is an info message from test"]);;
  on_console (warn_print [Lit "This is a warning message from test"]);;
  on_console (error_print [Lit "This is an error message from test"]);;
  mret Pass.

Definition test_debug_output : M (RState W) TestResult :=
  on_console (debug_print "src/test/console_test.rs" 76 [Lit "Debug message with line info"]);;
  mret Pass.

Definition CONSOLE_TESTS : list (TestCase (RState W)) :=
  [mkTestCase "basic_char_output" test_basic_char_output "Test basic character output functionality";
   mkTestCase "string_output" test_string_output "Test string output functionality";
   mkTestCase "decimal_output" test_decimal_output "Test decimal number output";
   mkTestCase "hex_output" test_hex_output "Test hexadecimal number output";
   mkTestCase "octal_output" test_octal_output "Test octal number output";
   mkTestCase "format_macros" test_format_macros "Test formatting macros (println!)";
   mkTestCase "color_output" test_color_output "Test colored output macros";
   mkTestCase "debug_output" test_debug_output "Test debug output with file/line info"].

Definition run_console_tests (runner : TestRunner.t) : M (RState W) TestRunner.t :=
  TestRunner.run_suite "Console" CONSOLE_TESTS runner.

(** ** [sbi_test.rs] *)

Definition test_sbi_base_extension : M (RState W) TestResult :=
  r ← on_console get_spec_version;
  match r with
  | Ok version => on_console (println [Lit "  SBI Spec Version: 0x"; Hex version]);; mret Pass
  | Err _ => on_console (println [Lit "  Failed to get SBI spec version"]);; mret Fail
  end.

(** [for (name, ext_id) in extensions.iter()]; the counter is an [i32] of at most
    four. *)
Fixpoint probe_all (extensions : list (string * Z)) (available_count : Z) : M (RState W) Z :=
  match extensions with
  | [] => mret available_count
  | (name, ext_id) :: rest =>
      is_available ← on_console (is_extension_available ext_id);
      on_console (println [Lit "  "; Str name; Lit " Extension: ";
                           Str (if is_available : bool then "Available" else "Not Available")]);;
      n ← (if is_available : bool then mret (available_count + 1) else mret available_count);
      probe_all rest n
  end.

Definition test_sbi_extension_probe : M (RState W) TestResult :=
  available_count ← probe_all
    [("Timer", extension_ids.TIMER); ("IPI", extension_ids.IPI); ("RFENCE", extension_ids.RFENCE);
     ("HSM", extension_ids.HSM)] 0;
  mret (if 1 <=? available_count then Pass else Fail).

Definition test_timer_extension : M (RState W) TestResult :=
  r ← on_console (set_timer 1000000);
  match r with
  | Ok _ => on_console (println [Lit "  Timer set successfully"]);; mret Pass
  | Err _ => on_console (println [Lit "  Failed to set timer"]);; mret Fail
  end.

Definition test_console_extension : M (RState W) TestResult :=
  r ← on_console (putchar 84);
  match r with
  | Ok _ =>
      on_console (println []);;
      on_console (println [Lit "  Console putchar test passed"]);;
      mret Pass
  | Err _ => on_console (println [Lit "  Console putchar test failed"]);; mret Fail
  end.

Definition SBI_TESTS : list (TestCase (RState W)) :=
  [mkTestCase "sbi_base_extension" test_sbi_base_extension "Test SBI base extension functionality";
   mkTestCase "sbi_extension_probe" test_sbi_extension_probe "Test SBI extension availability probing";
   mkTestCase "timer_extension" test_timer_extension "Test SBI timer extension";
   mkTestCase "console_extension" test_console_extension "Test SBI console functionality"].

Definition run_sbi_tests (runner : TestRunner.t) : M (RState W) TestRunner.t :=
  TestRunner.run_suite "SBI" SBI_TESTS runner.

(** ** [alloc_test.rs] *)

Context (info_layout : Layout) (info_bytes : HandoverInfo.t → list Z).
Context (ALLOC_TESTS : list (TestCase (RState W))).

Definition create_snapshot : M (RState W) (option Api.MemorySnapshot) :=
  on_kernel (Api.create_snapshot info_layout info_bytes).

(** A snapshot owns the box of its handover information. *)
Definition drop_snapshot (s : option Api.MemorySnapshot) : M (RState W) unit :=
  match s with
  | Some s => on_kernel (EarlyBox_drop (fst (Api.handover_info s)) info_layout)
  | None => mret tt
  end.

Definition compare_snapshots (before after : Api.MemorySnapshot) : M (RState W) unit :=
  on_console (println [Lit "Memory usage during tests:"]);;
  comparison ← Api.compare before after;
  on_console (SnapshotComparison_print comparison);;
  (if 0 <? Api.size_delta comparison
   then on_console (warn_print [Lit "Potential memory leak detected during tests: ";
                                Dec (Api.size_delta comparison); Lit " bytes"])
   else mret tt).

Definition print_state (title : string) (after : AllocStats.t → M (RState W) unit) : M (RState W) unit :=
  st ← on_kernel Api.stats;
  match st with
  | Some stats =>
      on_console (println [Lit title]);;
      on_console (AllocStats_print_summary stats);;
      after stats
  | None => mret tt
  end.

(** Up to the first snapshot. *)
Definition alloc_tests_start : M (RState W) unit :=
  on_console (println [Lit "Starting comprehensive allocator test suite..."]);;
  print_state "Pre-test memory state:" (λ _, mret tt).

Definition run_alloc_tests (runner : TestRunner.t) : M (RState W) TestRunner.t :=
  alloc_tests_start;;
  snapshot_before ← create_snapshot;
  runner ← TestRunner.run_suite "Enhanced Allocator" ALLOC_TESTS runner;
  snapshot_after ← create_snapshot;
  (match snapshot_before, snapshot_after with
   | Some before, Some after => compare_snapshots before after
   | _, _ => mret tt
   end);;
  drop_snapshot snapshot_after;;
  drop_snapshot snapshot_before;;
  c ← on_kernel Api.integrity_check;
  (match c with
   | Ok _ => on_console (println [Lit "Post-test integrity check: PASSED"])
   | Err e => on_console (warn_print [Lit "Post-test integrity check: FAILED ("; Str (AllocError_debug e);
                                      Lit ")"])
   end);;
  print_state "Post-test memory state:" (λ stats,
    health ← check_health stats;
    if negb (is_healthy health)
    then on_console (warn_print [Lit "Allocator health issues after tests:"]);;
         on_console (print_report health)
    else mret tt);;
  on_console (println [Lit "Allocator test suite completed"]);;
  mret runner.

(** ** [test/mod.rs] and [lib.rs] *)

Definition run_all_tests : M (RState W) unit :=
  runner ← run_console_tests TestRunner.new;
  runner ← run_sbi_tests runner;
  runner ← run_alloc_tests runner;
  on_console (TestRunner.print_summary runner);;
  on_console (if TestRunner.all_passed runner
              then info_print [Lit "All test suites completed successfully!"]
              else warn_print [Lit "Some tests failed or were skipped"]).

(** [main_loop] before its idle loop, and with it: [wfi] forever. *)
Definition main_loop_start : M (RState W) unit :=
  on_console (info_print [Lit "Entering main operating loop..."]);;
  on_console (info_print [Lit "Running comprehensive test suites..."]);;
  run_all_tests;;
  on_console (info_print [Lit "All test suites completed."]);;
  print_status;;
  on_console (info_print [Lit "System ready. Entering idle loop."]).

Definition main_loop : M (RState W) unit := main_loop_start;; hang.

End tests.

(** ** The runner's counters *)

(** How often [v] is among the results. *)
Definition times (v : TestResult) (results : list TestResult) : Z :=
  Z.of_nat (length (filter (λ r, r = v) results)).

Definition tally (self : TestRunner.t) (results : list TestResult) : TestRunner.t :=
  TestRunner.mk (TestRunner.total self + Z.of_nat (length results))
    (TestRunner.passed self + times Pass results) (TestRunner.failed self + times Fail results)
    (TestRunner.skipped self + times Skip results).

(** Every test is counted once. *)
Record balanced (self : TestRunner.t) : Prop := {
  bal_passed : 0 ≤ TestRunner.passed self;
  bal_failed : 0 ≤ TestRunner.failed self;
  bal_skipped : 0 ≤ TestRunner.skipped self;
  bal_total : TestRunner.total self
              = TestRunner.passed self + TestRunner.failed self + TestRunner.skipped self;
}.

Lemma times_cons v r results : times v (r :: results) = (if decide (r = v) then 1 else 0) + times v results.
Proof. unfold times. rewrite filter_cons. case_decide; cbn [length]; lia. Qed.

Lemma times_total results :
  Z.of_nat (length results) = times Pass results + times Fail results + times Skip results.
Proof.
  induction results as [|r results IH]; [done|]. rewrite !times_cons. cbn [length].
  destruct r; repeat case_decide; first [lia|done].
Qed.

Lemma times_nonneg v results : 0 ≤ times v results.
Proof. unfold times. lia. Qed.

Lemma times_zero v results : times v results = 0 ↔ v ∉ results.
Proof.
  induction results as [|r results IH]; [split; [by intros _ ?%elem_of_nil|done]|].
  pose proof (times_nonneg v results). rewrite times_cons, not_elem_of_cons, <-IH.
  case_decide as Hr; [subst; split; [lia|by intros [? _]]|]. split.
  - intros H0. split; [congruence|lia].
  - intros [_ H0]. lia.
Qed.

Lemma tally_balanced self results : balanced self → balanced (tally self results).
Proof.
  intros [B1 B2 B3 B4]. pose proof (times_total results).
  pose proof (times_nonneg Pass results). pose proof (times_nonneg Fail results). pose proof (times_nonneg Skip results).
  split; cbn; lia.
Qed.

Lemma tally_cons self v results : tally (tally self [v]) results = tally self (v :: results).
Proof.
  unfold tally. cbn [TestRunner.total TestRunner.passed TestRunner.failed TestRunner.skipped length].
  rewrite !times_cons. change (times ?x []) with 0. f_equal; lia.
Qed.

Section runner.
Context {P : Profile} {W : Type} `{!Firmware W}.
Implicit Types (r : RState W) (test : TestCase (RState W)).

(** Names that fit on the console. *)
Definition printable_test test : Prop := short (Str (name test)) ∧ short (Str (description test)).

Lemma count_run {S} v self (s : S) :
  balanced self → TestRunner.total self + 1 < 2 ^ 64 →
  TestRunner.count v (TestRunner.mk (TestRunner.total self + 1) (TestRunner.passed self)
                        (TestRunner.failed self) (TestRunner.skipped self)) s = Ret (tally self [v], s).
Proof.
  intros [B1 B2 B3 B4] Ht. unfold TestRunner.count, tally. rewrite !times_cons. change (times ?x []) with 0.
  destruct v; mstep_with ltac:(apply usize_add_ok; cbn; lia);
    repeat (case_decide; [done || idtac|done || idtac]); cbn; rewrite ?Z.add_0_r; done.
Qed.

(** A test that comes back and keeps [R] of the kernel's state, and a result it
    may have. *)
Definition comes_back (R : GState → Prop) test : Prop :=
  printable_test test ∧ ∀ r, R (kernel r) → ∃ v r', func test r = Ret (v, r') ∧ R (kernel r').
Definition gives (R : GState → Prop) test (v : TestResult) : Prop :=
  ∃ r r', R (kernel r) ∧ func test r = Ret (v, r').

(** One test: the runner prints, runs it, counts it and prints. *)
Lemma run_test_run R test self r :
  balanced self → TestRunner.total self + 1 < 2 ^ 64 → comes_back R test → R (kernel r) →
  ∃ v r', TestRunner.run_test test self r = Ret (tally self [v], r') ∧ gives R test v ∧ R (kernel r').
Proof.
  intros B Ht [[Hn Hd] Hf] HR.
  destruct (returns_println [Lit "Running test: "; Str (name test); Lit " - "; Str (description test)]
              ltac:(printable; assumption) (console r)) as [w1 E1].
  destruct (Hf (mkR (kernel r) w1) HR) as (v & r2 & E2 & HR2).
  assert (returns (W := W) (match v with
     | Pass => info_print [Lit "  [PASS] "; Str (name test)]
     | Fail => error_print [Lit "  [FAIL] "; Str (name test)]
     | Skip => warn_print [Lit "  [SKIP] "; Str (name test)]
     end)) as Hlast by (destruct v; (apply returns_tagged; [printable; assumption|by vm_compute])).
  destruct (Hlast (console r2)) as [w3 E3].
  exists v, (mkR (kernel r2) w3). split_and!; [|by exists (mkR (kernel r) w1), r2|done].
  unfold TestRunner.run_test. mstep_with ltac:(apply usize_add_ok; destruct B; lia).
  mstep_with ltac:(apply zoom_Ret; exact E1). mstep_with ltac:(exact E2).
  mstep_with ltac:(by apply count_run). mstep_with ltac:(apply zoom_Ret; exact E3). reflexivity.
Qed.

Lemma run_tests_run R tests self r :
  balanced self → TestRunner.total self + Z.of_nat (length tests) < 2 ^ 64 →
  Forall (comes_back R) tests → R (kernel r) →
  ∃ results r', TestRunner.run_tests tests self r = Ret (tally self results, r')
    ∧ Forall2 (gives R) tests results ∧ R (kernel r').
Proof.
  intros B Ht H. revert self B Ht r. induction H as [|test tests Hf H IH]; intros self B Ht r HR.
  { exists [], r. split_and!; [|constructor|done]. unfold tally. cbn. rewrite !Z.add_0_r. by destruct self. }
  cbn [length] in Ht. destruct (run_test_run R test self r B ltac:(lia) Hf HR) as (v & r1 & E1 & G1 & R1).
  destruct (IH (tally self [v]) (tally_balanced _ _ B) ltac:(cbn; lia) r1 R1) as (vs & r2 & E2 & G2 & R2).
  exists (v :: vs), r2. split_and!; [|by constructor|done].
  cbn [TestRunner.run_tests]. mstep_with ltac:(exact E1). rewrite E2. by rewrite tally_cons.
Qed.

Lemma run_suite_run R title tests self r :
  balanced self → TestRunner.total self + Z.of_nat (length tests) < 2 ^ 64 → short (Str title) →
  Forall (comes_back R) tests → R (kernel r) →
  ∃ results r', TestRunner.run_suite title tests self r = Ret (tally self results, r')
    ∧ Forall2 (gives R) tests results ∧ R (kernel r').
Proof.
  intros B Ht Hn H HR.
  destruct (returns_println [Lit "=== "; Str title; Lit " Test Suite ==="] ltac:(printable; assumption) (console r))
    as [w1 E1].
  destruct (run_tests_run R tests self (mkR (kernel r) w1) B Ht H HR) as (vs & r2 & E2 & G2 & R2).
  destruct (returns_println [Lit "=== "; Str title; Lit " Test Suite Complete ==="] ltac:(printable; assumption)
              (console r2)) as [w3 E3].
  exists vs, (mkR (kernel r2) w3). split_and!; [|done|done]. unfold TestRunner.run_suite.
  mstep_with ltac:(apply zoom_Ret; exact E1). mstep_with ltac:(exact E2).
  mstep_with ltac:(apply zoom_Ret; exact E3). reflexivity.
Qed.

(** A suite of tests that come back comes back, and the runner has counted each
    of its results once: the counters grow by the number of tests that passed,
    failed and were skipped and their sum stays the total; a fresh runner reports
    success exactly when there were tests and none of them failed, which a
    skipped one does not prevent. *)
Theorem runner_counts_results R title tests r :
  Forall (comes_back R) tests → short (Str title) → Z.of_nat (length tests) < 2 ^ 64 → R (kernel r) →
  ∃ results runner r', TestRunner.run_suite title tests TestRunner.new r = Ret (runner, r')
    ∧ Forall2 (gives R) tests results
    ∧ TestRunner.passed runner = times Pass results
    ∧ TestRunner.failed runner = times Fail results
    ∧ TestRunner.skipped runner = times Skip results
    ∧ TestRunner.total runner = Z.of_nat (length tests)
    ∧ TestRunner.total runner
      = TestRunner.passed runner + TestRunner.failed runner + TestRunner.skipped runner
    ∧ (TestRunner.all_passed runner = true ↔ tests ≠ [] ∧ Fail ∉ results).
Proof.
  intros H Hn Ht HR. assert (balanced TestRunner.new) as B by (by split).
  destruct (run_suite_run R title tests _ r B Ht Hn H HR) as (vs & r' & E & G & _).
  pose proof (Forall2_length _ _ _ G) as Hl. pose proof (times_total vs).
  exists vs, (tally TestRunner.new vs), r'. unfold tally, TestRunner.all_passed, TestRunner.new in *.
  cbn [TestRunner.total TestRunner.passed TestRunner.failed TestRunner.skipped] in *.
  rewrite !Z.add_0_l in *. rewrite <-Hl in *. split_and!; try done.
  rewrite andb_true_iff, Z.eqb_eq, Z.ltb_lt, times_zero.
  destruct tests; cbn [length]; split; intros []; split; first [done|lia].
Qed.

End runner.

(** ** The main loop *)

Section main.
Context {P : Profile} {V W : Type} `{!Firmware W}.
(** A register is 64 bits wide. *)
Context (registers : ∀ eid fid args (w : W), in_u64 (ecall eid fid args w).1.2).
Implicit Types (r : RState W).

(** A test that only talks to the firmware. *)
Definition quiet (m : M (RState W) TestResult) : Prop :=
  ∀ r, ∃ v w, m r = Ret (v, mkR (kernel r) w).

Lemma quiet_ret v : quiet (mret v).
Proof. intros r. exists v, (console r). by destruct r. Qed.

Lemma quiet_seq (m : M W unit) k : returns m → quiet k → quiet (on_console m;; k).
Proof.
  intros Hm Hk r. destruct (Hm (console r)) as [w E]. destruct (Hk (mkR (kernel r) w)) as (v & w' & E').
  exists v, w'. mstep_with ltac:(apply zoom_Ret; exact E). exact E'.
Qed.

Lemma quiet_bind {A} (m : M W A) k :
  (∀ w, ∃ a w', m w = Ret (a, w') ∧ quiet (k a)) → quiet (on_console m ≫= k).
Proof.
  intros Hm r. destruct (Hm (console r)) as (a & w & E & Hk). destruct (Hk (mkR (kernel r) w)) as (v & w' & E').
  exists v, w'. mstep_with ltac:(apply zoom_Ret; exact E). exact E'.
Qed.

Lemma returns_print_str s : Z.of_nat (length s) < 2 ^ 64 → returns (W := W) (print_str s).
Proof. intros H w. eexists. by apply print_str_spec. Qed.
Lemma returns_print_char c : returns (W := W) (print_char c).
Proof. intros w. by eexists. Qed.
Lemma returns_putnum n base :
  (base = 8 ∨ base = 10 ∨ base = 16) → in_u64 n → returns (W := W) (putnum n base;; mret tt).
Proof.
  intros Hb Hn w. destruct (putnum_numeral n base w) as (t & E & _); [tauto|done|].
  eexists. by mstep_with ltac:(exact E).
Qed.

(** Follow a test: reports and results. *)
Ltac report :=
  lazymatch goal with
  | |- returns (print_char _) => apply returns_print_char
  | |- returns (print_str _) => apply returns_print_str; by vm_compute
  | |- returns (print_num _) => apply returns_putnum; [tauto|by vm_compute]
  | |- returns (print_hex _) => apply returns_putnum; [tauto|by vm_compute]
  | |- returns (print_oct _) => apply returns_putnum; [tauto|by vm_compute]
  | |- _ => returns; by vm_compute
  end.
Ltac quiet :=
  lazymatch goal with
  | |- quiet (on_console _ ≫= (λ _, _)) => apply quiet_seq; [report|quiet]
  | |- quiet (mret _) => apply quiet_ret
  end.

Lemma console_tests_quiet : Forall (λ t, printable_test t ∧ quiet (func t)) (CONSOLE_TESTS (W := W)).
Proof.
  unfold CONSOLE_TESTS. repeat (apply Forall_cons_2; [split; [by split; vm_compute|cbn [func]]|]); [..|apply Forall_nil_2];
  unfold test_basic_char_output, test_string_output, test_decimal_output, test_hex_output, test_octal_output, test_format_macros, test_color_output, test_debug_output; quiet.
Qed.

Lemma extension_probe_returns id (w : W) : ∃ a w', is_extension_available id w = Ret (a, w').
Proof.
  destruct (base_call_returns registers 3 id w) as (v & w1 & E1 & _). eexists _, w1.
  unfold is_extension_available, probe_extension. mstep_with ltac:(exact E1). reflexivity.
Qed.

Lemma probe_all_quiet l n r :
  Forall (λ x, short (Str x.1)) l → ∃ m w, probe_all l n r = Ret (m, mkR (kernel r) w).
Proof.
  intros H. revert n r. induction H as [|[t id] l Ht H IH]; intros n r.
  { exists n, (console r). by destruct r. }
  destruct (extension_probe_returns id (console r)) as (a & w1 & E1).
  destruct (returns_println [Lit "  "; Str t; Lit " Extension: "; Str (if a then "Available" else "Not Available")]
              ltac:(printable; assumption) w1) as [w2 E2].
  destruct (IH (if a : bool then n + 1 else n) (mkR (kernel r) w2)) as (m & w3 & E3). exists m, w3.
  cbn [probe_all]. mstep_with ltac:(apply zoom_Ret; exact E1). mstep_with ltac:(apply zoom_Ret; exact E2).
  destruct a; mstep; exact E3.
Qed.

Lemma sbi_tests_quiet : Forall (λ t, printable_test t ∧ quiet (func t)) (SBI_TESTS (W := W)).
Proof.
  unfold SBI_TESTS. repeat (apply Forall_cons_2; [split; [by split; vm_compute|cbn [func]]|]); [..|apply Forall_nil_2].
  - apply quiet_bind. intros w. destruct (base_call_returns registers 0 0 w) as (v & w' & E & Hv).
    exists (Ok v), w'. split; [exact E|]. apply quiet_seq; [|apply quiet_ret].
    apply returns_println. printable.
  - intros r. destruct (probe_all_quiet [("Timer", extension_ids.TIMER); ("IPI", extension_ids.IPI);
      ("RFENCE", extension_ids.RFENCE); ("HSM", extension_ids.HSM)] 0 r) as (m & w & E).
    { repeat (apply Forall_cons_2; [by vm_compute|]). apply Forall_nil_2. }
    eexists _, w. unfold test_sbi_extension_probe. mstep_with ltac:(exact E). reflexivity.
  - apply quiet_bind. intros w. eexists _, _. split; [reflexivity|]. cbv beta iota. quiet.
  - apply quiet_bind. intros w. eexists _, _. split; [reflexivity|]. cbv beta iota. quiet.
Qed.

Lemma quiet_comes_back g (l : list (TestCase (RState W))) :
  Forall (λ t, printable_test t ∧ quiet (func t)) l → Forall (comes_back (λ k, k = g)) l.
Proof.
  intros H. eapply Forall_impl; [exact H|]. intros t [Hp Hq]. split; [done|]. intros r Hr. destruct (Hq r) as (v & w & E).
  by exists v, (mkR (kernel r) w).
Qed.

(** The console and firmware tests come back and leave the heap alone. *)
Lemma first_suites_run r :
  ∃ runner w, (runner ← run_console_tests TestRunner.new; run_sbi_tests runner) r
      = Ret (runner, mkR (kernel r) w)
    ∧ TestRunner.total runner = 12.
Proof.
  assert (balanced TestRunner.new) as B by (by split).
  destruct (run_suite_run (λ k, k = kernel r) "Console" CONSOLE_TESTS TestRunner.new r)
    as (v1 & r1 & E1 & G1 & K1); [done|by vm_compute|by vm_compute|apply quiet_comes_back, console_tests_quiet|done|].
  pose proof (Forall2_length _ _ _ G1) as L1.
  destruct (run_suite_run (λ k, k = kernel r) "SBI" SBI_TESTS (tally TestRunner.new v1) r1)
    as (v2 & r2 & E2 & G2 & K2);
    [by apply tally_balanced|cbn; rewrite <-L1; by vm_compute|by vm_compute|apply quiet_comes_back, sbi_tests_quiet|done|].
  pose proof (Forall2_length _ _ _ G2) as L2.
  exists (tally (tally TestRunner.new v1) v2), (console r2). split.
  - mstep_with ltac:(exact E1). unfold run_sbi_tests. rewrite E2. destruct r2. cbn in K2. by subst.
  - cbn. rewrite <-L1, <-L2. by vm_compute.
Qed.

Context (info_layout : Layout) (info_bytes : HandoverInfo.t → list Z).
Context (ALLOC_TESTS : list (TestCase (RState W))).

(** The tests of the allocator hang at the first snapshot. *)
Lemma run_alloc_tests_hangs g s bs runner w :
  holds g s → heap_inv s bs → initialized g = true → typed g → layout_ok info_layout →
  run_alloc_tests info_layout info_bytes ALLOC_TESTS runner (mkR g w) = Hang.
Proof.
  intros Hh I Hi Ht Hl.
  assert (typed (stats (self s))) as Hst.
  { destruct Hh as [_ Hin _]. destruct Ht as (Ht & _). rewrite Hin in Ht. apply Ht. }
  destruct (returns_println [Lit "Starting comprehensive allocator test suite..."] ltac:(printable) w) as [w1 E1].
  destruct (returns_println [Lit "Pre-test memory state:"] ltac:(printable) w1) as [w2 E2].
  destruct (print_summary_returns _ Hst w2) as [w3 E3].
  assert (alloc_tests_start (mkR g w) = Ret (tt, mkR g w3)) as E.
  { unfold alloc_tests_start. mstep_with ltac:(apply zoom_Ret; exact E1). unfold print_state.
    mstep_with ltac:(apply zoom_Ret; by apply (api_stats_run g s)). cbn iota.
    mstep_with ltac:(apply zoom_Ret; exact E2). mstep_with ltac:(apply zoom_Ret; exact E3). reflexivity. }
  unfold run_alloc_tests. mstep_with ltac:(exact E). apply bind_Hang.
  unfold create_snapshot, on_kernel, zoom. cbn [kernel].
  by rewrite (create_snapshot_hangs g s bs info_layout info_bytes).
Qed.

Lemma main_loop_start_hangs g s bs w :
  holds g s → heap_inv s bs → initialized g = true → typed g → layout_ok info_layout →
  main_loop_start info_layout info_bytes ALLOC_TESTS (mkR g w) = Hang.
Proof.
  intros Hh I Hi Ht Hl. unfold main_loop_start.
  destruct (returns_tagged "[32m[INFO] " [Lit "Entering main operating loop..."] ltac:(printable) ltac:(by vm_compute) w)
    as [w1 E1].
  mstep_with ltac:(apply zoom_Ret; exact E1).
  destruct (returns_tagged "[32m[INFO] " [Lit "Running comprehensive test suites..."] ltac:(printable) ltac:(by vm_compute) w1)
    as [w2 E2].
  mstep_with ltac:(apply zoom_Ret; exact E2). apply bind_Hang. cbn [kernel console].
  destruct (first_suites_run (mkR g w2)) as (runner & w3 & E3 & _). unfold run_all_tests.
  apply bind_inv in E3 as (runner1 & r1 & Ea & Eb). mstep_with ltac:(exact Ea). mstep_with ltac:(exact Eb).
  apply bind_Hang. by apply (run_alloc_tests_hangs g s bs).
Qed.

(** C15: The kernel never gets to its idle loop.  After a boot the main loop runs the
    tests: the eight console tests and the four of the firmware come back, and the
    suite for the allocator, whatever its tests are, deadlocks in the snapshot it
    takes before the first of them. *)
Theorem main_loop_never_idles (hash : string → TrapType.t → Z) trap_entry stack sbss ebss kernel_end
    (b : BState V W) :
  TS.default_handles_distinct hash → power_on kernel_end b →
  0 < stack → stack + STACK_SIZE < 2 ^ 64 → in_u64 sbss → in_u64 ebss → layout_ok info_layout →
  ∃ b' runner w,
    _start hash trap_entry stack sbss ebss kernel_end b = Ret (tt, b')
    ∧ (runner ← run_console_tests TestRunner.new; run_sbi_tests runner) (mkR (alloc b') (firmware b'))
      = Ret (runner, mkR (alloc b') w)
    ∧ TestRunner.total runner = 12
    ∧ run_alloc_tests info_layout info_bytes ALLOC_TESTS runner (mkR (alloc b') w) = Hang
    ∧ on_report (main_loop_start info_layout info_bytes ALLOC_TESTS) b' = Hang.
Proof.
  intros Hd Hp H1 H2 H3 H4 Hl.
  destruct (start_run registers hash trap_entry stack sbss ebss kernel_end b Hd Hp H1 H2 H3 H4)
    as (b' & E & [(N & s & bs & (Hh & I & _) & _ & _ & Hi & _) Ht] & _).
  destruct (first_suites_run (mkR (alloc b') (firmware b'))) as (runner & w & Er & Hr).
  exists b', runner, w. split_and!; [exact E|exact Er|exact Hr|by apply (run_alloc_tests_hangs _ s bs)|].
  unfold on_report, zoom. by rewrite (main_loop_start_hangs _ s bs).
Qed.

End main.

(** ** Witnesses *)

(** A suite of three tests on the heap of an example. *)
Module TestDemo.

Definition tests : list (TestCase (RState FwDemo.t)) :=
  [mkTestCase "yes" (mret Pass) "passes"; mkTestCase "later" (mret Skip) "is skipped";
   mkTestCase "chars" test_basic_char_output "prints"].

Lemma tests_come_back : Forall (comes_back (λ _, True)) tests.
Proof.
  unfold tests. repeat (apply Forall_cons_2; [split; [by split; vm_compute|]|]); [..|apply Forall_nil_2];
    intros r _; by eexists _, _.
Qed.

End TestDemo.

Lemma runner_counts_results_witness :
  ∃ runner r', TestRunner.run_suite (P := Dev) "Demo" TestDemo.tests TestRunner.new (mkR GlobalDemo.g_boot FwDemo.off)
      = Ret (runner, r')
    ∧ TestRunner.total runner = 3.
Proof.
  destruct (runner_counts_results (P := Dev) (λ _, True) "Demo" TestDemo.tests (mkR GlobalDemo.g_boot FwDemo.off))
    as (vs & runner & r' & E & _ & _ & _ & _ & Ht & _);
    [apply TestDemo.tests_come_back|by_eval|by_eval|exact I|].
  exists runner, r'. split; [exact E|exact Ht].
Defined.

Lemma main_loop_never_idles_witness :
  ∃ b', _start (P := Dev) HM.Demo.hash 4096 2149548032 2149564416 2149580000 2149580800
          (mkB GlobalDemo.g_boot TS.SysDemo.boot FwDemo.off) = Ret (tt, b')
    ∧ on_report (main_loop_start (P := Dev) GlobalDemo.box_layout (λ _, []) TestDemo.tests) b' = Hang.
Proof.
  destruct (main_loop_never_idles (P := Dev) (W := FwDemo.t) ltac:(intros; split; by_eval) GlobalDemo.box_layout (λ _, [])
              TestDemo.tests HM.Demo.hash 4096 2149548032
              2149564416 2149580000 2149580800 (mkB GlobalDemo.g_boot TS.SysDemo.boot FwDemo.off)
              TS.SysDemo.handles_distinct) as (b' & _ & _ & E & _ & _ & _ & H);
    [split; try reflexivity; [apply blank_typed|split; by_eval]|by_eval|by_eval|split; by_eval|split; by_eval|
     split_and!; by_eval|].
  exists b'. split; [exact E|exact H].
Defined.
