(* ===== verification/AllocTests.v ===== *)
(** * The tests of the allocator

    Models the thirteen test functions of [src/test/alloc_test.rs] with their
    console output, over the allocator's interface ([Messages.v]) and the
    collections of the [alloc] crate on the kernel's heap ([Collections.v],
    [Startup.v]).  The suite that runs them is in [SelfTest.v]. *)

From Stdlib Require Import ZArith Lia String Ascii.
From stdpp Require Import base option numbers sorting strings gmap list.
From S2P Require Import Prelude Memory Purpose Metadata Allocator HeapInv AllocSteps AllocOps Arrays Handover Examples GlobalAlloc AllocApi GlobalThms HandoverSnapshot ByteHeap TypeSafety Collections Sbi Console Boot Reports Messages System Startup SelfTest.

(** ** Loops that a [return] can leave *)

Section loops.
Context {S : Type}.

(** [for x in xs]; a body that gives a value returns it from the function. *)
Fixpoint for_each {A R} (xs : list A) (body : A → M S (option R)) : M S (option R) :=
  match xs with
  | [] => mret None
  | x :: xs =>
      r ← body x;
      match r with Some v => mret (Some v) | None => for_each xs body end
  end.

(** The same with a variable that the body changes. *)
Fixpoint for_loop {A T R} (xs : list A) (t : T) (body : A → T → M S (T + R)) : M S (T + R) :=
  match xs with
  | [] => mret (inl t)
  | x :: xs =>
      r ← body x t;
      match r with inl t => for_loop xs t body | inr v => mret (inr v) end
  end.

Context `{!GlobalAlloc S}.

(** [for x in v] of a vector with elements of [es] bytes, which it consumes: the
    array is freed however the loop ends. *)
Definition into_iter {R} (es : Z) (v : Vec.t) (body : Z → M S (option R)) : M S (option R) :=
  r ← for_each (seqZ 0 (Vec.len v)) (λ i, x ← Vec.index es v i; body x);
  Vec.drop es 8 v;;
  mret r.

End loops.

(** A tuple of words as the bytes of a vector's element, and its fields. *)
Definition words_bytes (l : list Z) : list Z := mjoin (le_bytes 8 <$> l).
Definition field (i : Z) (x : Z) : Z := x / 2 ^ (64 * i) mod 2 ^ 64.

Section tests.
Context {P : Profile} {W : Type} `{!Firmware W}.
Context (info_layout : Layout) (info_bytes : HandoverInfo.t → list Z).
(** The bytes of a [Vec] value, and where its length is among them, are the
    compiler's choice. *)
Context (vec_bytes : Vec.t → list Z) (len_offset : Z).

Definition say (args : list piece) : M (RState W) unit := on_console (println args).
Definition dealloc_safe (p sz : Z) : M (RState W) (result AllocError unit) := on_kernel (Api.dealloc_safe p sz).

(** [for (p, s) in allocated { alloc::dealloc_safe(p, s).ok(); }] *)
Definition cleanup (es : Z) (v : Vec.t) : M (RState W) unit :=
  into_iter es v (λ x, dealloc_safe (field 0 x) (field 1 x);; mret (None : option unit));; mret tt.

(** A failed test. *)
Definition fail (args : list piece) : M (RState W) TestResult := say args;; mret Fail.

Definition test_single_alloc_dealloc : M (RState W) TestResult :=
  say [Lit "  Testing single allocation and deallocation..."];;
  ptr ← Verbose.alloc 100;
  match ptr with
  | None => fail [Lit "  FAIL: Allocation failed unexpectedly"]
  | Some ptr_val =>
      ga_write ptr_val [0x42];;
      b ← ga_read ptr_val 1;
      if negb (b =? 0x42) then
        say [Lit "  FAIL: Memory write/read failed"];; Verbose.dealloc ptr_val;; mret Fail
      else
        r ← dealloc_safe ptr_val 100;
        match r with
        | Err e => fail [Lit "  FAIL: Safe deallocation failed: "; Str (AllocError_debug e)]
        | Ok _ =>
            ptr2 ← Verbose.alloc 100;
            match ptr2 with
            | None => fail [Lit "  FAIL: Re-allocation failed after free"]
            | Some ptr2 =>
                Verbose.dealloc ptr2;;
                say [Lit "  PASS: Single alloc/dealloc successful"];;
                mret Pass
            end
        end
  end.

(** *** [test_multiple_allocs] *)

Definition ALLOC_COUNT : Z := 20.

Definition fill (p sz v : Z) : M (RState W) unit :=
  for_each (seqZ 0 sz) (λ j, ga_write (p + j) [v mod 256];; mret (None : option unit));; mret tt.

Definition warn_cleanup (pointers : Vec.t) : M (RState W) unit :=
  into_iter 16 pointers (λ x,
    r ← dealloc_safe (field 0 x) (field 1 x);
    (match r with
     | Ok _ => mret tt
     | Err e => on_console (warn_print [Lit "Cleanup failed: "; Str (AllocError_debug e)])
     end);;
    mret (None : option unit));;
  mret tt.

Definition allocate_all (pointers : Vec.t) : M (RState W) (Vec.t + TestResult) :=
  for_loop (seqZ 0 ALLOC_COUNT) pointers (λ i pointers,
    let sz := 64 + i * 32 in
    r ← Verbose.alloc sz;
    match r with
    | Some p =>
        fill p sz i;;
        pointers ← Vec.push 16 8 pointers (words_bytes [p; sz]);
        mret (inl pointers)
    | None =>
        say [Lit "  FAIL: Allocation #"; Dec i; Lit " failed (size: "; Dec sz; Lit ")"];;
        warn_cleanup pointers;;
        mret (inr Fail)
    end).

(** The inner loop looks at the bytes of one allocation. *)
Definition check_all (pointers : Vec.t) : M (RState W) (option TestResult) :=
  for_each (seqZ 0 (Vec.len pointers)) (λ i,
    x ← Vec.index 16 pointers i;
    for_each (seqZ 0 (field 1 x)) (λ j,
      actual ← ga_read (field 0 x + j) 1;
      if negb (actual =? i mod 256) then
        say [Lit "  FAIL: Data corruption detected at allocation "; Dec i; Lit ", offset "; Dec j];;
        cleanup 16 pointers;;
        mret (Some Fail)
      else mret None)).

Definition test_multiple_allocs : M (RState W) TestResult :=
  say [Lit "  Testing multiple allocations..."];;
  a ← allocate_all (Vec.new 8);
  match a with
  | inr v => mret v
  | inl pointers =>
      c ← check_all pointers;
      match c with
      | Some v => mret v
      | None =>
          d ← into_iter 16 pointers (λ x,
                r ← dealloc_safe (field 0 x) (field 1 x);
                match r with
                | Ok _ => mret None
                | Err e => v ← fail [Lit "  FAIL: Deallocation failed: "; Str (AllocError_debug e)]; mret (Some v)
                end);
          match d with
          | Some v => mret v
          | None => say [Lit "  PASS: Multiple allocations and deallocations successful"];; mret Pass
          end
      end
  end.

(** *** [test_aligned_allocation] *)

Definition alignments : list Z := [8; 16; 32; 64; 128; 256; 512; 1024].

Definition test_aligned_allocation : M (RState W) TestResult :=
  say [Lit "  Testing aligned allocations..."];;
  a ← for_loop alignments (Vec.new 8) (λ align allocated,
        r ← Verbose.alloc_aligned 1024 align;
        match r with
        | Some ptr =>
            if negb (ptr mod align =? 0) then
              say [Lit "  FAIL: Misaligned allocation (expected: "; Dec align; Lit ", got: 0x"; Hex ptr; Lit ")"];;
              cleanup 16 allocated;;
              Verbose.dealloc ptr;;
              mret (inr Fail)
            else
              allocated ← Vec.push 16 8 allocated (words_bytes [ptr; 1024]);
              mret (inl allocated)
        | None =>
            say [Lit "  FAIL: Aligned allocation failed for alignment "; Dec align];;
            cleanup 16 allocated;;
            mret (inr Fail)
        end);
  match a with
  | inr v => mret v
  | inl allocated =>
      cleanup 16 allocated;;
      say [Lit "  PASS: Aligned allocations successful"];;
      mret Pass
  end.

(** *** [test_purpose_allocation] *)

Definition purposes : list (AllocPurpose.t * Z) :=
  [(AllocPurpose.KernelStack, 4096); (AllocPurpose.PageTable, 8192); (AllocPurpose.NetworkBuffer, 1024);
   (AllocPurpose.TempBuffer, 512)].

(** The groups with blocks whose purpose is one of [purposes]. *)
Definition found_purposes (groups : list (AllocPurpose.t * Z * Z)) : Z :=
  Z.of_nat (length (List.filter (λ g,
    (0 <? g.1.2) && existsb (λ p, AllocPurpose.discriminant g.1.1 =? AllocPurpose.discriminant p.1) purposes)
    groups)).

Definition allocate_purposes : M (RState W) (Vec.t + TestResult) :=
  for_loop purposes (Vec.new 8) (λ '(purpose, sz) allocated,
    r ← Verbose.alloc_with_purpose sz purpose;
    match r with
    | Some ptr => allocated ← Vec.push 16 8 allocated (words_bytes [ptr; sz]); mret (inl allocated)
    | None =>
        say [Lit "  FAIL: Purpose allocation failed for "; Str (AllocPurpose.description purpose)];;
        cleanup 16 allocated;;
        mret (inr Fail)
    end).

(** The box with the handover information is dropped at the end of the [if let]. *)
Definition test_purpose_allocation : M (RState W) TestResult :=
  say [Lit "  Testing purpose-based allocation..."];;
  a ← allocate_purposes;
  match a with
  | inr v => mret v
  | inl allocated =>
      h ← Verbose.prepare_handover info_layout info_bytes;
      found ← (match h with
               | Some (p, handover) =>
                   groups ← HandoverInfo.group_by_purpose handover;
                   mret (Some (p, negb (found_purposes groups <? Z.of_nat (length purposes))))
               | None => mret None
               end);
      match found with
      | Some (p, false) =>
          say [Lit "  FAIL: Not all purposes found in handover info"];;
          cleanup 16 allocated;;
          on_kernel (EarlyBox_drop p info_layout);;
          mret Fail
      | _ =>
          (match found with Some (p, _) => on_kernel (EarlyBox_drop p info_layout) | None => mret tt end);;
          cleanup 16 allocated;;
          say [Lit "  PASS: Purpose allocation successful"];;
          mret Pass
      end
  end.

(** *** The tests of the collections *)

(** Their vectors are dropped wherever the function returns.  The loop variables
    are [usize] and small. *)
Definition dropping (es ea : Z) (v : Vec.t) (r : TestResult) : M (RState W) TestResult :=
  Vec.drop es ea v;; mret r.

(** [for i in (0..n).rev()]: the elements come back by [pop] as [value i]. *)
Definition pop_all (n : Z) (value : Z → Z) (wrong : Z → Z → list piece) (none : Z → list piece) (v : Vec.t)
    : M (RState W) (Vec.t + TestResult) :=
  for_loop (reverse (seqZ 0 n)) v (λ i v,
    '(x, v) ← Vec.pop 8 v;
    match x with
    | Some x =>
        if negb (x =? value i) then r ← fail (wrong (value i) x); r ← dropping 8 8 v r; mret (inr r)
        else mret (inl v)
    | None => r ← fail (none i); r ← dropping 8 8 v r; mret (inr r)
    end).

Definition test_dynamic_vec : M (RState W) TestResult :=
  say [Lit "  Testing dynamic Vec operations..."];;
  v ← Vec.push_all 8 8 (Vec.new 8) ((λ i, le_bytes 8 (i * i)) <$> seqZ 0 100);
  if negb (Vec.len v =? 100) then
    r ← fail [Lit "  FAIL: Vec length incorrect: expected 100, got "; Dec (Vec.len v)]; dropping 8 8 v r
  else
    c ← for_each (seqZ 0 (Vec.len v)) (λ i,
          value ← Vec.index 8 v i;
          if negb (value =? i * i) then
            r ← fail [Lit "  FAIL: Vec data corruption at index "; Dec i; Lit ": expected "; Dec (i * i);
                      Lit ", got "; Dec value];
            r ← dropping 8 8 v r;
            mret (Some r)
          else mret None);
    match c with
    | Some r => mret r
    | None =>
        a ← pop_all 100 (λ i, i * i)
              (λ expected value, [Lit "  FAIL: Vec pop returned wrong value: expected "; Dec expected; Lit ", got ";
                                  Dec value])
              (λ i, [Lit "  FAIL: Vec pop failed at index "; Dec i]) v;
        match a with
        | inr r => mret r
        | inl v =>
            if negb (Vec.len v =? 0) then
              r ← fail [Lit "  FAIL: Vec not empty after popping all elements"]; dropping 8 8 v r
            else
              say [Lit "  PASS: Dynamic Vec operations successful"];;
              dropping 8 8 v Pass
        end
    end.

(** The text in a string's array. *)
Definition text_of (bytes : list Z) : string :=
  string_of_list_ascii ((λ b, ascii_of_N (Z.to_N b)) <$> bytes).
Definition read_text (v : Vec.t) : M (RState W) string :=
  x ← ga_read (Vec.ptr v) (Z.to_nat (Vec.len v));
  mret (text_of (le_bytes (Z.to_nat (Vec.len v)) x)).

Definition test_dynamic_string : M (RState W) TestResult :=
  say [Lit "  Testing dynamic String operations..."];;
  s ← Str.push_str (Vec.new 1) (chars "Hello");
  s ← Str.push s 32;
  s ← Str.push_str s (chars "World!");
  ok ← Str.eq_str s (chars "Hello World!");
  if negb ok then
    text ← read_text s;
    r ← fail [Lit "  FAIL: String content incorrect: expected 'Hello World!', got '"; Str text; Lit "'"];
    dropping 1 1 s r
  else
    big ← Vec.push_all 1 1 (Vec.new 1) (i ← seqZ 0 1000; [[48 + i mod 10]; [44]]);
    r ← (if Vec.len big <? 1000 then fail [Lit "  FAIL: Big string too short: "; Dec (Vec.len big)]
         else say [Lit "  PASS: Dynamic String operations successful"];; mret Pass);
    r ← dropping 1 1 big r;
    dropping 1 1 s r.

(** [vec![1, 2, 3, 4, 5]] of [i32]: an array of its exact size. *)
Definition vec_macro (xs : list Z) : M (RState W) Vec.t :=
  let l := mkLayout (4 * Z.of_nat (length xs)) 4 in
  p ← ga_alloc l;
  if p =? 0 then ga_error l;; panic
  else
    ga_write p (mjoin (le_bytes 4 <$> xs));;
    mret (Vec.mk p (Z.of_nat (length xs)) (Z.of_nat (length xs))).

Definition as_i32 (z : Z) : Z := if z <? 2 ^ 31 then z else z - 2 ^ 32.

(** The box with the number: checked, given a purpose, dropped. *)
Definition box_number : M (RState W) (option TestResult) :=
  b ← on_kernel (EarlyBox_new (mkLayout 4 4) (le_bytes 4 42));
  match b with
  | Some p =>
      x ← ga_read p 4;
      r ← (if negb (x =? 42) then
             r ← fail [Lit "  FAIL: EarlyBox value incorrect: expected 42, got "; Dec (as_i32 x)]; mret (Some r)
           else
             s ← on_kernel (EarlyBox_set_purpose p AllocPurpose.Testing);
             match s with
             | Err e =>
                 r ← fail [Lit "  FAIL: Failed to set EarlyBox purpose: "; Str (AllocError_debug e)]; mret (Some r)
             | Ok _ => mret None
             end);
      on_kernel (EarlyBox_drop p (mkLayout 4 4));;
      mret r
  | None => r ← fail [Lit "  FAIL: Failed to create EarlyBox"]; mret (Some r)
  end.

(** The box with the vector: dropping it drops the vector first; a vector that got
    no box is dropped where the allocation failed. *)
Definition box_vec (test_vec : Vec.t) : M (RState W) (option TestResult) :=
  b ← on_kernel (EarlyBox_new (mkLayout 24 8) (vec_bytes test_vec));
  match b with
  | Some p =>
      n ← ga_read (p + len_offset) 8;
      r ← (if negb (n =? 5) then r ← fail [Lit "  FAIL: EarlyBox Vec length incorrect"]; mret (Some r)
           else mret None);
      Vec.drop 4 4 test_vec;;
      on_kernel (EarlyBox_drop p (mkLayout 24 8));;
      mret r
  | None =>
      Vec.drop 4 4 test_vec;;
      r ← fail [Lit "  FAIL: Failed to create EarlyBox with Vec"];
      mret (Some r)
  end.

Definition test_early_box : M (RState W) TestResult :=
  say [Lit "  Testing EarlyBox smart pointer..."];;
  r ← box_number;
  match r with
  | Some r => mret r
  | None =>
      test_vec ← vec_macro [1; 2; 3; 4; 5];
      r ← box_vec test_vec;
      match r with
      | Some r => mret r
      | None => say [Lit "  PASS: EarlyBox operations successful"];; mret Pass
      end
  end.

Definition test_early_vec : M (RState W) TestResult :=
  say [Lit "  Testing EarlyVec custom vector..."];;
  v ← Vec.push_all 8 8 (Vec.new 8) ((λ i, le_bytes 8 (i * 2)) <$> seqZ 0 10);
  if negb (Vec.len v =? 10) then
    r ← fail [Lit "  FAIL: EarlyVec length incorrect: expected 10, got "; Dec (Vec.len v)]; dropping 8 8 v r
  else
    c ← for_each (seqZ 0 10) (λ i,
          value ← Vec.index 8 v i;
          if negb (value =? i * 2) then
            again ← Vec.index 8 v i;
            r ← fail [Lit "  FAIL: EarlyVec data incorrect at index "; Dec i; Lit ": expected "; Dec (i * 2);
                      Lit ", got "; Dec again];
            r ← dropping 8 8 v r;
            mret (Some r)
          else mret None);
    match c with
    | Some r => mret r
    | None =>
        a ← pop_all 10 (λ i, i * 2)
              (λ expected value, [Lit "  FAIL: EarlyVec pop incorrect: expected "; Dec expected; Lit ", got ";
                                  Dec value])
              (λ _, [Lit "  FAIL: EarlyVec pop failed"]) v;
        match a with
        | inr r => mret r
        | inl v =>
            v ← Vec.push_all 8 8 v (le_bytes 8 <$> seqZ 0 20);
            if negb (Vec.len v =? 20) then
              r ← fail [Lit "  FAIL: EarlyVec growth length incorrect"]; dropping 8 8 v r
            else
              say [Lit "  PASS: EarlyVec operations successful"];;
              dropping 8 8 v Pass
        end
    end.

(** *** [test_leak_detection] *)

Definition leak : M (RState W) Vec.t :=
  a ← for_loop (seqZ 0 5) (Vec.new 8) (λ i leaked_ptrs,
        r ← Verbose.alloc_with_purpose 1024 AllocPurpose.Testing;
        match r with
        | Some ptr =>
            leaked_ptrs ← Vec.push 16 8 leaked_ptrs (words_bytes [ptr; 1024]);
            on_kernel (on_machine (modify (with_mem (λ m, write_bytes 1024 m ptr i))));;
            mret (inl leaked_ptrs : Vec.t + unit)
        | None => mret (inl leaked_ptrs)
        end);
  match a with inl v => mret v | inr _ => panic end.

Definition found_testing (groups : list (AllocPurpose.t * Z * Z)) : bool :=
  existsb (λ g, (AllocPurpose.discriminant g.1.1 =? AllocPurpose.discriminant AllocPurpose.Testing) && (0 <? g.1.2))
    groups.

Definition test_leak_detection : M (RState W) TestResult :=
  say [Lit "  Testing memory leak detection..."];;
  leaked_ptrs ← leak;
  h ← Verbose.prepare_handover info_layout info_bytes;
  found ← (match h with
           | Some (p, handover) =>
               leak_result ← on_kernel (on_hand_clock (HandoverInfo.detect_potential_leaks handover));
               (if suspicious_count leak_result =? 0
                then say [Lit "  WARN: No suspicious blocks detected (expected some)"]
                else on_console (debug_print "src/test/alloc_test.rs" 414
                       [Lit "Detected "; Dec (suspicious_count leak_result); Lit " suspicious blocks"]));;
               groups ← HandoverInfo.group_by_purpose handover;
               mret (Some (p, found_testing groups))
           | None => mret None
           end);
  match found with
  | Some (p, false) =>
      say [Lit "  FAIL: Testing purpose blocks not found in handover"];;
      cleanup 16 leaked_ptrs;;
      on_kernel (EarlyBox_drop p info_layout);;
      mret Fail
  | _ =>
      (match found with Some (p, _) => on_kernel (EarlyBox_drop p info_layout) | None => mret tt end);;
      cleanup 16 leaked_ptrs;;
      say [Lit "  PASS: Leak detection working"];;
      mret Pass
  end.

(** *** Integrity, health and double frees *)

Definition allocate_ten : M (RState W) Vec.t :=
  a ← for_loop (seqZ 0 10) (Vec.new 8) (λ i allocations,
        r ← Verbose.alloc (512 + i * 64);
        match r with
        | Some ptr =>
            allocations ← Vec.push 16 8 allocations (words_bytes [ptr; 512 + i * 64]);
            mret (inl allocations : Vec.t + unit)
        | None => mret (inl allocations)
        end);
  match a with inl v => mret v | inr _ => panic end.

Definition test_integrity_check : M (RState W) TestResult :=
  say [Lit "  Testing allocator integrity check..."];;
  allocations ← allocate_ten;
  c ← on_kernel Api.integrity_check;
  match c with
  | Err e =>
      say [Lit "  FAIL: Integrity check failed: "; Str (AllocError_debug e)];;
      cleanup 16 allocations;;
      mret Fail
  | Ok _ =>
      on_console (debug_print "src/test/alloc_test.rs" 461 [Lit "Integrity check passed"]);;
      cleanup 16 allocations;;
      c ← on_kernel Api.integrity_check;
      match c with
      | Ok _ => say [Lit "  PASS: Integrity check successful"];; mret Pass
      | Err e => fail [Lit "  FAIL: Post-cleanup integrity check failed: "; Str (AllocError_debug e)]
      end
  end.

Definition test_health_check : M (RState W) TestResult :=
  say [Lit "  Testing allocator health check..."];;
  h ← on_kernel Api.health_check;
  match h with
  | Some health =>
      (if is_healthy health
       then on_console (debug_print "src/test/alloc_test.rs" 497 [Lit "Allocator is healthy"])
       else on_console (warn_print [Lit "Allocator health issues detected"]);; on_console (print_report health));;
      say [Lit "  PASS: Health check completed"];;
      mret Pass
  | None => fail [Lit "  FAIL: Failed to get health status"]
  end.

Definition test_double_free_detection : M (RState W) TestResult :=
  say [Lit "  Testing double free detection..."];;
  p ← Verbose.alloc 32;
  match p with
  | None => panic
  | Some ptr =>
      r ← dealloc_safe ptr 32;
      match r with
      | Err e => fail [Lit "  FAIL: First deallocation failed: "; Str (AllocError_debug e)]
      | Ok _ =>
          r ← dealloc_safe ptr 32;
          match r with
          | Err DoubleFree | Err InvalidPointer =>
              say [Lit "  PASS: Correctly detected double free"];; mret Pass
          | Ok _ => fail [Lit "  FAIL: Double free not detected"]
          | Err e => fail [Lit "  FAIL: Unexpected error on double free: "; Str (AllocError_debug e)]
          end
      end
  end.

(** *** [test_stress_allocation] *)

Definition ITERATIONS : Z := 100.
Definition MAX_ALLOCS : Z := 50.

Definition stress_alloc (iteration : Z) (active_allocs : Vec.t) : M (RState W) Vec.t :=
  if Vec.len active_allocs <? MAX_ALLOCS then
    let sz := 64 + iteration mod 10 * 128 in
    r ← Verbose.alloc sz;
    match r with
    | Some ptr =>
        on_kernel (on_machine (modify (with_mem (λ m, write_bytes (Z.to_nat sz) m ptr (iteration mod 256)))));;
        Vec.push 24 8 active_allocs (words_bytes [ptr; sz; iteration mod 256])
    | None =>
        on_console (debug_print "src/test/alloc_test.rs" 563
          [Lit "Allocation failed at iteration "; Dec iteration; Lit " (expected under stress)"]);;
        mret active_allocs
    end
  else mret active_allocs.

Definition stress_free (iteration : Z) (active_allocs : Vec.t) : M (RState W) (Vec.t + TestResult) :=
  if negb (Vec.len active_allocs =? 0) then
    let index := iteration mod Vec.len active_allocs in
    '(x, active_allocs) ← Vec.remove 24 active_allocs index;
    first_byte ← ga_read (field 0 x) 1;
    if negb (first_byte =? field 2 x mod 256) then
      say [Lit "  FAIL: Data corruption detected in stress test"];;
      cleanup 24 active_allocs;;
      dealloc_safe (field 0 x) (field 1 x);;
      mret (inr Fail)
    else
      dealloc_safe (field 0 x) (field 1 x);;
      mret (inl active_allocs)
  else mret (inl active_allocs).

Definition stress_round (iteration : Z) (active_allocs : Vec.t) : M (RState W) (Vec.t + TestResult) :=
  r ← (if iteration mod 3 =? 2 then stress_free iteration active_allocs
       else v ← stress_alloc iteration active_allocs; mret (inl v));
  match r with
  | inr v => mret (inr v)
  | inl active_allocs =>
      if iteration mod 10 =? 0 then
        c ← on_kernel Api.integrity_check;
        match c with
        | Ok _ => mret (inl active_allocs)
        | Err e =>
            say [Lit "  FAIL: Integrity check failed during stress test: "; Str (AllocError_debug e)];;
            cleanup 24 active_allocs;;
            mret (inr Fail)
        end
      else mret (inl active_allocs)
  end.

Definition test_stress_allocation : M (RState W) TestResult :=
  say [Lit "  Running stress test..."];;
  a ← for_loop (seqZ 0 ITERATIONS) (Vec.new 8) stress_round;
  match a with
  | inr v => mret v
  | inl active_allocs =>
      cleanup 24 active_allocs;;
      c ← on_kernel Api.integrity_check;
      match c with
      | Ok _ => say [Lit "  PASS: Stress test completed successfully"];; mret Pass
      | Err e => fail [Lit "  FAIL: Final integrity check failed: "; Str (AllocError_debug e)]
      end
  end.

(** *** The suite *)

Definition ALLOC_TESTS : list (TestCase (RState W)) :=
  [mkTestCase "single_alloc_dealloc" test_single_alloc_dealloc
     "Test a single allocation and deallocation with data integrity";
   mkTestCase "multiple_allocs" test_multiple_allocs
     "Test multiple allocations with different sizes and data verification";
   mkTestCase "aligned_allocation" test_aligned_allocation "Test memory alignment requirements";
   mkTestCase "purpose_allocation" test_purpose_allocation "Test purpose-based memory allocation";
   mkTestCase "dynamic_vec" test_dynamic_vec "Test standard library Vec operations";
   mkTestCase "dynamic_string" test_dynamic_string "Test standard library String operations";
   mkTestCase "early_box" test_early_box "Test EarlyBox smart pointer";
   mkTestCase "early_vec" test_early_vec "Test EarlyVec custom vector implementation";
   mkTestCase "leak_detection" test_leak_detection "Test memory leak detection capabilities";
   mkTestCase "integrity_check" test_integrity_check "Test allocator integrity verification";
   mkTestCase "health_check" test_health_check "Test allocator health monitoring";
   mkTestCase "double_free_detection" test_double_free_detection "Test double free detection and prevention";
   mkTestCase "stress_allocation" test_stress_allocation
     "Stress test with random allocation/deallocation patterns"].

End tests.
