(* ===== verification/TestLogic.v ===== *)
(** * A logic for programs on the kernel's heap

    [runs c F m Φ] says that the computation [m] comes back on every kernel heap that
    owns the byte arrays [F] and has [c] credits, with a result and a heap that
    satisfy [Φ].  Its rules follow a program through the allocator's interface, the
    console, loops, and the vectors in which a program keeps its allocations; the
    tests of [src/test/alloc_test.rs] are such programs ([AllocTestRuns.v]). *)

From Stdlib Require Import ZArith Lia String.
From stdpp Require Import base option numbers sorting strings gmap list.
From S2P Require Import Prelude Memory Purpose Metadata HeaderSpec Allocator FreeList HeapInv AllocSteps AllocSpec DeallocSpec AllocOps AllocRefine AllocThms Arrays Handover Examples GlobalAlloc AllocApi GlobalThms HandoverSnapshot ByteHeap TypeSafety Collections Sbi Console Boot Reports Messages System Startup SelfTest AllocTests.

Abbreviation heap := (gmap Z (list Z)).

Section logic.
Context {P : Profile} {W : Type} `{!Firmware W}.
Implicit Types (F H : heap) (r : RState W).

Definition runs {A} (c : Z) F (m : M (RState W) A) (Φ : A → heap → Prop) : Prop :=
  ∀ K r, kernel_heap K F (kernel r) → c ≤ K →
  ∃ a F' r', m r = Ret (a, r') ∧ kernel_heap (K - c) F' (kernel r') ∧ Φ a F'.

Lemma runs_ret {A} c F (a : A) (Φ : A → heap → Prop) : 0 ≤ c → Φ a F → runs c F (mret a) Φ.
Proof. intros Hc HΦ K r Hr HK. exists a, F, r. split_and!; [done|eapply kernel_heap_mono; [exact Hr|lia]|done]. Qed.

Lemma runs_bind {A B} c1 c2 c F (m : M (RState W) A) (k : A → M (RState W) B) Φ Ψ :
  runs c1 F m Φ → (∀ a F', Φ a F' → runs c2 F' (k a) Ψ) → 0 ≤ c1 → 0 ≤ c2 → c1 + c2 ≤ c →
  runs c F (m ≫= k) Ψ.
Proof.
  intros Hm Hk H1 H2 Hc K r Hr HK. destruct (Hm K r Hr ltac:(lia)) as (a & F1 & r1 & E1 & Hr1 & HΦ).
  destruct (Hk a F1 HΦ _ r1 Hr1 ltac:(lia)) as (b & F2 & r2 & E2 & Hr2 & HΨ). exists b, F2, r2.
  split_and!; [by mstep_with ltac:(exact E1)|eapply kernel_heap_mono; [exact Hr2|lia]|done].
Qed.

Lemma runs_conseq {A} c c' F (m : M (RState W) A) (Φ Ψ : A → heap → Prop) :
  runs c F m Φ → (∀ a F', Φ a F' → Ψ a F') → 0 ≤ c ≤ c' → runs c' F m Ψ.
Proof.
  intros Hm HΨ Hc K r Hr HK. destruct (Hm K r Hr ltac:(lia)) as (a & F1 & r1 & E1 & Hr1 & HΦ).
  exists a, F1, r1. split_and!; [done|eapply kernel_heap_mono; [exact Hr1|lia]|by apply HΨ].
Qed.

(** A step that costs nothing and changes nothing. *)
Lemma runs_pure_bind {A B} c F (m : M (RState W) A) (k : A → M (RState W) B) a Ψ :
  (∀ K r, kernel_heap K F (kernel r) → ∃ w, m r = Ret (a, mkR (kernel r) w)) → runs c F (k a) Ψ → runs c F (m ≫= k) Ψ.
Proof.
  intros Hm Hk K r Hr HK. destruct (Hm K r Hr) as [w E].
  destruct (Hk K (mkR (kernel r) w) Hr HK) as (b & F' & r' & E' & H). exists b, F', r'.
  split; [by mstep_with ltac:(exact E)|done].
Qed.

Lemma runs_report {B} c F (m : M W unit) (k : unit → M (RState W) B) Ψ :
  returns m → runs c F (k tt) Ψ → runs c F (on_console m ≫= k) Ψ.
Proof.
  intros Hm. apply runs_pure_bind. intros K r _. destruct (Hm (console r)) as [w E]. exists w. unfold on_console, zoom. by rewrite E.
Qed.

(** What the laws of the global allocator give. *)
Lemma runs_law {A} c F (m : M (RState W) A) (Φ : A → heap → Prop) :
  (∀ (L : GlobalAllocLaws (RState W)) K r, owns K F r → c ≤ K →
     ∃ a F' r', m r = Ret (a, r') ∧ owns (K - c) F' r' ∧ Φ a F') → runs c F m Φ.
Proof.
  intros H K r Hr HK. destruct (H (EarlyGlobalAllocator_laws (console r)) K r (conj Hr eq_refl) HK)
    as (a & F' & r' & E & [Hr' _] & HΦ).
  by exists a, F', r'.
Qed.

(** A program that gets to a step which never returns. *)
Lemma runs_then_hang {A B} c F (m : M (RState W) A) (k : A → M (RState W) B) Φ K r :
  runs c F m Φ → kernel_heap K F (kernel r) → c ≤ K →
  (∀ a F' K' r', Φ a F' → kernel_heap K' F' (kernel r') → k a r' = Hang) → (m ≫= k) r = Hang.
Proof.
  intros Hm Hr HK Hk. destruct (Hm K r Hr HK) as (a & F' & r' & E & Hr' & HΦ).
  mstep_with ltac:(exact E). by eapply Hk.
Qed.

(** Loops whose body never returns from the function. *)
Lemma runs_for_each {A R} c F (xs : list A) (body : A → M (RState W) (option R)) (I : nat → heap → Prop) :
  I 0%nat F → 0 ≤ c →
  (∀ i x F, xs !! i = Some x → I i F → runs c F (body x) (λ o F', o = None ∧ I (Datatypes.S i) F')) →
  runs (c * Z.of_nat (length xs)) F (for_each xs body) (λ o F', o = None ∧ I (length xs) F').
Proof.
  revert F I. induction xs as [|x xs IH]; intros F I H0 Hc Hb; [by apply runs_ret; [cbn; lia|]|].
  cbn [for_each length]. eapply (runs_bind c (c * Z.of_nat (length xs))); [by apply (Hb 0%nat)| |done|lia|lia].
  intros o F' [-> H1]. apply (IH F' (λ i, I (Datatypes.S i))); [done|done|]. intros i y G Hi. by apply (Hb (Datatypes.S i)).
Qed.

Lemma runs_for_loop {A T R} c F (xs : list A) (t : T) (body : A → T → M (RState W) (T + R)) (I : nat → T → heap → Prop) :
  I 0%nat t F → 0 ≤ c →
  (∀ i x t F, xs !! i = Some x → I i t F → runs c F (body x t) (λ o F', ∃ t', o = inl t' ∧ I (Datatypes.S i) t' F')) →
  runs (c * Z.of_nat (length xs)) F (for_loop xs t body) (λ o F', ∃ t', o = inl t' ∧ I (length xs) t' F').
Proof.
  revert F t I. induction xs as [|x xs IH]; intros F t I H0 Hc Hb; [apply runs_ret; [cbn; lia|by exists t]|].
  cbn [for_loop length]. eapply (runs_bind c (c * Z.of_nat (length xs))); [by apply (Hb 0%nat)| |done|lia|lia].
  intros o F' (t' & -> & H1). apply (IH F' t' (λ i, I (Datatypes.S i))); [done|done|].
  intros i y u G Hi. by apply (Hb (Datatypes.S i)).
Qed.

(** *** The interface *)

Lemma owned_range K F g p b :
  kernel_heap K F g → F !! p = Some b →
  0 < p ∧ in_u64 p ∧ in_u64 (Z.of_nat (length b)) ∧ Forall in_u8 b.
Proof.
  intros [(N & s & bs & (_ & I & _) & _ & _ & _ & _ & B) _] Hp.
  destruct (bh_owned _ _ _ _ B p b Hp) as (n & Hin & Hn & Hb). apply used_ptrs_bounds in Hin; [|apply I].
  assert (Forall in_u8 b).
  { apply Forall_lookup. intros k c Hk. rewrite <-(Hb k c Hk). apply byte_at_range. }
  pose proof (wf_start _ _ (proj1 I)). pose proof (wf_end _ _ (proj1 I)). pose proof (bh_limit _ _ _ _ B).
  unfold in_u64, HEADER_SIZE in *. split_and!; try done; lia.
Qed.

(** A program may rely on the range of the pointers it owns. *)
Lemma runs_owned {A} c F p b (m : M (RState W) A) Φ :
  F !! p = Some b →
  (0 < p → in_u64 p → in_u64 (Z.of_nat (length b)) → Forall in_u8 b → runs c F m Φ) → runs c F m Φ.
Proof. intros Hp Hm K r Hr. destruct (owned_range _ _ _ _ _ Hr Hp) as (H0 & H1 & H2 & H3). by apply Hm. Qed.

Lemma heap_flags K F g : kernel_heap K F g → initialized g = true ∧ enabled g = true.
Proof. by intros [(N & s & bs & _ & _ & _ & ? & ? & _) _]. Qed.

Lemma runs_alloc sz F :
  word_layout (mkLayout sz 8) →
  runs (sz + 144) F (Verbose.alloc sz) (λ o F', ∃ p b, o = Some p ∧ F !! p = None
    ∧ Z.of_nat (length b) = sz ∧ F' = <[p := b]> F).
Proof.
  intros Hl K r Hr HK. destruct (heap_flags _ _ _ Hr) as [Hi He].
  destruct (alloc_kernel_heap K F (kernel r) (mkLayout sz 8) Hr Hl HK) as (p & b & g & E & Hp & Hf & Hb & Hg).
  cbn [lsize] in *. replace (K - (sz + 144)) with (K - sz - 144) by lia.
  exists (Some p), (<[p := b]> F), (mkR g (console r)). split_and!; [|done|by exists p, b].
  unfold Verbose.alloc, Verbose.is_initialized, Verbose.is_enabled.
  mstep_with ltac:(apply on_kernel_Ret; reflexivity). rewrite Hi. cbn [negb].
  mstep_with ltac:(apply on_kernel_Ret; reflexivity). cbn [kernel]. rewrite He. cbn [negb].
  rewrite (proj2 (Z.eqb_neq sz 0)) by (destruct Hl; cbn in *; lia).
  unfold Global_alloc in E. cbn [lsize lalign] in E. apply bind_inv in E as (o & g1 & E1 & [= E2 <-]).
  destruct o as [q|]; [|by cbn in E2]. cbn in E2. subst q.
  mstep_with ltac:(apply on_kernel_Ret; exact E1). reflexivity.
Qed.

Lemma runs_dealloc p n F b :
  F !! p = Some b → runs 8 F (dealloc_safe p n) (λ o F', o = Ok tt ∧ F' = delete p F).
Proof.
  intros Hp K r Hr HK. destruct (heap_flags _ _ _ Hr) as [Hi He]. pose proof (owned_range _ _ _ _ _ Hr Hp) as [H0 _].
  destruct (TS_dealloc_byte_heap K F (kernel r) p (proj1 Hr) ltac:(by eexists) HK) as (g & _ & E & Hg).
  exists (Ok tt), (delete p F), (mkR g (console r)). split; [|split; [split; [exact Hg|]|done]].
  - unfold dealloc_safe. apply on_kernel_Ret. unfold Api.dealloc_safe, Api.is_initialized, NonNull_new. mstep.
    rewrite Hi, (proj2 (Z.eqb_neq p 0)) by lia. exact E.
  - by apply (wt_TS_dealloc p (kernel r) (Ok tt) g (proj2 Hr)).
Qed.

Lemma runs_write p off data b F :
  F !! p = Some b → (off + length data ≤ length b)%nat → Forall in_u8 data →
  runs 0 F (ga_write (p + Z.of_nat off) data) (λ _ F', F' = <[p := overwrite b off data]> F).
Proof.
  intros Hp Hl Hd. apply runs_law. intros L K r Hr HK. destruct (ga_write_law K F r p b off data Hr Hp Hl Hd) as (r' & E & Hr').
  eexists _, _, r'. rewrite Z.sub_0_r. by split_and!.
Qed.

Lemma runs_read p off n b F :
  F !! p = Some b → (off + n ≤ length b)%nat →
  runs 0 F (ga_read (p + Z.of_nat off) n) (λ x F', x = le_value (take n (drop off b)) ∧ F' = F).
Proof.
  intros Hp Hl. apply runs_law. intros L K r Hr HK. eexists _, F, r. rewrite Z.sub_0_r.
  split_and!; [by eapply ga_read_law|done|done|done].
Qed.

(** [ptr::write_bytes] over a whole block. *)
Lemma runs_fill p b n c F :
  F !! p = Some b → length b = n → in_u8 c →
  runs 0 F (on_kernel (on_machine (modify (with_mem (λ m, write_bytes n m p c)))))
    (λ _ F', F' = <[p := replicate n c]> F).
Proof.
  intros Hp Hn Hc K r Hr HK. destruct (fill_byte_heap K F (kernel r) p b n c (proj1 Hr) Hp Hn Hc) as (g & E & Hg).
  exists tt, (<[p := replicate n c]> F), (mkR g (console r)). rewrite Z.sub_0_r.
  split; [by apply on_kernel_Ret|]. split; [|done]. split; [done|].
  by apply (wt_on_machine _ (wt_write_bytes n p c) (kernel r) tt g (proj2 Hr)).
Qed.

Lemma runs_alloc_purpose sz pu F :
  word_layout (mkLayout sz 8) →
  runs (sz + 144) F (Verbose.alloc_with_purpose sz pu) (λ o F', ∃ p b, o = Some p ∧ F !! p = None
    ∧ Z.of_nat (length b) = sz ∧ F' = <[p := b]> F).
Proof.
  intros Hl. assert (0 < sz) by (by destruct Hl). unfold Verbose.alloc_with_purpose.
  eapply (runs_bind (sz + 144) 0); [by apply runs_alloc| |lia|lia|lia].
  intros o F' (p & b & -> & Hp & Hb & ->). unfold Verbose.warn_purpose.
  apply (runs_pure_bind 0 _ _ _ tt).
  - intros K r Hr. exists (console r). destruct (heap_flags _ _ _ Hr) as [Hi _].
    mstep_with ltac:(apply on_kernel_Ret; unfold Api.set_purpose, Api.is_initialized; mstep; rewrite Hi; reflexivity).
    reflexivity.
  - apply runs_ret; [lia|]. by exists p, b.
Qed.

Lemma runs_integrity F : runs 0 F (on_kernel Api.integrity_check) (λ o F', o = Ok tt ∧ F' = F).
Proof.
  intros K r Hr HK. pose proof Hr as [(N & s & bs & (Hh & I & _) & _ & _ & Hi & _) _].
  exists (Ok tt), F, r. rewrite Z.sub_0_r. split_and!; [|done|done|done].
  rewrite (on_kernel_Ret _ r (Ok tt) (kernel r)); [by destruct r|]. by apply (api_integrity_run _ s bs).
Qed.

Lemma runs_health F : runs 0 F (on_kernel Api.health_check) (λ o F', is_Some o ∧ F' = F).
Proof.
  intros K r Hr HK. pose proof Hr as [(N & s & bs & (Hh & _ & Hc) & ? & ? & Hi & _) _].
  destruct (health_check_run N (kernel r) s Hh Hc ltac:(lia) Hi) as [h Eh].
  exists (Some h), F, r. rewrite Z.sub_0_r. split_and!; [|done|done|done].
  rewrite (on_kernel_Ret _ r (Some h) (kernel r)); [by destruct r|done].
Qed.

Lemma runs_print F (m : M W unit) : returns m → runs 0 F (on_console m) (λ _ F', F' = F).
Proof.
  intros Hm K r Hr HK. destruct (Hm (console r)) as [w E]. exists tt, F, (mkR (kernel r) w). rewrite Z.sub_0_r.
  split_and!; [|done|done]. unfold on_console, zoom. by rewrite E.
Qed.

End logic.

(** ** Vectors, and the allocations they keep *)

(** Blocks [l] next to those of [F]. *)
Definition owned (l : list (Z * list Z)) (F : heap) : heap := list_to_map l ∪ F.
Definition apart (l : list (Z * list Z)) (F : heap) : Prop := NoDup l.*1 ∧ Forall (λ x, F !! x.1 = None) l.

Lemma owned_nil F : owned [] F = F.
Proof. apply map_empty_union. Qed.

Lemma owned_snoc l p b F : owned l F !! p = None → owned (l ++ [(p, b)]) F = <[p := b]> (owned l F).
Proof.
  unfold owned. rewrite lookup_union_None. intros [Hp _]. rewrite list_to_map_snoc; [by rewrite insert_union_l|].
  by apply not_elem_of_list_to_map.
Qed.

Lemma apart_snoc l p b F : apart l F → owned l F !! p = None → apart (l ++ [(p, b)]) F.
Proof.
  intros [H1 H2] Hp. unfold owned in Hp. apply lookup_union_None in Hp as [Hp Hf]. split.
  - rewrite fmap_app. apply NoDup_app. split_and!; [done| |apply NoDup_singleton].
    intros q Hq ->%list_elem_of_singleton. by apply not_elem_of_list_to_map in Hp.
  - apply Forall_app. by repeat constructor.
Qed.

Lemma owned_lookup l1 p b l2 F : apart (l1 ++ (p, b) :: l2) F → owned (l1 ++ (p, b) :: l2) F !! p = Some b.
Proof.
  intros [H1 _]. unfold owned. apply lookup_union_Some_l. apply elem_of_list_to_map; [done|].
  rewrite elem_of_app, elem_of_cons. tauto.
Qed.

Lemma apart_delete l1 x l2 F : apart (l1 ++ x :: l2) F → apart (l1 ++ l2) F.
Proof.
  intros [H1 H2]. rewrite fmap_app, fmap_cons in H1. apply Forall_app in H2 as [Ha [_ Hb]%Forall_cons].
  split; [|by apply Forall_app]. rewrite fmap_app.
  apply NoDup_app in H1 as (N1 & N2 & [_ N3]%NoDup_cons). apply NoDup_app. split_and!; [done| |done].
  intros q Hq Hq'. apply (N2 q Hq). by apply elem_of_cons; right.
Qed.

Lemma owned_delete l1 p b l2 F :
  apart (l1 ++ (p, b) :: l2) F → delete p (owned (l1 ++ (p, b) :: l2) F) = owned (l1 ++ l2) F.
Proof.
  intros [H1 H2]. apply Forall_app in H2 as [_ [Hp _]%Forall_cons]. cbn in Hp. unfold owned.
  rewrite delete_union, (delete_id F) by done. f_equal.
  rewrite (list_to_map_proper _ ((p, b) :: l1 ++ l2) H1) by (by rewrite Permutation_middle).
  rewrite list_to_map_cons, delete_insert_id; [done|]. apply not_elem_of_list_to_map.
  rewrite fmap_app, fmap_cons in H1. apply NoDup_app in H1 as (_ & N2 & [N3 _]%NoDup_cons).
  rewrite fmap_app, elem_of_app. intros [Hq|Hq]; [|done]. by apply (N2 p Hq), elem_of_cons; left.
Qed.

Section tracked.
Context {P : Profile} {W : Type} `{!Firmware W}.
Context (es : Z) (Hes : 0 < es ≤ 1024) (Hwords : Vec.MIN_NON_ZERO_CAP es * es mod 8 = 0).
Implicit Types (F H : heap).

(** The vector in the array [f], with room for about [n] elements. *)
Definition vec (n : Z) (v : Vec.t) (xs : list (list Z)) (f : heap) : Prop :=
  Vec.holds es v xs f ∧ Vec.pushed es v ∧ Vec.cap v ≤ 2 * n + 8 ∧ Forall (Forall in_u8) xs.

Lemma vec_new ea n : 0 ≤ n → vec n (Vec.new ea) [] ∅.
Proof.
  intros Hn. pose proof (Vec.least_bounds es Hes). split_and!; [split_and!; [done|constructor|by left]|..].
  - split_and!; cbn; [done|apply Z.mod_0_l; lia|done|done].
  - cbn. lia.
  - constructor.
Qed.

Definition push_credits (n : Z) : Z := (4 * n + 16) * es + 152.

Lemma runs_push ea n v xs f x F :
  (ea = 1 ∨ ea = 2 ∨ ea = 4 ∨ ea = 8) → vec n v xs f → f ##ₘ F → Z.of_nat (length xs) < n → n ≤ 2 ^ 40 → Z.of_nat (length x) = es → Forall in_u8 x →
  runs (W := W) (push_credits n) (f ∪ F) (Vec.push es ea v x) (λ v' H, ∃ f', H = f' ∪ F ∧ f' ##ₘ F
    ∧ vec n v' (xs ++ [x]) f').
Proof.
  intros Hea (Hh & Hp & Hc & Hu) Hd Hn Hbig Hx Hx8. apply runs_law. intros L K r Hr HK. pose proof (Vec.least_bounds es Hes).
  assert (Vec.push_cost es v ≤ push_credits n ∧ 0 ≤ Vec.push_cost es v) as [Hcost Hcost0].
  { unfold Vec.push_cost, push_credits. destruct Hp. case_match; [|nia]. nia. }
  destruct (Vec.push_law es ea Hes Hwords Hea K F f v xs x r Hr Hd Hh Hp ltac:(lia) Hx Hx8 ltac:(lia))
    as (v' & f' & r' & E & Hr' & Hd' & Hh' & Hp' & Hc').
  exists v', (f' ∪ F), r'. split_and!; [done|eapply owns_mono; [exact Hr'|lia]|].
  exists f'. split_and!; [done|done|]. split_and!; [done|apply Hp'..| |].
  - destruct Hh as [Hlen _]. rewrite Hc'. destruct (Z.eqb_spec (Vec.len v) (Vec.cap v)); lia.
  - apply Forall_app. by repeat constructor.
Qed.

Lemma runs_push_all ea n v xs f ys F :
  (ea = 1 ∨ ea = 2 ∨ ea = 4 ∨ ea = 8) →
  vec n v xs f → f ##ₘ F → Vec.cap v ≤ 2 * n → Z.of_nat (length xs + length ys) ≤ n → n ≤ 2 ^ 40 →
  Forall (λ x, Z.of_nat (length x) = es ∧ Forall in_u8 x) ys →
  runs (W := W) (Vec.vec_credits es n) (f ∪ F) (Vec.push_all es ea v ys) (λ v' H, ∃ f', H = f' ∪ F ∧ f' ##ₘ F
    ∧ vec n v' (xs ++ ys) f').
Proof.
  intros Hea (Hh & Hp & Hc & Hu) Hd Hcn Hn Hbig Hys. apply runs_law. intros L K r Hr HK.
  pose proof (Vec.least_bounds es Hes). set (c := Vec.cap v * (2 * es + 38)).
  assert (0 ≤ c) by (unfold c; destruct Hp; nia).
  destruct (Vec.push_all_law es ea Hes Hwords Hea n (K + c) F f v xs ys r)
    as (v' & f' & r' & E & Hr' & Hd' & Hh' & Hp' & Hc'); try done; try lia.
  { fold c. by replace (K + c - c) with K by lia. }
  exists v', (f' ∪ F), r'. split_and!; [done|eapply owns_mono; [exact Hr'|]|].
  { lia. }
  exists f'. split_and!; [done|done|]. split_and!; [done|apply Hp'..|lia|]. apply Forall_app. split; [done|].
  eapply Forall_impl; [exact Hys|]. by intros x [_ ?].
Qed.

Lemma runs_index n v xs f i x F :
  vec n v xs f → xs !! i = Some x →
  runs (W := W) 0 (f ∪ F) (Vec.index es v (Z.of_nat i)) (λ y H, y = le_value x ∧ H = f ∪ F).
Proof.
  intros (Hh & _) Hi. apply runs_law. intros L K r Hr HK. eexists _, _, r. rewrite Z.sub_0_r.
  split_and!; [by eapply (Vec.index_law es ltac:(lia))|done|done|done].
Qed.

Lemma runs_pop n v xs x f F :
  vec n v (xs ++ [x]) f →
  runs (W := W) 0 (f ∪ F) (Vec.pop es v) (λ y H, H = f ∪ F ∧ ∃ v', y = (Some (le_value x), v') ∧ vec n v' xs f).
Proof.
  intros (Hh & Hp & Hc & Hu). apply runs_law. intros L K r Hr HK.
  destruct (Vec.pop_law es ltac:(lia) K F f v xs x r Hr Hh) as [E Hh']. eexists _, _, r. rewrite Z.sub_0_r.
  split_and!; [exact E|done|done|]. eexists. split; [done|]. apply Forall_app in Hu as [Hu _].
  split_and!; [done| |done|done]. destruct Hp as (Hp1 & Hp2 & Hp3). pose proof (proj1 Hh) as Hlen.
  rewrite length_app in Hlen. cbn in Hlen. split_and!; cbn; [done|done|lia|lia].
Qed.

Lemma runs_remove n v xs1 x xs2 f F :
  vec n v (xs1 ++ x :: xs2) f → f ##ₘ F →
  runs (W := W) 0 (f ∪ F) (Vec.remove es v (Z.of_nat (length xs1))) (λ y H, ∃ v' f', y = (le_value x, v')
    ∧ H = f' ∪ F ∧ f' ##ₘ F ∧ vec n v' (xs1 ++ xs2) f').
Proof.
  intros (Hh & Hp & Hc & Hu) Hd. apply runs_law. intros L K r Hr HK. apply Forall_app in Hu as [Hu1 [_ Hu2]%Forall_cons].
  destruct (Vec.remove_law es ltac:(lia) K F f v xs1 x xs2 r Hr Hd Hh Hu2) as (f' & r' & E & Hr' & Hd' & Hh').
  eexists _, _, r'. rewrite Z.sub_0_r. split_and!; [exact E|done|]. eexists _, f'. split_and!; [done..|].
  split_and!; [done| |done|by apply Forall_app]. destruct Hp as (Hp1 & Hp2 & Hp3). pose proof (proj1 Hh) as Hlen.
  rewrite length_app in Hlen. cbn in Hlen. split_and!; cbn; [done|done|lia|lia].
Qed.

Lemma runs_drop n v xs f F ea :
  vec n v xs f → f ##ₘ F → runs (W := W) 8 (f ∪ F) (Vec.drop es ea v) (λ _ H, H = F).
Proof.
  intros (Hh & _) Hd. apply runs_law. intros L K r Hr HK.
  destruct (Vec.drop_law es ea K F f v xs r Hr Hd Hh HK) as (r' & E & Hr'). eexists _, F, r'. by split_and!.
Qed.

End tracked.

(** *** The entries *)

Lemma le_value_app a b : le_value (a ++ b) = le_value a + 256 ^ Z.of_nat (length a) * le_value b.
Proof.
  induction a as [|x a IH]; [cbn [app le_value length Z.of_nat]; rewrite Z.pow_0_r; lia|].
  cbn [app le_value length]. rewrite IH, Nat2Z.inj_succ, Z.pow_succ_r by lia. lia.
Qed.

Lemma words_bytes_length l : Z.of_nat (length (words_bytes l)) = 8 * Z.of_nat (length l).
Proof.
  unfold words_bytes. rewrite (Vec.mjoin_length 8), length_fmap; [lia|].
  apply Forall_fmap, Forall_true. intros x. cbn [compose]. by rewrite le_bytes_length.
Qed.

Lemma words_bytes_ok l : Forall in_u8 (words_bytes l).
Proof.
  induction l as [|x l IH]; [constructor|]. change (words_bytes (x :: l)) with (le_bytes 8 x ++ words_bytes l).
  apply Forall_app. split; [apply le_bytes_ok|done].
Qed.

Lemma field_words l i x :
  Forall in_u64 l → l !! i = Some x → field (Z.of_nat i) (le_value (words_bytes l)) = x.
Proof.
  intros H. revert i. induction H as [|y l Hy H IH]; intros i Hi; [done|]. unfold in_u64 in Hy.
  change (words_bytes (y :: l)) with (le_bytes 8 y ++ words_bytes l).
  rewrite le_value_app, le_bytes_length, le_value_bytes by (cbn; lia). change (256 ^ Z.of_nat 8) with (2 ^ 64).
  rewrite (Z.mul_comm (2 ^ 64)). destruct i as [|i].
  - injection Hi as ->. unfold field. change (2 ^ (64 * Z.of_nat 0)) with 1. rewrite Z.div_1_r, Z.mod_add by lia.
    by apply Z.mod_small.
  - rewrite <-(IH i Hi). unfold field.
    replace (2 ^ (64 * Z.of_nat (S i))) with (2 ^ 64 * 2 ^ (64 * Z.of_nat i)) by (rewrite <-Z.pow_add_r by lia; f_equal; lia).
    rewrite <-Z.div_div by lia. by rewrite Z.div_add, (Z.div_small y), Z.add_0_l by lia.
Qed.

(** An entry of a vector of allocations: pointer, size, and for the stress test
    the byte the block is filled with. *)
Definition entry (x : Z * list Z) : list Z := words_bytes [x.1; Z.of_nat (length x.2)].
Definition stamped (x : Z * list Z) : list Z := words_bytes [x.1; Z.of_nat (length x.2); default 0 (head x.2)].

Section tracking.
Context {P : Profile} {W : Type} `{!Firmware W}.
Context (es : Z) (Hes : 0 < es ≤ 1024) (Hwords : Vec.MIN_NON_ZERO_CAP es * es mod 8 = 0).
(** How a block is written into the vector. *)
Context (enc : Z * list Z → list Z).
Context (enc_ok : ∀ x, Z.of_nat (length (enc x)) = es ∧ Forall in_u8 (enc x)).
Context (enc_ptr : ∀ p b, in_u64 p → in_u64 (Z.of_nat (length b)) → Forall in_u8 b → field 0 (le_value (enc (p, b))) = p).
Implicit Types (F H : heap).

(** The vector holds the entries of [l], and the blocks [o] are allocated. *)
Definition tracks (n : Z) (v : Vec.t) (l o : list (Z * list Z)) F H : Prop :=
  ∃ f, H = f ∪ owned o F ∧ f ##ₘ owned o F ∧ vec es n v (enc <$> l) f ∧ apart o F.

Lemma tracks_new n F : 0 ≤ n → tracks n (Vec.new 8) [] [] F F.
Proof.
  intros Hn. exists ∅. rewrite owned_nil, map_empty_union.
  split_and!; [done|apply map_disjoint_empty_l|by apply vec_new|].
  split; [apply NoDup_nil_2|constructor].
Qed.

(** A fresh block goes into the vector. *)
Lemma runs_track n v l p b F H :
  tracks n v l l F H → H !! p = None → Z.of_nat (length l) < n → n ≤ 2 ^ 40 →
  runs (W := W) (push_credits es n) (<[p := b]> H) (Vec.push es 8 v (enc (p, b)))
    (λ v' H', tracks n v' (l ++ [(p, b)]) (l ++ [(p, b)]) F H').
Proof.
  intros (f & -> & Hd & Hv & Ha) Hp Hn Hbig. apply lookup_union_None in Hp as [Hpf Hpo].
  rewrite insert_union_r, <-owned_snoc by done.
  assert (f ##ₘ owned (l ++ [(p, b)]) F) as Hd' by (rewrite owned_snoc by done; by apply map_disjoint_insert_r_2).
  destruct (enc_ok (p, b)) as [Hx1 Hx2].
  eapply runs_conseq; [apply (runs_push es Hes Hwords 8 n v (enc <$> l) f (enc (p, b))); try done; [tauto|by rewrite length_fmap]| |].
  - intros v' H' (f' & -> & Hd2 & Hv'). exists f'. rewrite fmap_app. split_and!; [done|done|done|by apply apart_snoc].
  - unfold push_credits. destruct Hes. nia.
Qed.

Lemma tracks_lookup n v l o1 p b o2 F H : tracks n v l (o1 ++ (p, b) :: o2) F H → H !! p = Some b.
Proof.
  intros (f & -> & Hd & Hv & Ha). apply owned_lookup in Ha.
  rewrite lookup_union_r; [done|]. by eapply map_disjoint_Some_r.
Qed.

Lemma tracks_delete n v l o1 p b o2 F H :
  tracks n v l (o1 ++ (p, b) :: o2) F H → tracks n v l (o1 ++ o2) F (delete p H).
Proof.
  intros (f & -> & Hd & Hv & Ha). exists f. pose proof (owned_lookup _ _ _ _ _ Ha) as Hp.
  pose proof (map_disjoint_Some_r _ _ _ _ Hd Hp) as Hpf.
  rewrite delete_union, (delete_id f), owned_delete by done. split_and!; [done| |done|by eapply apart_delete].
  rewrite <-(owned_delete o1 p b o2 F Ha). by apply map_disjoint_delete_r.
Qed.

Lemma runs_tracked_index n v l o i x F H :
  tracks n v l o F H → l !! i = Some x →
  runs (W := W) 0 H (Vec.index es v (Z.of_nat i)) (λ y H', y = le_value (enc x) ∧ H' = H).
Proof.
  intros (f & -> & Hd & Hv & Ha) Hi. eapply (runs_index es Hes); [exact Hv|]. by rewrite list_lookup_fmap, Hi.
Qed.

(** An entry leaves the vector; its block stays allocated. *)
Lemma runs_untrack n v l1 x l2 o F H :
  tracks n v (l1 ++ x :: l2) o F H →
  runs (W := W) 0 H (Vec.remove es v (Z.of_nat (length l1)))
    (λ y H', ∃ v', y = (le_value (enc x), v') ∧ tracks n v' (l1 ++ l2) o F H').
Proof.
  intros (f & -> & Hd & Hv & Ha). rewrite fmap_app, fmap_cons in Hv.
  eapply runs_conseq; [rewrite <-(length_fmap enc l1); by eapply (runs_remove es Hes)| |lia].
  intros y H (v' & f' & -> & -> & Hd' & Hv'). exists v'. split; [done|]. exists f'. by rewrite fmap_app.
Qed.

(** [for x in v]: a body that frees the block of its entry gives back everything
    the vector kept. *)
Lemma runs_into_iter {R} n v l F H (body : Z → M (RState W) (option R)) :
  tracks n v l l F H →
  (∀ p b H, H !! p = Some b →
     runs 8 H (body (le_value (enc (p, b)))) (λ o H', o = None ∧ H' = delete p H)) →
  runs (8 * Z.of_nat (length l) + 8) H (into_iter es v body) (λ o H', o = None ∧ H' = F).
Proof.
  intros Ht Hb. unfold into_iter.
  assert (Vec.len v = Z.of_nat (length l)) as ->.
  { destruct Ht as (f & _ & _ & ((Hlen & _) & _) & _). by rewrite length_fmap in Hlen. }
  eapply (runs_bind (8 * Z.of_nat (length (seqZ 0 (Z.of_nat (length l))))) 8 _ _ _ _
            (λ o H', o = None ∧ tracks n v l [] F H')).
  - eapply runs_conseq; [apply (runs_for_each 8 H _ _ (λ i H', tracks n v l (drop i l) F H'))| |rewrite length_seqZ; lia].
    + done.
    + lia.
    + intros i j G [-> Hi]%lookup_seqZ Hg. assert (i < length l)%nat as Hlt by lia.
      destruct (lookup_lt_is_Some_2 l i Hlt) as [[p b] Hx]. rewrite (drop_S _ _ _ Hx) in Hg.
      rewrite Z.add_0_l. eapply (runs_bind 0 8); [by eapply runs_tracked_index| |lia|lia|lia].
      intros y G' [-> ->]. eapply runs_conseq; [apply Hb|..|lia].
      * by eapply (tracks_lookup n v l []).
      * intros o G' [-> ->]. split; [done|]. by eapply (tracks_delete n v l []).
    + intros o G [-> Hg]. split; [done|]. rewrite length_seqZ, Nat2Z.id, drop_all in Hg. done.
  - intros o G [-> (f & -> & Hd & Hv & _)]. rewrite owned_nil in *.
    eapply (runs_bind 8 0); [by eapply runs_drop| |lia|lia|lia]. intros [] G ->. by apply runs_ret.
  - rewrite length_seqZ. lia.
  - lia.
  - rewrite length_seqZ. lia.
Qed.

Lemma runs_free p b n F :
  F !! p = Some b →
  runs (W := W) 8 F (dealloc_safe (field 0 (le_value (enc (p, b)))) n) (λ o F', o = Ok tt ∧ F' = delete p F).
Proof.
  intros Hp. apply (runs_owned _ F p b); [done|]. intros _ H1 H2 H3. rewrite enc_ptr by done.
  by apply (runs_dealloc p n F b).
Qed.

Lemma runs_cleanup n v l F H :
  tracks n v l l F H → runs (W := W) (8 * Z.of_nat (length l) + 8) H (cleanup es v) (λ _ H', H' = F).
Proof.
  intros Ht. unfold cleanup. eapply (runs_bind _ 0); [eapply (runs_into_iter n v l F H _ Ht)| |lia|lia|lia].
  - intros p b G Hp. eapply (runs_bind 8 0); [by apply runs_free| |lia|lia|lia].
    intros o G' [-> ->]. by apply runs_ret.
  - intros o G [_ ->]. by apply runs_ret.
Qed.

End tracking.

Lemma entry_ok x : Z.of_nat (length (entry x)) = 16 ∧ Forall in_u8 (entry x).
Proof. unfold entry. rewrite words_bytes_length. split; [done|apply words_bytes_ok]. Qed.
Lemma stamped_ok x : Z.of_nat (length (stamped x)) = 24 ∧ Forall in_u8 (stamped x).
Proof. unfold stamped. rewrite words_bytes_length. split; [done|apply words_bytes_ok]. Qed.

Lemma u8_u64 z : in_u8 z → in_u64 z.
Proof. unfold in_u8, in_u64. lia. Qed.

Lemma entry_fields p b :
  in_u64 p → in_u64 (Z.of_nat (length b)) →
  field 0 (le_value (entry (p, b))) = p ∧ field 1 (le_value (entry (p, b))) = Z.of_nat (length b).
Proof.
  intros Hp Hb. assert (Forall in_u64 [p; Z.of_nat (length b)]) as H by (repeat (apply Forall_cons_2; [done|]); apply Forall_nil_2).
  split; [by apply (field_words _ 0 _ H)|by apply (field_words _ 1 _ H)].
Qed.

Lemma stamped_fields p b :
  in_u64 p → in_u64 (Z.of_nat (length b)) → Forall in_u8 b →
  field 0 (le_value (stamped (p, b))) = p ∧ field 2 (le_value (stamped (p, b))) = default 0 (head b).
Proof.
  intros Hp Hb Hu.
  assert (in_u64 (default 0 (head b))) as Hh by (destruct Hu; [done|by apply u8_u64]).
  assert (Forall in_u64 [p; Z.of_nat (length b); default 0 (head b)]) as H by (repeat (apply Forall_cons_2; [done|]); apply Forall_nil_2).
  split; [by apply (field_words _ 0 _ H)|by apply (field_words _ 2 _ H)].
Qed.
