(* ===== verification/AllocTestRuns.v ===== *)
(** * What the tests of the allocator find

    The tests of [AllocTests.v] on the kernel's heap, whatever else is allocated
    there, followed with the rules of [TestLogic.v]. *)

From Stdlib Require Import ZArith Lia String.
From stdpp Require Import base option numbers sorting strings gmap list.
From S2P Require Import Prelude Memory Purpose Metadata HeaderSpec Allocator FreeList HeapInv AllocSteps AllocSpec DeallocSpec AllocOps AllocRefine AllocThms Arrays Handover Examples GlobalAlloc AllocApi GlobalThms HandoverSnapshot ByteHeap LentBlock TypeSafety Collections Sbi Console Boot Reports Messages System Startup SelfTest AllocTests TestLogic.

(** ** The tests *)

(** The next report on the console. *)
Ltac hear := unfold say; apply runs_report; [returns; try done|].

(** A test that passes and gives back what it allocated. *)
Abbreviation passes c F m := (runs c F m (λ v F', v = Pass ∧ F' = F)).

Section tests.
Context {P : Profile} {W : Type} `{!Firmware W}.
Implicit Types (F H : heap).

Lemma word_size sz : 16 ≤ sz → sz mod 8 = 0 → word_layout (mkLayout sz 8).
Proof. intros H1 H2. split_and!; cbn; [lia|by rewrite Z.max_l by lia|tauto]. Qed.

Lemma runs_last {A} c F (m : M W unit) (a : A) (Φ : A → heap → Prop) :
  returns m → 0 ≤ c → Φ a F → runs c F (on_console m;; mret a) Φ.
Proof. intros Hm Hc HΦ. apply runs_report; [done|]. by apply runs_ret. Qed.

(** *** The integrity check *)

Definition ten_credits : Z := 10 * (1232 + push_credits 16 10).

Lemma ten_run F :
  runs (W := W) ten_credits F allocate_ten (λ v H, ∃ l, length l = 10%nat ∧ tracks 16 entry 10 v l l F H).
Proof.
  unfold allocate_ten, ten_credits.
  eapply (runs_bind (10 * (1232 + push_credits 16 10)) 0 _ _ _ _
    (λ o H, ∃ v, o = inl v ∧ ∃ l, length l = 10%nat ∧ tracks 16 entry 10 v l l F H)); [|..|by vm_compute|lia|lia].
  - eapply runs_conseq; [apply (runs_for_loop (1232 + push_credits 16 10) F _ _ _
      (λ i v H, ∃ l, length l = i ∧ tracks 16 entry 10 v l l F H))| |by vm_compute].
    + exists []. split; [done|]. by apply tracks_new.
    + by vm_compute.
    + intros i j v H [-> Hi]%lookup_seqZ (l & Hl & Ht). rewrite Z.add_0_l.
      eapply (runs_bind 1232 (push_credits 16 10)); [eapply runs_conseq; [apply runs_alloc|intros o H' Ho; exact Ho|]| |lia|by vm_compute|lia].
      * apply word_size; [lia|]. rewrite Z.add_mod, Z.mul_mod by done. cbn. by rewrite Z.mul_0_r.
      * lia.
      * intros o H' (p & b & -> & Hp & Hb & ->). rewrite <-Hb.
        eapply (runs_bind (push_credits 16 10) 0); [eapply (runs_track 16 ltac:(lia) ltac:(done) entry entry_ok); [exact Ht|done|lia|lia]| |by vm_compute|lia|lia].
        intros v' H' Ht'. apply runs_ret; [lia|]. exists v'. split; [done|]. exists (l ++ [(p, b)]).
        rewrite length_app, Hl. split; [cbn; lia|done].
    + intros o H (v & -> & l & Hl & Ht). exists v. split; [done|]. exists l. by split.
  - intros o H (v & -> & l & Hl & Ht). apply runs_ret; [lia|]. by exists l.
Qed.

Lemma integrity_passes F : passes (ten_credits + 100) F (test_integrity_check (W := W)).
Proof.
  unfold test_integrity_check. hear.
  eapply (runs_bind ten_credits 100); [apply ten_run| |by vm_compute|lia|lia]. intros v H (l & Hl & Ht).
  eapply (runs_bind 0 100); [apply runs_integrity| |lia|lia|lia]. intros o H' [-> ->]. hear.
  eapply (runs_bind _ 0); [eapply (runs_cleanup 16 ltac:(lia) entry); [|exact Ht]| |lia|lia|rewrite Hl; lia].
  { intros p b Hp Hb _. by apply entry_fields. }
  intros [] H' ->. eapply (runs_bind 0 0); [apply runs_integrity| |lia|lia|lia]. intros o H' [-> ->].
  hear. by apply runs_ret.
Qed.

(** *** The collections *)

(** A vector of words is built. *)
Lemma words_run n (value : Z → Z) F :
  0 ≤ n → n ≤ 2 ^ 40 →
  runs (W := W) (Vec.vec_credits 8 n) F (Vec.push_all 8 8 (Vec.new 8) ((λ i, le_bytes 8 (value i)) <$> seqZ 0 n))
    (λ v H, ∃ f, H = f ∪ F ∧ f ##ₘ F ∧ vec 8 n v ((λ i, le_bytes 8 (value i)) <$> seqZ 0 n) f).
Proof.
  intros H0 Hn. rewrite <-(map_empty_union F) at 1.
  apply (runs_push_all 8 ltac:(lia) ltac:(done) 8 n _ [] ∅); [tauto|by apply vec_new|apply map_disjoint_empty_l|cbn; lia| |lia|].
  - cbn. rewrite length_fmap, length_seqZ. lia.
  - apply Forall_fmap, Forall_true. intros i. cbn [compose]. rewrite le_bytes_length. split; [done|apply le_bytes_ok].
Qed.

Lemma seqZ_lookup n (i : nat) : Z.of_nat i < n → seqZ 0 n !! i = Some (Z.of_nat i).
Proof. intros Hi. apply lookup_seqZ. split; lia. Qed.

(** The elements are the ones pushed, ... *)
Lemma words_index n (value : Z → Z) v f F i :
  vec 8 n v ((λ i, le_bytes 8 (value i)) <$> seqZ 0 n) f → (∀ i, 0 ≤ i < n → in_u64 (value i)) → Z.of_nat i < n →
  runs (W := W) 0 (f ∪ F) (Vec.index 8 v (Z.of_nat i)) (λ y H, y = value (Z.of_nat i) ∧ H = f ∪ F).
Proof.
  intros Hv Hr Hi. eapply runs_conseq; [eapply (runs_index 8 ltac:(lia)); [exact Hv|]| |lia].
  - by rewrite list_lookup_fmap, seqZ_lookup.
  - intros y H [-> ->]. split; [|done]. apply le_value_bytes, Hr. lia.
Qed.

(** ... and they come back from the last to the first. *)
Lemma pop_all_run n (value : Z → Z) wrong none v f F :
  vec 8 n v ((λ i, le_bytes 8 (value i)) <$> seqZ 0 n) f → (∀ i, 0 ≤ i < n → in_u64 (value i)) → 0 ≤ n →
  runs (W := W) 0 (f ∪ F) (pop_all n value wrong none v) (λ o H, ∃ v', o = inl v' ∧ H = f ∪ F ∧ vec 8 n v' [] f).
Proof.
  intros Hv Hr Hn. unfold pop_all. set (xs := (λ i, le_bytes 8 (value i)) <$> seqZ 0 n) in *.
  assert (length xs = Z.to_nat n) as Hlen by (unfold xs; by rewrite length_fmap, length_seqZ).
  eapply runs_conseq; [apply (runs_for_loop 0 (f ∪ F) _ _ _
    (λ k v H, H = f ∪ F ∧ vec 8 n v (take (Z.to_nat n - k) xs) f))| |lia].
  - split; [done|]. by rewrite take_ge by lia.
  - lia.
  - intros k i w H Hk [-> Hw]. pose proof (lookup_lt_Some _ _ _ Hk) as Hlt. rewrite length_reverse, length_seqZ in Hlt.
    rewrite reverse_lookup, length_seqZ in Hk by (by rewrite length_seqZ). set (j := (Z.to_nat n - S k)%nat) in *.
    rewrite seqZ_lookup in Hk by lia. injection Hk as <-. replace (Z.to_nat n - k)%nat with (S j) in Hw by lia.
    rewrite (take_S_r _ _ (le_bytes 8 (value (Z.of_nat j)))) in Hw
      by (unfold xs; by rewrite list_lookup_fmap, seqZ_lookup by lia).
    eapply (runs_bind 0 0); [eapply (runs_pop 8 ltac:(lia)); exact Hw| |lia|lia|lia].
    intros y H (-> & v' & -> & Hv'). cbv beta iota.
    rewrite le_value_bytes, Z.eqb_refl by (apply Hr; lia). cbn [negb].
    apply runs_ret; [lia|]. by exists v'.
  - intros o H (v' & -> & -> & Hv'). exists v'. split_and!; [done|done|]. rewrite length_reverse, length_seqZ, Nat.sub_diag in Hv'.
    exact Hv'.
Qed.

Lemma runs_dropping es n ea v xs f F t :
  vec es n v xs f → f ##ₘ F → runs (W := W) 8 (f ∪ F) (dropping es ea v t) (λ v F', v = t ∧ F' = F).
Proof.
  intros Hv Hd. unfold dropping. eapply (runs_bind 8 0); [by eapply runs_drop| |lia|lia|lia].
  intros [] H ->. by apply runs_ret.
Qed.

Lemma dynamic_vec_passes F : passes (Vec.vec_credits 8 100 + 8) F (test_dynamic_vec (W := W)).
Proof.
  unfold test_dynamic_vec. hear.
  eapply (runs_bind (Vec.vec_credits 8 100) 8); [apply (words_run 100 (λ i, i * i)); lia| |by vm_compute|lia|lia].
  intros v H (f & -> & Hd & Hv). pose proof (proj1 (proj1 Hv)) as Hlen. rewrite length_fmap, length_seqZ in Hlen.
  change (Z.of_nat (Z.to_nat 100)) with 100 in Hlen. rewrite Hlen. change (negb (100 =? 100)) with false. cbn iota.
  assert (∀ i, 0 ≤ i < 100 → in_u64 (i * i)) as Hr by (unfold in_u64; nia).
  eapply (runs_bind (0 * Z.of_nat (length (seqZ 0 100))) 8); [apply (runs_for_each 0 _ _ _ (λ _ H, H = f ∪ F))| |lia|lia|lia].
  - done.
  - lia.
  - intros i x H [-> Hi]%lookup_seqZ ->. rewrite Z.add_0_l.
    eapply (runs_bind 0 0); [by eapply (words_index 100 (λ i, i * i))| |lia|lia|lia].
    intros y H [-> ->]. rewrite Z.eqb_refl. cbn [negb]. by apply runs_ret.
  - intros o H [-> ->]. eapply (runs_bind 0 8); [by eapply (pop_all_run 100 (λ i, i * i))| |lia|lia|lia].
    intros o H (v' & -> & -> & Hv'). rewrite (proj1 (proj1 Hv')). change (negb (Z.of_nat (length []) =? 0)) with false. cbn iota.
    hear. by eapply runs_dropping.
Qed.

Lemma early_vec_passes F : passes (Vec.vec_credits 8 10 + Vec.vec_credits 8 20 + 8) F (test_early_vec (W := W)).
Proof.
  unfold test_early_vec. hear.
  eapply (runs_bind (Vec.vec_credits 8 10) (Vec.vec_credits 8 20 + 8)); [apply (words_run 10 (λ i, i * 2)); lia| |by vm_compute|by vm_compute|lia].
  intros v H (f & -> & Hd & Hv). pose proof (proj1 (proj1 Hv)) as Hlen. rewrite length_fmap, length_seqZ in Hlen.
  change (Z.of_nat (Z.to_nat 10)) with 10 in Hlen. rewrite Hlen. change (negb (10 =? 10)) with false. cbn iota.
  assert (∀ i, 0 ≤ i < 10 → in_u64 (i * 2)) as Hr by (unfold in_u64; nia).
  eapply (runs_bind (0 * Z.of_nat (length (seqZ 0 10))) (Vec.vec_credits 8 20 + 8)); [apply (runs_for_each 0 _ _ _ (λ _ H, H = f ∪ F))| |lia|by vm_compute|lia].
  - done.
  - lia.
  - intros i x H [-> Hi]%lookup_seqZ ->. rewrite Z.add_0_l.
    eapply (runs_bind 0 0); [by eapply (words_index 10 (λ i, i * 2))| |lia|lia|lia].
    intros y H [-> ->]. rewrite Z.eqb_refl. cbn [negb]. by apply runs_ret.
  - intros o H [-> ->]. eapply (runs_bind 0 (Vec.vec_credits 8 20 + 8)); [by eapply (pop_all_run 10 (λ i, i * 2))| |lia|by vm_compute|lia].
    intros o H (v' & -> & -> & Hv').
    eapply (runs_bind (Vec.vec_credits 8 20) 8); [apply (runs_push_all 8 ltac:(lia) ltac:(done) 8 20 v' [] f); try done; [tauto|..]| |by vm_compute|lia|lia].
    + destruct Hv' as (H1 & H2 & H3 & H4). split_and!; try done; [apply H2..|lia].
    + destruct Hv' as (_ & _ & ? & _). lia.
    + apply Forall_fmap, Forall_true. intros i. cbn [compose]. rewrite le_bytes_length. split; [done|apply le_bytes_ok].
    + intros v2 H (f2 & -> & Hd2 & Hv2). pose proof (proj1 (proj1 Hv2)) as Hlen2. change (Z.of_nat (length _)) with 20 in Hlen2.
      rewrite Hlen2. change (negb (20 =? 20)) with false. cbn iota. hear. by eapply runs_dropping.
Qed.

Lemma chars_u8 t : Forall in_u8 (chars t).
Proof.
  induction t as [|c t IH]; [constructor|]. constructor; [|done]. pose proof (Ascii.N_ascii_bounded c).
  unfold in_u8. lia.
Qed.

(** A string grows by texts of up to eight bytes. *)
Lemma runs_push_str n v t u f F :
  vec 1 n v (Str.singles t) f → f ##ₘ F → (0 < length u ≤ 8)%nat → Z.of_nat (length t + length u) ≤ n → n ≤ 2 ^ 40 →
  Forall in_u8 u →
  runs (W := W) (push_credits 1 n) (f ∪ F) (Str.push_str v u) (λ v' H, ∃ f', H = f' ∪ F ∧ f' ##ₘ F
    ∧ vec 1 n v' (Str.singles (t ++ u)) f').
Proof.
  intros (Hh & Hp & Hc & Hu) Hd Hlu Hn Hbig Hu8. apply runs_law. intros L K r Hr HK.
  pose proof (proj1 Hh) as Hlen. rewrite Str.length_singles in Hlen. destruct Hp as (Hp1 & Hp2 & Hp3).
  change (Vec.MIN_NON_ZERO_CAP 1) with 8 in Hp2. unfold push_credits in *.
  set (c := if Vec.cap v - Vec.len v <? Z.of_nat (length u) then Vec.grown 1 v (Z.of_nat (length u)) else Vec.cap v).
  assert (c mod 8 = 0 ∧ 8 ≤ c ≤ 2 * n + 8 ∧ Vec.len v + Z.of_nat (length u) ≤ c) as (Hm & Hcb & Hlc).
  { pose proof (Z.div_mod (Vec.cap v) 8 ltac:(done)) as E. rewrite Hp2 in E.
    unfold c, Vec.grown. change (Vec.MIN_NON_ZERO_CAP 1) with 8.
    destruct (Z.ltb_spec (Vec.cap v - Vec.len v) (Z.of_nat (length u))); [|split_and!; [done|lia|lia|lia]].
    destruct (decide (Vec.cap v = 0)); [rewrite Z.max_l by lia; split_and!; [done|lia|lia|lia]|].
    rewrite Z.max_r, Z.max_l by lia. split_and!; [|lia|lia|lia]. rewrite Z.mul_mod, Hp2 by done. done. }
  destruct (Str.extend_law K F f v t u r Hr Hd Hh Hp1) as (v' & f' & r' & E & Hr' & Hd' & Hh' & Ec & El);
    [by destruct u; [cbn in *; lia|]|done| | | |]; try (fold c; lia).
  { fold c. split_and!; cbn [lsize lalign Vec.layout]; [lia| |tauto]. destruct (Z.max_spec (c * 1) 16) as [[_ ->]|[_ ->]]; [done|by rewrite Z.mul_1_r]. }
  fold c in Hr', Ec. exists v', (f' ∪ F), r'. split_and!; [done|eapply owns_mono; [exact Hr'|lia]|].
  exists f'. split_and!; [done|done|]. split_and!; [done| |lia|].
  - split_and!; rewrite ?Ec, ?El; [lia|done|lia|lia].
  - unfold Str.singles in *. rewrite fmap_app. apply Forall_app. split; [done|]. apply Forall_fmap.
    eapply Forall_impl; [exact Hu8|]. intros b Hb. by apply Forall_singleton.
Qed.

Definition string_credits : Z := 3 * push_credits 1 20 + Vec.vec_credits 1 2000 + 16.

Lemma dynamic_string_passes F : passes string_credits F (test_dynamic_string (W := W)).
Proof.
  unfold test_dynamic_string, string_credits. set (big := Vec.vec_credits 1 2000). hear.
  assert (0 ≤ big) as Hbig by (by vm_compute). set (p := push_credits 1 20). assert (0 ≤ p) as Hp by (by vm_compute).
  rewrite <-(map_empty_union F) at 1.
  eapply (runs_bind p (p + p + big + 16)); [apply (runs_push_str 20 _ [] (chars "Hello") ∅ F); try done; [by apply vec_new|apply map_disjoint_empty_l|cbn; lia|apply chars_u8]| |lia|lia|lia].
  intros v1 H (f1 & -> & Hd1 & Hv1).
  eapply (runs_bind p (p + big + 16)); [apply (runs_push 1 ltac:(lia) ltac:(done) 1 20 v1 (Str.singles (chars "Hello")) f1 [32] F); try done; [tauto|by apply Forall_singleton]| |lia|lia|lia].
  intros v2 H (f2 & -> & Hd2 & Hv2).
  eapply (runs_bind p (big + 16)); [apply (runs_push_str 20 v2 (chars "Hello ") (chars "World!") f2 F); try done; [cbn; lia|apply chars_u8]| |lia|lia|lia].
  intros v3 H (f3 & -> & Hd3 & Hv3).
  eapply (runs_bind 0 (big + 16)); [| |lia|lia|lia].
  { apply (runs_law 0 _ _ (λ ok H, ok = true ∧ H = f3 ∪ F)). intros L K r Hr HK. eexists _, _, r. rewrite Z.sub_0_r.
    split_and!; [|done|done|done]. by apply (Str.same_bytes_law K F f3 v3 (chars "Hello World!") r Hr (proj1 Hv3)). }
  intros ok H' [-> ->]. cbn [negb].
  set (xs := i ← seqZ 0 1000; [[48 + i mod 10]; [44]]).
  assert (length xs = 2000%nat) as Hxs by (by vm_compute).
  eapply (runs_bind big 16); [| |lia|lia|lia].
  { rewrite <-(map_empty_union (f3 ∪ F)). apply (runs_push_all 1 ltac:(lia) ltac:(done) 1 2000 _ [] ∅ xs (f3 ∪ F));
      [tauto|by apply vec_new|apply map_disjoint_empty_l|cbn; lia|cbn; lia|lia|].
    apply Forall_bind, Forall_true. intros i. pose proof (Z.mod_pos_bound i 10 ltac:(done)).
    repeat (apply Forall_cons_2; [split; [done|apply Forall_singleton; unfold in_u8; lia]|]). apply Forall_nil_2. }
  intros v4 H' (f4 & -> & Hd4 & Hv4). pose proof (proj1 (proj1 Hv4)) as Hlen. cbn [app] in Hlen. rewrite Hxs in Hlen.
  rewrite Hlen. change (Z.of_nat 2000 <? 1000) with false. cbn iota.
  eapply (runs_bind 0 16 _ _ _ _ (λ v H, v = Pass ∧ H = f4 ∪ (f3 ∪ F))); [hear; by apply runs_ret| |lia|lia|lia].
  intros v H' [-> ->]. eapply (runs_bind 8 8); [by eapply runs_dropping| |lia|lia|lia].
  intros v H' [-> ->]. by eapply runs_dropping.
Qed.

(** *** Many allocations *)

Lemma overwrite_next (b : list Z) k c :
  (k < length b)%nat → overwrite (replicate k c ++ drop k b) k [c] = replicate (S k) c ++ drop (S k) b.
Proof.
  intros Hk. unfold overwrite. rewrite take_app_length' by (by rewrite length_replicate).
  rewrite drop_app, drop_ge, length_replicate by (rewrite length_replicate; cbn; lia). rewrite app_nil_l, drop_drop.
  rewrite replicate_S_end, <-app_assoc. do 3 f_equal. cbn. lia.
Qed.

Lemma fill_run p sz c b H :
  H !! p = Some b → Z.of_nat (length b) = sz →
  runs (W := W) 0 H (fill p sz c) (λ _ H', H' = <[p := replicate (Z.to_nat sz) (c mod 256)]> H).
Proof.
  intros Hp Hb. unfold fill. pose proof (Z.mod_pos_bound c 256 ltac:(done)) as Hc. set (d := c mod 256) in *.
  eapply (runs_bind (0 * Z.of_nat (length (seqZ 0 sz))) 0); [apply (runs_for_each 0 H _ _
    (λ k H', H' = <[p := replicate k d ++ drop k b]> H))| |lia|lia|lia].
  - by rewrite drop_0, insert_id.
  - lia.
  - intros k j G [-> Hk]%lookup_seqZ ->. rewrite Z.add_0_l.
    eapply (runs_bind 0 0); [apply (runs_write p k [d] (replicate k d ++ drop k b)); [apply lookup_insert_eq|..]| |lia|lia|lia].
    + rewrite length_app, length_replicate, length_drop. cbn. lia.
    + by apply Forall_singleton.
    + intros [] G ->. apply runs_ret; [lia|]. split; [done|]. by rewrite insert_insert_eq, overwrite_next by lia.
  - intros o G [-> ->]. apply runs_ret; [lia|]. rewrite length_seqZ, drop_ge, app_nil_r by lia. done.
Qed.

(** The block of round [k]. *)
Definition block_of (k : nat) (x : Z * list Z) : Prop :=
  x.2 = replicate (Z.to_nat (64 + Z.of_nat k * 32)) (Z.of_nat k mod 256).

Definition multiple_credits : Z := 20 * (848 + push_credits 16 20) + 168.

Lemma allocate_all_run F :
  runs (W := W) (20 * (848 + push_credits 16 20)) F (allocate_all (Vec.new 8)) (λ o H, ∃ v, o = inl v
    ∧ ∃ l, length l = 20%nat ∧ (∀ k x, l !! k = Some x → block_of k x) ∧ tracks 16 entry 20 v l l F H).
Proof.
  unfold allocate_all, ALLOC_COUNT. eapply runs_conseq; [apply (runs_for_loop (848 + push_credits 16 20) F _ _ _
      (λ i v H, ∃ l, length l = i ∧ (∀ k x, l !! k = Some x → block_of k x) ∧ tracks 16 entry 20 v l l F H))| |by vm_compute].
  - exists []. split_and!; [done|done|by apply tracks_new].
  - by vm_compute.
  - intros i j v H [-> Hi]%lookup_seqZ (l & Hl & Hbl & Ht). rewrite Z.add_0_l. cbv zeta.
    eapply (runs_bind 848 (push_credits 16 20)); [eapply runs_conseq; [apply runs_alloc|intros o H' Ho; exact Ho|lia]| |lia|by vm_compute|lia].
    { apply word_size; [lia|]. rewrite Z.add_mod, Z.mul_mod by done. cbn. by rewrite Z.mul_0_r. }
    intros o H' (p & b & -> & Hp & Hb & ->).
    eapply (runs_bind 0 (push_credits 16 20)); [eapply fill_run; [apply lookup_insert_eq|done]| |lia|by vm_compute|lia].
    intros [] H' ->. rewrite insert_insert_eq. set (b' := replicate _ _).
    replace (64 + Z.of_nat i * 32) with (Z.of_nat (length b')) by (unfold b'; rewrite length_replicate; lia).
    eapply (runs_bind (push_credits 16 20) 0); [eapply (runs_track 16 ltac:(lia) ltac:(done) entry entry_ok); [exact Ht|done|lia|lia]| |by vm_compute|lia|lia].
    intros v' H' Ht'. apply runs_ret; [lia|]. exists v'. split; [done|]. exists (l ++ [(p, b')]). split_and!; [|..|done].
    + rewrite length_app, Hl. cbn. lia.
    + intros k x Hk. apply lookup_snoc_Some in Hk as [[_ Hk]|[-> <-]]; [by apply Hbl|]. by rewrite Hl.
  - intros o H (v & -> & l & Hl & Hbl & Ht). exists v. split; [done|]. by exists l.
Qed.

Lemma check_all_run v l F H :
  length l = 20%nat → (∀ k x, l !! k = Some x → block_of k x) → tracks 16 entry 20 v l l F H →
  runs (W := W) 0 H (check_all v) (λ o H', o = None ∧ H' = H).
Proof.
  intros Hl Hbl Ht. unfold check_all.
  assert (Vec.len v = 20) as ->.
  { destruct Ht as (f & _ & _ & ((Hlen & _) & _) & _). rewrite length_fmap, Hl in Hlen. done. }
  eapply runs_conseq; [apply (runs_for_each 0 H _ _ (λ _ H', H' = H)); [done|lia|]| |done]; [|done].
  intros i j G [-> Hi]%lookup_seqZ ->. rewrite Z.add_0_l.
  destruct (lookup_lt_is_Some_2 l i ltac:(lia)) as [[p b] Hx]. pose proof (Hbl _ _ Hx) as Hb. unfold block_of in Hb. cbn in Hb.
  eapply (runs_bind 0 0); [eapply (runs_tracked_index 16 ltac:(lia) entry); [exact Ht|exact Hx]| |lia|lia|lia].
  intros y G [-> ->]. assert (H !! p = Some b) as Hp.
  { apply list_elem_of_lookup_2, list_elem_of_split in Hx as (l1 & l2 & ->). by eapply tracks_lookup. }
  apply (runs_owned _ H p b); [done|]. intros _ R1 R2 _. destruct (entry_fields p b R1 R2) as [-> ->].
  eapply runs_conseq; [apply (runs_for_each 0 H _ _ (λ _ H', H' = H)); [done|lia|]| |lia]; [|done].
  intros k j G [-> Hk]%lookup_seqZ ->. rewrite Z.add_0_l.
  eapply (runs_bind 0 0); [apply (runs_read p k 1 b); [done|lia]| |lia|lia|lia].
  intros y G [-> ->]. rewrite Hb. rewrite Hb, length_replicate in Hk.
  rewrite drop_replicate, take_replicate, Nat.min_l by lia. cbn [replicate le_value].
  rewrite Z.mul_0_r, Z.add_0_r, Z.eqb_refl. cbn [negb]. by apply runs_ret.
Qed.

Lemma multiple_passes F : passes multiple_credits F (test_multiple_allocs (W := W)).
Proof.
  unfold test_multiple_allocs, multiple_credits. hear.
  eapply (runs_bind (20 * (848 + push_credits 16 20)) 168); [apply allocate_all_run| |by vm_compute|lia|lia].
  intros o H (v & -> & l & Hl & Hbl & Ht).
  eapply (runs_bind 0 168); [by eapply check_all_run| |lia|lia|lia]. intros o H' [-> ->].
  eapply (runs_bind 168 0); [eapply runs_conseq; [eapply (runs_into_iter 16 ltac:(lia) entry); [exact Ht|]|intros o H' Ho; exact Ho|rewrite Hl; lia]| |lia|lia|lia].
  - intros p b G Hp. eapply (runs_bind 8 0); [apply (runs_free entry)| |lia|lia|lia]; [|done|].
    { intros q c Hq Hc _. by apply entry_fields. }
    intros o G' [-> ->]. by apply runs_ret.
  - intros o H' [-> ->]. hear. by apply runs_ret.
Qed.

(** *** Health *)

Lemma health_passes F : passes 0 F (test_health_check (W := W)).
Proof.
  unfold test_health_check. hear. eapply (runs_bind 0 0); [apply runs_health| |lia|lia|lia].
  intros o F' [[h ->] ->]. eapply (runs_bind 0 0 _ _ _ _ (λ _ F', F' = F)); [| |lia|lia|lia].
  - destruct (is_healthy h); [apply runs_print; returns|]. hear. apply runs_print, print_report_returns.
  - intros [] F' ->. hear. by apply runs_ret.
Qed.

(** *** Stress *)

(** What the vector keeps between two rounds: at most fifty blocks, none empty. *)
Definition active (F : heap) (v : Vec.t) (H : heap) : Prop :=
  ∃ l, tracks 24 stamped 50 v l l F H ∧ (length l ≤ 50)%nat ∧ Forall (λ x, x.2 ≠ []) l.

Lemma active_len F v H : active F v H → ∃ l, tracks 24 stamped 50 v l l F H ∧ (length l ≤ 50)%nat
  ∧ Forall (λ x, x.2 ≠ []) l ∧ Vec.len v = Z.of_nat (length l).
Proof.
  intros (l & Ht & Hl & Hne). exists l. split_and!; try done.
  destruct Ht as (f & _ & _ & ((Hlen & _) & _) & _). by rewrite length_fmap in Hlen.
Qed.

Lemma stamped_ptr p b : in_u64 p → in_u64 (Z.of_nat (length b)) → Forall in_u8 b → field 0 (le_value (stamped (p, b))) = p.
Proof. intros. by apply stamped_fields. Qed.

Lemma stress_alloc_run i v F H :
  0 ≤ i < 100 → active F v H → runs (W := W) (1360 + push_credits 24 50) H (stress_alloc i v) (active F).
Proof.
  intros Hi Ha. destruct (active_len _ _ _ Ha) as (l & Ht & Hl & Hne & Hlen). unfold stress_alloc, MAX_ALLOCS.
  rewrite Hlen. destruct (Z.ltb_spec (Z.of_nat (length l)) 50); [|apply runs_ret; [by vm_compute|done]]. cbv zeta.
  pose proof (Z.mod_pos_bound i 10 ltac:(done)) as Hm. pose proof (Z.mod_pos_bound i 256 ltac:(done)) as Hc.
  set (sz := 64 + i mod 10 * 128). set (c := i mod 256) in *.
  eapply (runs_bind 1360 (push_credits 24 50)); [eapply runs_conseq; [apply (runs_alloc sz)|intros o H' Ho; exact Ho|unfold sz; lia]| |lia|by vm_compute|lia].
  { apply word_size; unfold sz; [lia|]. rewrite Z.add_mod, (Z.mul_mod _ 128) by done. cbn. by rewrite Z.mul_0_r. }
  intros o H' (p & b & -> & Hp & Hb & ->).
  eapply (runs_bind 0 (push_credits 24 50)); [apply (runs_fill p b); [apply lookup_insert_eq|lia|done]| |lia|by vm_compute|lia].
  intros [] H' ->. rewrite insert_insert_eq.
  assert (words_bytes [p; sz; c] = stamped (p, replicate (Z.to_nat sz) c)) as ->.
  { unfold stamped. cbn [fst snd]. rewrite length_replicate, Z2Nat.id by (unfold sz; lia).
    by destruct (Z.to_nat sz) eqn:E; [unfold sz in E; lia|]. }
  eapply runs_conseq; [eapply (runs_track 24 ltac:(lia) ltac:(done) stamped stamped_ok); [exact Ht|done|lia|lia]| |split; [by vm_compute|done]].
  intros v' H' Ht'. eexists. split_and!; [exact Ht'|rewrite length_app; cbn; lia|].
  apply Forall_app. split; [done|]. apply Forall_singleton. cbn. destruct (Z.to_nat sz) eqn:E; [unfold sz in E; lia|done].
Qed.

Lemma stress_free_run i v F H :
  0 ≤ i → active F v H → runs (W := W) 8 H (stress_free i v) (λ o H', ∃ v', o = inl v' ∧ active F v' H').
Proof.
  intros Hi Ha. destruct (active_len _ _ _ Ha) as (l & Ht & Hl & Hne & Hlen). unfold stress_free.
  rewrite Hlen. destruct (Z.eqb_spec (Z.of_nat (length l)) 0); cbn [negb]; [apply runs_ret; [lia|by exists v]|]. cbv zeta.
  pose proof (Z.mod_pos_bound i (Z.of_nat (length l)) ltac:(lia)) as Hm. set (k := i mod Z.of_nat (length l)) in *.
  destruct (lookup_lt_is_Some_2 l (Z.to_nat k) ltac:(lia)) as [[p b] Hx].
  apply list_elem_of_split_length in Hx as (l1 & l2 & -> & Hk). replace k with (Z.of_nat (length l1)) by lia.
  eapply (runs_bind 0 8); [by eapply (runs_untrack 24 ltac:(lia) stamped)| |lia|lia|lia].
  intros y H' (v' & -> & Ht'). cbv beta iota.
  apply Forall_app in Hne as [Hne1 [Hb Hne2]%Forall_cons]. cbn in Hb.
  assert (H' !! p = Some b) as Hp by (by eapply tracks_lookup).
  apply (runs_owned _ H' p b); [done|]. intros _ R1 R2 R3. destruct (stamped_fields p b R1 R2 R3) as [F0 F2].
  rewrite F0, F2. rewrite <-(Z.add_0_r p). change 0 with (Z.of_nat 0) at 2.
  destruct b as [|c b]; [done|]. apply Forall_cons in R3 as [Rc _]. unfold in_u8 in Rc.
  eapply (runs_bind 0 8); [apply (runs_read p 0 1 (c :: b)); [done|cbn; lia]| |lia|lia|lia].
  intros y H2 [-> ->]. cbn [take drop le_value head default]. rewrite Z.mul_0_r, Z.add_0_r, (Z.mod_small c) by lia.
  cbn [from_option]. rewrite Z.eqb_refl. cbn [negb]. change (Z.of_nat 0) with 0. rewrite Z.add_0_r.
  eapply (runs_bind 8 0); [by apply (runs_dealloc p _ H' (c :: b))| |lia|lia|lia].
  intros o H2 [-> ->]. apply runs_ret; [lia|]. exists v'. split; [done|]. exists (l1 ++ l2). split_and!.
  - by eapply (tracks_delete 24 stamped).
  - rewrite length_app in *. cbn in Hl. lia.
  - by apply Forall_app.
Qed.

Definition stress_credits : Z := 100 * (1360 + push_credits 24 50) + 408.

Lemma stress_passes F : passes stress_credits F (test_stress_allocation (W := W)).
Proof.
  unfold test_stress_allocation, stress_credits. hear. set (c := 1360 + push_credits 24 50).
  assert (8 ≤ c) as Hc8 by (by vm_compute).
  eapply (runs_bind (c * Z.of_nat (length (seqZ 0 ITERATIONS))) 408); [apply (runs_for_loop c F _ _ _ (λ _, active F))| |..].
  - exists []. split_and!; [by apply tracks_new|cbn; lia|constructor].
  - lia.
  - intros i j v H [-> Hi]%lookup_seqZ Ha. rewrite Z.add_0_l. unfold ITERATIONS in Hi. unfold stress_round.
    eapply (runs_bind c 0 _ _ _ _ (λ o H', ∃ v', o = inl v' ∧ active F v' H')); [| |lia|lia|lia].
    + destruct (Z.of_nat i mod 3 =? 2).
      * eapply runs_conseq; [by apply stress_free_run; [lia|]|done|lia].
      * eapply (runs_bind c 0); [apply (stress_alloc_run (Z.of_nat i) v F H); [lia|done]| |lia|lia|lia].
        intros v' H' Ha'. apply runs_ret; [lia|]. by exists v'.
    + intros o H' (v' & -> & Ha'). destruct (Z.of_nat i mod 10 =? 0); [|apply runs_ret; [lia|by exists v']].
      eapply (runs_bind 0 0); [apply runs_integrity| |lia|lia|lia]. intros o H2 [-> ->].
      apply runs_ret; [lia|]. by exists v'.
  - intros o H (v & -> & l & Ht & Hl & _).
    eapply (runs_bind 408 0); [eapply runs_conseq; [eapply (runs_cleanup 24 ltac:(lia) stamped stamped_ptr); exact Ht|intros ? ? Ho; exact Ho|lia]| |lia|lia|lia].
    intros [] H' ->. eapply (runs_bind 0 0); [apply runs_integrity| |lia|lia|lia]. intros o H2 [-> ->].
    hear. by apply runs_ret.
  - lia.
  - lia.
  - change (Z.of_nat (length (seqZ 0 ITERATIONS))) with 100. lia.
Qed.

(** *** One allocation at a time *)

Lemma alloc_lent K F (r : RState W) sz :
  kernel_heap K F (kernel r) → 0 < sz → sz + 144 ≤ K →
  ∃ p g, Verbose.alloc sz r = Ret (Some p, mkR g (console r)) ∧ lent (K - 8) F p sz g ∧ typed g.
Proof.
  intros Hr Hsz HK. destruct (heap_flags _ _ _ Hr) as [Hi He].
  destruct (lend K F (kernel r) sz (proj1 Hr) Hsz HK) as (p & g & E & Hl). exists p, g. split_and!; [|done|].
  - unfold Verbose.alloc, Verbose.is_initialized, Verbose.is_enabled.
    mstep_with ltac:(apply on_kernel_Ret; reflexivity). rewrite Hi. cbn [negb].
    mstep_with ltac:(apply on_kernel_Ret; reflexivity). cbn [kernel]. rewrite He. cbn [negb].
    rewrite (proj2 (Z.eqb_neq sz 0)) by lia. mstep_with ltac:(apply on_kernel_Ret; exact E). reflexivity.
  - by apply (wt_TS_alloc_aligned sz 8 (kernel r) (Some p) g (proj2 Hr)).
Qed.

Lemma lent_initialized K F p sz g : lent K F p sz g → initialized g = true.
Proof. by intros (? & ? & ? & ? & ? & ? & ? & ? & _ & _ & _ & ? & _). Qed.

(** Both ways of freeing it; a second time it is refused. *)
Lemma free_lent K F p sz n g (w : W) :
  lent K F p sz g → typed g → 16 ≤ K →
  ∃ g', dealloc_safe p n (mkR g w) = Ret (Ok tt, mkR g' w) ∧ Verbose.dealloc p (mkR g w) = Ret (tt, mkR g' w)
    ∧ kernel_heap (K - 8) F g'
    ∧ ∃ g2, dealloc_safe p n (mkR g' w) = Ret (Err DoubleFree, mkR g2 w) ∧ kernel_heap (K - 16) F g2.
Proof.
  intros Hl Ht HK. pose proof (lent_initialized _ _ _ _ _ Hl) as Hi.
  destruct (give_back K F p sz g Hl HK) as (g' & Hp & E & Hb & g2 & E2 & Hb2).
  assert (typed g') as Ht' by (by apply (wt_TS_dealloc p g (Ok tt) g' Ht)).
  assert (initialized g' = true) as Hi' by (by destruct Hb as (? & ? & ? & _ & _ & _ & ? & _)).
  assert (∀ g g1 o, initialized g = true → TS_dealloc p g = Ret (o, g1) → Api.dealloc_safe p n g = Ret (o, g1)) as Hs.
  { intros h h1 o Hh Eh. unfold Api.dealloc_safe, Api.is_initialized, NonNull_new. mstep.
    by rewrite Hh, (proj2 (Z.eqb_neq p 0)). }
  exists g'. split_and!; [| |split; [exact Hb|exact Ht']|exists g2; split; [|split; [exact Hb2|]]].
  - unfold dealloc_safe. rewrite (on_kernel_Ret _ _ (Ok tt) g'); [done|by apply Hs].
  - unfold Verbose.dealloc, Verbose.is_initialized, NonNull_new. mstep_with ltac:(apply on_kernel_Ret; reflexivity).
    cbn [kernel console]. rewrite Hi, (proj2 (Z.eqb_neq p 0)) by done. cbn [negb].
    mstep_with ltac:(apply on_kernel_Ret; exact E). reflexivity.
  - unfold dealloc_safe. rewrite (on_kernel_Ret _ _ (Err DoubleFree) g2); [done|by apply Hs].
  - by apply (wt_TS_dealloc p g' (Err DoubleFree) g2 Ht').
Qed.

(** Reading back the byte just written. *)
Lemma write_lent K F p sz g (w : W) b :
  lent K F p sz g → typed g → in_u8 b → 0 < sz →
  ∃ g', ga_write p [b] (mkR g w) = Ret (tt, mkR g' w) ∧ ga_read p 1 (mkR g' w) = Ret (b, mkR g' w)
    ∧ lent K F p sz g' ∧ typed g'.
Proof.
  intros Hl Ht Hb Hsz. unfold in_u8 in Hb.
  destruct (lent_write K F p sz g (λ m, put_bytes [b] m p) Hl) as (g' & E & Hl' & Em).
  { intros mm x Hx. apply put_bytes_out. cbn. lia. }
  exists g'. split_and!; [by apply on_kernel_Ret| |done|by apply (wt_on_machine _ (wt_put_bytes [b] p) g tt g')].
  cbn [ga_read EarlyGlobalAllocator]. rewrite (on_kernel_Ret _ _ b g'); [done|].
  unfold on_machine, zoom, rd, gets. cbn [kernel]. rewrite Em.
  rewrite (load_bytes _ p [b]) by (apply put_bytes_in; by apply Forall_singleton).
  cbn [le_value]. rewrite Z.mul_0_r, Z.add_0_r.
  by destruct g'.
Qed.

Lemma single_passes F : passes 288 F (test_single_alloc_dealloc (W := W)).
Proof.
  unfold test_single_alloc_dealloc. hear. intros K [g w] Hr HK. cbn [kernel] in Hr.
  destruct (alloc_lent K F (mkR g w) 100 Hr) as (p & g1 & E1 & Hl1 & Ht1); [lia|lia|].
  destruct (write_lent _ _ _ _ g1 w 0x42 Hl1 Ht1) as (g2 & E2 & E3 & Hl2 & Ht2); [by vm_compute|lia|].
  destruct (free_lent _ _ _ _ 100 g2 w Hl2 Ht2) as (g3 & E4 & _ & Hr3 & _); [lia|].
  destruct (alloc_lent _ F (mkR g3 w) 100 Hr3) as (q & g4 & E5 & Hl4 & Ht4); [lia|lia|].
  destruct (free_lent _ _ _ _ 100 g4 w Hl4 Ht4) as (g5 & _ & E6 & Hr5 & _); [lia|].
  destruct (returns_println [Lit "  PASS: Single alloc/dealloc successful"] ltac:(printable) w) as [w' E7].
  exists Pass, F, (mkR g5 w'). split_and!; [|eapply kernel_heap_mono; [exact Hr5|lia]|done|done].
  mstep_with ltac:(exact E1). mstep_with ltac:(exact E2). mstep_with ltac:(exact E3). cbn [negb Z.eqb Pos.eqb].
  mstep_with ltac:(exact E4). mstep_with ltac:(exact E5). mstep_with ltac:(exact E6).
  unfold say, on_console. mstep_with ltac:(apply zoom_Ret; exact E7). reflexivity.
Qed.

Lemma double_free_passes F : passes 192 F (test_double_free_detection (W := W)).
Proof.
  unfold test_double_free_detection. hear. intros K [g w] Hr HK. cbn [kernel] in Hr.
  destruct (alloc_lent K F (mkR g w) 32 Hr) as (p & g1 & E1 & Hl1 & Ht1); [lia|lia|].
  destruct (free_lent _ _ _ _ 32 g1 w Hl1 Ht1) as (g2 & E2 & _ & _ & g3 & E3 & Hr3); [lia|].
  destruct (returns_println [Lit "  PASS: Correctly detected double free"] ltac:(printable) w) as [w' E7].
  exists Pass, F, (mkR g3 w'). split_and!; [|eapply kernel_heap_mono; [exact Hr3|lia]|done|done].
  mstep_with ltac:(exact E1). mstep_with ltac:(exact E2). mstep_with ltac:(exact E3).
  unfold say, on_console. mstep_with ltac:(apply zoom_Ret; exact E7). reflexivity.
Qed.

(** *** The tests that prepare a handover *)

Context (info_layout : Layout) (info_bytes : HandoverInfo.t → list Z).

Lemma handover_hangs K F (r : RState W) :
  kernel_heap K F (kernel r) → layout_ok info_layout → Verbose.prepare_handover info_layout info_bytes r = Hang.
Proof.
  intros [(N & s & bs & R & ? & ? & Hi & _) Ht] Hl. destruct r as [g w].
  by apply (verbose_prepare_handover_hangs info_layout info_bytes N g s bs w R ltac:(lia)).
Qed.

(** A vector of entries, whatever they say, next to the blocks [G]. *)
Definition some_vec (n : Z) (i : nat) (v : Vec.t) (G H : heap) : Prop :=
  ∃ f xs, H = f ∪ G ∧ f ##ₘ G ∧ vec 16 n v xs f ∧ length xs = i.

Lemma some_vec_new n F : 0 ≤ n → some_vec n 0 (Vec.new 8) F F.
Proof.
  intros Hn. exists ∅, []. split_and!; [by rewrite map_empty_union|apply map_disjoint_empty_l|by apply vec_new|done].
Qed.

Lemma some_vec_insert n i v p b G H :
  some_vec n i v G H → H !! p = None ∨ is_Some (G !! p) → some_vec n i v (<[p := b]> G) (<[p := b]> H).
Proof.
  intros (f & xs & -> & Hd & Hv & Hl) Hp. assert (f !! p = None) as Hf.
  { destruct Hp as [[? _]%lookup_union_None|[c Hc]]; [done|]. by eapply map_disjoint_Some_r. }
  exists f, xs. split_and!; [by rewrite insert_union_r|by apply map_disjoint_insert_r_2|done|done].
Qed.

Lemma some_vec_lookup n i v p b G H : some_vec n i v G H → G !! p = Some b → H !! p = Some b.
Proof.
  intros (f & xs & -> & Hd & Hv & Hl) Hp. rewrite lookup_union_r; [done|]. by eapply map_disjoint_Some_r.
Qed.

Lemma some_vec_push n i v l G H :
  some_vec n i v G H → length l = 2%nat → Z.of_nat i < n → n ≤ 2 ^ 40 →
  runs (W := W) (push_credits 16 n) H (Vec.push 16 8 v (words_bytes l)) (λ v' H', some_vec n (S i) v' G H').
Proof.
  intros (f & xs & -> & Hd & Hv & Hl) Hl2 Hi Hn.
  eapply runs_conseq; [apply (runs_push 16 ltac:(lia) ltac:(done) 8 n v xs f (words_bytes l) G); try done| |].
  - tauto.
  - lia.
  - rewrite words_bytes_length, Hl2. done.
  - apply words_bytes_ok.
  - intros v' H (f' & -> & Hd' & Hv'). exists f', (xs ++ [words_bytes l]). rewrite length_app, Hl. cbn.
    split_and!; [done|done|done|lia].
  - unfold push_credits. lia.
Qed.

Definition purpose_credits : Z := 4 * (8336 + push_credits 16 4).

Lemma purpose_allocation_hangs K F (r : RState W) :
  kernel_heap K F (kernel r) → purpose_credits ≤ K → layout_ok info_layout →
  test_purpose_allocation info_layout info_bytes r = Hang.
Proof.
  intros Hr HK Hl. unfold test_purpose_allocation, say.
  destruct (returns_println [Lit "  Testing purpose-based allocation..."] ltac:(printable) (console r)) as [w E].
  mstep_with ltac:(unfold on_console, zoom; rewrite E; reflexivity).
  eapply (runs_then_hang purpose_credits F _ _ (λ o H, ∃ v, o = inl v)); [|exact Hr|done|].
  - unfold allocate_purposes, purpose_credits. eapply runs_conseq; [apply (runs_for_loop (8336 + push_credits 16 4) F _ _ _
      (λ i v H, ∃ G, some_vec 4 i v G H))| |by vm_compute].
    + exists F. by apply some_vec_new.
    + by vm_compute.
    + intros i [pu sz] v H Hi [G Hv]. pose proof (lookup_lt_Some _ _ _ Hi) as Hlt. cbn in Hlt.
      assert (16 ≤ sz ≤ 8192 ∧ sz mod 8 = 0) as [Hsz Hm].
      { apply list_elem_of_lookup_2 in Hi. unfold purposes in Hi.
        repeat (apply elem_of_cons in Hi as [[= -> ->]|Hi]; [split; [lia|done]|]). by apply elem_of_nil in Hi. }
      eapply (runs_bind (sz + 144) (push_credits 16 4)); [apply runs_alloc_purpose, word_size; [lia|done]| |lia|by vm_compute|lia].
      intros o H' (p & b & -> & Hp & _ & ->).
      eapply (runs_bind (push_credits 16 4) 0); [apply some_vec_push; [by apply (some_vec_insert _ _ _ p b _ _ Hv); left|done|lia|lia]| |by vm_compute|lia|lia].
      intros v' H' Hv'. apply runs_ret; [lia|]. exists v'. split; [done|]. eexists. exact Hv'.
    + intros o H (v & -> & _). by exists v.
  - intros o H K' r' (v & ->) Hr'. apply bind_Hang. by eapply handover_hangs.
Qed.

Definition leak_credits : Z := 5 * (1168 + push_credits 16 5).

Lemma leak_detection_hangs K F (r : RState W) :
  kernel_heap K F (kernel r) → leak_credits ≤ K → layout_ok info_layout →
  test_leak_detection info_layout info_bytes r = Hang.
Proof.
  intros Hr HK Hl. unfold test_leak_detection, say.
  destruct (returns_println [Lit "  Testing memory leak detection..."] ltac:(printable) (console r)) as [w E].
  mstep_with ltac:(unfold on_console, zoom; rewrite E; reflexivity).
  eapply (runs_then_hang leak_credits F _ _ (λ _ _, True)); [|exact Hr|done|].
  - unfold leak, leak_credits.
    eapply (runs_bind (5 * (1168 + push_credits 16 5)) 0 _ _ _ _ (λ o _, ∃ v, o = inl v)); [|..|by vm_compute|lia|lia].
    + eapply runs_conseq; [apply (runs_for_loop (1168 + push_credits 16 5) F _ _ _ (λ i v H, ∃ G, some_vec 5 i v G H))| |by vm_compute].
      * exists F. by apply some_vec_new.
      * by vm_compute.
      * intros i j v H [-> Hi]%lookup_seqZ [G Hv]. rewrite Z.add_0_l.
        eapply (runs_bind (1024 + 144) (push_credits 16 5)); [apply runs_alloc_purpose, word_size; [lia|done]| |lia|by vm_compute|lia].
        intros o H' (p & b & -> & Hp & Hb & ->).
        eapply (runs_bind (push_credits 16 5) 0); [apply some_vec_push; [by apply (some_vec_insert _ _ _ p b _ _ Hv); left|done|lia|lia]| |by vm_compute|lia|lia].
        intros v' H' Hv'. assert ((<[p := b]> G : heap) !! p = Some b) as Hpg by apply lookup_insert_eq.
        eapply (runs_bind 0 0); [apply (runs_fill p b); [exact (some_vec_lookup _ _ _ _ _ _ _ Hv' Hpg)|lia|unfold in_u8; lia]| |lia|lia|lia].
        intros [] H2 ->. apply runs_ret; [lia|]. exists v'. split; [done|]. eexists. apply (some_vec_insert _ _ _ p _ _ _ Hv').
        by right.
      * intros o H (v & -> & _). by exists v.
    + intros o H (v & ->). by apply runs_ret.
  - intros v H K' r' _ Hr'. apply bind_Hang. by eapply handover_hangs.
Qed.

(** *** The tests in the runner *)

Lemma run_test_passes c F (test : TestCase (RState W)) self :
  printable_test test → balanced self → TestRunner.total self + 1 < 2 ^ 64 → 0 ≤ c → passes c F (func test) →
  runs c F (TestRunner.run_test test self) (λ s F', s = tally self [Pass] ∧ F' = F).
Proof.
  intros [Hn Hd] B Ht Hc Hf. unfold TestRunner.run_test.
  apply (runs_pure_bind c F _ _ (TestRunner.total self + 1)).
  { intros K r _. exists (console r). rewrite usize_add_ok by (destruct B; lia). by destruct r. }
  cbv zeta. apply runs_report; [apply returns_println; printable; assumption|].
  eapply (runs_bind c 0); [exact Hf| |lia|lia|lia]. intros v F' [-> ->].
  apply (runs_pure_bind 0 F _ _ (tally self [Pass])).
  { intros K r _. exists (console r). rewrite count_run by done. by destruct r. }
  apply runs_report; [apply returns_tagged; [printable; assumption|by vm_compute]|]. by apply runs_ret.
Qed.

(** Tests with the credits they take. *)
Definition all_pass F (tests : list (Z * TestCase (RState W))) : Prop :=
  Forall (λ x, printable_test x.2 ∧ 0 ≤ x.1 ∧ passes x.1 F (func x.2)) tests.

Lemma run_tests_pass F tests self :
  all_pass F tests → balanced self → TestRunner.total self + Z.of_nat (length tests) < 2 ^ 64 →
  runs (foldr Z.add 0 (tests.*1)) F (TestRunner.run_tests (tests.*2) self)
    (λ s F', s = tally self (replicate (length tests) Pass) ∧ F' = F) ∧ 0 ≤ foldr Z.add 0 (tests.*1).
Proof.
  intros H. revert self. induction H as [|[c t] tests (Hp & Hc & Ht) H IH]; intros self B Hn; cbn [fst snd] in *.
  { split; [|done]. apply runs_ret; [done|]. split; [|done]. unfold tally. cbn. rewrite !Z.add_0_r. by destruct self. }
  cbn [length] in Hn. destruct (IH (tally self [Pass]) (tally_balanced _ _ B) ltac:(cbn; lia)) as [Hr H0].
  rewrite !fmap_cons. cbn [fst snd foldr TestRunner.run_tests length]. split; [|lia].
  eapply (runs_bind c); [apply run_test_passes; try done; lia| |lia|exact H0|lia].
  intros s F' [-> ->]. eapply runs_conseq; [exact Hr| |lia]. intros s F' [-> ->].
  split; [|done]. by rewrite tally_cons.
Qed.

(** The tests that give back what they allocate. *)
Definition sound_tests : list (Z * TestCase (RState W)) :=
  [(288, mkTestCase "single_alloc_dealloc" test_single_alloc_dealloc
           "Test a single allocation and deallocation with data integrity");
   (multiple_credits, mkTestCase "multiple_allocs" test_multiple_allocs
           "Test multiple allocations with different sizes and data verification");
   (Vec.vec_credits 8 100 + 8, mkTestCase "dynamic_vec" test_dynamic_vec "Test standard library Vec operations");
   (string_credits, mkTestCase "dynamic_string" test_dynamic_string "Test standard library String operations");
   (Vec.vec_credits 8 10 + Vec.vec_credits 8 20 + 8,
     mkTestCase "early_vec" test_early_vec "Test EarlyVec custom vector implementation");
   (ten_credits + 100, mkTestCase "integrity_check" test_integrity_check "Test allocator integrity verification");
   (0, mkTestCase "health_check" test_health_check "Test allocator health monitoring");
   (192, mkTestCase "double_free_detection" test_double_free_detection "Test double free detection and prevention");
   (stress_credits, mkTestCase "stress_allocation" test_stress_allocation
           "Stress test with random allocation/deallocation patterns")].

Lemma sound_tests_pass F : all_pass F sound_tests.
Proof.
  unfold sound_tests. repeat (apply Forall_cons_2; [cbn [fst snd func];
    split_and!; [by split; vm_compute|by vm_compute|]|]); [..|apply Forall_nil_2].
  - apply single_passes.
  - apply multiple_passes.
  - apply dynamic_vec_passes.
  - apply dynamic_string_passes.
  - apply early_vec_passes.
  - apply integrity_passes.
  - apply health_passes.
  - apply double_free_passes.
  - apply stress_passes.
Qed.

(** Credits enough for all of them. *)
Definition suite_credits : Z := 1024 * 1024.

(** C16: What the allocator's own tests find, on any heap with a megabyte to spare
    whose blocks are all whole words, whatever else is allocated there.  Nine of the thirteen pass, one after the other
    in the runner, which counts nine passes; they give back everything they took,
    and every other allocation keeps its bytes.  The two that look at the handover
    information deadlock.  (The tests of aligned allocations and of boxes pass and
    leave blocks behind.) *)
Theorem allocator_tests_outcome K F (r : RState W) :
  kernel_heap K F (kernel r) → suite_credits ≤ K → layout_ok info_layout →
  (∃ r', TestRunner.run_tests (sound_tests.*2) TestRunner.new r = Ret (TestRunner.mk 9 9 0 0, r')
     ∧ kernel_heap (K - suite_credits) F (kernel r'))
  ∧ (∀ vec_bytes len_offset, (sound_tests.*2) `sublist_of` ALLOC_TESTS info_layout info_bytes vec_bytes len_offset)
  ∧ test_purpose_allocation info_layout info_bytes r = Hang
  ∧ test_leak_detection info_layout info_bytes r = Hang.
Proof.
  intros Hr HK Hl. split_and!.
  - destruct (run_tests_pass F sound_tests TestRunner.new (sound_tests_pass F)) as [Ht _]; [by split|by vm_compute|].
    destruct (Ht K r Hr) as (s & F' & r' & E & Hr' & -> & ->); [etrans; [|exact HK]; by vm_compute|].
    exists r'. split; [exact E|]. eapply kernel_heap_mono; [exact Hr'|].
    split; [lia|]. apply Z.sub_le_mono_l. by vm_compute.
  - intros vb lo. unfold sound_tests, ALLOC_TESTS. cbn [fmap list_fmap snd].
    repeat first [apply sublist_skip|apply sublist_cons|apply sublist_nil_l].
  - eapply purpose_allocation_hangs; [exact Hr|etrans; [|exact HK]; by vm_compute|done].
  - eapply leak_detection_hangs; [exact Hr|etrans; [|exact HK]; by vm_compute|done].
Qed.

End tests.

(** ** Concrete runs *)

Lemma allocator_tests_outcome_witness :
  ∃ g r', kernel_heap 2097104 ∅ g
    ∧ TestRunner.run_tests (P := Dev) (sound_tests.*2) TestRunner.new (mkR g FwDemo.off) = Ret (TestRunner.mk 9 9 0 0, r')
    ∧ test_leak_detection (P := Dev) GlobalDemo.box_layout (λ _, []) (mkR g FwDemo.off) = Hang.
Proof.
  destruct (init_kernel_heap (P := Dev) (mkG false None false true (mkMachine ∅ 0) 0 0) 2151677952 2097152)
    as (g & _ & H); [reflexivity..|apply blank_typed|by_eval|split_and!; by_eval|by_eval|by_eval|by_eval|].
  destruct (allocator_tests_outcome (P := Dev) GlobalDemo.box_layout (λ _, []) 2097104 ∅ (mkR g FwDemo.off) H
              ltac:(by_eval) ltac:(split_and!; by_eval)) as ((r' & E & _) & _ & _ & Hh).
  exists g, r'. split; [exact H|]. split; [exact E|exact Hh].
Defined.

(** The other two tests, on a fresh heap of two megabytes. *)
Module LeakDemo.

(** Some layout of a [Vec]. *)
Definition vec_bytes (v : Vec.t) : list Z := words_bytes [Vec.cap v; Vec.ptr v; Vec.len v].

(** The outcome of a test, with the number of blocks and bytes in use after it. *)
Definition outcome_on_fresh_heap (test : M (RState FwDemo.t) TestResult) : option (TestResult * Z * Z) :=
  match Api.init (P := Dev) 2151677952 2097152 GlobalDemo.g_boot with
  | Ret (_, g) =>
      match test (mkR g FwDemo.off) with
      | Ret (v, r) =>
          (λ al, (v, AllocStats.alloc_count (stats al), AllocStats.used_size (stats al))) <$> instance (kernel r)
      | _ => None
      end
  | _ => None
  end.

(** Both pass.  The first leaves five of its eight allocations behind, for which
    the pointers are not right after their headers; the second a box, because the
    array of five [i32] before it has a size that is not a multiple of eight. *)
Lemma padded_tests_leak :
  outcome_on_fresh_heap (test_aligned_allocation (P := Dev)) = Some (Pass, 5, 6496)
  ∧ outcome_on_fresh_heap (test_early_box (P := Dev) vec_bytes 16) = Some (Pass, 1, 28).
Proof. split; vm_compute; reflexivity. Qed.

End LeakDemo.
