(* ===== verification/Harts.v ===== *)
(** * The allocator on several harts

    [src/init/alloc/mod.rs] guards its functions by two atomic flags and takes the
    spin lock of [ThreadSafeEarlyAllocator] for the work itself.  Here each of its
    functions is a process: loads and stores of the flags, and sections run under
    the lock.  Run alone it is the function of [AllocApi.v].  On several harts the
    processes interleave: a hart that finds the lock free takes it, works through
    its section in as many steps as one likes, and releases it, while the others
    read and write the flags in between.  The theorems show that the sections are
    atomic and exclude each other. *)

From Stdlib Require Import ZArith Lia String.
From stdpp Require Import base option numbers sorting strings gmap list relations.
From S2P Require Import Prelude Memory Purpose Metadata Allocator HeapInv AllocSteps AllocOps Arrays Handover Examples GlobalAlloc AllocApi GlobalThms HandoverSnapshot TypeSafety ByteHeap Sbi Console Boot Reports.

(** ** Processes *)

(** [static INITIALIZED: AtomicBool], [static ENABLED: AtomicBool] *)
Inductive flag : Type := INITIALIZED | ENABLED.

Definition get_flag (f : flag) (g : GState) : bool :=
  match f with INITIALIZED => initialized g | ENABLED => enabled g end.
Definition set_flag (f : flag) (b : bool) (g : GState) : GState :=
  match f with INITIALIZED => set_initialized b g | ENABLED => set_enabled b g end.

(** A function that returns an [R]: [Local] is a computation on the hart's own
    values, [Locked] a section under the lock. *)
Inductive Proc (R : Type) : Type :=
| Done (r : R)
| Load (f : flag) (k : bool → Proc R)
| Store (f : flag) (b : bool) (k : Proc R)
| Local {B : Type} (m : M unit B) (k : B → Proc R)
| Locked {B : Type} (body : M GState B) (k : B → Proc R).
Arguments Done {R} _.
Arguments Load {R} _ _.
Arguments Store {R} _ _ _.
Arguments Local {R B} _ _.
Arguments Locked {R B} _ _.

#[global] Instance Proc_ret : MRet Proc := λ R, Done.
#[global] Instance Proc_bind : MBind Proc := λ R R' (c : R → Proc R'),
  fix bind p :=
    match p with
    | Done r => c r
    | Load f k => Load f (λ b, bind (k b))
    | Store f b k => Store f b (bind k)
    | Local m k => Local m (λ b, bind (k b))
    | Locked body k => Locked body (λ b, bind (k b))
    end.

Definition load (f : flag) : Proc bool := Load f Done.
Definition store (f : flag) (b : bool) : Proc unit := Store f b (Done tt).
Definition local {B} (m : M unit B) : Proc B := Local m Done.
Definition locked_section {B} (body : M GState B) : Proc B := Locked body Done.

(** The process alone on the machine. *)
Definition pure_run {B} (m : M unit B) : M GState B := λ g,
  match m tt with
  | Ret (b, _) => Ret (b, g)
  | Panic => Panic
  | Hang => Hang
  | Undef => Undef
  end.

Fixpoint run {R} (p : Proc R) : M GState R :=
  match p with
  | Done r => mret r
  | Load f k => b ← gets (get_flag f); run (k b)
  | Store f b k => modify (set_flag f b);; run k
  | Local m k => b ← pure_run m; run (k b)
  | Locked body k => b ← under_lock body; run (k b)
  end.

(** ** The functions of the interface *)

(** What [with_allocator] does inside the lock. *)
Definition section {A} (none : A) (m : EarlyAllocator → M GState A) : M GState A :=
  i ← gets instance;
  match i with Some al => m al | None => mret none end.

Module HartApi.
Section api.
Context {P : Profile} (info_layout : Layout) (info_bytes : HandoverInfo.t → list Z).

(** The methods of [ThreadSafeEarlyAllocator], each one section. *)
Definition ts_init (hstart hsize : Z) : Proc (result AllocError unit) :=
  locked_section (
    i ← gets instance;
    match i with
    | Some _ => mret (Err AlreadyInitialized)
    | None =>
        r ← on_machine (EarlyAllocator_new hstart hsize);
        match r with
        | Ok al => modify (set_instance (Some al));; mret (Ok tt)
        | Err e => mret (Err e)
        end
    end).
Definition ts_alloc_aligned (sz align : Z) : Proc (option Z) :=
  locked_section (section None (λ al, on_allocator al (Allocator.alloc_aligned sz align))).
Definition ts_dealloc (p : Z) : Proc (result AllocError unit) :=
  locked_section (section (Err NotInitialized) (λ al, on_allocator al (Allocator.dealloc p))).
Definition ts_stats : Proc (option AllocStats.t) :=
  locked_section (section None (λ al, st ← on_allocator al get_stats; mret (Some st))).
Definition ts_freeze : Proc (result AllocError unit) :=
  locked_section (section (Err NotInitialized) (λ al, on_allocator al Allocator.freeze;; mret (Ok tt))).
Definition ts_integrity_check : Proc (result AllocError unit) :=
  locked_section (section (Err NotInitialized) (λ al, on_allocator al Allocator.integrity_check)).

(** The box is allocated inside the section. *)
Definition ts_prepare_handover : Proc (option (Z * HandoverInfo.t)) :=
  locked_section (section None (λ al,
    info ← build_handover al;
    b ← EarlyBox_new info_layout (info_bytes info);
    mret ((λ p, (p, info)) <$> b))).

Definition init (hstart hsize : Z) : Proc (result AllocError unit) :=
  i ← load INITIALIZED;
  if i : bool then mret (Err AlreadyInitialized)
  else if hstart =? 0 then mret (Err InvalidParameter)
  else if hsize <? 64 * 1024 then mret (Err InvalidParameter)
  else if 1024 * 1024 * 1024 <? hsize then mret (Err InvalidParameter)
  else if negb (Z.land hstart 0xF =? 0) then mret (Err InvalidAlignment)
  else
    match checked_add hstart hsize with
    | None => mret (Err InvalidParameter)
    | Some hend =>
        if hend <=? hstart then mret (Err InvalidParameter)
        else
          r ← ts_init hstart hsize;
          match r with
          | Err e => mret (Err e)
          | Ok _ =>
              store INITIALIZED true;;
              c ← ts_integrity_check;
              match c with
              | Err e => mret (Err e)
              | Ok _ =>
                  st ← ts_stats;
                  match st with
                  | Some st =>
                      local (usize_sub (AllocStats.total_size st) (AllocStats.free_size st));;
                      mret (Ok tt)
                  | None => mret (Ok tt)
                  end
              end
          end
    end.

Definition alloc (sz : Z) : Proc (option Z) :=
  i ← load INITIALIZED;
  if negb i then mret None
  else
    e ← load ENABLED;
    if negb e then mret None
    else if sz =? 0 then mret None
    else ts_alloc_aligned sz 8.

Definition alloc_aligned (sz align : Z) : Proc (option Z) :=
  i ← load INITIALIZED;
  if negb i then mret None
  else
    e ← load ENABLED;
    if negb e then mret None
    else if (sz =? 0) || negb (is_power_of_two align) then mret None
    else ts_alloc_aligned sz align.

Definition dealloc_safe (p sz : Z) : Proc (result AllocError unit) :=
  i ← load INITIALIZED;
  if negb i then mret (Err NotInitialized)
  else
    match NonNull_new p with
    | Some q => ts_dealloc q
    | None => mret (Err NullPointer)
    end.

Definition dealloc (p : Z) : Proc unit :=
  i ← load INITIALIZED;
  if negb i then mret tt
  else
    match NonNull_new p with
    | Some q => ts_dealloc q;; mret tt
    | None => mret tt
    end.

Definition stats : Proc (option AllocStats.t) :=
  i ← load INITIALIZED;
  if negb i then mret None else ts_stats.

Definition integrity_check : Proc (result AllocError unit) :=
  i ← load INITIALIZED;
  if negb i then mret (Err NotInitialized) else ts_integrity_check.

Definition is_initialized : Proc bool := load INITIALIZED.
Definition is_enabled : Proc bool := load ENABLED.

Definition health_check : Proc (option HealthIssues.t) :=
  st ← stats;
  match st with
  | Some st => h ← local (check_health st); mret (Some h)
  | None => mret None
  end.

Definition usage_summary : Proc (option (Z * Z * Z)) :=
  st ← stats;
  mret (option_map (λ st, (AllocStats.total_size st, AllocStats.used_size st, AllocStats.free_size st)) st).

Definition print_status : Proc unit :=
  i ← load INITIALIZED;
  if negb i then mret tt
  else
    st ← stats;
    (match st with Some st => local (check_health st);; mret tt | None => mret tt end);;
    integrity_check;;
    mret tt.

Definition freeze : Proc (result AllocError unit) :=
  i ← load INITIALIZED;
  if negb i then mret (Err NotInitialized)
  else
    print_status;;
    r ← ts_freeze;
    match r with
    | Ok _ => store ENABLED false;; mret (Ok tt)
    | Err e => mret (Err e)
    end.

Definition enable : Proc unit := store ENABLED true.
Definition disable : Proc unit := store ENABLED false.

End api.
End HartApi.

(** ** Alone on the machine *)

Lemma run_bind {A B} (p : Proc A) (c : A → Proc B) g : run (p ≫= c) g = (run p ≫= (λ a, run (c a))) g.
Proof.
  revert g. induction p as [r|f k IH|f b k IH|C m k IH|C body k IH]; intros g; cbn [run].
  - done.
  - rewrite bind_assoc. apply bind_ext. intros b g'. apply IH.
  - rewrite bind_assoc. apply bind_ext. intros _ g'. apply IH.
  - rewrite bind_assoc. apply bind_ext. intros b g'. apply IH.
  - rewrite bind_assoc. apply bind_ext. intros b g'. apply IH.
Qed.

Lemma run_load f (g : GState) : run (load f) g = gets (get_flag f) g.
Proof. done. Qed.
Lemma run_store f b (g : GState) : run (store f b) g = modify (set_flag f b) g.
Proof. done. Qed.
Lemma run_section {A} (body : M GState A) g : run (locked_section body) g = under_lock body g.
Proof. apply bind_ret_r. Qed.
Lemma run_ret {A} (a : A) (g : GState) : run (Done a) g = Ret (a, g).
Proof. done. Qed.

(** A computation that works in any state. *)
Lemma run_local {B} (m : ∀ S, M S B) (g : GState) :
  alike (m unit) (m GState) → run (local (m unit)) g = m GState g.
Proof.
  intros (o & H1 & H2). unfold local. cbn [run]. rewrite bind_ret_r. unfold pure_run. rewrite H1, H2.
  by destruct o.
Qed.

(** Follow a process and its function in step. *)
Ltac same :=
  lazymatch goal with
  | |- run (_ ≫= _) _ = (_ ≫= _) _ => rewrite run_bind; apply bind_cong; [same|intros ? ?; same]
  | |- run (local (usize_sub ?a ?b)) _ = _ => apply (run_local (λ S, usize_sub a b)), alike_arith
  | |- run (local (check_health ?st)) _ = _ => apply (run_local (λ S, check_health st)), alike_check_health
  | |- run (if ?b then _ else _) _ = _ => destruct b; same
  | |- run (match ?x with _ => _ end) _ = _ => destruct x; same
  | |- _ => first [reflexivity | apply run_section | assumption]
  end.

Section alone.
Context {P : Profile}.
Implicit Types (g : GState).

Lemma run_init a n g : run (HartApi.init a n) g = Api.init a n g.
Proof. unfold HartApi.init, Api.init. same. Qed.
Lemma run_alloc n g : run (HartApi.alloc n) g = Api.alloc n g.
Proof. unfold HartApi.alloc, Api.alloc. same. Qed.
Lemma run_alloc_aligned n al g : run (HartApi.alloc_aligned n al) g = Api.alloc_aligned n al g.
Proof. unfold HartApi.alloc_aligned, Api.alloc_aligned. same. Qed.
Lemma run_dealloc p g : run (HartApi.dealloc p) g = Api.dealloc p g.
Proof. unfold HartApi.dealloc, Api.dealloc. same. Qed.
Lemma run_dealloc_safe p n g : run (HartApi.dealloc_safe p n) g = Api.dealloc_safe p n g.
Proof. unfold HartApi.dealloc_safe, Api.dealloc_safe. same. Qed.
Lemma run_stats g : run HartApi.stats g = Api.stats g.
Proof. unfold HartApi.stats, Api.stats. same. Qed.
Lemma run_integrity_check g : run HartApi.integrity_check g = Api.integrity_check g.
Proof. unfold HartApi.integrity_check, Api.integrity_check. same. Qed.
Lemma run_health_check g : run HartApi.health_check g = Api.health_check g.
Proof.
  unfold HartApi.health_check, Api.health_check. rewrite run_bind. apply bind_cong; [apply run_stats|].
  intros st g1. same.
Qed.
Lemma run_usage_summary g : run HartApi.usage_summary g = Api.usage_summary g.
Proof.
  unfold HartApi.usage_summary, Api.usage_summary. rewrite run_bind. apply bind_cong; [apply run_stats|done].
Qed.
Lemma run_print_status g : run HartApi.print_status g = Api.print_status g.
Proof.
  unfold HartApi.print_status, Api.print_status.
  rewrite run_bind. apply bind_cong; [done|]. intros [] g1; [|done]. cbn [negb].
  rewrite run_bind. apply bind_cong; [apply run_stats|]. intros st g2.
  rewrite run_bind. apply bind_cong; [same|]. intros _ g3.
  rewrite run_bind. apply bind_cong; [apply run_integrity_check|done].
Qed.
Lemma run_freeze g : run HartApi.freeze g = Api.freeze g.
Proof.
  unfold HartApi.freeze, Api.freeze. rewrite run_bind. apply bind_cong; [done|]. intros [] g1; [|done].
  cbn [negb]. rewrite run_bind. apply bind_cong; [apply run_print_status|]. intros _ g2. same.
Qed.

End alone.

(** Each function of the interface, as a process of flag accesses and locked
    sections and run alone on the machine, is the function of the sequential
    model. *)
Theorem processes_are_the_functions {P : Profile} g :
  (∀ a n, run (HartApi.init a n) g = Api.init a n g)
  ∧ (∀ n, run (HartApi.alloc n) g = Api.alloc n g)
  ∧ (∀ n al, run (HartApi.alloc_aligned n al) g = Api.alloc_aligned n al g)
  ∧ (∀ p, run (HartApi.dealloc p) g = Api.dealloc p g)
  ∧ (∀ p n, run (HartApi.dealloc_safe p n) g = Api.dealloc_safe p n g)
  ∧ run HartApi.stats g = Api.stats g
  ∧ run HartApi.integrity_check g = Api.integrity_check g
  ∧ run HartApi.health_check g = Api.health_check g
  ∧ run HartApi.usage_summary g = Api.usage_summary g
  ∧ run HartApi.print_status g = Api.print_status g
  ∧ run HartApi.freeze g = Api.freeze g.
Proof.
  split_and!; intros;
    auto using run_init, run_alloc, run_alloc_aligned, run_dealloc, run_dealloc_safe, run_stats,
      run_integrity_check, run_health_check, run_usage_summary, run_print_status, run_freeze.
Qed.

(** ** Several harts *)

(** Where a hart is: in its process, inside a section (with what is left of it and
    the process behind it), or behind the section with the lock still held. *)
Inductive Thread (R : Type) : Type :=
| Run (p : Proc R)
| Hold (rest : M GState (Proc R))
| Leave (p : Proc R).
Arguments Run {R} _.
Arguments Hold {R} _.
Arguments Leave {R} _.

(** A section works on the allocator and the memory: it does not see the flags or
    change them, and leaves the lock as it is. *)
Record confined {A} (m : M GState A) : Prop := {
  cf_flags : ∀ f b g, m (set_flag f b g) = match m g with
                                           | Ret (a, g') => Ret (a, set_flag f b g')
                                           | o => o
                                           end;
  cf_lock : ∀ g a g', m g = Ret (a, g') → locked g' = locked g;
}.

Lemma confined_ret {A} (a : A) : confined (mret a).
Proof. split; [done|]. by intros g x g' [= _ <-]. Qed.

Lemma confined_bind {A B} (m : M GState A) (k : A → M GState B) :
  confined m → (∀ a, confined (k a)) → confined (m ≫= k).
Proof.
  intros [M1 M2] Hk. split.
  - intros f b g. unfold mbind, M_bind. rewrite M1. destruct (m g) as [[a g1]| | |]; try done. apply Hk.
  - intros g a g' E. apply bind_inv in E as (x & g1 & E1 & E2).
    rewrite <-(M2 _ _ _ E1). by apply (cf_lock _ (Hk x)) in E2.
Qed.

Lemma confined_flags {A} (m : M GState A) g a g' f :
  confined m → m g = Ret (a, g') → get_flag f g' = get_flag f g.
Proof.
  intros [M1 _] E. specialize (M1 f (get_flag f g) g).
  replace (set_flag f (get_flag f g) g) with g in M1 by (by destruct f, g). rewrite E in M1.
  injection M1 as ->. by destruct f.
Qed.

Lemma set_locked_flag b f v g : set_locked b (set_flag f v g) = set_flag f v (set_locked b g).
Proof. by destruct f. Qed.

Section harts.
Context {R : Type}.
Implicit Types (ts : list (Thread R)) (ps : list (Proc R)) (g : GState) (i : nat).

(** The steps of the machine.  A hart that finds the lock taken spins, which
    changes nothing.  A section may be left off after any part of it that is
    itself confined. *)
Inductive fstep : list (Thread R) * GState → list (Thread R) * GState → Prop :=
| f_load ts g i f k :
    ts !! i = Some (Run (Load f k)) →
    fstep (ts, g) (<[i := Run (k (get_flag f g))]> ts, g)
| f_store ts g i f b k :
    ts !! i = Some (Run (Store f b k)) →
    fstep (ts, g) (<[i := Run k]> ts, set_flag f b g)
| f_local ts g i B (m : M unit B) k b :
    ts !! i = Some (Run (Local m k)) → m tt = Ret (b, tt) →
    fstep (ts, g) (<[i := Run (k b)]> ts, g)
| f_acquire ts g i B (body : M GState B) k :
    ts !! i = Some (Run (Locked body k)) → locked g = false →
    fstep (ts, g) (<[i := Hold (b ← body; mret (k b))]> ts, set_locked true g)
| f_spin ts g i B (body : M GState B) k :
    ts !! i = Some (Run (Locked body k)) → locked g = true →
    fstep (ts, g) (ts, g)
| f_work ts g i rest A (m : M GState A) (rest' : A → M GState (Proc R)) a g' :
    ts !! i = Some (Hold rest) → (∀ h, rest h = (m ≫= rest') h) →
    confined m → (∀ x, confined (rest' x)) → m g = Ret (a, g') →
    fstep (ts, g) (<[i := Hold (rest' a)]> ts, g')
| f_finish ts g i rest p g' :
    ts !! i = Some (Hold rest) → rest g = Ret (p, g') →
    fstep (ts, g) (<[i := Leave p]> ts, g')
| f_release ts g i p :
    ts !! i = Some (Leave p) →
    fstep (ts, g) (<[i := Run p]> ts, set_locked false g).

(** The machine in which a section is one step. *)
Inductive astep : list (Proc R) * GState → list (Proc R) * GState → Prop :=
| a_load ps g i f k :
    ps !! i = Some (Load f k) → astep (ps, g) (<[i := k (get_flag f g)]> ps, g)
| a_store ps g i f b k :
    ps !! i = Some (Store f b k) → astep (ps, g) (<[i := k]> ps, set_flag f b g)
| a_local ps g i B (m : M unit B) k b :
    ps !! i = Some (Local m k) → m tt = Ret (b, tt) → astep (ps, g) (<[i := k b]> ps, g)
| a_locked ps g i B (body : M GState B) k b g' :
    ps !! i = Some (Locked body k) → under_lock body g = Ret (b, g') →
    astep (ps, g) (<[i := k b]> ps, g').

(** The processes whose sections are confined. *)
Fixpoint proc_ok (p : Proc R) : Prop :=
  match p with
  | Done _ => True
  | Load _ k => ∀ b, proc_ok (k b)
  | Store _ _ k => proc_ok k
  | Local _ k => ∀ b, proc_ok (k b)
  | Locked body k => confined body ∧ ∀ b, proc_ok (k b)
  end.

(** ** Sections are atomic *)

(** How a state of the machine corresponds to one of the atomic machine: nobody is
    inside; a hart is inside, and running the whole section from the atomic
    state gives what running the rest of it from the concrete state gives; a hart
    is behind its section. *)
Inductive sim : list (Thread R) * GState → list (Proc R) * GState → Prop :=
| sim_free ps g :
    locked g = false → sim (Run <$> ps, g) (ps, g)
| sim_hold ps g ga i B (body : M GState B) k rest :
    locked ga = false → locked g = true → (∀ f, get_flag f ga = get_flag f g) →
    ps !! i = Some (Locked body k) → confined rest →
    (b ← body; mret (k b)) (set_locked true ga) = rest g →
    sim (<[i := Hold rest]> (Run <$> ps), g) (ps, ga)
| sim_leave ps g i p :
    locked g = true → ps !! i = Some p →
    sim (<[i := Leave p]> (Run <$> ps), g) (ps, set_locked false g).


Lemma lookup_threads ps i t : (Run <$> ps) !! i = Some t → ∃ p, ps !! i = Some p ∧ t = Run p.
Proof. rewrite list_lookup_fmap. intros (p & Hp & ->)%fmap_Some. by exists p. Qed.

Lemma lookup_others ps i j x t :
  <[j := x]> (Run <$> ps) !! i = Some t → (i = j ∧ t = x) ∨ (i ≠ j ∧ ∃ p, ps !! i = Some p ∧ t = Run p).
Proof.
  destruct (decide (i = j)) as [->|Hne]; intros H.
  - left. apply list_lookup_insert_Some in H as [(_ & <- & _)|[]]; done.
  - right. rewrite list_lookup_insert_ne in H by done. by split; [|apply lookup_threads].
Qed.

Lemma update_other ps i j x q :
  i ≠ j → <[i := Run q]> (<[j := x]> (Run <$> ps)) = <[j := x]> (Run <$> <[i := q]> ps).
Proof. intros H. by rewrite list_insert_insert_ne, list_fmap_insert by done. Qed.

Lemma update_self ps i x y q :
  <[i := y]> (<[i := x]> (Run <$> ps)) = <[i := y]> (Run <$> <[i := q]> ps).
Proof. by rewrite list_fmap_insert, !list_insert_insert_eq. Qed.

Lemma proc_ok_lookup ps i p : Forall proc_ok ps → ps !! i = Some p → proc_ok p.
Proof. apply Forall_lookup_1. Qed.

(** Steps of a hart outside the section of another. *)
Lemma astep_ok ps g ps' g' : astep (ps, g) (ps', g') → Forall proc_ok ps → Forall proc_ok ps'.
Proof.
  intros H Hok. inversion H; subst; (apply Forall_insert; [done|]);
    (eapply proc_ok_lookup in Hok; [|eassumption]); by apply Hok.
Qed.

(** Nobody holds the lock. *)
Lemma sim_free_step ps g c' :
  fstep (Run <$> ps, g) c' → locked g = false → Forall proc_ok ps →
  ∃ a', rtc astep (ps, g) a' ∧ sim c' a'.
Proof.
  intros Hf Hl Hok.
  inversion Hf as [? ? i f k H|? ? i f b k H|? ? i B m k b H Hm|? ? i B body k H _|? ? i B body k H Hl'
                  |? ? i rest A m rest' a g' H|? ? i rest p g' H|? ? i p H]; subst; try congruence;
    apply lookup_threads in H as (q & H & E); try done; injection E as <-; rewrite <-?list_fmap_insert.
  - eexists. split; [by apply rtc_once, a_load|by apply sim_free].
  - eexists. split; [by apply rtc_once, a_store|]. apply sim_free. by destruct f.
  - eexists. split; [by eapply rtc_once, a_local|by apply sim_free].
  - exists (ps, g). split; [done|]. eapply sim_hold; try done.
    apply confined_bind; [apply (proc_ok_lookup _ _ _ Hok H)|intros b; apply confined_ret].
Qed.

(** A hart is inside its section. *)
Lemma sim_hold_step ps g ga j B (body : M GState B) k rest c' :
  fstep (<[j := Hold rest]> (Run <$> ps), g) c' →
  locked ga = false → locked g = true → (∀ f, get_flag f ga = get_flag f g) →
  ps !! j = Some (Locked body k) → confined rest →
  (b ← body; mret (k b)) (set_locked true ga) = rest g → Forall proc_ok ps →
  ∃ a', rtc astep (ps, ga) a' ∧ sim c' a'.
Proof.
  intros Hf Hla Hl Hfl Hj Hc He Hok.
  inversion Hf as [? ? i f k' H|? ? i f b k' H|? ? i B' m k' b H Hm|? ? i B' body' k' H Hl'|? ? i B' body' k' H _
                  |? ? i rest2 A m rest' a g' H Hr Hcm Hcr Em|? ? i rest2 p g' H Er|? ? i p H]; subst; try congruence;
    apply lookup_others in H as [[-> E]|(Hij & q & H & E)]; try done; try (injection E as <-);
    rewrite ?update_other by done.
  - eexists. split; [by apply rtc_once, a_load|]. rewrite Hfl. eapply sim_hold; try done.
    by rewrite list_lookup_insert_ne.
  - eexists. split; [by apply rtc_once, a_store|]. eapply sim_hold; [by destruct f..| | |exact Hc|].
    + intros f'. destruct f, f'; try done; apply (Hfl INITIALIZED) || apply (Hfl ENABLED).
    + by rewrite list_lookup_insert_ne.
    + rewrite set_locked_flag. rewrite (cf_flags _ Hc), <-He. apply cf_flags.
      apply confined_bind; [apply (proc_ok_lookup _ _ _ Hok Hj)|intros x; apply confined_ret].
  - eexists. split; [by eapply rtc_once, a_local|]. eapply sim_hold; try done.
    by rewrite list_lookup_insert_ne.
  - exists (ps, ga). split; [done|by eapply sim_hold].
  - exists (ps, ga). split; [done|]. rewrite list_insert_insert_eq. eapply sim_hold; try done.
    + by rewrite (cf_lock _ Hcm _ _ _ Em).
    + intros f. by rewrite (confined_flags _ _ _ _ f Hcm Em).
    + rewrite He, Hr. unfold mbind, M_bind. by rewrite Em.
  - rewrite Er in He. apply bind_inv in He as (b & g1 & E1 & [= <- <-]).
    pose proof (proj1 (proc_ok_lookup _ _ _ Hok Hj)) as Hcb.
    eexists. split.
    { eapply rtc_once, a_locked; [done|]. unfold under_lock. mstep. rewrite Hla. mstep. mstep_with ltac:(exact E1).
      mstep. reflexivity. }
    rewrite (update_self _ _ _ _ (k b)). apply sim_leave.
    + by rewrite (cf_lock _ Hcb _ _ _ E1).
    + apply list_lookup_insert_eq. by eapply lookup_lt_Some.
Qed.

(** A hart is behind its section. *)
Lemma sim_leave_step ps g j p c' :
  fstep (<[j := Leave p]> (Run <$> ps), g) c' → locked g = true → ps !! j = Some p →
  ∃ a', rtc astep (ps, set_locked false g) a' ∧ sim c' a'.
Proof.
  intros Hf Hl Hj.
  inversion Hf as [? ? i f k' H|? ? i f b k' H|? ? i B' m k' b H Hm|? ? i B' body' k' H Hl'|? ? i B' body' k' H _
                  |? ? i rest2 A m rest' a g' H|? ? i rest2 q g' H|? ? i q H]; subst; try congruence;
    apply lookup_others in H as [[-> E]|(Hij & q' & H & E)]; try done; try (injection E as <-);
    rewrite ?update_other by done.
  - eexists. split; [by apply rtc_once, a_load|]. replace (get_flag f (set_locked false g)) with (get_flag f g) by (by destruct f).
    apply sim_leave; [done|by rewrite list_lookup_insert_ne].
  - eexists. split; [by apply rtc_once, a_store|]. rewrite <-set_locked_flag.
    apply sim_leave; [by destruct f|by rewrite list_lookup_insert_ne].
  - eexists. split; [by eapply rtc_once, a_local|]. apply sim_leave; [done|by rewrite list_lookup_insert_ne].
  - eexists. split; [done|]. by apply sim_leave.
  - eexists. split; [done|]. rewrite list_insert_insert_eq, <-list_fmap_insert, list_insert_id by done.
    by apply sim_free.
Qed.

Lemma fstep_sim c c' a :
  fstep c c' → sim c a → Forall proc_ok a.1 → ∃ a', rtc astep a a' ∧ sim c' a'.
Proof.
  intros Hf Hs. destruct Hs; intros Hok; [by eapply sim_free_step|by eapply sim_hold_step|by eapply sim_leave_step].
Qed.

Lemma asteps_ok a a' : rtc astep a a' → Forall proc_ok a.1 → Forall proc_ok a'.1.
Proof. induction 1 as [|[ps g] [ps1 g1] a' H _ IH]; [done|]. intros Hok. apply IH. by eapply astep_ok. Qed.

Lemma fsteps_sim c c' a :
  rtc fstep c c' → sim c a → Forall proc_ok a.1 → ∃ a', rtc astep a a' ∧ sim c' a'.
Proof.
  intros H. revert a. induction H as [c|c c1 c' H _ IH]; intros a Hs Hok; [by exists a|].
  destruct (fstep_sim _ _ _ H Hs Hok) as (a1 & E1 & S1).
  destruct (IH a1 S1 (asteps_ok _ _ E1 Hok)) as (a2 & E2 & S2). exists a2. split; [by etrans|done].
Qed.

(** A hart outside its section is at the same point on both machines. *)
Lemma sim_lookup c a i p : sim c a → c.1 !! i = Some (Run p) → a.1 !! i = Some p.
Proof.
  intros Hs. destruct Hs; cbn [fst].
  - by intros (q & Hq & [= <-])%lookup_threads.
  - by intros [[_ ?]|(_ & q & Hq & [= <-])]%lookup_others.
  - by intros [[_ ?]|(_ & q & Hq & [= <-])]%lookup_others.
Qed.

(** Who is inside. *)
Definition inside (t : Thread R) : bool := match t with Run _ => false | _ => true end.

Lemma sim_inside c a i j t u :
  sim c a → c.1 !! i = Some t → c.1 !! j = Some u → inside t = true →
  locked c.2 = true ∧ (inside u = true → i = j).
Proof.
  intros Hs. destruct Hs; cbn [fst snd]; intros Hi Hj Ht.
  - apply lookup_threads in Hi as (p & _ & ->). done.
  - apply lookup_others in Hi as [[-> ->]|(_ & p & _ & ->)]; [|done]. split; [done|]. intros Hu.
    by apply lookup_others in Hj as [[-> ->]|(_ & p & _ & ->)].
  - apply lookup_others in Hi as [[-> ->]|(_ & q & _ & ->)]; [|done]. split; [done|]. intros Hu.
    by apply lookup_others in Hj as [[-> ->]|(_ & q & _ & ->)].
Qed.

#[local] Instance Run_inj : Inj (=) (=) (Run (R := R)).
Proof. by intros p q [= ->]. Qed.

Lemma not_all_run ps ps' j x :
  (j < length ps)%nat → <[j := x]> (Run <$> ps) = Run <$> ps' → inside x = false.
Proof.
  intros Hj H. assert ((Run <$> ps') !! j = Some x) as (p & _ & ->)%lookup_threads; [|done].
  rewrite <-H. apply list_lookup_insert_eq. by rewrite length_fmap.
Qed.

Lemma sim_runs ps' g' a : sim (Run <$> ps', g') a → a = (ps', g').
Proof.
  intros Hs. inversion Hs as [qs h Hq|qs h ga j B body k rest ? ? ? Hj|qs h j p ? Hj]; subst.
  - f_equal. by apply (inj (fmap Run)).
  - apply lookup_lt_Some in Hj. by match goal with H : <[_ := _]> _ = _ |- _ => apply not_all_run in H end.
  - apply lookup_lt_Some in Hj. by match goal with H : <[_ := _]> _ = _ |- _ => apply not_all_run in H end.
Qed.

(** Sections are atomic.  However the harts interleave, with the flags read and
    written by the others while a hart works through its section, the machine
    does nothing that the machine in which every section is a single step could
    not do: what has finished has the same results and state. *)
Theorem locked_sections_are_atomic ps g ts' g' :
  Forall proc_ok ps → locked g = false → rtc fstep (Run <$> ps, g) (ts', g') →
  (∃ a, rtc astep (ps, g) a ∧ sim (ts', g') a)
  ∧ ∀ ps', ts' = Run <$> ps' → rtc astep (ps, g) (ps', g').
Proof.
  intros Hok Hl H. destruct (fsteps_sim _ _ (ps, g) H (sim_free ps g Hl) Hok) as (a & Ha & Hs).
  split; [by exists a|]. intros ps' ->. by rewrite <-(sim_runs _ _ _ Hs).
Qed.

(** Mutual exclusion: at any time at most one hart is inside a section, and
    while one is the lock is held. *)
Theorem mutual_exclusion ps g ts' g' i j t u :
  Forall proc_ok ps → locked g = false → rtc fstep (Run <$> ps, g) (ts', g') →
  ts' !! i = Some t → ts' !! j = Some u → inside t = true →
  locked g' = true ∧ (inside u = true → i = j).
Proof.
  intros Hok Hl H Hi Hj Ht. destruct (fsteps_sim _ _ (ps, g) H (sim_free ps g Hl) Hok) as (a & _ & Hs).
  by apply (sim_inside (ts', g') a i j t u Hs).
Qed.

End harts.

(** ** The sections of the interface are confined *)

Lemma confined_stuck {A} : confined (panic : M GState A) ∧ confined (hang : M GState A) ∧ confined (undef : M GState A).
Proof. split_and!; by split. Qed.
Lemma confined_instance : confined (gets instance).
Proof. split; [by intros []|]. by intros g a g' [= _ <-]. Qed.
Lemma confined_set_instance v : confined (modify (set_instance v)).
Proof. split; [by intros []|]. by intros g a g' [= _ <-]. Qed.
Lemma confined_on_machine {A} (m : M Machine A) : confined (on_machine m).
Proof.
  unfold on_machine, zoom. split.
  - intros [] b g; cbn; by destruct (m (machine g)) as [[a s]| | |].
  - intros g a g'. destruct (m (machine g)) as [[x s]| | |]; by intros [= _ <-].
Qed.
Lemma confined_on_hand_clock {A} (m : M Z A) : confined (on_hand_clock m).
Proof.
  unfold on_hand_clock, zoom. split.
  - intros [] b g; cbn; by destruct (m (hand_clock g)) as [[a s]| | |].
  - intros g a g'. destruct (m (hand_clock g)) as [[x s]| | |]; by intros [= _ <-].
Qed.
Lemma confined_on_allocator {A} al (m : M AState A) : confined (on_allocator al m).
Proof.
  unfold on_allocator, zoom. split.
  - intros [] b g; cbn; by destruct (m (mkAState al (machine g))) as [[a s]| | |].
  - intros g a g'. destruct (m (mkAState al (machine g))) as [[x s]| | |]; by intros [= _ <-].
Qed.
(** A nested [lock]. *)
Lemma confined_under_lock {A} (m : M GState A) : confined m → confined (under_lock m).
Proof.
  intros [M1 M2]. split.
  - intros f b g. unfold under_lock, mbind, M_bind, gets, modify.
    replace (locked (set_flag f b g)) with (locked g) by (by destruct f). destruct (locked g); [done|].
    rewrite set_locked_flag, M1. destruct (m (set_locked true g)) as [[a g1]| | |]; try done. cbn.
    by rewrite set_locked_flag.
  - intros g a g'. unfold under_lock, mbind, M_bind, gets, modify. destruct (locked g) eqn:E; [done|].
    destruct (m (set_locked true g)) as [[x g1]| | |]; try done. by intros [= _ <-].
Qed.
Lemma confined_alike {A} (m : M GState A) : alike m m → confined m.
Proof.
  intros (o & H & _). split.
  - intros f b g. rewrite !H. by destruct o.
  - intros g a g' E. rewrite H in E. destruct o; try done. by injection E as _ <-.
Qed.
Lemma confined_section {A} (none : A) m : (∀ al, confined (m al)) → confined (section none m).
Proof.
  intros H. apply confined_bind; [apply confined_instance|]. intros [al|]; [apply H|apply confined_ret].
Qed.

Create HintDb confined.
#[export] Hint Resolve confined_ret confined_instance confined_set_instance confined_on_machine
  confined_on_hand_clock confined_on_allocator : confined.

(** Follow a section. *)
Ltac confine :=
  lazymatch goal with
  | |- ∀ _, _ => intro; confine
  | |- confined (_ ≫= _) => apply confined_bind; [confine|intros ?; confine]
  | |- confined (section _ _) => apply confined_section; confine
  | |- confined (under_lock _) => apply confined_under_lock; confine
  | |- confined (with_allocator ?n ?m) => apply (confined_under_lock (section n m)); confine
  | |- confined (usize_sub _ _) => apply confined_alike, alike_arith
  | |- confined (match ?x with _ => _ end) => destruct x; confine
  | |- confined panic => apply confined_stuck
  | |- confined undef => apply confined_stuck
  | |- _ => auto with confined
  end.

Lemma bind_ok {A B} (p : Proc A) (c : A → Proc B) : proc_ok p → (∀ a, proc_ok (c a)) → proc_ok (p ≫= c).
Proof.
  intros Hp Hc. induction p as [r|f k IH|f b k IH|C m k IH|C body k IH]; cbn.
  - apply Hc.
  - intros b. apply IH, Hp.
  - by apply IH.
  - intros b. apply IH, Hp.
  - destruct Hp as [Hb Hk]. split; [done|]. intros b. apply IH, Hk.
Qed.

Ltac proc_ok :=
  lazymatch goal with
  | |- proc_ok (load _) => done
  | |- proc_ok (store _ _) => done
  | |- proc_ok (local _) => done
  | |- proc_ok (_ ≫= _) => apply bind_ok; [proc_ok|intros ?; proc_ok]
  | |- proc_ok (locked_section _) => split; [confine|done]
  | |- proc_ok (mret _) => exact I
  | |- proc_ok (match ?x with _ => _ end) => destruct x; proc_ok
  | |- _ => auto
  end.

(** ** Calls *)

Section calls.
Context {R : Type}.
Implicit Types (p q : Proc R) (ps : list (Proc R)) (g h : GState) (r : R).

Definition ended p : Prop := match p with Done _ => True | _ => False end.

(** A call: it reads the flags and has at most one section, its last step. *)
Fixpoint call p : Prop :=
  match p with
  | Done _ => True
  | Load _ k => ∀ b, call (k b)
  | Store _ _ _ => False
  | Local _ k => ∀ b, call (k b)
  | Locked body k => confined body ∧ ∀ b, ended (k b)
  end.

(** What a process does in one step of the atomic machine. *)
Definition advance p g p' g' : Prop :=
  match p with
  | Done _ => False
  | Load f k => p' = k (get_flag f g) ∧ g' = g
  | Store f b k => p' = k ∧ g' = set_flag f b g
  | Local m k => ∃ b, m tt = Ret (b, tt) ∧ p' = k b ∧ g' = g
  | Locked body k => ∃ b, under_lock body g = Ret (b, g') ∧ p' = k b
  end.

Definition same_flags g h : Prop := ∀ f, get_flag f g = get_flag f h.

Lemma call_ok p : call p → proc_ok p.
Proof.
  induction p as [r|f k IH|f b k IH|B m k IH|B body k IH]; cbn; intros Hp; auto; [done|].
  destruct Hp as [Hc Hk]. split; [done|]. intros b. specialize (Hk b). by destruct (k b).
Qed.

Lemma section_flags {A} (body : M GState A) g a g' :
  confined body → under_lock body g = Ret (a, g') → same_flags g g'.
Proof. intros Hc E f. symmetry. by eapply confined_flags; [apply confined_under_lock|]. Qed.

Lemma astep_advance ps g ps' g' :
  astep (ps, g) (ps', g') ↔ ∃ i p p', ps !! i = Some p ∧ advance p g p' g' ∧ ps' = <[i := p']> ps.
Proof.
  split.
  - intros H. inversion H; subst; (eexists _, _, _; split; [eassumption|split; [|reflexivity]]); cbn; eauto.
  - intros (i & p & p' & Hi & H & ->). destruct p; cbn in H; [done|..].
    + destruct H as [-> ->]. by apply a_load.
    + destruct H as [-> ->]. by apply a_store.
    + destruct H as (b & E & -> & ->). by eapply a_local.
    + destruct H as (b & E & ->). by eapply a_locked.
Qed.

Lemma advance_run p g p' g' : advance p g p' g' → run p g = run p' g'.
Proof.
  destruct p; cbn [advance run]; [done|..].
  - by intros [-> ->].
  - by intros [-> ->].
  - intros (b & E & -> & ->). unfold mbind, M_bind, pure_run. by rewrite E.
  - intros (b & E & ->). unfold mbind, M_bind. by rewrite E.
Qed.

(** A step of a call: up to its section it only reads. *)
Lemma advance_call p g p' g' :
  call p → advance p g p' g' →
  same_flags g g' ∧ (ended p' ∨ (g' = g ∧ call p' ∧ ∀ h, same_flags g h → run p h = run p' h)).
Proof.
  destruct p as [r|f k|f b k|B m k|B body k]; cbn [call advance]; intros Hp; [done|..].
  - intros [-> ->]. split; [done|]. right. split_and!; [done|apply Hp|]. intros h Hh.
    apply (advance_run (Load f k)). by rewrite (Hh f).
  - done.
  - intros (b & E & -> & ->). split; [done|]. right. split_and!; [done|apply Hp|]. intros h _.
    apply (advance_run (Local m k)). by exists b.
  - intros (b & E & ->). split; [by eapply section_flags; [apply Hp|]|]. left. apply Hp.
Qed.

End calls.

(** ** From the atomic machine back *)

Section progress.
Context {R : Type}.
Implicit Types (p : Proc R) (ps : list (Proc R)) (ts : list (Thread R)) (g : GState) (i : nat) (c : Z).

Lemma under_lock_inv {A} (body : M GState A) g b g' :
  under_lock body g = Ret (b, g') →
  locked g = false ∧ ∃ g2, body (set_locked true g) = Ret (b, g2) ∧ g' = set_locked false g2.
Proof.
  unfold under_lock. unfold mbind at 1, M_bind at 1, gets. destruct (locked g); [done|]. intros E.
  apply bind_inv in E as (u & g1 & [= <- <-] & E). apply bind_inv in E as (b' & g2 & E1 & E).
  apply bind_inv in E as (u & g3 & [= <- <-] & [= <- <-]). split; [done|]. by exists g2.
Qed.

(** Steps of the atomic machine are steps of the machine. *)
Lemma astep_fsteps ps g ps' g' :
  astep (ps, g) (ps', g') → locked g = false → rtc fstep (Run <$> ps, g) (Run <$> ps', g') ∧ locked g' = false.
Proof.
  intros H Hl.
  assert (∀ i q, ps !! i = Some q → (Run <$> ps) !! i = Some (Run q)) as Ht
    by (intros i q E; by rewrite list_lookup_fmap, E).
  inversion H as [? ? i f k Hi|? ? i f b k Hi|? ? i B m k b Hi Hm|? ? i B body k b ? Hi E]; subst;
    apply Ht in Hi; rewrite ?list_fmap_insert.
  - split; [by apply rtc_once, f_load|done].
  - split; [by apply rtc_once, f_store|by destruct f].
  - split; [by eapply rtc_once, f_local|done].
  - apply under_lock_inv in E as (_ & g2 & E1 & ->). split; [|done].
    eapply rtc_l; [by eapply f_acquire|]. eapply rtc_l.
    { eapply f_finish; [apply list_lookup_insert_eq; by eapply lookup_lt_Some|]. by mstep_with ltac:(exact E1). }
    rewrite list_insert_insert_eq. eapply rtc_l.
    { eapply f_release. apply list_lookup_insert_eq. by eapply lookup_lt_Some. }
    by rewrite list_insert_insert_eq.
Qed.

Lemma asteps_fsteps (a a' : list (Proc R) * GState) :
  rtc astep a a' → locked a.2 = false → rtc fstep (Run <$> a.1, a.2) (Run <$> a'.1, a'.2).
Proof.
  induction 1 as [a|[ps g] [ps1 g1] a' H _ IH]; intros Hl; [done|].
  destruct (astep_fsteps _ _ _ _ H Hl) as [H1 Hl1]. etrans; [exact H1|by apply IH].
Qed.

(** A hart alone can do what its process does alone on the machine. *)
Lemma run_asteps p ps g i r g' :
  ps !! i = Some p → run p g = Ret (r, g') → rtc astep (ps, g) (<[i := Done r]> ps, g').
Proof.
  revert ps g. induction p as [r0|f k IH|f b k IH|B m k IH|B body k IH]; intros ps g Hi; cbn [run]; intros E;
    pose proof (lookup_lt_Some _ _ _ Hi) as Hlt.
  - injection E as -> ->. by rewrite list_insert_id.
  - eapply rtc_l; [by apply a_load|]. rewrite <-(list_insert_insert_eq ps i (Done r) (k (get_flag f g))).
    apply (IH (get_flag f g)); [by apply list_lookup_insert_eq|exact E].
  - eapply rtc_l; [by apply a_store|]. rewrite <-(list_insert_insert_eq ps i (Done r) k).
    apply IH; [by apply list_lookup_insert_eq|exact E].
  - unfold mbind, M_bind, pure_run in E. destruct (m tt) as [[b []]| | |] eqn:Em; try done.
    eapply rtc_l; [by eapply a_local|]. rewrite <-(list_insert_insert_eq ps i (Done r) (k b)).
    apply (IH b); [by apply list_lookup_insert_eq|exact E].
  - apply bind_inv in E as (b & g1 & E1 & E). eapply rtc_l; [by eapply a_locked|].
    rewrite <-(list_insert_insert_eq ps i (Done r) (k b)). apply (IH b); [by apply list_lookup_insert_eq|exact E].
Qed.

(** A hart inside a section that returns can be let out. *)
Lemma sim_unlocks st a :
  sim st a → (∀ i p, a.1 !! i = Some p → ∃ r g', run p a.2 = Ret (r, g')) →
  ∃ ps g, rtc fstep st (Run <$> ps, g) ∧ rtc astep a (ps, g).
Proof.
  intros [qs h Hq|qs h ga j B body k rest Hla Hlh Hfl Hj Hc He|qs h j p Hlh Hj] Hr; cbn [fst snd] in *.
  - by exists qs, h.
  - destruct (Hr j _ Hj) as (r & g' & E). cbn [run] in E. apply bind_inv in E as (b & g1 & E & _).
    exists (<[j := k b]> qs), g1. split; [|by eapply rtc_once, a_locked].
    apply under_lock_inv in E as (_ & g2 & E & ->). pose proof (lookup_lt_Some _ _ _ Hj) as Hlt.
    eapply rtc_l.
    { eapply f_finish; [apply list_lookup_insert_eq; by rewrite length_fmap|].
      rewrite <-He. by mstep_with ltac:(exact E). }
    rewrite list_insert_insert_eq. eapply rtc_l.
    { eapply f_release. apply list_lookup_insert_eq. by rewrite length_fmap. }
    by rewrite list_insert_insert_eq, <-list_fmap_insert.
  - exists qs, (set_locked false h). split; [|done]. apply rtc_once. pose proof (lookup_lt_Some _ _ _ Hj) as Hlt.
    pose proof (f_release (<[j := Leave p]> (Run <$> qs)) h j p
      ltac:(apply list_lookup_insert_eq; by rewrite length_fmap)) as Hf.
    by rewrite list_insert_insert_eq, <-(list_fmap_insert Run), (list_insert_id qs j p) in Hf.
Qed.

(** The number of harts stays the same. *)
Lemma fsteps_length (st st' : list (Thread R) * GState) : rtc fstep st st' → length st.1 = length st'.1.
Proof.
  induction 1 as [st|st st1 st2 H _ IH]; [done|]. rewrite <-IH.
  destruct H; cbn; by rewrite ?length_insert.
Qed.

End progress.

(** ** A section that never ends *)

Section stuck.
Context {R : Type}.
Implicit Types (st : list (Thread R) * GState) (i j : nat).

(** Hart [i] holds the lock in a section that hangs, and is the only one inside. *)
Record stuck i st : Prop := {
  sk_rest : ∃ rest, st.1 !! i = Some (Hold rest) ∧ confined rest ∧ rest st.2 = Hang;
  sk_locked : locked st.2 = true;
  sk_alone : ∀ j t, j ≠ i → st.1 !! j = Some t → inside t = false;
}.

(** [j] waits for the lock. *)
Definition waits j st : Prop := ∃ B (body : M GState B) k, st.1 !! j = Some (Run (Locked body k)).

(** A step of a hart that does not wait. *)
Lemma waits_step ts (g g' : GState) j n x t :
  ts !! j = Some t → ¬ (∃ B (body : M GState B) k, t = Run (Locked body k)) →
  waits n (ts, g) → waits n (<[j := x]> ts, g').
Proof.
  intros Hj Ht (B & body & k & Hn). cbn in Hn. exists B, body, k. cbn.
  rewrite list_lookup_insert_ne; [done|]. intros ->. apply Ht. exists B, body, k. congruence.
Qed.

Lemma outside_step ts (g g' : GState) i j p q :
  stuck i (ts, g) → ts !! j = Some (Run p) → locked g' = true →
  (∀ rest, confined rest → rest g = Hang → rest g' = Hang (A := Proc R * GState)) →
  stuck i (<[j := Run q]> ts, g').
Proof.
  intros [(rest & Hi & Hc & Hr) Hl Ha] Hj Hl' Hg. cbn [fst snd] in *.
  assert (j ≠ i) as Hne by congruence. split; cbn [fst snd].
  - exists rest. rewrite list_lookup_insert_ne by done. split_and!; [done|done|by apply Hg].
  - done.
  - intros k t Hk. destruct (decide (j = k)) as [<-|Hjk].
    + intros H. apply list_lookup_insert_Some in H as [(_ & <- & _)|[]]; done.
    + rewrite list_lookup_insert_ne by done. by apply Ha.
Qed.

Lemma stuck_step i st st' :
  stuck i st → fstep st st' → stuck i st' ∧ ∀ j, waits j st → waits j st'.
Proof.
  intros Hs Hf. pose proof Hs as [(rest & Hi & Hc & Hr) Hl Ha].
  assert (∀ f b (r : M GState (Proc R)) g, confined r → r g = Hang → r (set_flag f b g) = Hang) as Hflag
    by (intros f b r g [H _] E; by rewrite H, E).
  inversion Hf as [ts g j f k Hj|ts g j f b k Hj|ts g j B m k b Hj Hm|ts g j B body k Hj Hl'|ts g j B body k Hj _
                  |ts g j r A m r' a g' Hj Hr' Hcm Hcr Em|ts g j r p g' Hj Er|ts g j p Hj]; subst; cbn [fst snd] in *.
  - split; [by eapply outside_step|]. intros n. eapply waits_step; [done|]. by intros (? & ? & ? & ?).
  - split; [eapply outside_step; [done|done|by destruct f|intros; by apply Hflag]|].
    intros n. eapply waits_step; [done|]. by intros (? & ? & ? & ?).
  - split; [by eapply outside_step|]. intros n. eapply waits_step; [done|]. by intros (? & ? & ? & ?).
  - congruence.
  - done.
  - assert (j = i) as -> by (destruct (decide (j = i)) as [|Hne]; [done|]; by specialize (Ha j _ Hne Hj)).
    rewrite Hi in Hj. injection Hj as <-. split.
    + split; cbn [fst snd].
      * exists (r' a). split_and!; [|apply Hcr|].
        -- apply list_lookup_insert_eq. by eapply lookup_lt_Some.
        -- rewrite Hr' in Hr. unfold mbind, M_bind in Hr. by rewrite Em in Hr.
      * by rewrite (cf_lock _ Hcm _ _ _ Em).
      * intros n t Hn. rewrite list_lookup_insert_ne by done. by apply Ha.
    + intros n. eapply waits_step; [done|]. by intros (? & ? & ? & ?).
  - assert (j = i) as -> by (destruct (decide (j = i)) as [|Hne]; [done|]; by specialize (Ha j _ Hne Hj)).
    congruence.
  - assert (j = i) as -> by (destruct (decide (j = i)) as [|Hne]; [done|]; by specialize (Ha j _ Hne Hj)).
    congruence.
Qed.

Lemma stuck_steps i st st' :
  rtc fstep st st' → stuck i st → stuck i st' ∧ ∀ j, waits j st → waits j st'.
Proof.
  induction 1 as [st|st st1 st' H _ IH]; intros Hs; [done|].
  destruct (stuck_step i st st1 Hs H) as [Hs1 Hw1]. destruct (IH Hs1) as [Hs2 Hw2].
  split; [done|]. intros j Hj. by apply Hw2, Hw1.
Qed.

End stuck.
