(* ===== verification/HartRuns.v ===== *)
(** * The interface on several harts

    The functions of [src/init/alloc/mod.rs] as processes ([Harts.v]): which of them
    are calls, with one section at their end, and what concurrent calls do.  Of
    harts that initialise the allocator at the same time one succeeds; a hart that
    prepares the handover blocks all the others. *)

From Stdlib Require Import ZArith Lia String.
From stdpp Require Import base option numbers sorting strings gmap list relations.
From S2P Require Import Prelude Memory Purpose Metadata Allocator HeapInv AllocSteps AllocOps Arrays Handover Examples GlobalAlloc AllocApi GlobalThms HandoverSnapshot TypeSafety ByteHeap Reports Harts.

Section api_ok.
Context {P : Profile} (info_layout : Layout) (info_bytes : HandoverInfo.t → list Z).

Lemma ts_ok a n p :
  proc_ok (HartApi.ts_init a n) ∧ proc_ok (HartApi.ts_alloc_aligned a n) ∧ proc_ok (HartApi.ts_dealloc p)
  ∧ proc_ok HartApi.ts_stats ∧ proc_ok HartApi.ts_freeze ∧ proc_ok HartApi.ts_integrity_check.
Proof.
  unfold HartApi.ts_init, HartApi.ts_alloc_aligned, HartApi.ts_dealloc, HartApi.ts_stats, HartApi.ts_freeze,
    HartApi.ts_integrity_check. split_and!; proc_ok.
Qed.

Lemma handover_section_confined al :
  confined (info ← build_handover al;
            b ← EarlyBox_new info_layout (info_bytes info);
            mret ((λ p, (p, info)) <$> b)).
Proof.
  unfold build_handover, EarlyBox_new, alloc_init, alloc_type, safe_alloc, TS_alloc_aligned, HandoverInfo.update_checksum.
  confine. apply confined_alike, alike_for_range. intros k c.
  apply alike_bind; [apply alike_arr_get|]. intros block. apply alike_ret.
Qed.

Lemma prepare_handover_ok : proc_ok (HartApi.ts_prepare_handover info_layout info_bytes).
Proof. split; [|done]. apply confined_section. intros al. apply handover_section_confined. Qed.

Lemma status_ok : proc_ok HartApi.stats ∧ proc_ok HartApi.integrity_check ∧ proc_ok HartApi.print_status.
Proof.
  destruct (ts_ok 0 0 0) as (_ & _ & _ & H1 & _ & H2).
  assert (proc_ok HartApi.stats) as Hs  by (unfold HartApi.stats; proc_ok).
  assert (proc_ok HartApi.integrity_check) as Hi by (unfold HartApi.integrity_check; proc_ok).
  split_and!; [done|done|]. unfold HartApi.print_status. proc_ok.
Qed.

Lemma init_ok a n : proc_ok (HartApi.init a n).
Proof. destruct (ts_ok a n 0) as (H1 & _ & _ & H2 & _ & H3). unfold HartApi.init. proc_ok. Qed.
Lemma freeze_ok : proc_ok HartApi.freeze.
Proof.
  destruct (ts_ok 0 0 0) as (_ & _ & _ & _ & H & _). destruct status_ok as (_ & _ & Hp).
  unfold HartApi.freeze. proc_ok.
Qed.

End api_ok.

(** ** The calls of the interface *)

Section api_calls.
Context {P : Profile}.

Lemma alloc_aligned_call n al : call (HartApi.alloc_aligned n al).
Proof. intros []; cbn; [|done]. intros []; cbn; [|done]. case_match; [done|]. split; [confine|done]. Qed.
Lemma alloc_call n : call (HartApi.alloc n).
Proof. intros []; cbn; [|done]. intros []; cbn; [|done]. case_match; [done|]. split; [confine|done]. Qed.
Lemma dealloc_safe_call p n : call (HartApi.dealloc_safe p n).
Proof. intros []; cbn; [|done]. destruct (NonNull_new p); [|done]. split; [confine|done]. Qed.
Lemma dealloc_call p : call (HartApi.dealloc p).
Proof. intros []; cbn; [|done]. destruct (NonNull_new p); [|done]. split; [confine|done]. Qed.
Lemma stats_call : call HartApi.stats.
Proof. intros []; cbn; [|done]. split; [confine|done]. Qed.
Lemma integrity_check_call : call HartApi.integrity_check.
Proof. intros []; cbn; [|done]. split; [confine|done]. Qed.
Lemma usage_summary_call : call HartApi.usage_summary.
Proof. intros []; cbn; [|done]. split; [confine|done]. Qed.

(** A call with its result put into a common type. *)
Lemma call_map {A B} (f : A → B) (p : Proc A) : call p → call (a ← p; mret (f a)).
Proof.
  induction p as [r|l k IH|l b k IH|C m k IH|C body k IH]; cbn; intros Hp; auto.
  destruct Hp as [Hc Hk]. split; [done|]. intros b. specialize (Hk b). by destruct (k b).
Qed.

End api_calls.

(** ** The handover on several harts *)

Lemma under_lock_Hang {A} (body : M GState A) g :
  locked g = false → under_lock body g = Hang → body (set_locked true g) = Hang.
Proof.
  intros Hl. unfold under_lock, mbind, M_bind, gets, modify. rewrite Hl.
  by destruct (body (set_locked true g)) as [[a g']| | |].
Qed.

(** C36: A hart that prepares the handover stops every other hart that needs the
    allocator.  Once it has taken the lock it stays inside its section forever,
    and a hart that waits for the lock waits forever, whatever the others do. *)
Theorem handover_blocks_all_harts {P : Profile} {R : Type} (c : option (Z * HandoverInfo.t) → Proc R)
    l bytes ps i g s bs :
  holds g s → heap_inv s bs → layout_ok l → ps !! i = Some (r ← HartApi.ts_prepare_handover l bytes; c r) →
  ∃ st, fstep (Run <$> ps, g) st
    ∧ ∀ st', rtc fstep st st' →
        locked st'.2 = true ∧ (∃ rest, st'.1 !! i = Some (Hold rest))
        ∧ ∀ j st'', waits j st' → rtc fstep st' st'' → waits j st''.
Proof.
  intros Hh I Hl Hi. pose proof Hh as [Hlk _ _].
  pose proof (TS_prepare_handover_hangs g s bs l bytes Hh I Hl) as Hang.
  apply under_lock_Hang in Hang; [|done]. pose proof (lookup_lt_Some _ _ _ Hi) as Hlt.
  eexists. split.
  { eapply f_acquire; [|exact Hlk]. rewrite list_lookup_fmap, Hi. reflexivity. }
  match goal with |- ∀ st', rtc fstep ?st st' → _ => assert (stuck i st) as Hs end.
  { split; cbn [fst snd].
    - eexists. split_and!; [apply list_lookup_insert_eq; by rewrite length_fmap| |].
      + apply confined_bind; [|intros; apply confined_ret].
        apply confined_section. intros al. apply handover_section_confined.
      + by apply bind_Hang.
    - done.
    - intros j t Hj. rewrite list_lookup_insert_ne by done. by intros (p & _ & ->)%lookup_threads. }
  intros st' H. destruct (stuck_steps i _ _ H Hs) as [Hs' _]. split_and!.
  - apply Hs'.
  - destruct (sk_rest _ _ Hs') as (rest & Hr & _). by exists rest.
  - intros j st'' Hj H'. by apply (stuck_steps i _ _ H' Hs').
Qed.

(** ** Concurrent initialisation *)

Section race.
Context {P : Profile}.

(** A section that does not remove the allocator. *)
Definition keeps_instance {A} (body : M GState A) : Prop :=
  ∀ g a g', body g = Ret (a, g') → instance g ≠ None → instance g' ≠ None.

(** Nothing in the process removes the allocator. *)
Fixpoint keeps (p : Proc (result AllocError unit)) : Prop :=
  match p with
  | Done _ => True
  | Load _ k => ∀ b, keeps (k b)
  | Store _ _ k => keeps k
  | Local _ k => ∀ b, keeps (k b)
  | Locked body k => keeps_instance body ∧ ∀ b, keeps (k b)
  end.

(** The process succeeds only after a section that found no allocator and left
    one. *)
Fixpoint fresh (p : Proc (result AllocError unit)) : Prop :=
  match p with
  | Done r => r ≠ Ok tt
  | Load _ k => ∀ b, fresh (k b)
  | Store _ _ k => fresh k
  | Local _ k => ∀ b, fresh (k b)
  | Locked body k =>
      keeps_instance body
      ∧ ∀ g b g', body g = Ret (b, g') →
          fresh (k b) ∨ (instance g = None ∧ instance g' ≠ None ∧ keeps (k b))
  end.

Lemma on_allocator_sets {A} al (m : M AState A) g a g' :
  on_allocator al m g = Ret (a, g') → instance g' ≠ None.
Proof. unfold on_allocator, zoom. destruct (m _) as [[x s]| | |]; try done. by intros [= <- <-]. Qed.

Lemma section_keeps {A} (none : A) (m : EarlyAllocator → M GState A) :
  (∀ al g a g', m al g = Ret (a, g') → instance g' ≠ None) → keeps_instance (section none m).
Proof.
  intros Hm g a g' E Hi. unfold section in E. apply bind_inv in E as (i & g1 & [= <- <-] & E).
  destruct (instance g) as [al|]; [|done]. by eapply Hm.
Qed.

(** The section of [TS_init]. *)
Lemma ts_init_sections a n g r g' :
  (i ← gets instance;
   match i with
   | Some _ => mret (Err AlreadyInitialized)
   | None =>
       r ← on_machine (EarlyAllocator_new a n);
       match r with
       | Ok al => modify (set_instance (Some al));; mret (Ok tt)
       | Err e => mret (Err e)
       end
   end) g = Ret (r, g') →
  match r with
  | Ok _ => instance g = None ∧ instance g' ≠ None
  | Err _ => instance g' = instance g
  end.
Proof.
  intros E. apply bind_inv in E as (i & g1 & [= <- <-] & E). destruct (instance g) as [al|] eqn:Hi.
  { by injection E as <- <-. }
  apply bind_inv in E as (x & g1 & E1 & E). unfold on_machine, zoom in E1.
  destruct (EarlyAllocator_new a n (machine g)) as [[y ms]| | |]; try done. injection E1 as <- <-.
  destruct y as [al|e].
  - apply bind_inv in E as (u & g2 & [= <- <-] & [= <- <-]). done.
  - by injection E as <- <-.
Qed.

Lemma init_fresh a n : fresh (HartApi.init a n).
Proof.
  intros []; [done|]. cbn. repeat (case_match; [done|]).
  case_match; [|done]. case_match; [done|]. split.
  - intros g r g' E Hi. apply ts_init_sections in E. destruct r; [by destruct E|congruence].
  - intros g r g' E. apply ts_init_sections in E. destruct r as [[]|e]; [right|by left].
    destruct E as [E1 E2]. split_and!; [done|done|]. split.
    { apply section_keeps. intros al h x h'. apply on_allocator_sets. }
    intros [[]|e]; [|done]. split; [|by intros [st|]].
    apply section_keeps. intros al h x h' E. apply bind_inv in E as (st & h1 & E & [= <- <-]).
    by eapply on_allocator_sets.
Qed.

(** At most one hart, [w], has installed an allocator. *)
Record racing (w : option nat) (ps : list (Proc (result AllocError unit))) (g : GState) : Prop := {
  rc_instance : w ≠ None → instance g ≠ None;
  rc_winner : ∀ i p, ps !! i = Some p → w = Some i → keeps p;
  rc_others : ∀ i p, ps !! i = Some p → w ≠ Some i → fresh p;
}.

Lemma racing_insert w ps g g' i p p' :
  racing w ps g → ps !! i = Some p → (instance g ≠ None → instance g' ≠ None) →
  (keeps p → keeps p') → (fresh p → fresh p') → racing w (<[i := p']> ps) g'.
Proof.
  intros [H1 H2 H3] Hi Hg Hk Hf. split.
  - intros Hw. by apply Hg, H1.
  - intros j q [(<- & <- & _)|[Hne Hj]]%list_lookup_insert_Some Hw; [|by eapply H2]. by eapply Hk, H2.
  - intros j q [(<- & <- & _)|[Hne Hj]]%list_lookup_insert_Some Hw; [|by eapply H3]. by eapply Hf, H3.
Qed.

Lemma astep_racing w ps g ps' g' :
  racing w ps g → astep (ps, g) (ps', g') → ∃ w', racing w' ps' g'.
Proof.
  intros Hr H. inversion H as [? ? i f k Hi|? ? i f b k Hi|? ? i B m k b Hi Hm|? ? i B body k b ? Hi E]; subst.
  - exists w. eapply racing_insert; [exact Hr|exact Hi|done|intros Hp; apply Hp|intros Hp; apply Hp].
  - exists w. eapply racing_insert; [exact Hr|exact Hi|by destruct f|intros Hp; apply Hp|intros Hp; apply Hp].
  - exists w. eapply racing_insert; [exact Hr|exact Hi|done|intros Hp; apply Hp|intros Hp; apply Hp].
  - apply under_lock_inv in E as (_ & g2 & E & ->). pose proof Hr as [H1 H2 H3].
    destruct (decide (w = Some i)) as [->|Hw].
    + pose proof (H2 i _ Hi eq_refl) as [Hk1 Hk2]. exists (Some i). split.
      * intros _. apply (Hk1 _ _ _ E). by apply H1.
      * intros j q [(<- & <- & _)|[Hne Hj]]%list_lookup_insert_Some Hw; [apply Hk2|congruence].
      * intros j q [(<- & <- & _)|[Hne Hj]]%list_lookup_insert_Some Hw; [done|by eapply H3].
    + pose proof (H3 i _ Hi Hw) as [Hk1 Hk2]. destruct (Hk2 _ _ _ E) as [Hf|(Hn & Hs & Hk)].
      * exists w. split.
        -- intros Hne. apply (Hk1 _ _ _ E). by apply H1.
        -- intros j q [(<- & <- & _)|[Hne Hj]]%list_lookup_insert_Some Hw'; [done|by eapply H2].
        -- intros j q [(<- & <- & _)|[Hne Hj]]%list_lookup_insert_Some Hw'; [done|by eapply H3].
      * destruct w as [j|]; [by destruct (H1 ltac:(done))|]. exists (Some i). split; [done| |].
        -- intros j q [(<- & <- & _)|[Hne Hj]]%list_lookup_insert_Some Hw'; [done|congruence].
        -- intros j q [(<- & <- & _)|[Hne Hj]]%list_lookup_insert_Some Hw'; [done|by eapply H3].
Qed.

Lemma asteps_racing (a a' : list (Proc (result AllocError unit)) * GState) :
  rtc astep a a' → ∀ w, racing w a.1 a.2 → ∃ w', racing w' a'.1 a'.2.
Proof.
  induction 1 as [a|[ps g] [ps1 g1] a' H _ IH]; intros w Hr; [by exists w|].
  destruct (astep_racing w ps g ps1 g1 Hr H) as [w1 Hr1]. by eapply IH.
Qed.

(** C14: However many harts initialise the allocator at the same time, with whatever
    heaps, at most one of them is told that it succeeded: the flag is read
    before the lock is taken, so several can pass it, but the section finds the
    allocator of the first. *)
Theorem one_init_succeeds (heaps : list (Z * Z)) g ts' g' i j :
  locked g = false → rtc fstep (Run <$> ((λ h, HartApi.init h.1 h.2) <$> heaps), g) (ts', g') →
  ts' !! i = Some (Run (Done (Ok tt))) → ts' !! j = Some (Run (Done (Ok tt))) → i = j.
Proof.
  intros Hl H Hi Hj. set (ps := (λ h, HartApi.init h.1 h.2) <$> heaps) in *.
  assert (Forall proc_ok ps) as Hok by (apply Forall_fmap, Forall_true; intros h; apply init_ok).
  destruct (fsteps_sim _ _ (ps, g) H (sim_free ps g Hl) Hok) as ([qs ga] & Ha & Hs).
  destruct (asteps_racing _ _ Ha None) as (w & [_ _ R3]).
  { split; [done|done|]. intros n p Hn _. unfold ps in Hn. cbn in Hn. rewrite list_lookup_fmap in Hn.
    apply fmap_Some in Hn as (h & _ & ->). apply init_fresh. }
  apply (sim_lookup _ _ _ _ Hs) in Hi, Hj. cbn in R3.
  assert (w = Some i) as -> by (destruct (decide (w = Some i)) as [|Hne]; [done|]; by destruct (R3 i _ Hi Hne)).
  destruct (decide (i = j)) as [|Hne]; [done|]. by destruct (R3 j _ Hj ltac:(congruence)).
Qed.

End race.

(** ** Witnesses *)

Module HartDemo.

Definition procs : list (Proc (option Z)) := HartApi.alloc (P := Dev) <$> [32; 64].
Lemma procs_ok : Forall proc_ok procs.
Proof. repeat (apply Forall_cons_2; [apply call_ok, alloc_call|]). apply Forall_nil_2. Qed.

(** Both harts find the allocator initialised and enabled, the first takes the
    lock, the second spins. *)
Definition body (n : Z) : M GState (option Z) :=
  section None (λ al, on_allocator al (Allocator.alloc_aligned (P := Dev) n 8)).
Definition threads : list (Thread (option Z)) :=
  [Hold (b ← body 32; mret (Done b)); Run (Locked (body 64) Done)].

Lemma both_try : rtc fstep (Run <$> procs, GlobalDemo.g3) (threads, set_locked true GlobalDemo.g3).
Proof.
  eapply rtc_l; [apply (f_load _ _ 0%nat); reflexivity|]. eapply rtc_l; [apply (f_load _ _ 1%nat); reflexivity|].
  eapply rtc_l; [apply (f_load _ _ 0%nat); reflexivity|]. eapply rtc_l; [apply (f_load _ _ 1%nat); reflexivity|].
  eapply rtc_l; [apply (f_acquire _ _ 0%nat); reflexivity|].
  eapply rtc_l; [apply (f_spin _ _ 1%nat _ (body 64) Done); reflexivity|]. apply rtc_refl.
Qed.

End HartDemo.

Lemma locked_sections_are_atomic_witness :
  ∃ a, rtc astep (HartDemo.procs, GlobalDemo.g3) a ∧ sim (HartDemo.threads, set_locked true GlobalDemo.g3) a.
Proof.
  exact (proj1 (locked_sections_are_atomic HartDemo.procs GlobalDemo.g3 HartDemo.threads _
                  HartDemo.procs_ok eq_refl HartDemo.both_try)).
Defined.

Lemma mutual_exclusion_witness : locked (set_locked true GlobalDemo.g3) = true.
Proof.
  exact (proj1 (mutual_exclusion HartDemo.procs GlobalDemo.g3 HartDemo.threads _ 0 1 _ _
                  HartDemo.procs_ok eq_refl HartDemo.both_try eq_refl eq_refl eq_refl)).
Defined.

Lemma handover_blocks_all_harts_witness :
  ∃ st, fstep (Run <$> [r ← HartApi.ts_prepare_handover (P := Dev) GlobalDemo.box_layout (λ _, []); mret None;
                        HartApi.alloc (P := Dev) 32], GlobalDemo.g3) st
    ∧ locked st.2 = true.
Proof.
  destruct (handover_blocks_all_harts (P := Dev) (λ _, mret None : Proc (option Z)) GlobalDemo.box_layout (λ _, [])
              [r ← HartApi.ts_prepare_handover (P := Dev) GlobalDemo.box_layout (λ _, []); mret None;
               HartApi.alloc (P := Dev) 32] 0 GlobalDemo.g3 heap3 blocks3
              GlobalDemo.g3_holds heap3_inv ltac:(split_and!; by_eval) eq_refl) as (st & H & Hst).
  exists st. split; [exact H|]. exact (proj1 (Hst st (rtc_refl _ _))).
Defined.

Lemma one_init_succeeds_witness :
  ∃ ts' g', rtc fstep (Run <$> ((λ h, HartApi.init (P := Dev) h.1 h.2) <$> [(2151677952, 65536); (2151677952, 131072)]),
                       GlobalDemo.g_boot) (ts', g')
    ∧ ts' !! 0%nat = Some (Run (Done (Ok tt))) ∧ 0%nat = 0%nat.
Proof.
  destruct (init_run (P := Dev) GlobalDemo.g_boot 2151677952 65536) as (g' & _ & _ & E & _);
    [reflexivity..|split; by_eval|by_eval|split_and!; by_eval|].
  set (ps := (λ h, HartApi.init (P := Dev) h.1 h.2) <$> [(2151677952, 65536); (2151677952, 131072)]).
  assert (rtc fstep (Run <$> ps, GlobalDemo.g_boot) (Run <$> <[0%nat := Done (Ok tt)]> ps, g')) as H.
  { apply (asteps_fsteps (ps, GlobalDemo.g_boot) (<[0%nat := Done (Ok tt)]> ps, g')); [|reflexivity].
    eapply run_asteps; [reflexivity|]. rewrite run_init. exact E. }
  eexists _, g'. split; [exact H|]. split; [reflexivity|].
  exact (one_init_succeeds (P := Dev) [(2151677952, 65536); (2151677952, 131072)] GlobalDemo.g_boot _ g' 0 0
           eq_refl H eq_refl eq_refl).
Defined.
