(* ===== verification/HartProgs.v ===== *)
(** * Programs of calls on several harts

    Each hart runs a program that calls the functions of [src/init/alloc/mod.rs]
    and goes on with their replies.  The machine interleaves the programs at every
    access of a flag and at every step inside a section ([Harts.v]); the theorems
    show that nothing of this is seen by the programs: each call acts as one step,
    with the effect and the reply of the sequential function ([AllocApi.v]).  So
    programs that free only what they own never share memory, and never block each
    other. *)

From Stdlib Require Import ZArith Lia String.
From stdpp Require Import base option numbers sorting strings gmap list relations.
From S2P Require Import Prelude Memory Purpose Metadata Allocator HeapInv AllocSteps AllocOps Arrays Handover Examples GlobalAlloc AllocApi GlobalThms HandoverSnapshot TypeSafety ByteHeap Reports Harts HartRuns.

(** ** Requests and programs *)

(** The calls of the interface that leave the flags alone. *)
Inductive request : Type :=
| Alloc (size : Z)
| AllocAligned (size align : Z)
| Dealloc (ptr : Z)
| DeallocSafe (ptr size : Z)
| Stats
| IntegrityCheck
| UsageSummary
| IsInitialized
| IsEnabled.

Inductive reply : Type :=
| Pointer (p : option Z)
| Unit
| Outcome (r : result AllocError unit)
| Statistics (st : option AllocStats.t)
| Summary (s : option (Z * Z * Z))
| Flag (b : bool).

(** A program that ends with a value. *)
Inductive Prog (A : Type) : Type :=
| Stop (a : A)
| Call (q : request) (k : reply → Prog A).
Arguments Stop {A} _.
Arguments Call {A} _ _.

Section programs.
Context {P : Profile}.

(** A request as a process of the hart, and as a step of the sequential model. *)
Definition perform (q : request) : Proc reply :=
  match q with
  | Alloc n => r ← HartApi.alloc n; mret (Pointer r)
  | AllocAligned n al => r ← HartApi.alloc_aligned n al; mret (Pointer r)
  | Dealloc p => HartApi.dealloc p;; mret Unit
  | DeallocSafe p n => r ← HartApi.dealloc_safe p n; mret (Outcome r)
  | Stats => r ← HartApi.stats; mret (Statistics r)
  | IntegrityCheck => r ← HartApi.integrity_check; mret (Outcome r)
  | UsageSummary => r ← HartApi.usage_summary; mret (Summary r)
  | IsInitialized => b ← HartApi.is_initialized; mret (Flag b)
  | IsEnabled => b ← HartApi.is_enabled; mret (Flag b)
  end.

Definition answer (q : request) : M GState reply :=
  match q with
  | Alloc n => r ← Api.alloc n; mret (Pointer r)
  | AllocAligned n al => r ← Api.alloc_aligned n al; mret (Pointer r)
  | Dealloc p => Api.dealloc p;; mret Unit
  | DeallocSafe p n => r ← Api.dealloc_safe p n; mret (Outcome r)
  | Stats => r ← Api.stats; mret (Statistics r)
  | IntegrityCheck => r ← Api.integrity_check; mret (Outcome r)
  | UsageSummary => r ← Api.usage_summary; mret (Summary r)
  | IsInitialized => b ← Api.is_initialized; mret (Flag b)
  | IsEnabled => b ← Api.is_enabled; mret (Flag b)
  end.

Lemma run_perform q g : run (perform q) g = answer q g.
Proof.
  destruct q; unfold perform, answer; rewrite run_bind; (apply bind_cong; [|done]);
    auto using run_alloc, run_alloc_aligned, run_dealloc, run_dealloc_safe, run_stats,
      run_integrity_check, run_usage_summary.
Qed.

Lemma perform_call q : call (perform q).
Proof.
  destruct q; apply call_map;
    auto using alloc_call, alloc_aligned_call, dealloc_call, dealloc_safe_call, stats_call,
      integrity_check_call, usage_summary_call; done.
Qed.

Section machine.
Context {A : Type}.
Implicit Types (c : Prog A) (cs : list (Prog A)) (p : Proc A) (ps : list (Proc A)) (g h : GState) (i : nat).

(** The program as a process, and alone in the sequential model. *)
Fixpoint compile c : Proc A :=
  match c with
  | Stop a => Done a
  | Call q k => r ← perform q; compile (k r)
  end.

Fixpoint exec c : M GState A :=
  match c with
  | Stop a => mret a
  | Call q k => r ← answer q; exec (k r)
  end.

(** The machine in which a call is one step. *)
Inductive cstep : list (Prog A) * GState → list (Prog A) * GState → Prop :=
| c_call cs g i q k r g' :
    cs !! i = Some (Call q k) → answer q g = Ret (r, g') → cstep (cs, g) (<[i := k r]> cs, g').

Lemma compile_ok c : proc_ok (compile c).
Proof.
  induction c as [a|q k IH]; [done|]. cbn [compile]. apply bind_ok; [apply call_ok, perform_call|exact IH].
Qed.

Lemma run_compile c g : run (compile c) g = exec c g.
Proof.
  revert g. induction c as [a|q k IH]; intros g; [done|]. cbn [compile exec]. rewrite run_bind.
  apply bind_cong; [apply run_perform|]. intros r g'. apply IH.
Qed.

(** ** Calls are atomic *)

(** A process in the middle of a program: in a call that has not acted yet, or at
    the end. *)
Inductive tracks g : Proc A → Prog A → Prop :=
| tracks_stop a : tracks g (Done a) (Stop a)
| tracks_call q k (p : Proc reply) :
    ¬ ended p → call p → (∀ h, same_flags g h → run p h = answer q h) →
    tracks g (r ← p; compile (k r)) (Call q k).

Lemma tracks_compile g c : tracks g (compile c) c.
Proof.
  destruct c as [a|q k]; [apply tracks_stop|]. apply (tracks_call g q k); [destruct q; cbn; tauto|apply perform_call|].
  intros h _. apply run_perform.
Qed.

Lemma tracks_flags g h p c : same_flags g h → tracks g p c → tracks h p c.
Proof.
  intros Hgh [a|q k p' H0 H1 H2]; constructor; try done. intros h' Hh'. apply H2. intros f. by rewrite (Hgh f).
Qed.

Lemma tracks_exec g p c : tracks g p c → run p g = exec c g.
Proof.
  intros [a|q k p' H0 H1 H2]; [done|]. rewrite run_bind. cbn [exec]. apply bind_cong; [by apply H2|].
  intros r h. apply run_compile.
Qed.

Lemma advance_bind {R} (p : Proc R) (c : R → Proc A) g p' g' :
  ¬ ended p → advance (p ≫= c) g p' g' → ∃ p1 : Proc R, advance p g p1 g' ∧ p' = p1 ≫= c.
Proof.
  destruct p as [r|f k|f b k|B m k|B body k]; cbn; [tauto|intros _..].
  - intros [-> ->]. by eexists.
  - intros [-> ->]. by eexists.
  - intros (b & E & -> & ->). eexists. split; [by exists b|done].
  - intros (b & E & ->). eexists. split; [by exists b|done].
Qed.

(** A step of a hart is a step of its call, or none. *)
Lemma advance_tracks p c g p' g' :
  tracks g p c → advance p g p' g' →
  same_flags g g'
  ∧ ((g' = g ∧ tracks g p' c)
     ∨ ∃ q k r, c = Call q k ∧ answer q g = Ret (r, g') ∧ tracks g' p' (k r)).
Proof.
  intros [a|q k p1 H0 H1 H2] H; [done|].
  apply advance_bind in H as (p2 & H & ->); [|done].
  pose proof (advance_run _ _ _ _ H) as Er. rewrite (H2 g) in Er by done.
  destruct (advance_call _ _ _ _ H1 H) as [Hf Hc]. split; [done|].
  assert (∀ r, p2 = Done r → answer q g = Ret (r, g')) as Ha by (intros r ->; by rewrite Er).
  destruct p2 as [r|f kk|f b kk|B m kk|B body kk].
  { right. exists q, k, r. split_and!; [done|by apply Ha|apply tracks_compile]. }
  all: destruct Hc as [?|(-> & Hc & He)]; [done|]; left; split; [done|]; apply tracks_call; [by intros ?|done|];
    intros h Hh; rewrite <-He by done; by apply H2.
Qed.

Lemma astep_tracks ps cs g ps' g' :
  Forall2 (tracks g) ps cs → astep (ps, g) (ps', g') →
  ∃ cs', rtc cstep (cs, g) (cs', g') ∧ Forall2 (tracks g') ps' cs'.
Proof.
  intros Ht (i & p & p' & Hi & H & ->)%astep_advance.
  destruct (Forall2_lookup_l _ _ _ _ _ Ht Hi) as (c & Hc & Hp).
  destruct (advance_tracks _ _ _ _ _ Hp H) as [Hf [[-> Hp']|(q & k & r & -> & E & Hp')]].
  - exists cs. split; [done|]. rewrite <-(list_insert_id cs i c) by done. by apply Forall2_insert.
  - exists (<[i := k r]> cs). split; [by eapply rtc_once, c_call|]. apply Forall2_insert; [|done].
    eapply Forall2_impl; [exact Ht|]. intros x y. by apply tracks_flags.
Qed.

Lemma asteps_tracks (a a' : list (Proc A) * GState) :
  rtc astep a a' → ∀ cs, Forall2 (tracks a.2) a.1 cs →
  ∃ cs', rtc cstep (cs, a.2) (cs', a'.2) ∧ Forall2 (tracks a'.2) a'.1 cs'.
Proof.
  induction 1 as [a|[ps g] [ps1 g1] a' H _ IH]; intros cs Ht; [by exists cs|].
  destruct (astep_tracks _ _ _ _ _ Ht H) as (cs1 & H1 & Ht1). destruct (IH cs1 Ht1) as (cs' & H2 & Ht2).
  exists cs'. split; [by etrans|done].
Qed.

(** Where the programs are when the machine is in some reachable state. *)
Lemma programs_reach cs g st :
  locked g = false → rtc fstep (Run <$> (compile <$> cs), g) st →
  ∃ a cs', sim st a ∧ rtc cstep (cs, g) (cs', a.2) ∧ Forall2 (tracks a.2) a.1 cs'.
Proof.
  intros Hl H.
  destruct (fsteps_sim _ _ (compile <$> cs, g) H (sim_free _ g Hl)) as (a & Ha & Hs).
  { apply Forall_fmap, Forall_true. intros c. apply compile_ok. }
  destruct (asteps_tracks _ _ Ha cs) as (cs' & Hc & Ht); [|by exists a, cs'].
  apply Forall2_fmap_l, Forall_Forall2_diag, Forall_true. intros c. apply tracks_compile.
Qed.

Lemma tracks_done g rs cs : Forall2 (tracks g) (Done <$> rs) cs → cs = Stop <$> rs.
Proof.
  revert cs. induction rs as [|a rs IH]; intros cs H; inversion H as [|? c ? cs' Hc Hcs]; subst; [done|].
  cbn. rewrite (IH _ Hcs). f_equal. inversion Hc as [|q k p H0 _ _ Ep]; [done|].
  by destruct p; [destruct H0|..].
Qed.

(** C9: Calls are atomic.  Any number of harts run programs that call [alloc],
    [alloc_aligned], [dealloc], [dealloc_safe], [stats], [integrity_check],
    [usage_summary], [is_initialized] and [is_enabled] and go on with the replies.
    However the machine interleaves their accesses to the flags and their
    sections, an execution in which all have ended is one in which each call is a
    single step with the effect and the reply of the sequential function, every
    hart making its calls in the order of its program. *)
Theorem calls_are_atomic cs g rs g' :
  locked g = false → rtc fstep (Run <$> (compile <$> cs), g) (Run <$> (Done <$> rs), g') →
  rtc cstep (cs, g) (Stop <$> rs, g').
Proof.
  intros Hl H. destruct (programs_reach _ _ _ Hl H) as (a & cs' & Hs & Hc & Ht).
  rewrite (sim_runs _ _ _ Hs) in *. by rewrite <-(tracks_done _ _ _ Ht).
Qed.

End machine.

(** ** Programs that own what they free *)

(** With [c] credits and the blocks [own] (their sizes by address) the program asks
    for whole words, frees only blocks it owns, and ends by telling what it
    owns.  A call costs what it takes from [byte_heap]. *)
Fixpoint well_behaved (c : Z) (own : gmap Z Z) (prog : Prog (gmap Z Z)) : Prop :=
  match prog with
  | Stop a => 0 ≤ c ∧ a = own
  | Call (Alloc n) k =>
      word_layout (mkLayout n 8) ∧ n + 144 ≤ c
      ∧ ∀ p, own !! p = None → well_behaved (c - n - 144) (<[p := n]> own) (k (Pointer (Some p)))
  | Call (AllocAligned n al) k =>
      word_layout (mkLayout n al) ∧ n + 144 ≤ c
      ∧ ∀ p, own !! p = None → well_behaved (c - n - 144) (<[p := n]> own) (k (Pointer (Some p)))
  | Call (Dealloc p) k =>
      is_Some (own !! p) ∧ 8 ≤ c ∧ well_behaved (c - 8) (delete p own) (k Unit)
  | Call (DeallocSafe p _) k =>
      is_Some (own !! p) ∧ 8 ≤ c ∧ well_behaved (c - 8) (delete p own) (k (Outcome (Ok tt)))
  | Call Stats k => ∀ st, well_behaved c own (k (Statistics (Some st)))
  | Call IntegrityCheck k => well_behaved c own (k (Outcome (Ok tt)))
  | Call UsageSummary k => ∀ s, well_behaved c own (k (Summary (Some s)))
  | Call IsInitialized k => well_behaved c own (k (Flag true))
  | Call IsEnabled k => well_behaved c own (k (Flag true))
  end.

Lemma word_layout_aligned n al : word_layout (mkLayout n al) → (n =? 0) = false ∧ is_power_of_two al = true.
Proof.
  intros (H1 & _ & H2). cbn in *. split; [lia|]. by destruct H2 as [->|[->|[->| ->]]].
Qed.

Lemma TS_alloc_byte_heap K F n al g :
  byte_heap K F g → word_layout (mkLayout n al) → n + 144 ≤ K →
  ∃ p v g', TS_alloc_aligned n al g = Ret (Some p, g') ∧ F !! p = None ∧ Z.of_nat (length v) = n
    ∧ byte_heap (K - n - 144) (<[p := v]> F) g'.
Proof.
  intros H Hl HK. destruct (alloc_byte_heap K F g (mkLayout n al) H Hl HK) as (p & v & g' & E & Hp & Hf & Hv & H').
  exists p, v, g'. split_and!; try done. unfold Global_alloc, mbind, M_bind, mret, M_ret in E. cbn [lsize lalign] in E.
  destruct (TS_alloc_aligned n al g) as [[[q|] g1]| | |]; try done; by injection E as <- <-.
Qed.

Lemma byte_heap_flags K F g : byte_heap K F g → initialized g = true ∧ enabled g = true ∧ locked g = false.
Proof. by intros (N & s & bs & ([Hl _ _] & _) & _ & _ & Hi & He & _). Qed.

Lemma byte_heap_reads K F g :
  byte_heap K F g →
  (∃ st, TS_stats g = Ret (Some st, g)) ∧ TS_integrity_check g = Ret (Ok tt, g).
Proof.
  intros (N & s & bs & (Hh & I & _) & _). split; [by eexists; apply TS_stats_run|].
  unfold TS_integrity_check. erewrite call_run; [|exact Hh|by eapply AllocOps.integrity_ok, I]. by rewrite put_id.
Qed.

(** Owned blocks do not overlap. *)
Lemma byte_heap_apart K F g p q v u :
  byte_heap K F g → F !! p = Some v → F !! q = Some u → p ≠ q →
  p + Z.of_nat (length v) ≤ q ∨ q + Z.of_nat (length u) ≤ p.
Proof.
  intros (N & s & bs & (_ & I & _) & _ & _ & _ & _ & B) Hp Hq Hne.
  destruct (bh_owned _ _ _ _ B p v Hp) as (k & Hk & Hv & _). destruct (bh_owned _ _ _ _ B q u Hq) as (m & Hm & Hu & _).
  destruct (used_ptrs_apart _ _ _ _ _ _ (wf_ok _ _ (proj1 I)) Hk Hm) as [[? _]|?]; [done|lia].
Qed.

(** What a call does to the blocks of its hart, as seen in the heap. *)
Inductive block_change (F : gmap Z (list Z)) (own : gmap Z Z) : gmap Z (list Z) → gmap Z Z → Prop :=
| change_none : block_change F own F own
| change_new p v :
    F !! p = None → block_change F own (<[p := v]> F) (<[p := Z.of_nat (length v)]> own)
| change_gone p :
    is_Some (own !! p) → block_change F own (delete p F) (delete p own).

(** The functions on an initialised and enabled allocator. *)
Lemma api_ready g :
  initialized g = true → enabled g = true →
  (∀ n, (n =? 0) = false → Api.alloc n g = TS_alloc_aligned n 8 g)
  ∧ (∀ n al, (n =? 0) = false → is_power_of_two al = true → Api.alloc_aligned n al g = TS_alloc_aligned n al g)
  ∧ (∀ p, p ≠ 0 → Api.dealloc p g = (TS_dealloc p;; mret tt) g)
  ∧ (∀ p n, p ≠ 0 → Api.dealloc_safe p n g = TS_dealloc p g)
  ∧ Api.stats g = TS_stats g ∧ Api.integrity_check g = TS_integrity_check g.
Proof.
  intros Hi He.
  unfold Api.alloc, Api.alloc_aligned, Api.dealloc, Api.dealloc_safe, Api.stats, Api.integrity_check,
    Api.is_initialized, Api.is_enabled, NonNull_new.
  split_and!; intros; mstep; rewrite Hi; cbn [negb]; try done.
  - mstep. rewrite He. cbn [negb]. by rewrite H.
  - mstep. rewrite He. cbn [negb]. by rewrite H, H0.
  - by rewrite (proj2 (Z.eqb_neq p 0)).
  - by rewrite (proj2 (Z.eqb_neq p 0)).
Qed.

Section owned.
Context (K : Z) (F : gmap Z (list Z)) (g : GState) (c : Z) (own : gmap Z Z) (k : reply → Prog (gmap Z Z)).
Context (Hb : byte_heap K F g) (HK : c ≤ K).
Context (Hown : ∀ p n, own !! p = Some n → ∃ v, F !! p = Some v ∧ Z.of_nat (length v) = n).

(** The call returns, and the program goes on with what is left to it. *)
Definition goes_on (m : M GState reply) : Prop :=
  ∃ r g' F' c' own', m g = Ret (r, g') ∧ well_behaved c' own' (k r)
    ∧ byte_heap (K - (c - c')) F' g' ∧ block_change F own F' own'.

Lemma goes_on_alloc n al m :
  word_layout (mkLayout n al) → n + 144 ≤ c →
  (∀ p, own !! p = None → well_behaved (c - n - 144) (<[p := n]> own) (k (Pointer (Some p)))) →
  m g = TS_alloc_aligned n al g → goes_on (r ← m; mret (Pointer r)).
Proof.
  intros Hl Hc Hk Em. destruct (TS_alloc_byte_heap K F n al g Hb Hl ltac:(lia)) as (p & v & g' & E & Hp & Hv & Hb').
  exists (Pointer (Some p)), g', (<[p := v]> F), (c - n - 144), (<[p := n]> own).
  split; [by mstep_with ltac:(rewrite Em; exact E)|]. split_and!.
  - apply Hk. destruct (own !! p) as [n'|] eqn:E'; [|done]. destruct (Hown p n' E') as (u & Hu & _). congruence.
  - by replace (K - (c - (c - n - 144))) with (K - n - 144) by lia.
  - rewrite <-Hv. by apply change_new.
Qed.

Lemma goes_on_dealloc p m r :
  is_Some (own !! p) → 8 ≤ c → well_behaved (c - 8) (delete p own) (k r) →
  (∀ g', p ≠ 0 → TS_dealloc p g = Ret (Ok tt, g') → m g = Ret (r, g')) → goes_on m.
Proof.
  intros Hp Hc Hk Em. assert (is_Some (F !! p)) as HF.
  { destruct Hp as [n Hn]. destruct (Hown p n Hn) as (v & Hv & _). by exists v. }
  destruct (TS_dealloc_byte_heap K F g p Hb HF ltac:(lia)) as (g' & H0 & E & Hb').
  exists r, g', (delete p F), (c - 8), (delete p own). split_and!; [by apply Em|done| |by apply change_gone].
  by replace (K - (c - (c - 8))) with (K - 8) by lia.
Qed.

Lemma goes_on_read m r : well_behaved c own (k r) → m g = Ret (r, g) → goes_on m.
Proof.
  intros Hk Em. exists r, g, F, c, own. split_and!; [done|done| |constructor].
  by replace (K - (c - c)) with K by lia.
Qed.

(** A call of a well-behaved program on a heap that holds its blocks. *)
Lemma goes_on_answer q : well_behaved c own (Call q k) → goes_on (answer q).
Proof.
  intros Hw. destruct (byte_heap_flags _ _ _ Hb) as (Hi & He & _).
  destruct (api_ready g Hi He) as (A1 & A2 & A3 & A4 & A5 & A6).
  destruct (byte_heap_reads _ _ _ Hb) as [[st Est] Eic].
  destruct q as [n|n al|p|p n| | | | |]; cbn [well_behaved] in Hw; unfold answer.
  - destruct Hw as (Hl & Hc & Hk). apply (goes_on_alloc n 8); [done..|]. by apply A1, (word_layout_aligned n 8).
  - destruct Hw as (Hl & Hc & Hk). apply (goes_on_alloc n al); [done..|]. by apply A2; apply (word_layout_aligned n al).
  - destruct Hw as (Hp & Hc & Hk). apply (goes_on_dealloc p _ Unit); [done..|]. intros g' H0 E.
    mstep_with ltac:(rewrite A3 by done; by mstep_with ltac:(exact E)). reflexivity.
  - destruct Hw as (Hp & Hc & Hk). apply (goes_on_dealloc p _ (Outcome (Ok tt))); [done..|]. intros g' H0 E.
    by mstep_with ltac:(rewrite A4 by done; exact E).
  - apply (goes_on_read _ _ (Hw st)). by mstep_with ltac:(rewrite A5; exact Est).
  - apply (goes_on_read _ _ Hw). by mstep_with ltac:(rewrite A6; exact Eic).
  - eapply goes_on_read; [apply Hw|]. unfold Api.usage_summary, mbind, M_bind. by rewrite A5, Est.
  - apply (goes_on_read _ _ Hw). unfold Api.is_initialized. mstep. by rewrite Hi.
  - apply (goes_on_read _ _ Hw). unfold Api.is_enabled. mstep. by rewrite He.
Qed.

End owned.

(** ** Programs that share the heap *)

(** The harts by the blocks they own and the credits they have. *)
Implicit Types (hs : list (gmap Z Z * Z)) (cs : list (Prog (gmap Z Z))) (F : gmap Z (list Z)).

Fixpoint credits hs : Z := match hs with [] => 0 | h :: hs => h.2 + credits hs end.

Lemma credits_insert hs i h h' : hs !! i = Some h → credits (<[i := h']> hs) = credits hs - h.2 + h'.2.
Proof.
  revert i. induction hs as [|h0 hs IH]; intros i Hi; [done|]. destruct i as [|i].
  - injection Hi as ->. cbn. lia.
  - change (<[S i := h']> (h0 :: hs)) with (h0 :: <[i := h']> hs). cbn [credits]. rewrite IH by done. lia.
Qed.

Lemma credits_le hs i h : Forall (λ h, 0 ≤ h.2) hs → hs !! i = Some h → h.2 ≤ credits hs.
Proof.
  assert (∀ hs, Forall (λ h, 0 ≤ h.2) hs → 0 ≤ credits hs) as H0 by (induction 1; cbn; lia).
  intros H Hi. specialize (H0 (<[i := (∅, 0)]> hs) ltac:(by apply Forall_insert)).
  rewrite (credits_insert _ _ h) in H0 by done. cbn in H0. lia.
Qed.

Lemma well_behaved_credit c own prog : well_behaved c own prog → 0 ≤ c.
Proof.
  revert c own. induction prog as [a|q k IH]; intros c own; [by intros [? _]|].
  destruct q; cbn [well_behaved].
  1,2: intros ((Hn & _) & ? & _); cbn in Hn; lia.
  1,2: intros (_ & ? & _); lia.
  - intros H. apply (IH _ _ _ (H (AllocStats.new 0))).
  - apply IH.
  - intros H. apply (IH _ _ _ (H (0, 0, 0))).
  - apply IH.
  - apply IH.
Qed.

(** Hart [i] owns the block of [n] bytes at [p]. *)
Definition owns hs i (p n : Z) : Prop := ∃ h, hs !! i = Some h ∧ h.1 !! p = Some n.

Lemma owns_here hs i own c p n : hs !! i = Some (own, c) → owns hs i p n ↔ own !! p = Some n.
Proof.
  intros Hi. split; [|intros H; by exists (own, c)]. intros (h & Hh & H). rewrite Hi in Hh. by injection Hh as <-.
Qed.

Lemma owns_insert hs i j h p n :
  is_Some (hs !! i) →
  owns (<[i := h]> hs) j p n ↔ (i = j ∧ h.1 !! p = Some n) ∨ (i ≠ j ∧ owns hs j p n).
Proof.
  intros Hi. unfold owns. destruct (decide (i = j)) as [<-|Hne].
  - rewrite list_lookup_insert_eq by (by apply lookup_lt_is_Some). split.
    + intros (h' & [= <-] & H). by left.
    + intros [[_ H]|[? _]]; [by exists h|done].
  - rewrite list_lookup_insert_ne by done. split; [by right|]. by intros [[? _]|[_ H]].
Qed.

(** The blocks [F] of the heap are the blocks [F0] from before and the blocks the
    harts own, each of one hart. *)
Record shared F0 F hs : Prop := {
  sh_kept : F0 ⊆ F;
  sh_owned : ∀ i p n, owns hs i p n → F0 !! p = None ∧ ∃ v, F !! p = Some v ∧ Z.of_nat (length v) = n;
  sh_apart : ∀ i j p n m, owns hs i p n → owns hs j p m → i = j;
  sh_all : ∀ p, is_Some (F !! p) → is_Some (F0 !! p) ∨ ∃ i n, owns hs i p n;
}.

Lemma shared_same F0 F hs i own c c' :
  shared F0 F hs → hs !! i = Some (own, c) → shared F0 F (<[i := (own, c')]> hs).
Proof.
  intros [S1 S2 S3 S4] Hi.
  assert (∀ j p n, owns (<[i := (own, c')]> hs) j p n ↔ owns hs j p n) as Ho.
  { intros j p n. rewrite owns_insert by (by eexists). cbn. rewrite <-(owns_here hs i own c p n Hi).
    destruct (decide (i = j)) as [<-|]; intuition congruence. }
  split; [done| | |].
  - intros j p n. rewrite Ho. apply S2.
  - intros j j' p n m. rewrite !Ho. apply S3.
  - intros p [?|(j & n & H)]%S4; [by left|right]. exists j, n. by rewrite Ho.
Qed.

Lemma shared_new F0 F hs i own c c' p v :
  shared F0 F hs → hs !! i = Some (own, c) → F !! p = None →
  shared F0 (<[p := v]> F) (<[i := (<[p := Z.of_nat (length v)]> own, c')]> hs).
Proof.
  intros [S1 S2 S3 S4] Hi Hp. set (hs' := <[i := _]> hs).
  assert (∀ j q n, owns hs' j q n ↔ (q = p ∧ j = i ∧ n = Z.of_nat (length v)) ∨ (q ≠ p ∧ owns hs j q n)) as Ho.
  { intros j q n. unfold hs'. rewrite owns_insert by (by eexists). cbn. pose proof (owns_here hs i own c q n Hi) as Hh.
    assert (∀ j n, ¬ owns hs j p n) as Hno by (intros j' n' (_ & u & Hu & _)%S2; congruence).
    clear S1 S2 S3 S4 Hi hs'.
    destruct (decide (q = p)) as [->|Hne].
    - rewrite lookup_insert_eq. split; [intros [[<- [= <-]]|[_ []%Hno]]; by left|].
      intros [(_ & -> & ->)|[? _]]; [by left|done].
    - rewrite lookup_insert_ne, <-Hh by done. destruct (decide (i = j)) as [<-|]; intuition congruence. }
  split.
  - apply insert_subseteq_r; [|done]. by eapply lookup_weaken_None.
  - intros j q n [(-> & -> & ->)|[Hne H]]%Ho.
    + split; [by eapply lookup_weaken_None|]. exists v. by rewrite lookup_insert_eq.
    + rewrite lookup_insert_ne by done. by apply (S2 j).
  - intros j j' q n m [(-> & -> & _)|[Hne H]]%Ho [(? & -> & _)|[? H']]%Ho; try done. by eapply S3.
  - intros q. destruct (decide (q = p)) as [->|Hne].
    + intros _. right. exists i, (Z.of_nat (length v)). apply Ho. by left.
    + rewrite lookup_insert_ne by done. intros [?|(j & n & H)]%S4; [by left|right]. exists j, n. apply Ho. by right.
Qed.

Lemma shared_gone F0 F hs i own c c' p :
  shared F0 F hs → hs !! i = Some (own, c) → is_Some (own !! p) →
  shared F0 (delete p F) (<[i := (delete p own, c')]> hs).
Proof.
  intros [S1 S2 S3 S4] Hi [k Hp]. set (hs' := <[i := _]> hs).
  assert (owns hs i p k) as Hk by (by apply (owns_here hs i own c)).
  assert (∀ j q n, owns hs' j q n ↔ q ≠ p ∧ owns hs j q n) as Ho.
  { intros j q n. unfold hs'. rewrite owns_insert by (by eexists). cbn. pose proof (owns_here hs i own c q n Hi) as Hh.
    assert (∀ j n, owns hs j p n → i = j) as Hone by (intros j' n'; by apply (S3 i j' p k n')).
    clear S1 S2 S3 S4 Hi hs'.
    destruct (decide (q = p)) as [->|Hne].
    - rewrite lookup_delete_eq. split; [intros [[_ ?]|[Hne ?%Hone]]; done|by intros [? _]].
    - rewrite lookup_delete_ne, <-Hh by done. destruct (decide (i = j)) as [<-|]; intuition congruence. }
  split.
  - apply map_subseteq_spec. intros q v Hq. rewrite lookup_delete_ne; [by eapply lookup_weaken|].
    intros ->. destruct (S2 _ _ _ Hk) as [? _]. congruence.
  - intros j q n [Hne H]%Ho. rewrite lookup_delete_ne by done. by apply (S2 j).
  - intros j j' q n m [_ H]%Ho [_ H']%Ho. by eapply S3.
  - intros q. destruct (decide (q = p)) as [->|Hne]; [by rewrite lookup_delete_eq; intros []|].
    rewrite lookup_delete_ne by done. intros [?|(j & n & H)]%S4; [by left|right]. exists j, n. by apply Ho.
Qed.

Lemma shared_change F0 F hs i own c F' own' c' :
  shared F0 F hs → hs !! i = Some (own, c) → block_change F own F' own' →
  shared F0 F' (<[i := (own', c')]> hs).
Proof. intros H Hi []; [by eapply shared_same|by eapply shared_new|by eapply shared_gone]. Qed.

(** The state of the machine of whole calls. *)
Definition sharing F0 hs cs (g : GState) : Prop :=
  Forall2 (λ h prog, well_behaved h.2 h.1 prog) hs cs
  ∧ ∃ K F, byte_heap K F g ∧ credits hs ≤ K ∧ shared F0 F hs.

Lemma sharing_call F0 hs cs g i q k :
  sharing F0 hs cs g → cs !! i = Some (Call q k) →
  ∃ r g' h', answer q g = Ret (r, g') ∧ sharing F0 (<[i := h']> hs) (<[i := k r]> cs) g'.
Proof.
  intros (Hw & K & F & Hb & HK & Hs) Hi.
  destruct (Forall2_lookup_r _ _ _ _ _ Hw Hi) as ([own c] & Hh & Hq). cbn in Hq.
  assert (c ≤ credits hs) as Hc.
  { apply (credits_le hs i (own, c)); [|done]. apply Forall_forall. intros h (j & Hj)%list_elem_of_lookup.
    destruct (Forall2_lookup_l _ _ _ _ _ Hw Hj) as (prog & _ & H). by eapply well_behaved_credit. }
  destruct (goes_on_answer K F g c own k Hb ltac:(lia)) with (q := q) as (r & g' & F' & c' & own' & E & Hk & Hb' & Hch).
  { intros p n Hp. by apply (sh_owned _ _ _ Hs i p n), (owns_here hs i own c). }
  { exact Hq. }
  exists r, g', (own', c'). split; [done|]. split; [by apply Forall2_insert|].
  exists (K - (c - c')), F'. split_and!; [done| |by eapply shared_change].
  rewrite (credits_insert _ _ (own, c)) by done. cbn. lia.
Qed.

Lemma sharing_csteps F0 (a a' : list (Prog (gmap Z Z)) * GState) :
  rtc cstep a a' → ∀ hs, sharing F0 hs a.1 a.2 → ∃ hs', sharing F0 hs' a'.1 a'.2.
Proof.
  induction 1 as [a|a a1 a' H _ IH]; intros hs Hs; [by exists hs|].
  destruct H as [cs g i q k r g1 Hi E]. destruct (sharing_call _ _ _ _ _ _ _ Hs Hi) as (r' & g' & h' & E' & Hs').
  cbn in E'. rewrite E in E'. injection E' as <- <-. by eapply IH.
Qed.

(** A program that is left alone ends. *)
Lemma sharing_exec F0 prog : ∀ hs cs g i,
  sharing F0 hs cs g → cs !! i = Some prog →
  ∃ a g' hs', exec prog g = Ret (a, g') ∧ sharing F0 hs' (<[i := Stop a]> cs) g'.
Proof.
  induction prog as [a|q k IH]; intros hs cs g i Hs Hi.
  { exists a, g, hs. split; [done|]. by rewrite list_insert_id. }
  destruct (sharing_call _ _ _ _ _ _ _ Hs Hi) as (r & g1 & h1 & E & Hs1).
  destruct (IH r _ _ g1 i Hs1) as (a & g' & hs' & E' & Hs').
  { apply list_lookup_insert_eq. by eapply lookup_lt_Some. }
  exists a, g', hs'. split; [cbn [exec]; by mstep_with ltac:(exact E)|]. by rewrite list_insert_insert_eq in Hs'.
Qed.

Lemma sharing_flags F0 hs cs g : sharing F0 hs cs g → locked g = false ∧ ∀ f, get_flag f g = true.
Proof. intros (_ & K & F & Hb & _). destruct (byte_heap_flags _ _ _ Hb) as (? & ? & ?). split; [done|by intros []]. Qed.

Lemma programs_finish F0 qs ds : ∀ hs rs g,
  Forall2 (tracks g) qs ds → sharing F0 hs ((Stop <$> rs) ++ ds) g →
  ∃ rs' g', rtc astep ((Done <$> rs) ++ qs, g) (Done <$> rs', g').
Proof.
  revert ds. induction qs as [|p qs IH]; intros ds hs rs g Ht Hs; inversion Ht as [|? prog ? ds' Hp Hq]; subst.
  { exists rs, g. by rewrite app_nil_r. }
  assert (∀ {T} (x : T) xs l, length l = length rs → (l ++ x :: xs) !! length rs = Some x) as Hat
    by (intros T x xs l <-; by rewrite lookup_app_r, Nat.sub_diag).
  assert (∀ {T} (x y : T) xs l, length l = length rs → <[length rs := y]> (l ++ x :: xs) = (l ++ [y]) ++ xs) as Hput
    by (intros T x y xs l <-; by rewrite insert_app_r_alt, Nat.sub_diag, <-app_assoc).
  destruct (sharing_exec F0 prog _ _ g (length rs) Hs) as (a & g1 & hs1 & E & Hs1); [apply Hat, length_fmap|].
  rewrite Hput in Hs1 by apply length_fmap. change [Stop a] with (Stop <$> [a]) in Hs1. rewrite <-fmap_app in Hs1.
  destruct (IH ds' hs1 (rs ++ [a]) g1) as (rs' & g' & H'); [|exact Hs1|].
  { eapply Forall2_impl; [exact Hq|]. intros x y. apply tracks_flags. intros f.
    rewrite (proj2 (sharing_flags _ _ _ _ Hs) f). by rewrite (proj2 (sharing_flags _ _ _ _ Hs1) f). }
  exists rs', g'. etrans; [|exact H']. rewrite fmap_app. cbn [fmap list_fmap].
  erewrite <-Hput by apply length_fmap. eapply run_asteps; [apply Hat, length_fmap|].
  by rewrite (tracks_exec _ _ _ Hp).
Qed.

Lemma sharing_start K F budgets cs g :
  byte_heap K F g → Forall2 (λ c prog, well_behaved c ∅ prog) budgets cs →
  credits ((λ c, (∅, c)) <$> budgets) ≤ K →
  sharing F ((λ c, (∅, c)) <$> budgets) cs g.
Proof.
  intros Hb Hw HK. split; [by apply Forall2_fmap_l|]. exists K, F. split_and!; [done|done|].
  assert (∀ i p n, ¬ owns ((λ c, (∅, c)) <$> budgets) i p n) as Ho.
  { intros i p n (h & Hh & H). rewrite list_lookup_fmap in Hh. apply fmap_Some in Hh as (c & _ & ->). done. }
  split; [done| | |].
  - by intros i p n ?%Ho.
  - by intros i j p n m ?%Ho.
  - by left.
Qed.

(** C10: Harts never share memory.  Harts run programs that ask for whole words and
    free only blocks they own, on a heap of whole-word blocks with room for all
    that the programs ask for.  In every execution in which the
    programs have ended, the blocks in use are those from before, with their
    bytes, and those the programs own, of the sizes they asked for; no two of
    these overlap, and the heap is in order. *)
Theorem programs_own_their_blocks K F budgets cs g owned g' :
  byte_heap K F g → Forall2 (λ c prog, well_behaved c ∅ prog) budgets cs →
  credits ((λ c, (∅, c)) <$> budgets) ≤ K →
  rtc fstep (Run <$> (compile <$> cs), g) (Run <$> (Done <$> owned), g') →
  ∃ K' F', byte_heap K' F' g' ∧ F ⊆ F'
    ∧ (∀ i own p n, owned !! i = Some own → own !! p = Some n →
         F !! p = None ∧ ∃ v, F' !! p = Some v ∧ Z.of_nat (length v) = n)
    ∧ (∀ p, is_Some (F' !! p) → is_Some (F !! p) ∨ ∃ i own, owned !! i = Some own ∧ is_Some (own !! p))
    ∧ ∀ i j own own' p q n m, owned !! i = Some own → owned !! j = Some own' →
        own !! p = Some n → own' !! q = Some m → i ≠ j ∨ p ≠ q → p + n ≤ q ∨ q + m ≤ p.
Proof.
  intros Hb Hw HK H. pose proof (sharing_start K F budgets cs g Hb Hw HK) as Hs.
  destruct (programs_reach _ _ _ (proj1 (sharing_flags _ _ _ _ Hs)) H) as (a & cs' & Hsim & Hc & Ht).
  rewrite (sim_runs _ _ _ Hsim) in *. cbn [fst snd] in *. rewrite (tracks_done _ _ _ Ht) in Hc.
  destruct (sharing_csteps F _ _ Hc _ Hs) as (hs & Hend & K' & F' & Hb' & _ & [S1 S2 S3 S4]). cbn in *.
  assert (∀ i own p n, owned !! i = Some own → own !! p = Some n ↔ owns hs i p n) as Ho.
  { intros i own p n Hi. destruct (Forall2_lookup_r _ _ _ i (Stop own) Hend) as ([own' c] & Hh & _ & E).
    { by rewrite list_lookup_fmap, Hi. }
    cbn in E. subst own'. by rewrite (owns_here hs i own c). }
  exists K', F'. split_and!; [done|done| | |].
  - intros i own p n Hi Hp. by apply (S2 i), (Ho i own).
  - intros p [?|(i & n & Hi)]%S4; [by left|right]. pose proof Hi as (h & Hh & _).
    destruct (Forall2_lookup_l _ _ _ _ _ Hend Hh) as (prog & Hp & _). rewrite list_lookup_fmap in Hp.
    apply fmap_Some in Hp as (own & Hown & _). exists i, own. split; [done|]. exists n. by apply (Ho i own).
  - intros i j own own' p q n m Hi Hj Hp%(Ho i own) Hq%(Ho j own') Hne; [|done..].
    destruct (S2 _ _ _ Hp) as (_ & v & Hv & <-). destruct (S2 _ _ _ Hq) as (_ & u & Hu & <-).
    apply (byte_heap_apart K' F' g'); [done..|]. intros ->. destruct Hne as [Hne|]; [|done]. by apply Hne, (S3 i j q _ _ Hp Hq).
Qed.

Lemma programs_end K F budgets cs g st :
  byte_heap K F g → Forall2 (λ c prog, well_behaved c ∅ prog) budgets cs →
  credits ((λ c, (∅, c)) <$> budgets) ≤ K →
  rtc fstep (Run <$> (compile <$> cs), g) st →
  ∃ owned g', rtc fstep st (Run <$> (Done <$> owned), g').
Proof.
  intros Hb Hw HK H. pose proof (sharing_start K F budgets cs g Hb Hw HK) as Hs.
  destruct (programs_reach _ _ _ (proj1 (sharing_flags _ _ _ _ Hs)) H) as (a & cs' & Hsim & Hc & Ht).
  destruct (sharing_csteps F _ _ Hc _ Hs) as (hs & Hs'). cbn in Hs'.
  destruct (sim_unlocks _ _ Hsim) as (ps & g1 & H1 & Ha).
  { intros i p Hi. destruct (Forall2_lookup_l _ _ _ _ _ Ht Hi) as (prog & Hi' & Hp).
    destruct (sharing_exec F prog _ _ _ i Hs' Hi') as (r & g1 & _ & E & _). exists r, g1.
    by rewrite (tracks_exec _ _ _ Hp). }
  destruct (asteps_tracks _ _ Ha cs' Ht) as (cs1 & Hc1 & Ht1). cbn in *.
  destruct (sharing_csteps F _ _ Hc1 _ Hs') as (hs1 & Hs1). cbn in Hs1.
  destruct (programs_finish F ps cs1 hs1 [] g1 Ht1 Hs1) as (rs & g' & Hend). exists rs, g'.
  etrans; [exact H1|]. apply (asteps_fsteps (ps, g1) (_, g')); [exact Hend|by eapply sharing_flags].
Qed.

(** C11: Harts never block each other for good: from every state that the programs of
    well-behaved harts can reach, with the lock held or not, they can go on until
    all have ended. *)
Theorem programs_return K F budgets cs g st :
  byte_heap K F g → Forall2 (λ c prog, well_behaved c ∅ prog) budgets cs →
  credits ((λ c, (∅, c)) <$> budgets) ≤ K →
  rtc fstep (Run <$> (compile <$> cs), g) st →
  ∃ owned g', rtc fstep st (Run <$> (Done <$> owned), g').
Proof. apply programs_end. Qed.

End programs.

(** ** Switching the allocator off *)

(** The functions that write the flags are not atomic towards the others: a call
    that has read the flags is let through by a [disable] that returns before the
    call takes the lock.  Here statistics read after the allocator was switched
    off show the heap as it was, and then a block is handed out. *)
Theorem disable_lets_calls_through {P : Profile} K F g n :
  byte_heap K F g → word_layout (mkLayout n 8) → n + 144 ≤ K →
  ∃ p st g', rtc fstep
      (Run <$> [r ← HartApi.alloc n; mret (Pointer r);
                HartApi.disable;; r ← HartApi.stats; mret (Statistics r)], g)
      (Run <$> [Done (Pointer (Some p)); Done (Statistics (Some st))], g')
    ∧ Api.stats g = Ret (Some st, g) ∧ enabled g' = false
    ∧ F !! p = None ∧ ∃ v, byte_heap (K - n - 144) (<[p := v]> F) (set_enabled true g').
Proof.
  intros Hb Hl HK. destruct (byte_heap_flags _ _ _ Hb) as (Hi & He & Hlk).
  destruct (TS_alloc_byte_heap K F n 8 g Hb Hl HK) as (p & v & g1 & E & Hp & Hv & Hb1).
  destruct (byte_heap_reads _ _ _ Hb) as [[st Est] _].
  destruct (byte_heap_flags _ _ _ Hb1) as (_ & He1 & _). destruct (word_layout_aligned _ _ Hl) as [Hn _].
  assert (confined (TS_alloc_aligned n 8)) as C1 by (unfold TS_alloc_aligned; confine).
  assert (confined TS_stats) as C2 by (unfold TS_stats; confine).
  pose proof (cf_flags _ C1 ENABLED false g) as E1. rewrite E in E1.
  pose proof (cf_flags _ C2 ENABLED false g) as E2. rewrite Est in E2.
  exists p, st, (set_flag ENABLED false g1). split; [|split_and!].
  - eapply (asteps_fsteps (_, g) ([Done (Pointer (Some p)); Done (Statistics (Some st))], _)); [|done].
    eapply rtc_l; [by apply (a_load _ _ 0%nat)|]. cbn [get_flag]. rewrite Hi. cbn.
    eapply rtc_l; [by apply (a_load _ _ 0%nat)|]. cbn [get_flag]. rewrite He, Hn. cbn.
    eapply rtc_l; [by apply (a_store _ _ 1%nat)|]. eapply rtc_l; [by apply (a_load _ _ 1%nat)|].
    change (get_flag INITIALIZED (set_flag ENABLED false g)) with (initialized g). rewrite Hi. cbn.
    eapply rtc_l; [eapply (a_locked _ _ 1%nat); [done|exact E2]|].
    eapply rtc_l; [eapply (a_locked _ _ 0%nat); [done|exact E1]|]. apply rtc_refl.
  - destruct (api_ready g Hi He) as (_ & _ & _ & _ & -> & _). exact Est.
  - done.
  - done.
  - exists v. cbn. replace (set_enabled true (set_enabled false g1)) with g1; [done|]. destruct g1. cbn in *. by subst.
Qed.

(** ** Witnesses *)

Module ProgDemo.

(** The first hart frees what it allocated, the second keeps a block. *)
Definition transient : Prog (gmap Z Z) :=
  Call (Alloc 32) (λ r, match r with
                        | Pointer (Some p) => Call (Dealloc p) (λ _, Stop ∅)
                        | _ => Stop ∅
                        end).
Definition keeper (n : Z) : Prog (gmap Z Z) :=
  Call (AllocAligned n 8) (λ r, match r with
                                | Pointer (Some p) => Call IntegrityCheck (λ _, Stop {[p := n]})
                                | _ => Stop ∅
                                end).
Definition progs : list (Prog (gmap Z Z)) := [transient; keeper 64; keeper 16].

Lemma word n : n ∈ [16; 32; 64] → word_layout (mkLayout n 8).
Proof. intros H. repeat (apply elem_of_cons in H as [->|H]; [split_and!; [by_eval|by_eval|cbn; tauto]|]). by apply not_elem_of_nil in H. Qed.

Lemma progs_ok : Forall2 (λ c prog, well_behaved c ∅ prog) [184; 208; 160] progs.
Proof.
  apply Forall2_cons_2; [|apply Forall2_cons_2; [|apply Forall2_cons_2; [|apply Forall2_nil_2]]]; cbn [well_behaved transient keeper].
  - split; [apply word; set_solver|]. split; [by_eval|]. intros p _. rewrite lookup_insert_eq.
    split; [by eexists|]. split; [by_eval|]. split; [by_eval|]. by rewrite delete_insert_id.
  - split; [apply word; set_solver|]. split; [by_eval|]. intros p _. split; [by_eval|done].
  - split; [apply word; set_solver|]. split; [by_eval|]. intros p _. split; [by_eval|done].
Qed.

Lemma heap : ∃ g, byte_heap 65488 ∅ g.
Proof.
  destruct (init_byte_heap (P := Dev) (mkG false None false true (mkMachine ∅ 0) 0 0) 2151677952 65536)
    as (g & _ & H); [reflexivity..|split; by_eval|by_eval|split_and!; by_eval|by_eval|by_eval|by_eval|].
  by exists g.
Qed.

End ProgDemo.

Lemma calls_are_atomic_witness :
  ∃ g owned g', byte_heap 65488 ∅ g ∧ rtc (cstep (P := Dev)) (ProgDemo.progs, g) (Stop <$> owned, g').
Proof.
  destruct ProgDemo.heap as (g & Hb).
  destruct (programs_end (P := Dev) 65488 ∅ _ ProgDemo.progs g _ Hb ProgDemo.progs_ok ltac:(by_eval) (rtc_refl _ _))
    as (owned & g' & H).
  exists g, owned, g'. split; [exact Hb|].
  exact (calls_are_atomic (P := Dev) ProgDemo.progs g owned g' (proj2 (proj2 (byte_heap_flags _ _ _ Hb))) H).
Defined.

Lemma programs_own_their_blocks_witness :
  ∃ g owned g' K' F', byte_heap 65488 ∅ g ∧ rtc fstep (Run <$> (compile (P := Dev) <$> ProgDemo.progs), g) (Run <$> (Done <$> owned), g')
    ∧ length owned = 3%nat ∧ byte_heap K' F' g'.
Proof.
  destruct ProgDemo.heap as (g & Hb).
  destruct (programs_end (P := Dev) 65488 ∅ _ ProgDemo.progs g _ Hb ProgDemo.progs_ok ltac:(by_eval) (rtc_refl _ _))
    as (owned & g' & H).
  destruct (programs_own_their_blocks (P := Dev) 65488 ∅ _ ProgDemo.progs g owned g' Hb ProgDemo.progs_ok ltac:(by_eval) H)
    as (K' & F' & Hb' & _).
  exists g, owned, g', K', F'. split; [exact Hb|]. split; [exact H|]. split; [|exact Hb'].
  pose proof (fsteps_length _ _ H) as Hlen. cbn in Hlen. by rewrite !length_fmap in Hlen.
Defined.

Lemma programs_return_witness :
  ∃ g owned g', byte_heap 65488 ∅ g
    ∧ rtc fstep (Run <$> (compile (P := Dev) <$> ProgDemo.progs), g) (Run <$> (Done <$> owned), g').
Proof.
  destruct ProgDemo.heap as (g & Hb).
  destruct (programs_return (P := Dev) 65488 ∅ _ ProgDemo.progs g _ Hb ProgDemo.progs_ok ltac:(by_eval) (rtc_refl _ _))
    as (owned & g' & H).
  exists g, owned, g'. split; [exact Hb|exact H].
Defined.

Lemma disable_lets_calls_through_witness :
  ∃ g p st g', byte_heap 65488 ∅ g ∧ rtc fstep
      (Run <$> [r ← HartApi.alloc (P := Dev) 32; mret (Pointer r);
                HartApi.disable;; r ← HartApi.stats; mret (Statistics r)], g)
      (Run <$> [Done (Pointer (Some p)); Done (Statistics (Some st))], g') ∧ enabled g' = false.
Proof.
  destruct ProgDemo.heap as (g & Hb).
  destruct (disable_lets_calls_through (P := Dev) 65488 ∅ g 32 Hb (ProgDemo.word 32 ltac:(set_solver)) ltac:(by_eval))
    as (p & st & g' & H & _ & He & _).
  exists g, p, st, g'. split; [exact Hb|]. split; [exact H|exact He].
Defined.
